(* ===== verification/_CoqProject ===== *)
-Q . S2P
Prelude.v
GoStrings.v
Paths.v
Disk.v
Base64.v
Netutil.v
ConnLimiter.v
PanelTypes.v
OnlineRegistry.v
Json5.v
LogHook.v
Conf.v
Machine.v
Watch.v
Limiter.v
Slots.v
Rate.v
TrafficCounter.v
CoreApi.v
Task.v
PanelUser.v
PanelNode.v
Hy2.v
Hy2Config.v
Hy2Core.v
Sing.v
Geo.v
SingNode.v
SingTyped.v
Selector.v
Split.v
Server.v
XrayFormats.v
XrayInbound.v
Xray.v
XrayCore.v
Cores.v
Dispatcher.v
Dispatch.v
Report.v
Controller.v
Fleet.v
Reload.v
Connections.v
Transfers.v
HookRace.v
Certificates.v
Aes.v
Commands.v
CommandLine.v
