(* ===== verification/Prelude.v ===== *)
(** * The V2bX node server (module github.com/InazumaV/V2bX), modelled in Rocq

    V2bX serves the nodes of a V2board panel.  One process reads a configuration, starts one
    controller per node, and every controller asks the panel what its node is and who may use
    it, sets up an inbound in one of three proxy cores (xray, sing-box, hysteria2), limits what
    users may do with it, counts what they transfer, and reports that to the panel.

      configuration (conf) --> server process (cmd) --> controllers (node)
           panel (api/panel)  <-- the controllers -->  the selector of cores (core)
                                       |                 |      |      |
                                    limiter  <------   xray  sing-box  hysteria2

    The controllers and the cores share the limiters (one per node, found by its tag) and the
    traffic counters; the panel and the cores do not know each other.

    ** Conventions

    A Go function is a function here, with the state it changes as an argument and a result.
    An [error] that is returned is a value of [result], or an [option string]; a panic is
    [None] ([panic]).  Machine integers are [Z] with [wrap64] or [wrapu64] where a result can
    leave the range, times are nanoseconds.  Code the repository does not contain (the cores'
    libraries, JSON, HTTP, the operating system, token buckets, regular expressions) is a
    parameter: a type class of its operations, or a variable of a section; what a theorem needs
    of it is a named hypothesis, and a witness shows an instance.  A [sync.Mutex] makes an
    operation one step.  Where the order of steps matters, the model is a step relation
    (Task, ConnLimiter, TrafficCounter, Watch, OnlineRegistry, Fleet, HookRace).

    ** The files

    The ground:
    - Prelude: integers, time, results, lists, maps; the hint database [yabx].
    - GoStrings, Paths, Disk, Base64: what the program uses of strings, strconv, path,
      path/filepath, os, encoding/base64 and encoding/hex.

    Users and limits:
    - Netutil: common/netutil, common/format: the keys of users and devices.
    - ConnLimiter: limiter/conn.go.  [AddConnCount] and [DelConnCount] are steps of a system
      with the connections that are open.
    - OnlineRegistry: limiter/online_registry.go.
    - Limiter: limiter/limiter.go, dynamic.go, rule.go, clear.go: [CheckLimit], [UpdateUser]
      and the registry of limiters by tag.
    - Slots, Rate: what a connection holds of them; common/rate and dispatcher/stats.go.
    - TrafficCounter: common/counter, with the accesses of concurrent connections.

    The panel:
    - PanelTypes, PanelUser, PanelNode: api/panel (panel.go, user.go, utils.go, node.go).
    - Report: the lists node/user.go computes.

    The cores:
    - CoreApi: core/interface.go, the interface between the controllers and the cores, with
      the laws of traffic ([TrafficLaws]) each core proves and the controllers rely on, and
      [TrafficLocal], which several controllers on one core need besides.
    - Selector: core/core.go, selector.go, itself an instance of the interface.
    - Xray, XrayCore, XrayFormats, XrayInbound: core/xray.  Dispatcher, Dispatch:
      core/xray/app/dispatcher, its parts and the whole life of a connection.
    - Sing, SingNode, SingTyped: core/sing.
    - Hy2, Hy2Config, Hy2Core, Geo: core/hy2.
    - Cores: core/sing/sing.go, and the three cores as they are registered (core/imports).

    The node and the process:
    - Task: common/task.  Controller: node (controller.go, task.go, user.go, online.go, node.go).
      Certificates: node/cert.go, lego.go.
    - Fleet: several controllers on one core, with the limiters, as one step relation, and
      the ledger it refines.  Reload: a change of a node of the hysteria2 core.
      Connections, Transfers: the connections of the cores as steps of a fleet.
    - HookRace: the hooks of sing-box and hysteria2 when the first connections of a node come
      together.
    - Json5, Conf, Watch: common/json5, conf.
    - Server, Split, Machine, LogHook, Commands, CommandLine: cmd, common/sysmem, startlock,
      loghook, exec, serverstatus, crypt/x25519.go, and the commands.
    - Aes: common/crypt/aes.go, which nothing uses.

    ** What is shown

    - Traffic: a byte is counted once and drawn from its user's bucket (Dispatcher), counters
      read by swapping lose nothing (TrafficCounter), a report is applied at most once
      (PanelUser), and what a report charges and what the core still counts make up what there
      was (Controller); the selector and each core prove the laws this rests on.
      For any number of controllers, in any order of their tasks, the books balance (Fleet),
      and the connections of all three cores are part of that (Connections, Transfers).  A
      reload of a hysteria2 node is not, and loses traffic (Reload), and so can the first
      connections of a node (HookRace).
    - Limits: the exact verdict of a check (Limiter), the bound on open connections
      (ConnLimiter), slots that are given back, whatever is sniffed and however a connection
      ends (Dispatcher, Dispatch), one bucket per user, rules that judge the target that is
      dialled (Dispatch), and the registry of devices that are online (OnlineRegistry).
    - The panel: which node and routes its answers come to (PanelNode), that the limiter
      follows its users (Limiter, and Controller for the whole round), online payloads (Report).
    - The cores: the inbound each kind of node gets (XrayInbound, SingNode), the rewriting of
      texts (XrayFormats), the outbound of a connection (Dispatcher, XrayCore), the choice of
      the core (Selector) and that every type of node has one (Cores), the settings of
      hysteria2 (Hy2Config), its sockets and masquerades, and that its core refines the one
      the controllers see (Hy2Core); the types of sing-box inbounds, and that well typed calls
      do not panic (SingTyped).
    - The process: tasks that neither overlap nor die (Task), intervals (Controller), reloading
      (Watch, Server), certificates that are requested once and renewed in time (Certificates),
      the memory limit and the start lock (Machine), log entries (LogHook), split
      configurations (Split), databases that survive a failed download (Geo).

    Theorems that end a component's list in its file and are named after a defect state what
    the code does where that is not what it means to do.

    ** Fuel

    Loops of the source that are not structural take a fuel.  Json5 runs on the length of the
    buffer plus two ([prep_total]); [decodeAliveMap] on [decode_fuel], three times the length of
    the body ([decode_alive_total]); [up_loop] on the length of the path ([budget_tightest]);
    [acquire_loop] on the number of polls that fit in the time to wait ([acquire_ends]);
    [trim_runes] and [break_lines] on the length of the text, which they shorten at each step.

    ** Not modelled

    - third_party (qpack, reality, a modified sing-box) and every other library: parameters.
    - core/xray/distro and main.go are imports and a call; config.pb.go is generated; the
      command line itself is cobra.
    - Logging, except which entries LogHook lets through, the notices of XrayCore and the lines
      of the hysteria2 server.
    - The jitter of a task's delay ([nextDelay]), which is floating point: a delay plays no part
      in Task.
    - Systems other than Linux; permissions and handles of files.
    - The operations of one controller are atomic: the race between a reload and a running
      report is an order of whole methods.  The connections of one user in a limiter are steps
      of whole operations.
    - Panics end the process; the recovery of net/http handlers is left out.

    ** Left to do

    - The monitor of a node as a step of the fleet: it changes the tag and the users, which the
      steps of Fleet keep. *)

From Stdlib Require Export ZArith Lia String Ascii.
From stdpp Require Export base gmap strings list sorting fin_maps pretty.
From stdpp Require Export well_founded.

#[export] Set Default Goal Selector "!".

Declare Scope yabx_scope.
Delimit Scope yabx_scope with yabx.

#[local] Open Scope Z_scope.

(** * Machine integers

    Go's [int] and [int64] are 64 bits wide on the targets considered here.
    [wrap64] is the two's complement reduction every Go operation performs; an
    operation whose result could leave the range is written with it. *)

Definition int64_min : Z := - 2 ^ 63.
Definition int64_max : Z := 2 ^ 63 - 1.
Definition in_int64 (z : Z) : Prop := int64_min ≤ z ≤ int64_max.
Definition wrap64 (z : Z) : Z := (z + 2 ^ 63) mod 2 ^ 64 - 2 ^ 63.
Definition wrapu64 (z : Z) : Z := z mod 2 ^ 64.

Lemma wrap64_range z : in_int64 (wrap64 z).
Proof.
  unfold in_int64, int64_min, int64_max, wrap64.
  pose proof (Z.mod_pos_bound (z + 2 ^ 63) (2 ^ 64) ltac:(lia)). lia.
Qed.

Lemma wrap64_id z : in_int64 z → wrap64 z = z.
Proof.
  unfold in_int64, int64_min, int64_max, wrap64. intros ?.
  rewrite Z.mod_small; lia.
Qed.

Lemma wrap64_add_l a b : wrap64 (wrap64 a + b) = wrap64 (a + b).
Proof.
  unfold wrap64. f_equal.
  replace ((a + 2 ^ 63) mod 2 ^ 64 - 2 ^ 63 + b + 2 ^ 63)
    with ((a + 2 ^ 63) mod 2 ^ 64 + b) by lia.
  rewrite Zplus_mod_idemp_l. f_equal. lia.
Qed.

Lemma wrap64_add_r a b : wrap64 (a + wrap64 b) = wrap64 (a + b).
Proof. rewrite Z.add_comm, wrap64_add_l. f_equal. lia. Qed.

Lemma wrap64_0 : wrap64 0 = 0.
Proof. reflexivity. Qed.

(** * Time

    [time.Time] is a number of nanoseconds since the Unix epoch and
    [time.Duration] a number of nanoseconds, both [Z]. *)

Definition Second : Z := 10 ^ 9.
Definition Millisecond : Z := 10 ^ 6.
Definition Minute : Z := 60 * Second.
Definition Hour : Z := 60 * Minute.
(** [Time.Unix]. *)
Definition Unix (t : Z) : Z := t / Second.

(** * Go errors

    A Go [(T, error)] pair whose value is only meaningful without an error. *)

Inductive result (A : Type) : Type :=
| Ok (a : A)
| Err (e : string).
Arguments Ok {A} a.
Arguments Err {A} e.

Definition is_ok {A} (r : result A) : bool :=
  match r with Ok _ => true | Err _ => false end.

#[export] Instance result_ret : MRet result := @Ok.
#[export] Instance result_bind : MBind result := λ A B f r,
  match r with Ok a => f a | Err e => Err e end.

Lemma result_bind_Ok {A B} (f : A → result B) r b : r ≫= f = Ok b ↔ ∃ a, r = Ok a ∧ f a = Ok b.
Proof. destruct r as [a|e]; cbn; naive_solver. Qed.
#[export] Instance result_eq_dec {A} `{EqDecision A} : EqDecision (result A).
Proof. solve_decision. Defined.

(** A run-time panic is [None]: the process does not survive it. *)
Definition panic {A} : option A := None.

(** * Sequences of steps *)

Section steps.
Context {S : Type} (R : S → S → Prop).

(** Zero or more steps. *)
Inductive steps : S → S → Prop :=
| steps_refl s : steps s s
| steps_cons s1 s2 s3 : R s1 s2 → steps s2 s3 → steps s1 s3.

Lemma steps_one s1 s2 : R s1 s2 → steps s1 s2.
Proof. eauto using steps. Qed.

Lemma steps_trans s1 s2 s3 : steps s1 s2 → steps s2 s3 → steps s1 s3.
Proof. induction 1; eauto using steps. Qed.

(** Rule induction for invariants. *)
Lemma steps_invariant (I : S → Prop) s1 s2 :
  (∀ s s', I s → R s s' → I s') → I s1 → steps s1 s2 → I s2.
Proof. intros Hstep HI Hs. induction Hs; eauto. Qed.
End steps.

(** * Automation *)

Create HintDb yabx.
#[export] Hint Resolve wrap64_range wrap64_id : yabx.

(** Case analysis on every test of the goal and of the hypotheses. *)
Ltac case_all :=
  repeat (case_decide || case_bool_decide || case_match); simplify_eq/=.

(** Case analysis on the map lookups [<[i:=_]> _ !! j] and [delete i _ !! j]. *)
Ltac case_lookup :=
  match goal with
  | H : context [<[?i:=_]> _ !! ?j] |- _ =>
      destruct (decide (i = j)) as [<-|?];
      [rewrite lookup_insert_eq in H | rewrite lookup_insert_ne in H by done]
  | H : context [delete ?i _ !! ?j] |- _ =>
      destruct (decide (i = j)) as [<-|?];
      [rewrite lookup_delete_eq in H | rewrite lookup_delete_ne in H by done]
  | |- context [<[?i:=_]> _ !! ?j] =>
      destruct (decide (i = j)) as [<-|?];
      [rewrite lookup_insert_eq | rewrite lookup_insert_ne by done]
  | |- context [delete ?i _ !! ?j] =>
      destruct (decide (i = j)) as [<-|?];
      [rewrite lookup_delete_eq | rewrite lookup_delete_ne by done]
  end.

(** * Lists *)

Section lists.
Context {A : Type}.
Implicit Types l : list A.

(** [for _, x := range l] with an early [return]: the first element the body
    returns for. *)
Fixpoint range_first {B} (f : A → option B) l : option B :=
  match l with
  | [] => None
  | x :: l => match f x with Some b => Some b | None => range_first f l end
  end.

Lemma range_first_Some {B} (f : A → option B) l b :
  range_first f l = Some b → ∃ x, x ∈ l ∧ f x = Some b.
Proof.
  induction l as [|x l IH]; simpl; [done|].
  destruct (f x) eqn:E.
  - intros [= <-]. exists x. split; [constructor|done].
  - intros (y & ? & ?)%IH. exists y. split; [by constructor|done].
Qed.

Lemma range_first_None {B} (f : A → option B) l :
  range_first f l = None ↔ ∀ x, x ∈ l → f x = None.
Proof.
  induction l as [|x l IH]; simpl.
  - split; [|done]. intros _ x Hx. by apply elem_of_nil in Hx.
  - destruct (f x) eqn:E.
    + split; [done|]. intros H. rewrite H in E; [done|constructor].
    + rewrite IH. split.
      * intros H y [->|?]%elem_of_cons; auto.
      * intros H y Hy. apply H. by constructor.
Qed.

Lemma Forall_merge_sort (R : relation A) `{∀ x y, Decision (R x y)} P l :
  Forall P (merge_sort R l) ↔ Forall P l.
Proof. by rewrite merge_sort_Permutation. Qed.
End lists.

(** The sum of a list of integers. *)
Definition sumZ (l : list Z) : Z := foldr Z.add 0 l.

Lemma sumZ_app l1 l2 : sumZ (l1 ++ l2) = sumZ l1 + sumZ l2.
Proof. induction l1 as [|x l1 IH]; simpl; [done|]. unfold sumZ in *. simpl. lia. Qed.

Lemma sumZ_cons x l : sumZ (x :: l) = x + sumZ l.
Proof. done. Qed.

#[export] Instance sumZ_Permutation : Proper ((≡ₚ) ==> (=)) sumZ.
Proof. intros l1 l2 H. induction H; rewrite ?sumZ_cons; lia. Qed.

(** ** Cutting a list at its first or last separator *)

Lemma cut_first {A} (c : A) l1 l2 k1 k2 :
  c ∉ l1 → c ∉ l2 → (l1 ++ c :: k1 = l2 ++ c :: k2)%list → l1 = l2 ∧ k1 = k2.
Proof.
  revert l2. induction l1 as [|x l1 IH]; intros [|y l2]; simpl; intros H1 H2 [= E];
    [done|set_solver..|].
  destruct (IH l2) as [-> ->]; [set_solver..|done|]. by subst.
Qed.
Lemma cut_last {A} (c : A) l1 l2 k1 k2 :
  c ∉ k1 → c ∉ k2 → (l1 ++ c :: k1 = l2 ++ c :: k2)%list → l1 = l2 ∧ k1 = k2.
Proof.
  intros H1 H2 E. apply (f_equal reverse) in E. rewrite !reverse_app, !reverse_cons in E.
  rewrite <-!(assoc_L app) in E. simpl in E.
  apply cut_first in E as [E1%(inj reverse) E2%(inj reverse)]; [done|by rewrite elem_of_reverse..].
Qed.

