(* ===== verification/GoStrings.v ===== *)
(** Go strings and the functions of the packages strings, strconv and net that
    the program uses.

    A Go string is a sequence of bytes; it is a [string] here, one [ascii] per
    byte, and the functions work on the list of its bytes.  [TrimSpace] knows
    every Unicode space (in its UTF-8 encoding); [ToLower] and [EqualFold] are
    those of Go on ASCII strings and leave the other bytes alone, which is all
    the program gives them (addresses, protocol and option names). *)
From S2P Require Import Prelude.
#[local] Open Scope string_scope.
#[local] Open Scope Z_scope.

(** The bytes of a string, and back. *)
Definition to_bytes (s : string) : list ascii := list_ascii_of_string s.
Definition of_bytes (l : list ascii) : string := string_of_list_ascii l.

Lemma of_to_bytes s : of_bytes (to_bytes s) = s.
Proof. apply string_of_list_ascii_of_string. Qed.
Lemma to_of_bytes l : to_bytes (of_bytes l) = l.
Proof. apply list_ascii_of_string_of_list_ascii. Qed.

#[export] Instance of_bytes_inj : Inj (=) (=) of_bytes.
Proof. intros l1 l2 H. by rewrite <-(to_of_bytes l1), H, to_of_bytes. Qed.
#[export] Instance to_bytes_inj : Inj (=) (=) to_bytes.
Proof. intros l1 l2 H. by rewrite <-(of_to_bytes l1), H, of_to_bytes. Qed.

Lemma to_bytes_app s t : to_bytes (s +:+ t) = (to_bytes s ++ to_bytes t)%list.
Proof. unfold to_bytes. induction s as [|c s IH]; simpl; [done|]. by rewrite IH. Qed.
Lemma of_bytes_app l k : of_bytes (l ++ k)%list = of_bytes l +:+ of_bytes k.
Proof. unfold of_bytes. induction l as [|c l IH]; simpl; [done|]. by rewrite IH. Qed.
Lemma string_app_nil_r (a : string) : a +:+ "" = a.
Proof. apply to_bytes_inj. rewrite to_bytes_app. apply app_nil_r. Qed.
Lemma to_bytes_empty s : to_bytes s = [] ↔ s = "".
Proof. split; [|by intros ->]. by destruct s. Qed.

(** len(s). *)
Definition len (s : string) : Z := Z.of_nat (length (to_bytes s)).

(** * Prefixes and suffixes *)

Fixpoint strip_prefix (p l : list ascii) : option (list ascii) :=
  match p, l with
  | [], _ => Some l
  | c :: p, d :: l => if decide (c = d) then strip_prefix p l else None
  | _, [] => None
  end.

Lemma strip_prefix_Some p l k : strip_prefix p l = Some k ↔ l = (p ++ k)%list.
Proof.
  revert l. induction p as [|c p IH]; intros l; simpl.
  - split; [by intros [= ->]|by intros ->].
  - destruct l as [|d l]; [done|]. case_decide; subst.
    + rewrite IH. split; [by intros ->|by intros [= ->]].
    + split; [done|by intros [= ??]].
Qed.

Lemma strip_prefix_app p k : strip_prefix p (p ++ k) = Some k.
Proof. by apply strip_prefix_Some. Qed.

(** strings.HasPrefix, strings.TrimPrefix, strings.CutPrefix. *)
Definition HasPrefix (s p : string) : bool :=
  match strip_prefix (to_bytes p) (to_bytes s) with Some _ => true | None => false end.
Definition TrimPrefix (s p : string) : string :=
  match strip_prefix (to_bytes p) (to_bytes s) with Some k => of_bytes k | None => s end.
Definition CutPrefix (s p : string) : string * bool := (TrimPrefix s p, HasPrefix s p).

(** strings.HasSuffix, strings.TrimSuffix. *)
Definition strip_suffix (p l : list ascii) : option (list ascii) :=
  reverse <$> strip_prefix (reverse p) (reverse l).
Definition HasSuffix (s p : string) : bool :=
  match strip_suffix (to_bytes p) (to_bytes s) with Some _ => true | None => false end.
Definition TrimSuffix (s p : string) : string :=
  match strip_suffix (to_bytes p) (to_bytes s) with Some k => of_bytes k | None => s end.

(** * Searching a byte *)

Definition index_byte (c : ascii) (l : list ascii) : option nat :=
  fst <$> list_find (c =.) l.

(** The bytes before the last occurrence of [c], and those after it. *)
Fixpoint split_last (c : ascii) (l : list ascii) : option (list ascii * list ascii) :=
  match l with
  | [] => None
  | d :: l =>
      match split_last c l with
      | Some (a, b) => Some (d :: a, b)
      | None => if decide (c = d) then Some ([], l) else None
      end
  end.

Lemma split_last_None c l : split_last c l = None ↔ c ∉ l.
Proof.
  induction l as [|d l IH]; simpl.
  - split; [intros _; apply not_elem_of_nil|done].
  - rewrite not_elem_of_cons, <-IH. destruct (split_last c l) as [[a b]|].
    + split; [done|]. by intros [_ [=]].
    + case_decide; [by subst; naive_solver|]. split; [by auto|done].
Qed.

Lemma split_last_Some c l a b :
  split_last c l = Some (a, b) ↔ l = (a ++ c :: b)%list ∧ c ∉ b.
Proof.
  split.
  - revert a b. induction l as [|d l IH]; intros a b; simpl; [done|].
    destruct (split_last c l) as [[a' b']|] eqn:E.
    + intros [= <- <-]. by destruct (IH _ _ eq_refl) as [-> ?].
    + apply split_last_None in E. case_decide; [|done]. by intros [= <- <-]; subst.
  - intros [-> Hb]. induction a as [|d a IH]; simpl.
    + rewrite (proj2 (split_last_None _ _)) by done. by rewrite decide_True.
    + by rewrite IH.
Qed.

(** strings.Contains for a one byte pattern. *)
Definition contains_byte (c : ascii) (s : string) : bool := bool_decide (c ∈ to_bytes s).

(** * Trimming *)

(** The encodings of the runes [unicode.IsSpace] accepts. *)
Definition byte (n : N) : ascii := ascii_of_N n.
Definition space_runes : list (list ascii) :=
  ([[byte 9]; [byte 10]; [byte 11]; [byte 12]; [byte 13]; [byte 32];
   [byte 194; byte 133]; [byte 194; byte 160]; [byte 225; byte 154; byte 128]] ++
  map (λ n, [byte 226; byte 128; byte (128 + n)]) [0;1;2;3;4;5;6;7;8;9;10;40;41;47]%N ++
  [[byte 226; byte 129; byte 159]; [byte 227; byte 128; byte 128]])%list.

(** Remove leading runes of [rs]; each removal shortens the string, so its length
    is enough fuel. *)
Fixpoint trim_runes (rs : list (list ascii)) (fuel : nat) (l : list ascii) : list ascii :=
  match fuel with
  | O => l
  | S fuel =>
      match range_first (λ r, strip_prefix r l) rs with
      | Some l' => trim_runes rs fuel l'
      | None => l
      end
  end.
Definition trim_left (rs : list (list ascii)) (l : list ascii) : list ascii :=
  trim_runes rs (length l) l.
Definition trim_right (rs : list (list ascii)) (l : list ascii) : list ascii :=
  reverse (trim_left (map reverse rs) (reverse l)).
Definition trim_space (l : list ascii) : list ascii :=
  trim_right space_runes (trim_left space_runes l).
Definition TrimSpace (s : string) : string := of_bytes (trim_space (to_bytes s)).

(** strings.Trim and strings.TrimRight with an ASCII cutset. *)
Definition singles (s : string) : list (list ascii) := map (λ c, [c]) (to_bytes s).
Definition Trim (s cutset : string) : string :=
  of_bytes (trim_right (singles cutset) (trim_left (singles cutset) (to_bytes s))).
Definition TrimRight (s cutset : string) : string :=
  of_bytes (trim_right (singles cutset) (to_bytes s)).

(** Trimming keeps a property of all bytes. *)
Lemma trim_runes_Forall (P : ascii → Prop) rs n l : Forall P l → Forall P (trim_runes rs n l).
Proof.
  revert l. induction n as [|n IH]; intros l Hl; [done|]. simpl.
  destruct (range_first _ _) as [l'|] eqn:E; [|done]. apply IH.
  apply range_first_Some in E as (r & _ & Hr). apply strip_prefix_Some in Hr as ->.
  by apply Forall_app in Hl as [_ Hl].
Qed.
Lemma Trim_Forall (P : ascii → Prop) s cutset :
  Forall P (to_bytes s) → Forall P (to_bytes (Trim s cutset)).
Proof.
  intros Hs. unfold Trim, trim_right, trim_left. rewrite to_of_bytes.
  by apply Forall_reverse, trim_runes_Forall, Forall_reverse, trim_runes_Forall.
Qed.

(** Printable ASCII bytes are no part of a space. *)
Definition printable (c : ascii) : Prop := (33 ≤ N_of_ascii c ≤ 126)%N.
#[export] Instance printable_dec c : Decision (printable c).
Proof. unfold printable. apply _. Defined.

Lemma trim_runes_id rs n l :
  (∀ c, head l = Some c → Forall (λ r, head r ≠ Some c ∧ r ≠ []) rs) →
  (l = [] → Forall (λ r, r ≠ []) rs) →
  trim_runes rs n l = l.
Proof.
  intros H H0. destruct n as [|n]; [done|]. simpl.
  enough (range_first (λ r, strip_prefix r l) rs = None) as -> by done.
  apply range_first_None. intros r Hr. destruct l as [|d l].
  - specialize (H0 eq_refl). rewrite Forall_forall in H0.
    specialize (H0 _ Hr). by destruct r.
  - specialize (H _ eq_refl). rewrite Forall_forall in H.
    destruct (H _ Hr) as [H1 ?]. destruct r as [|c r]; [done|]. simpl.
    rewrite decide_False; [done|]. intros ->. by apply H1.
Qed.

Lemma space_runes_nonempty : Forall (λ r, r ≠ []) space_runes.
Proof. by apply (bool_decide_unpack _); vm_compute. Qed.

Lemma space_runes_unprintable : Forall (Forall (λ c, ¬ printable c)) space_runes.
Proof. by apply (bool_decide_unpack _); vm_compute. Qed.

Lemma trim_space_printable l : Forall printable l → trim_space l = l.
Proof.
  intros Hl. unfold trim_space, trim_right, trim_left.
  assert (∀ c r, Forall (λ d, ¬ printable d) r → printable c → head r ≠ Some c) as Hne.
  { intros c r Hr Hc E. destruct r; simplify_eq/=. by inversion Hr. }
  rewrite (trim_runes_id _ _ l).
  - rewrite trim_runes_id; [by rewrite reverse_involutive|..].
    + intros c Hc. rewrite Forall_fmap. eapply Forall_impl;
        [apply Forall_and; split; [apply space_runes_unprintable|apply space_runes_nonempty]|].
      intros r [Hr ?]. split.
      * apply Hne; [by apply Forall_reverse|].
        apply Forall_reverse in Hl. destruct (reverse l); simplify_eq/=. by inversion Hl.
      * intros E. apply (f_equal reverse) in E. rewrite reverse_involutive in E. done.
    + intros _. rewrite Forall_fmap. eapply Forall_impl; [apply space_runes_nonempty|].
      intros r Hr E. apply (f_equal reverse) in E. rewrite reverse_involutive in E. done.
  - intros c Hc. eapply Forall_impl;
      [apply Forall_and; split; [apply space_runes_unprintable|apply space_runes_nonempty]|].
    intros r [Hr ?]. split; [|done]. apply Hne; [done|].
    destruct l; simplify_eq/=. by inversion Hl.
  - intros _. apply space_runes_nonempty.
Qed.

(** * Case *)

Definition lower_byte (c : ascii) : ascii :=
  let n := N_of_ascii c in
  if bool_decide (65 ≤ n ≤ 90)%N then ascii_of_N (n + 32) else c.
Definition ToLower (s : string) : string := of_bytes (map lower_byte (to_bytes s)).
Definition EqualFold (s t : string) : bool := bool_decide (ToLower s = ToLower t).

Lemma lower_byte_idemp c : lower_byte (lower_byte c) = lower_byte c.
Proof. by destruct c as [[] [] [] [] [] [] [] []]. Qed.
Lemma ToLower_idemp s : ToLower (ToLower s) = ToLower s.
Proof.
  unfold ToLower. rewrite to_of_bytes, map_map. f_equal.
  apply map_ext. apply lower_byte_idemp.
Qed.

(** * Splitting *)

(** The maximal runs of bytes that are not separators, empty runs included. *)
Fixpoint split_on (sep : ascii → bool) (l : list ascii) : list (list ascii) :=
  match l with
  | [] => [[]]
  | c :: l =>
      if sep c then [] :: split_on sep l
      else match split_on sep l with
           | r :: rs => (c :: r) :: rs
           | [] => [[c]]
           end
  end.
(** strings.Split with a one byte separator. *)
Definition Split (s : string) (sep : ascii) : list string :=
  map of_bytes (split_on (λ c, bool_decide (c = sep)) (to_bytes s)).
Lemma split_on_none sep l : Forall (λ c, sep c = false) l → split_on sep l = [l].
Proof. induction 1 as [|c l Hc _ IH]; [done|]. simpl. by rewrite Hc, IH. Qed.
Lemma split_on_sep sep l c k : Forall (λ c, sep c = false) l → sep c = true →
  split_on sep (l ++ c :: k) = l :: split_on sep k.
Proof.
  intros Hl Hc. induction Hl as [|d l Hd _ IH]; simpl; [by rewrite Hc|].
  by rewrite Hd, IH.
Qed.
(** strings.FieldsFunc: the non empty runs. *)
Definition FieldsFunc (s : string) (sep : ascii → bool) : list string :=
  map of_bytes (filter (.≠ []) (split_on sep (to_bytes s))).
(** strings.Cut at one byte. *)
Definition Cut (s : string) (sep : ascii) : string * string * bool :=
  match list_find (sep =.) (to_bytes s) with
  | Some (i, _) => (of_bytes (take i (to_bytes s)), of_bytes (drop (S i) (to_bytes s)), true)
  | None => (s, "", false)
  end.
(** strings.Join. *)
Fixpoint Join (l : list string) (sep : string) : string :=
  match l with
  | [] => ""
  | [s] => s
  | s :: l => s +:+ sep +:+ Join l sep
  end.
(** Splitting a joined list of texts without separators gives them back. *)
Lemma Split_Join (sep : ascii) (es : list string) : es ≠ [] → Forall (λ e, sep ∉ to_bytes e) es →
  Split (Join es (of_bytes [sep])) sep = es.
Proof.
  assert (∀ e, sep ∉ to_bytes e → Forall (λ c, bool_decide (c = sep) = false) (to_bytes e)) as Hf.
  { intros e He. apply Forall_forall. intros c Hc. apply bool_decide_eq_false. by intros ->. }
  unfold Split. induction es as [|e es IH]; [done|]. intros _ [He Hes]%Forall_cons.
  destruct es as [|e' es].
  - cbn [Join]. rewrite split_on_none by by apply Hf. simpl. by rewrite of_to_bytes.
  - cbn [Join]. rewrite !to_bytes_app, to_of_bytes. simpl.
    rewrite split_on_sep; [|by apply Hf|by apply bool_decide_eq_true]. simpl. rewrite of_to_bytes. f_equal.
    by apply IH.
Qed.
(** strings.ReplaceAll of one byte. *)
Definition ReplaceAll (s : string) (old new : ascii) : string :=
  of_bytes (map (λ c, if decide (c = old) then new else c) (to_bytes s)).

(** * Decimal numbers *)

(** strconv.Itoa, strconv.FormatInt(_, 10) and the verb %d. *)
Definition Itoa (z : Z) : string := pretty z.

Definition digit (c : ascii) : option Z :=
  let n := N_of_ascii c in
  if bool_decide (48 ≤ n ≤ 57)%N then Some (Z.of_N n - 48) else None.
Fixpoint digits (acc : Z) (l : list ascii) : option Z :=
  match l with
  | [] => Some acc
  | c :: l => d ← digit c; digits (10 * acc + d) l
  end.
(** strconv.Atoi: an optional sign, at least one digit, a value in range. *)
Definition Atoi (s : string) : option Z :=
  let '(sign, l) :=
    match to_bytes s with
    | c :: l => if decide (c = "-"%char) then (-1, l)
                else if decide (c = "+"%char) then (1, l) else (1, c :: l)
    | [] => (1, [])
    end in
  match l with
  | [] => None
  | _ => v ← digits 0 l;
         if decide (in_int64 (sign * v)) then Some (sign * v) else None
  end.
(** [n, _ := strconv.Atoi(s)]: a number out of range gives the nearest bound. *)
Definition Atoi_saturated (s : string) : Z :=
  match Atoi s with
  | Some v => v
  | None =>
      match to_bytes s with
      | c :: l =>
          let neg := bool_decide (c = "-"%char) in
          let l := if neg || bool_decide (c = "+"%char) then l else c :: l in
          match l with
          | [] => 0
          | _ => match digits 0 l with
                 | Some _ => if neg then int64_min else int64_max
                 | None => 0
                 end
          end
      | [] => 0
      end
  end.
(** strconv.ParseUint(_, 10, bits). *)
Definition ParseUint (s : string) (bits : Z) : option Z :=
  match to_bytes s with
  | [] => None
  | l => v ← digits 0 l; if decide (v < 2 ^ bits) then Some v else None
  end.

(** The bytes of a decimal number. *)
Definition is_digit (c : ascii) : Prop := (48 ≤ N_of_ascii c ≤ 57)%N.
#[export] Instance is_digit_dec c : Decision (is_digit c).
Proof. unfold is_digit. apply _. Defined.
Lemma is_digit_no c : is_digit c → c ∉ to_bytes "|-/.".
Proof.
  assert (Forall (λ d, ¬ is_digit d) (to_bytes "|-/.")) as H by by apply (bool_decide_unpack _); vm_compute.
  intros Hc Hin. rewrite Forall_forall in H. by apply (H c).
Qed.
Lemma pretty_N_digits (n : N) : Forall is_digit (to_bytes (pretty n)).
Proof.
  assert (∀ n s, Forall is_digit (to_bytes s) → Forall is_digit (to_bytes (pretty_N_go n s))) as Hgo.
  { clear n. intros n. induction (N.lt_wf_0 n) as [n _ IH]. intros s Hs.
    destruct (decide (0 < n)%N) as [Hn|Hn].
    - rewrite pretty_N_go_step by done. apply IH; [apply N.div_lt; lia|].
      constructor; [|done]. unfold pretty_N_char, is_digit. by repeat case_match.
    - assert (n = 0%N) as -> by lia. by rewrite pretty_N_go_0. }
  unfold pretty, pretty_N. case_decide; [by repeat constructor|]. by apply Hgo.
Qed.
Lemma Itoa_digits z : 0 ≤ z → Forall is_digit (to_bytes (Itoa z)).
Proof. destruct z; [intros _; by repeat constructor|intros _; apply pretty_N_digits|done]. Qed.
(** A byte that is neither a digit nor the sign is not in a number. *)
Lemma Itoa_free c z : ¬ is_digit c → c ≠ "-"%char → c ∉ to_bytes (Itoa z).
Proof.
  intros Hc Hm. assert (∀ l, Forall is_digit l → c ∉ l) as H.
  { intros l Hl Hin. rewrite Forall_forall in Hl. by apply Hc, Hl. }
  destruct (decide (0 ≤ z)) as [Hz|Hz]; [by apply H, Itoa_digits|].
  destruct z as [|p|p]; [lia..|]. cbn. apply not_elem_of_cons. split; [done|].
  apply H, pretty_N_digits.
Qed.
#[export] Instance Itoa_inj : Inj (=) (=) Itoa.
Proof. unfold Itoa. apply _. Qed.

(** Reading a printed number gives it back. *)
Lemma digits_app a l k : digits a (l ++ k) = (digits a l ≫= λ b, digits b k).
Proof.
  revert a. induction l as [|c l IH]; intros a; [done|]. cbn [app digits].
  destruct (digit c); [|done]. apply IH.
Qed.
Lemma digit_pretty n : (n < 10)%N → digit (pretty_N_char n) = Some (Z.of_N n).
Proof.
  intros Hn. assert (n ∈ [0; 1; 2; 3; 4; 5; 6; 7; 8; 9]%N) as H by (set_unfold; lia).
  set_unfold in H. by destruct_or!; subst.
Qed.
Lemma digits_pretty_go n s : digits 0 (to_bytes (pretty_N_go n s)) = digits (Z.of_N n) (to_bytes s).
Proof.
  revert s. induction (N.lt_wf_0 n) as [n _ IH]. intros s. destruct (decide (0 < n)%N) as [Hn|Hn].
  - rewrite pretty_N_go_step by done. rewrite IH by (apply N.div_lt; lia). cbn [to_bytes list_ascii_of_string digits].
    rewrite digit_pretty by (apply N.mod_lt; lia). cbn. f_equal.
    pose proof (N.div_mod n 10 ltac:(lia)). lia.
  - assert (n = 0%N) as -> by lia. by rewrite pretty_N_go_0.
Qed.
Lemma Atoi_Itoa z : 0 ≤ z → in_int64 z → Atoi (Itoa z) = Some z.
Proof.
  intros Hz Hr. assert (digits 0 (to_bytes (Itoa z)) = Some z ∧ to_bytes (Itoa z) ≠ []) as [Hd Hne].
  { destruct z as [|p|p]; [done| |lia]. unfold Itoa. change (pretty (Z.pos p)) with (pretty (N.pos p)). unfold pretty, pretty_N.
    rewrite decide_False by done. split; [by rewrite digits_pretty_go|].
    rewrite pretty_N_go_step by lia. intros E. pose proof (digits_pretty_go (N.pos p / 10) (String (pretty_N_char (N.pos p `mod` 10)) "")) as H.
    rewrite E in H. cbn in H. rewrite digit_pretty in H by (apply N.mod_lt; lia). cbn in H. injection H as H.
    pose proof (N.div_mod (N.pos p) 10 ltac:(lia)). lia. }
  pose proof (Itoa_digits z Hz) as Hf. unfold Atoi. destruct (to_bytes (Itoa z)) as [|c l]; [done|].
  apply Forall_cons in Hf as [Hc _].
  rewrite (decide_False (P := c = "-"%char)) by (intros ->; by apply (bool_decide_pack _) in Hc).
  rewrite (decide_False (P := c = "+"%char)) by (intros ->; by apply (bool_decide_pack _) in Hc).
  cbn [mbind option_bind]. rewrite Hd. cbn. rewrite Z.mul_1_l. by rewrite decide_True.
Qed.

(** * net.SplitHostPort *)
(** * net.SplitHostPort *)

(** The host and the port of "host:port" or "[host]:port"; [None] is an error. *)
Definition split_host_port (l : list ascii) : option (list ascii * list ascii) :=
  '(before, port) ← split_last ":"%char l;
  match l with
  | "["%char :: _ =>
      fin ← index_byte "]"%char l;
      if decide (S fin = length before) then
        let host := take (fin - 1) (drop 1 l) in
        if decide ("["%char ∈ drop 1 l) then None
        else if decide ("]"%char ∈ drop (S fin) l) then None
        else Some (host, port)
      else None
  | _ =>
      if decide (":"%char ∈ before) then None
      else if decide ("["%char ∈ l) then None
      else if decide ("]"%char ∈ l) then None
      else Some (before, port)
  end.
Definition SplitHostPort (s : string) : option (string * string) :=
  '(h, p) ← split_host_port (to_bytes s); Some (of_bytes h, of_bytes p).
(** net.JoinHostPort: a host with a colon is put in brackets. *)
Definition JoinHostPort (host port : string) : string :=
  if contains_byte ":"%char host
  then "[" +:+ host +:+ "]:" +:+ port else host +:+ ":" +:+ port.

(** fmt.Sprintf("%s|%s", tag, uuid) and the like are concatenations. *)
Lemma append_inj_l (s t1 t2 : string) : s +:+ t1 = s +:+ t2 → t1 = t2.
Proof. apply (inj (String.append s)). Qed.

Lemma append_assoc (a b c : string) : (a +:+ b) +:+ c = a +:+ (b +:+ c).
Proof.
  apply (inj to_bytes). rewrite !to_bytes_app. by rewrite (assoc_L (++)%list).
Qed.

(** * Ordering

    Go compares strings byte by byte, as [String.le] does. *)
Definition string_lt (a b : string) : bool := String.ltb a b.

Lemma string_ltb_leb (a b : string) : String.ltb a b = negb (String.leb b a).
Proof.
  unfold String.ltb, String.leb. rewrite (String.compare_antisym b a).
  by destruct (String.compare a b).
Qed.

(** sort.Strings and sort.Ints. *)
Definition sort_Strings (l : list string) : list string := merge_sort String.le l.
Definition sort_Ints (l : list Z) : list Z := merge_sort Z.le l.

#[export] Instance Zle_total : Total Z.le.
Proof. intros x y. lia. Qed.

Lemma sort_Strings_Permutation l : sort_Strings l ≡ₚ l.
Proof. apply merge_sort_Permutation. Qed.
Lemma sort_Ints_Permutation l : sort_Ints l ≡ₚ l.
Proof. apply merge_sort_Permutation. Qed.
Lemma sort_Ints_sorted l : StronglySorted Z.le (sort_Ints l).
Proof. apply (StronglySorted_merge_sort _). Qed.
Lemma sort_Strings_sorted l : StronglySorted String.le (sort_Strings l).
Proof. apply (StronglySorted_merge_sort _). Qed.

(** * Searching *)

(** strings.Contains. *)
Fixpoint contains_bytes (sub l : list ascii) : bool :=
  match strip_prefix sub l, l with
  | Some _, _ => true
  | None, [] => false
  | None, _ :: l => contains_bytes sub l
  end.
Definition strings_Contains (s sub : string) : bool := contains_bytes (to_bytes sub) (to_bytes s).
