(* ===== verification/Paths.v ===== *)
(** path and path/filepath of the Go standard library on Unix, as far as the program
    uses them: [Clean], [Path_Join], [Dir], [Base], [Ext], [IsAbs], with the lemmas the components
    share about absolute paths: their elements, joining an element, and going up. *)
From S2P Require Import Prelude GoStrings.
#[local] Open Scope string_scope.

(** * The operations *)

Definition slash (c : ascii) : bool := bool_decide (c = "/"%char).
(** The elements of a path, empty ones included. *)
Definition elements (p : string) : list string := Split p "/".
Definition rooted (p : string) : bool := HasPrefix p "/".
Definition IsAbs (p : string) : bool := rooted p.

(** One element of a path met by [Clean]; [stack] holds the elements kept so far, the
    last one first.  Above the root, ".." is dropped. *)
Definition clean_step (abs : bool) (stack : list string) (e : string) : list string :=
  if decide (e = "" ∨ e = ".") then stack
  else if decide (e = "..") then
    match stack with
    | [] => if abs then [] else [".."]
    | top :: rest => if decide (top = "..") then ".." :: stack else rest
    end
  else e :: stack.
Definition clean_elements (abs : bool) (es : list string) : list string :=
  reverse (foldl (clean_step abs) [] es).
Definition path_of (abs : bool) (es : list string) : string :=
  if abs then "/" +:+ Join es "/" else match es with [] => "." | _ => Join es "/" end.
Definition Clean (p : string) : string := path_of (rooted p) (clean_elements (rooted p) (elements p)).

(** Elements before the first one that is not empty are ignored. *)
Fixpoint Path_Join (es : list string) : string :=
  match es with
  | [] => ""
  | e :: es' => if decide (e = "") then Path_Join es' else Clean (Join es "/")
  end.

(** Everything up to and including the last slash, cleaned. *)
Definition Dir (p : string) : string :=
  Clean (match split_last "/"%char (to_bytes p) with
         | Some (a, _) => of_bytes (a ++ ["/"%char])%list
         | None => ""
         end).
(** The last element, without trailing slashes. *)
Definition last_element (l : list ascii) : list ascii :=
  match split_last "/"%char l with Some (_, b) => b | None => l end.
Definition Base (p : string) : string :=
  if decide (p = "") then "."
  else match last_element (to_bytes (TrimRight p "/")) with
       | [] => "/"
       | l => of_bytes l
       end.
(** From the last dot of the last element. *)
Definition Ext (p : string) : string :=
  match split_last "."%char (last_element (to_bytes p)) with
  | Some (_, b) => of_bytes ("."%char :: b)
  | None => ""
  end.

Example Clean_ex :
  map Clean [""; "."; "/"; "a//b/./c/.."; "/../a"; "../../a"; "a/../.."] =
  ["."; "."; "/"; "a/b"; "/a"; "../../a"; ".."].
Proof. reflexivity. Qed.
Example Path_Join_ex :
  map Path_Join [["/etc/V2bX/nodes"; "dns"; "dns_a.json"]; [""; "a"]; ["/"; "proc"; "meminfo"]; []] =
  ["/etc/V2bX/nodes/dns/dns_a.json"; "a"; "/proc/meminfo"; ""].
Proof. reflexivity. Qed.
Example Dir_Base_ex :
  map Dir ["/a/b"; "/a"; "/"; "a"; ""; "a/b/"] = ["/a"; "/"; "/"; "."; "."; "a/b"] ∧
  map Base ["/a/b.json"; "/a/"; "//"; ""] = ["b.json"; "a"; "/"; "."] ∧
  map Ext ["V2bX.log"; "a.b.c"; "/a.d/log"; ""] = [".log"; ".c"; ""; ""].
Proof. repeat split; reflexivity. Qed.

(** * Elements *)

(** An element that [Clean] keeps. *)
Definition plain_element (e : string) : Prop :=
  e ≠ "" ∧ e ≠ "." ∧ e ≠ ".." ∧ "/"%char ∉ to_bytes e.
#[export] Instance plain_element_dec e : Decision (plain_element e).
Proof. unfold plain_element. apply _. Defined.

Lemma slash_free e : "/"%char ∉ to_bytes e → Forall (λ c, slash c = false) (to_bytes e).
Proof.
  intros He. apply Forall_forall. intros c Hc. apply bool_decide_eq_false. by intros ->.
Qed.
Lemma elements_one e : "/"%char ∉ to_bytes e → elements e = [e].
Proof.
  intros He. unfold elements, Split. rewrite split_on_none; [|by apply slash_free].
  simpl. by rewrite of_to_bytes.
Qed.
Lemma elements_cons e p : "/"%char ∉ to_bytes e → elements (e +:+ "/" +:+ p) = e :: elements p.
Proof.
  intros He. unfold elements, Split. rewrite !to_bytes_app. simpl.
  rewrite split_on_sep; [|by apply slash_free|done]. simpl. by rewrite of_to_bytes.
Qed.
Lemma elements_Join es : es ≠ [] → Forall (λ e, "/"%char ∉ to_bytes e) es →
  elements (Join es "/") = es.
Proof.
  induction es as [|e es IH]; [done|]. intros _ [He Hes]%Forall_cons.
  destruct es as [|e' es]; [by apply elements_one|].
  cbn [Join]. rewrite elements_cons by done. f_equal. by apply IH.
Qed.
Lemma elements_root p : elements ("/" +:+ p) = "" :: elements p.
Proof. apply (elements_cons ""). apply not_elem_of_nil. Qed.

Lemma clean_plain abs es stack : Forall plain_element es →
  foldl (clean_step abs) stack es = (reverse es ++ stack)%list.
Proof.
  intros Hes. revert stack. induction Hes as [|e es (H1 & H2 & H3 & _) _ IH]; intros stack; [done|].
  cbn [foldl]. rewrite IH. unfold clean_step.
  rewrite (decide_False (P := _ ∨ _)), (decide_False (P := e = "..")) by tauto.
  by rewrite reverse_cons, <-(assoc_L (++)%list).
Qed.

(** * Absolute paths *)

Definition abs_path (es : list string) : string := "/" +:+ Join es "/".

Lemma plain_no_slash es : Forall plain_element es → Forall (λ e, "/"%char ∉ to_bytes e) es.
Proof. intros H. eapply Forall_impl; [exact H|]. by intros e (_ & _ & _ & He). Qed.
Lemma rooted_abs p : rooted ("/" +:+ p) = true.
Proof. done. Qed.
Lemma clean_abs_elements es : Forall plain_element es →
  clean_elements true (elements (abs_path es)) = es.
Proof.
  intros Hes. unfold abs_path, clean_elements. rewrite elements_root. cbn [foldl].
  destruct es as [|e es]; [done|].
  rewrite elements_Join by (by try apply plain_no_slash). change (clean_step true [] "") with (@nil string).
  rewrite clean_plain by done. by rewrite (right_id_L [] (++)%list), reverse_involutive.
Qed.
Lemma Clean_abs es : Forall plain_element es → Clean (abs_path es) = abs_path es.
Proof. intros Hes. unfold Clean. change (rooted (abs_path es)) with true. by rewrite clean_abs_elements. Qed.
Lemma abs_path_inj es es' :
  Forall plain_element es → Forall plain_element es' → abs_path es = abs_path es' → es = es'.
Proof.
  intros H H' E. rewrite <-(clean_abs_elements es), <-(clean_abs_elements es') by done. by rewrite E.
Qed.

Lemma Join_snoc es e sep : es ≠ [] → Join (es ++ [e])%list sep = Join es sep +:+ sep +:+ e.
Proof.
  induction es as [|d es IH]; [done|]. intros _. destruct es as [|d' es]; [done|].
  cbn [Join app]. cbn [Join app] in IH. rewrite IH by done. by rewrite !append_assoc.
Qed.
Lemma elements_snoc p e : "/"%char ∉ to_bytes e → elements (p +:+ "/" +:+ e) = (elements p ++ [e])%list.
Proof.
  intros He. unfold elements, Split. rewrite !to_bytes_app. simpl.
  induction (to_bytes p) as [|c l IH]; simpl.
  { rewrite split_on_none by (by apply slash_free). simpl. by rewrite of_to_bytes. }
  destruct (bool_decide (c = "/"%char)); [by rewrite map_cons, IH|].
  destruct (split_on _ l) as [|r rs] eqn:E.
  { destruct l as [|d l]; simpl in E; [done|]. destruct (bool_decide (d = _)); [done|].
    by destruct (split_on _ l). }
  destruct (split_on _ (l ++ _)) as [|r' rs'] eqn:E'; [done|]. simpl in IH. injection IH as Hr Hrs.
  simpl. rewrite Hrs. f_equal. apply (inj of_bytes) in Hr. by rewrite Hr.
Qed.

(** Joining a directory and plain elements appends the elements. *)
Lemma Path_Join_abs es fs : Forall plain_element es → Forall plain_element fs →
  Path_Join (abs_path es :: fs) = abs_path (es ++ fs).
Proof.
  intros Hes Hfs. cbn [Path_Join]. rewrite decide_False by done. unfold Clean.
  assert (rooted (Join (abs_path es :: fs) "/") = true) as -> by by destruct fs.
  cbn [path_of]. unfold abs_path at 2. do 2 f_equal.
  enough (elements (Join (abs_path es :: fs) "/") = (elements (abs_path es) ++ fs)%list) as ->.
  { unfold clean_elements. rewrite foldl_app, clean_plain, reverse_app, reverse_involutive by done.
    f_equal. by apply clean_abs_elements. }
  generalize (abs_path es). intros p. clear -Hfs. revert p.
  induction fs as [|f fs IH] using rev_ind; intros p; [by rewrite (right_id_L [] (++)%list)|].
  apply Forall_app in Hfs as [Hfs [Hf _]%Forall_cons].
  change (p :: fs ++ [f])%list with ((p :: fs) ++ [f])%list. rewrite Join_snoc by done.
  rewrite elements_snoc by apply Hf. rewrite IH by done. by rewrite (assoc_L (++)%list).
Qed.

(** Going up drops the last element; the root stays where it is. *)
Lemma Dir_abs es e : Forall plain_element (es ++ [e]) → Dir (abs_path (es ++ [e])) = abs_path es.
Proof.
  intros [Hes [He _]%Forall_cons]%Forall_app. unfold Dir.
  assert (∃ a, to_bytes (abs_path (es ++ [e])) = (a ++ "/"%char :: to_bytes e)%list ∧
    clean_elements true (elements (of_bytes (a ++ ["/"%char])%list)) = es ∧
    rooted (of_bytes (a ++ ["/"%char])%list) = true) as (a & Ea & Hc & Hr).
  { destruct (decide (es = [])) as [->|Hne].
    - exists []. split; [done|]. done.
    - exists (to_bytes (abs_path es)). unfold abs_path at 1. rewrite Join_snoc by done.
      rewrite !to_bytes_app. split; [unfold abs_path; by rewrite to_bytes_app, <-(assoc_L (++)%list)|].
      rewrite of_bytes_app, of_to_bytes. split; [|done].
      change (of_bytes ["/"%char]) with ("/" +:+ "").
      rewrite elements_snoc by apply not_elem_of_nil.
      unfold clean_elements. rewrite foldl_app. cbn [foldl].
      unfold clean_step. rewrite decide_True by (by left). by apply clean_abs_elements. }
  rewrite (proj2 (split_last_Some "/"%char (to_bytes (abs_path (es ++ [e]))) a (to_bytes e))).
  2: { split; [done|]. by apply He. }
  unfold Clean. by rewrite Hr, Hc.
Qed.
Lemma Dir_root : Dir (abs_path []) = abs_path [].
Proof. reflexivity. Qed.
Lemma abs_path_root es : Forall plain_element es → abs_path es = "/" → es = [].
Proof. intros Hes E. by apply (abs_path_inj es []). Qed.

(** A rooted path becomes the path of plain elements. *)
Lemma elements_free p : Forall (λ e, "/"%char ∉ to_bytes e) (elements p).
Proof.
  unfold elements, Split. apply Forall_fmap. induction (to_bytes p) as [|c l IH]; simpl.
  - apply Forall_singleton. simpl. apply not_elem_of_nil.
  - case_bool_decide as Hc; [constructor; [apply not_elem_of_nil|done]|].
    destruct (split_on _ l) as [|r rs]; [apply Forall_singleton; simpl; set_solver|].
    apply Forall_cons in IH as [Hr Hrs]. constructor; [|done]. simpl in *. rewrite to_of_bytes in *. set_solver.
Qed.
Lemma clean_step_plain stack e : Forall plain_element stack → "/"%char ∉ to_bytes e →
  Forall plain_element (clean_step true stack e).
Proof.
  intros Hs He. unfold clean_step. destruct (decide (e = "" ∨ e = ".")); [done|].
  destruct (decide (e = "..")) as [->|].
  - destruct Hs as [|top rest Ht Hr]; [done|]. rewrite decide_False by apply Ht. done.
  - constructor; [|done]. by split_and!; [intros ?; tauto..|].
Qed.
Lemma Clean_rooted p : ∃ es, Forall plain_element es ∧ Clean ("/" +:+ p) = abs_path es.
Proof.
  exists (clean_elements true (elements ("/" +:+ p))). split; [|done].
  unfold clean_elements. apply Forall_reverse.
  assert (∀ stack l, Forall plain_element stack → Forall (λ e, "/"%char ∉ to_bytes e) l →
    Forall plain_element (foldl (clean_step true) stack l)) as H.
  { intros stack l Hs Hl. revert stack Hs. induction Hl as [|e l He _ IH]; intros stack Hs; [done|].
    simpl. by apply IH, clean_step_plain. }
  apply H; [done|apply elements_free].
Qed.
Lemma abs_path_length es : Forall plain_element es → (length es < length (to_bytes (abs_path es)))%nat.
Proof.
  intros Hes. unfold abs_path. rewrite to_bytes_app, length_app. simpl.
  enough (length es ≤ length (to_bytes (Join es "/")))%nat by lia.
  induction Hes as [|e es (He & _) _ IH]; [simpl; lia|].
  assert (1 ≤ length (to_bytes e))%nat by (destruct e; [done|simpl; lia]).
  destruct es as [|e' es]; [simpl in *; lia|]. cbn [Join]. rewrite !to_bytes_app, !length_app.
  simpl in *. lia.
Qed.

(** A cleaned path is not empty. *)
Lemma clean_step_nonempty abs stack e : Forall (λ x, x ≠ "") stack → Forall (λ x, x ≠ "") (clean_step abs stack e).
Proof.
  intros H. unfold clean_step. destruct (decide (e = "" ∨ e = ".")) as [|He]; [done|].
  destruct (decide (e = "..")).
  - destruct H as [|top rest Ht H]; [by destruct abs; repeat constructor|].
    destruct (decide (top = "..")); [|done]. by repeat constructor.
  - constructor; [|done]. intros ->. tauto.
Qed.
Lemma Clean_nonempty p : Clean p ≠ "".
Proof.
  unfold Clean, path_of. destruct (rooted p); [done|]. unfold clean_elements.
  assert (∀ l stack, Forall (λ x, x ≠ "") stack → Forall (λ x, x ≠ "") (foldl (clean_step false) stack l)) as H.
  { induction l as [|e l IH]; [done|]. intros stack Hs. apply IH. by apply clean_step_nonempty. }
  specialize (H (elements p) [] (Forall_nil_2 _)). apply Forall_reverse in H.
  destruct (reverse _) as [|e [|e' es]]; [done|by inversion H|].
  inversion H as [|? ? He]; subst. destruct e; [done|]. done.
Qed.
