(* ===== verification/Disk.v ===== *)
(** Package os of the Go standard library, as far as the program uses it: the regular files
    of the disk by path, reading and writing them, and what a sequence of writes changes. *)
From S2P Require Import Prelude GoStrings Paths.
#[local] Open Scope string_scope.

(** The errors of the operating system by path: of opening a file that is there for reading,
    of making a directory, of opening a file for writing, and of writing to it, which may leave
    part of the text behind. *)
Class OSErrors := {
  open_err : string → option string;
  mkdir_err : string → option string;
  create_err : string → option string;
  write_err : string → option (string * string)
}.

Abbreviation disk := (gmap string string).

Section disk.
Context {E : OSErrors}.

(** [os.ReadFile]; [None] when there is no file. *)
Definition ReadFile (path : string) (d : disk) : option (result string) :=
  match open_err path with
  | Some e => Some (Err e)
  | None => Ok <$> d !! path
  end.
(** [os.OpenFile] with O_CREATE and O_TRUNC, and a write to the file. *)
Definition OpenFile (path : string) (d : disk) : option string * disk :=
  match create_err path with
  | Some e => (Some e, d)
  | None => (None, <[path := ""]> d)
  end.
Definition Write (path content : string) (d : disk) : option string * disk :=
  match write_err path with
  | Some (e, part) => (Some e, <[path := part]> d)
  | None => (None, <[path := content]> d)
  end.
Definition WriteFile (path content : string) (d : disk) : option string * disk :=
  match OpenFile path d with
  | (Some e, d) => (Some e, d)
  | (None, d) => Write path content d
  end.
(** [os.Stat] finds a file. *)
Definition exists_file (path : string) (d : disk) : bool := bool_decide (is_Some (d !! path)).

(** * What writing changes *)

(** [d'] is [d] with the files of [l] written, and with no file lost. *)
Definition wrote (l : list string) (d d' : disk) : Prop :=
  (∀ p, p ∉ l → d' !! p = d !! p) ∧ (∀ p, is_Some (d !! p) → is_Some (d' !! p)).
Lemma wrote_nil d : wrote [] d d.
Proof. by split. Qed.
Lemma wrote_weaken l k d d' : l ⊆ k → wrote l d d' → wrote k d d'.
Proof. intros Hlk [H1 H2]. split; [|done]. intros p Hp. apply H1. set_solver. Qed.
Lemma wrote_trans l d1 d2 d3 : wrote l d1 d2 → wrote l d2 d3 → wrote l d1 d3.
Proof. intros [H1 H2] [H3 H4]. split; [|by auto]. intros p Hp. by rewrite H3, H1. Qed.
Lemma wrote_app l k d1 d2 d3 : wrote l d1 d2 → wrote k d2 d3 → wrote (l ++ k)%list d1 d3.
Proof.
  intros H1 H2. eapply wrote_trans; (eapply wrote_weaken; [|eassumption]).
  - intros p Hp. apply elem_of_app. by left.
  - intros p Hp. apply elem_of_app. by right.
Qed.
Lemma wrote_insert p c d : wrote [p] d (<[p := c]> d).
Proof.
  split.
  - intros q Hq. apply lookup_insert_ne. set_solver.
  - intros q Hq. destruct (decide (p = q)) as [<-|Hne]; [rewrite lookup_insert_eq; by eexists|].
    by rewrite lookup_insert_ne.
Qed.
Lemma OpenFile_wrote p d r d' : OpenFile p d = (r, d') → wrote [p] d d'.
Proof.
  unfold OpenFile. destruct (create_err p); intros [= <- <-]; [|apply wrote_insert].
  eapply wrote_weaken, wrote_nil. set_solver.
Qed.
Lemma Write_wrote p c d r d' : Write p c d = (r, d') → wrote [p] d d'.
Proof. unfold Write. destruct (write_err p) as [[e part]|]; intros [= <- <-]; apply wrote_insert. Qed.
(** A write changes one file at most, whatever becomes of it. *)
Lemma WriteFile_touches p c d r d' : WriteFile p c d = (r, d') → wrote [p] d d'.
Proof.
  unfold WriteFile. destruct (OpenFile p d) as [[e|] d1] eqn:Ec; apply OpenFile_wrote in Ec.
  - by intros [= <- <-].
  - intros H%Write_wrote. by eapply wrote_trans.
Qed.
Lemma WriteFile_wrote p c d d' : WriteFile p c d = (None, d') → d' !! p = Some c ∧ wrote [p] d d'.
Proof.
  intros H. split; [|by eapply WriteFile_touches].
  revert H. unfold WriteFile, OpenFile, Write. destruct (create_err p); [done|].
  destruct (write_err p) as [[e part]|]; intros [= <-]. apply lookup_insert_eq.
Qed.
End disk.
