(* ===== verification/Base64.v ===== *)
(** The encodings of bytes as text the program uses: encoding/hex and encoding/base64
    (with padding in the standard alphabet, without padding in the one for URLs). *)
From S2P Require Import Prelude GoStrings.
#[local] Open Scope string_scope.
#[local] Open Scope Z_scope.

(** * encoding/hex *)

Definition hex_digit (n : Z) : ascii :=
  ascii_of_N (Z.to_N (if bool_decide (n < 10) then 48 + n else 87 + n)).
Definition byte_val (c : ascii) : Z := Z.of_N (N_of_ascii c).
Definition hex_encode (l : list ascii) : string :=
  of_bytes (concat (map (λ c, [hex_digit (byte_val c / 16); hex_digit (byte_val c mod 16)]) l)).

(** * encoding/base64 *)

Definition letters : string :=
  "ABCDEFGHIJKLMNOPQRSTUVWXYZabcdefghijklmnopqrstuvwxyz0123456789".
Definition std_alphabet : list ascii := to_bytes (letters +:+ "+/").
Definition url_alphabet : list ascii := to_bytes (letters +:+ "-_").

Section base64.
Context (alphabet : list ascii).
Definition b64_char (n : Z) : ascii := default "A"%char (alphabet !! Z.to_nat n).
Definition b64_value (c : ascii) : option Z := (λ p, Z.of_nat p.1) <$> list_find (λ d, d = c) alphabet.

(** The digits of six bits each of a sequence of bytes, and back. *)
Fixpoint sextets (l : list Z) : list Z :=
  match l with
  | a :: b :: c :: l => a / 4 :: a mod 4 * 16 + b / 16 :: b mod 16 * 4 + c / 64 :: c mod 64 :: sextets l
  | [a; b] => [a / 4; a mod 4 * 16 + b / 16; b mod 16 * 4]
  | [a] => [a / 4; a mod 4 * 16]
  | [] => []
  end.
Fixpoint octets (l : list Z) : option (list Z) :=
  match l with
  | a :: b :: c :: d :: l =>
      l ← octets l; Some (a * 4 + b / 16 :: b mod 16 * 16 + c / 4 :: c mod 4 * 64 + d :: l)
  | [a; b; c] => Some [a * 4 + b / 16; b mod 16 * 16 + c / 4]
  | [a; b] => Some [a * 4 + b / 16]
  | [_] => None
  | [] => Some []
  end.
Definition raw_encode (l : list ascii) : list ascii := map b64_char (sextets (map byte_val l)).
(** [Decode] skips line ends. *)
Definition raw_decode (l : list ascii) : option (list Z) :=
  ds ← mapM b64_value (filter (λ c, c ≠ "010"%char ∧ c ≠ "013"%char) l); octets ds.
End base64.

Definition b64_pad (n : nat) : list ascii :=
  match (n mod 3)%nat with 1%nat => ["="; "="]%char | 2%nat => ["="%char] | _ => [] end.
(** [StdEncoding.EncodeToString], [RawURLEncoding.EncodeToString] and [DecodeString]. *)
Definition StdEncoding_EncodeToString (l : list ascii) : string :=
  of_bytes (raw_encode std_alphabet l ++ b64_pad (length l))%list.
Definition RawURLEncoding_EncodeToString (l : list ascii) : string :=
  of_bytes (raw_encode url_alphabet l).
Definition RawURLEncoding_DecodeString (s : string) : option (list Z) :=
  raw_decode url_alphabet (to_bytes s).

Example base64_ex : StdEncoding_EncodeToString (to_bytes "hello") = "aGVsbG8=".
Proof. reflexivity. Qed.
Example hex_ex : hex_encode (to_bytes "Oz") = "4f7a".
Proof. reflexivity. Qed.

(** * The round trip *)

Lemma list_3_ind {A} (P : list A → Prop) :
  P [] → (∀ a, P [a]) → (∀ a b, P [a; b]) → (∀ a b c l, P l → P (a :: b :: c :: l)) → ∀ l, P l.
Proof.
  intros H0 H1 H2 H3. enough (∀ n l, (length l ≤ n)%nat → P l) by eauto.
  induction n as [|n IH]; intros [|a [|b [|c l]]] Hl; simpl in *; auto; try lia.
  apply H3, IH. lia.
Qed.

Definition is_byte (z : Z) : Prop := 0 ≤ z < 256.
Lemma byte_val_range c : is_byte (byte_val c).
Proof. unfold is_byte, byte_val. pose proof (N_ascii_bounded c). lia. Qed.
Lemma byte_vals_range l : Forall is_byte (map byte_val l).
Proof. induction l; constructor; auto using byte_val_range. Qed.

Lemma sextets_range l : Forall is_byte l → Forall (λ n, 0 ≤ n < 64) (sextets l).
Proof.
  unfold is_byte. induction l as [|a|a b|a b c l IH] using list_3_ind; cbn [sextets];
    intros H; decompose_Forall_hyps; rewrite ?Forall_cons; split_and?;
    auto using Forall_nil_2; Z.to_euclidean_division_equations; lia.
Qed.
Lemma octets_sextets l : Forall is_byte l → octets (sextets l) = Some l.
Proof.
  unfold is_byte. induction l as [|a|a b|a b c l IH] using list_3_ind; cbn [sextets octets];
    [done|..]; intros H; decompose_Forall_hyps; [| |rewrite IH by done; cbn];
    repeat f_equal; Z.to_euclidean_division_equations; lia.
Qed.

(** What the round trip needs of an alphabet. *)
Definition alphabet_ok (alphabet : list ascii) : bool :=
  forallb (λ n, bool_decide (b64_value alphabet (b64_char alphabet n) = Some n ∧
    b64_char alphabet n ≠ "010"%char ∧ b64_char alphabet n ≠ "013"%char)) (seqZ 0 64).
Lemma alphabet_char alphabet n : alphabet_ok alphabet = true → 0 ≤ n < 64 →
  b64_value alphabet (b64_char alphabet n) = Some n ∧
  (b64_char alphabet n ≠ "010"%char ∧ b64_char alphabet n ≠ "013"%char).
Proof.
  unfold alphabet_ok. rewrite <-Is_true_true, forallb_True, Forall_forall. intros H Hn.
  specialize (H n). rewrite elem_of_seqZ, bool_decide_spec in H. apply H. lia.
Qed.
Lemma alphabet_decode alphabet ds : alphabet_ok alphabet = true → Forall (λ n, 0 ≤ n < 64) ds →
  filter (λ c, c ≠ "010"%char ∧ c ≠ "013"%char) (map (b64_char alphabet) ds) =
    map (b64_char alphabet) ds ∧
  mapM (b64_value alphabet) (map (b64_char alphabet) ds) = Some ds.
Proof.
  intros Ha. induction 1 as [|n ds Hn _ [IH1 IH2]]; [done|].
  destruct (alphabet_char _ n Ha Hn) as [Hv Hc]. cbn [map]. split.
  - rewrite filter_cons_True by done. by rewrite IH1.
  - cbn [mapM]. by rewrite Hv, IH2.
Qed.

Lemma raw_decode_encode alphabet l :
  alphabet_ok alphabet = true → raw_decode alphabet (raw_encode alphabet l) = Some (map byte_val l).
Proof.
  intros Ha. unfold raw_decode, raw_encode.
  destruct (alphabet_decode alphabet (sextets (map byte_val l)) Ha) as [-> ->].
  - apply sextets_range, byte_vals_range.
  - apply octets_sextets, byte_vals_range.
Qed.

Lemma RawURLEncoding_round_trip l :
  RawURLEncoding_DecodeString (RawURLEncoding_EncodeToString l) = Some (map byte_val l).
Proof.
  unfold RawURLEncoding_DecodeString, RawURLEncoding_EncodeToString. rewrite to_of_bytes.
  by apply raw_decode_encode.
Qed.

(** ** StdEncoding.DecodeString

    Line ends are skipped, the rest comes in groups of four, and the last one may be padded. *)
Definition strip_pad (l : list ascii) : list ascii :=
  match reverse l with
  | [] => l
  | c :: r =>
      if decide (c = "="%char)
      then match r with d :: r' => if decide (d = "="%char) then reverse r' else reverse r | [] => [] end
      else l
  end.
Definition StdEncoding_DecodeString (s : string) : option (list Z) :=
  let l := filter (λ c, c ≠ "010"%char ∧ c ≠ "013"%char) (to_bytes s) in
  if bool_decide (length l mod 4 = 0)%nat then raw_decode std_alphabet (strip_pad l) else None.

Lemma sextets_length zs : (length (sextets zs) + length (b64_pad (length zs)) = 4 * ((length zs + 2) / 3))%nat.
Proof.
  induction zs as [|a|a b|a b c l IH] using list_3_ind; [done..|].
  cbn [sextets length]. unfold b64_pad in *.
  replace (S (S (S (length l))) mod 3)%nat with (length l mod 3)%nat
    by (replace (S (S (S (length l)))) with (length l + 1 * 3)%nat by lia; by rewrite Nat.Div0.mod_add).
  replace (S (S (S (length l))) + 2)%nat with (length l + 2 + 1 * 3)%nat by lia.
  rewrite Nat.div_add by lia. lia.
Qed.
Lemma encoded_length l :
  length (to_bytes (StdEncoding_EncodeToString l)) = (4 * ((length l + 2) / 3))%nat.
Proof.
  unfold StdEncoding_EncodeToString. rewrite to_of_bytes, length_app. unfold raw_encode. rewrite length_map.
  pose proof (sextets_length (map byte_val l)) as H. by rewrite length_map in H.
Qed.
Lemma strip_pad_raw l n : strip_pad (raw_encode std_alphabet l ++ b64_pad n)%list = raw_encode std_alphabet l.
Proof.
  assert (∀ m c, raw_encode std_alphabet l = (m ++ [c])%list → c ≠ "="%char) as Hc.
  { intros m c E ->. assert ("="%char ∈ raw_encode std_alphabet l) as Hin by (rewrite E; set_solver).
    unfold raw_encode in Hin. apply list_elem_of_fmap in Hin as (x & Hx & Hin).
    pose proof (sextets_range _ (byte_vals_range l)) as Hr. rewrite Forall_forall in Hr.
    destruct (alphabet_char std_alphabet x ltac:(reflexivity) (Hr x Hin)) as [Hv _].
    rewrite <-Hx in Hv. by vm_compute in Hv. }
  unfold strip_pad. rewrite reverse_app.
  destruct (raw_encode std_alphabet l) as [|c m _] eqn:E using rev_ind.
  - unfold b64_pad. by destruct (n mod 3)%nat as [|[|[|k]]].
  - rewrite reverse_snoc. pose proof (Hc _ _ eq_refl) as Hne. unfold b64_pad.
    assert (reverse (c :: reverse m) = m ++ [c])%list as Hm by by rewrite reverse_cons, reverse_involutive.
    destruct (n mod 3)%nat as [|[|[|k]]]; cbn;
      rewrite ?(decide_True (P := "="%char = "="%char)), ?(decide_False (P := c = "="%char)), ?app_nil_r by done;
      first [done|exact Hm].
Qed.
Lemma StdEncoding_round_trip l :
  StdEncoding_DecodeString (StdEncoding_EncodeToString l) = Some (map byte_val l).
Proof.
  unfold StdEncoding_DecodeString.
  assert (filter (λ c, c ≠ "010"%char ∧ c ≠ "013"%char) (to_bytes (StdEncoding_EncodeToString l)) =
    to_bytes (StdEncoding_EncodeToString l)) as ->.
  { unfold StdEncoding_EncodeToString. rewrite to_of_bytes, filter_app. f_equal.
    - unfold raw_encode. by apply alphabet_decode, sextets_range, byte_vals_range.
    - unfold b64_pad. by repeat case_match. }
  rewrite encoded_length, bool_decide_eq_true_2 by (rewrite Nat.mul_comm; apply Nat.Div0.mod_mul).
  unfold StdEncoding_EncodeToString. rewrite to_of_bytes, strip_pad_raw. by apply raw_decode_encode.
Qed.
