(* ===== verification/Netutil.v ===== *)
(** common/netutil/ip.go and common/format/user.go: the two keys everything that
    is counted per user or per device is stored under. *)
From S2P Require Import Prelude GoStrings.
#[local] Open Scope string_scope.
#[local] Open Scope Z_scope.

(** * common/netutil/ip.go *)

(** The zone id of "fe80::1%eth0". *)
Definition strip_zone (ip : string) : string :=
  match split_last "%"%char (to_bytes ip) with
  | Some (a, _) => of_bytes a
  | None => ip
  end.
Definition strip_port (ip : string) : string :=
  match SplitHostPort ip with
  | Some (host, _) => host
  | None => ip
  end.
Definition NormalizeIP (ip : string) : string :=
  let ip := TrimSpace ip in
  if decide (ip = "") then ""
  else
    let ip := strip_zone ip in
    let ip := strip_port ip in
    let ip := TrimPrefix ip "::ffff:" in
    let ip := TrimPrefix ip "::FFFF:" in
    ToLower ip.

Example NormalizeIP_v4 : map NormalizeIP ["1.2.3.4"; "1.2.3.4:443"; "::ffff:1.2.3.4";
    "::FFFF:1.2.3.4"; "[::ffff:1.2.3.4]:443"; " 1.2.3.4 "] =
  ["1.2.3.4"; "1.2.3.4"; "1.2.3.4"; "1.2.3.4"; "1.2.3.4"; "1.2.3.4"].
Proof. reflexivity. Qed.
Example NormalizeIP_v6 : map NormalizeIP ["FE80::1%eth0"; "[2001:DB8::1]:443"; ""; "  "] =
  ["fe80::1"; "2001:db8::1"; ""; ""].
Proof. reflexivity. Qed.

(** * common/format/user.go *)

Definition UserTag (tag uuid : string) : string := tag +:+ "|" +:+ uuid.

#[export] Instance UserTag_inj tag : Inj (=) (=) (UserTag tag).
Proof. intros u1 u2 H. unfold UserTag in H. by apply append_inj_l, (append_inj_l "|") in H. Qed.

Lemma UserTag_nonempty tag uuid : UserTag tag uuid ≠ "".
Proof.
  intros H%to_bytes_empty. unfold UserTag in H. rewrite to_bytes_app in H.
  by apply app_eq_nil in H as [_ ?].
Qed.
#[export] Hint Resolve UserTag_nonempty : yabx.

(** * The forms of one address

    [plain] is what a host or a port is made of in the addresses the cores hand
    over: printable ASCII without the bytes an address is cut at. *)

Definition plain (c : ascii) : Prop :=
  printable c ∧ c ∉ [":"%char; "%"%char; "["%char; "]"%char].
#[export] Instance plain_dec c : Decision (plain c).
Proof. unfold plain. apply _. Defined.

(** Bytes of an address: those, and colons. *)
Definition addr_byte (c : ascii) : Prop := plain c ∨ c = ":"%char.
#[export] Instance addr_byte_dec c : Decision (addr_byte c).
Proof. unfold addr_byte. apply _. Defined.

Section forms.
Implicit Types (l : list ascii) (h p s : string).

Lemma addr_printable l : Forall addr_byte l → Forall printable l.
Proof. intros H. eapply Forall_impl; [exact H|]. by intros c [[? _]| ->]. Qed.

Lemma plain_addr l : Forall plain l → Forall addr_byte l.
Proof. intros H. eapply Forall_impl; [exact H|]. by left. Qed.

Lemma plain_not_elem l c :
  Forall plain l → c ∈ [":"%char; "%"%char; "["%char; "]"%char] → c ∉ l.
Proof. intros H Hc Hin. rewrite Forall_forall in H. by destruct (H _ Hin). Qed.

Lemma addr_not_elem l c :
  Forall addr_byte l → c ∈ ["%"%char; "["%char; "]"%char] → c ∉ l.
Proof.
  intros H Hc Hin. rewrite Forall_forall in H. destruct (H _ Hin) as [[_ Hn]| ->].
  - apply Hn. by constructor.
  - by apply (bool_decide_pack _) in Hc.
Qed.

Lemma TrimSpace_printable s : Forall printable (to_bytes s) → TrimSpace s = s.
Proof. intros H. unfold TrimSpace. by rewrite trim_space_printable, of_to_bytes. Qed.

Lemma strip_zone_none s : "%"%char ∉ to_bytes s → strip_zone s = s.
Proof. intros H. unfold strip_zone. by rewrite (proj2 (split_last_None _ _)). Qed.

Lemma split_host_port_nobracket l :
  Forall addr_byte l →
  split_host_port l =
    (split_last ":"%char l ≫= λ '(before, port),
       if decide (":"%char ∈ before) then None else Some (before, port)).
Proof.
  intros Hl. unfold split_host_port. destruct (split_last _ l) as [[b q]|]; [|done]. simpl.
  assert (∀ c, c ∈ ["["%char; "]"%char] → c ∉ l) as Hn.
  { intros c Hc. apply addr_not_elem; [done|]. by constructor. }
  assert (match l with "["%char :: _ => False | _ => True end) as Hhd.
  { destruct l as [|c l]; [done|].
    destruct (decide (c = "["%char)) as [->|?].
    - exfalso. apply (Hn "["%char); constructor.
    - by repeat (case_match; try done). }
  assert (("["%char ∉ l) ∧ ("]"%char ∉ l)) as [H1 H2].
  { split; apply Hn; [constructor|by apply (bool_decide_unpack _); vm_compute]. }
  rewrite !(decide_False (P := _ ∈ l)) by done.
  by repeat (case_match; try done).
Qed.

Lemma strip_port_bare h : Forall plain (to_bytes h) → strip_port h = h.
Proof.
  intros Hh. unfold strip_port, SplitHostPort.
  rewrite split_host_port_nobracket by (by apply plain_addr).
  rewrite (proj2 (split_last_None _ _)); [done|]. apply plain_not_elem; [done|constructor].
Qed.

Lemma strip_port_hostport h p :
  Forall plain (to_bytes h) → Forall plain (to_bytes p) → strip_port (h +:+ ":" +:+ p) = h.
Proof.
  intros Hh Hp. unfold strip_port, SplitHostPort.
  rewrite !to_bytes_app. rewrite split_host_port_nobracket.
  2: { rewrite !Forall_app. split_and!; [by apply plain_addr| |by apply plain_addr].
       by repeat constructor; right. }
  rewrite (proj2 (split_last_Some ":"%char _ (to_bytes h) (to_bytes p))).
  - simpl. rewrite decide_False by (apply plain_not_elem; [done|constructor]).
    simpl. by rewrite of_to_bytes.
  - split; [done|]. apply plain_not_elem; [done|constructor].
Qed.

(** A bare IPv6 address has two colons: no port is cut off. *)
Lemma strip_port_two_colons a b c :
  Forall addr_byte (to_bytes a) → Forall addr_byte (to_bytes b) →
  Forall plain (to_bytes c) →
  strip_port (a +:+ ":" +:+ b +:+ ":" +:+ c) = a +:+ ":" +:+ b +:+ ":" +:+ c.
Proof.
  intros Ha Hb Hc. unfold strip_port, SplitHostPort.
  rewrite !to_bytes_app. rewrite split_host_port_nobracket.
  2: { rewrite !Forall_app. split_and!; try done; [..|by apply plain_addr];
       by repeat constructor; right. }
  rewrite (proj2 (split_last_Some ":"%char _
    (to_bytes a ++ to_bytes ":" ++ to_bytes b)%list (to_bytes c))).
  - simpl. rewrite decide_True; [done|]. rewrite !elem_of_app. right. by left; constructor.
  - rewrite <-!(assoc_L (++)%list). split; [done|]. apply plain_not_elem; [done|constructor].
Qed.

Lemma TrimPrefix_plain h p :
  Forall plain (to_bytes h) → head (to_bytes p) = Some ":"%char → TrimPrefix h p = h.
Proof.
  intros Hh Hp. unfold TrimPrefix. destruct (to_bytes p) as [|c q]; simplify_eq/=.
  destruct (to_bytes h) as [|d k] eqn:E; simpl; [done|].
  rewrite decide_False; [done|]. intros <-. inversion Hh as [|?? [_ Hd]]; subst.
  apply Hd. constructor.
Qed.

Lemma TrimPrefix_app h p : TrimPrefix (p +:+ h) p = h.
Proof. unfold TrimPrefix. rewrite to_bytes_app, strip_prefix_app. apply of_to_bytes. Qed.
End forms.

(** The common tail of [NormalizeIP] on the addresses it is given. *)
Lemma NormalizeIP_addr s :
  to_bytes s ≠ [] → Forall printable (to_bytes s) → "%"%char ∉ to_bytes s →
  NormalizeIP s = ToLower (TrimPrefix (TrimPrefix (strip_port s) "::ffff:") "::FFFF:").
Proof.
  intros Hs Hp Hz. unfold NormalizeIP. rewrite TrimSpace_printable by done.
  rewrite decide_False by (by intros ?%to_bytes_empty). by rewrite strip_zone_none.
Qed.

Lemma NormalizeIP_host h :
  h ≠ "" → Forall plain (to_bytes h) → NormalizeIP h = ToLower h.
Proof.
  intros Hh Hp. rewrite NormalizeIP_addr.
  - rewrite strip_port_bare by done. by rewrite !(TrimPrefix_plain h).
  - by rewrite to_bytes_empty.
  - by apply addr_printable, plain_addr.
  - apply plain_not_elem; [done|]. by do 2 constructor.
Qed.

Lemma NormalizeIP_host_port h p :
  h ≠ "" → Forall plain (to_bytes h) → Forall plain (to_bytes p) →
  NormalizeIP (h +:+ ":" +:+ p) = ToLower h.
Proof.
  intros Hh Hp Hq. rewrite NormalizeIP_addr.
  - rewrite strip_port_hostport by done. by rewrite !(TrimPrefix_plain h).
  - rewrite to_bytes_app. intros [? _]%app_eq_nil. by apply Hh, to_bytes_empty.
  - rewrite !to_bytes_app, !Forall_app. split_and!; try by apply addr_printable, plain_addr.
    by repeat constructor.
  - rewrite !to_bytes_app, !not_elem_of_app. split_and!;
      try (apply plain_not_elem; [done|by do 2 constructor]).
    by apply (bool_decide_unpack _); vm_compute.
Qed.

(** The IPv4-mapped prefix, in either case, is removed from a bare address. *)
Lemma NormalizeIP_mapped h pre :
  h ≠ "" → Forall plain (to_bytes h) → pre = "::ffff:" ∨ pre = "::FFFF:" →
  NormalizeIP (pre +:+ h) = ToLower h.
Proof.
  intros Hh Hp Hpre. rewrite NormalizeIP_addr.
  - assert (strip_port (pre +:+ h) = pre +:+ h) as ->.
    { by destruct Hpre as [-> | ->];
        [apply (strip_port_two_colons "" ":ffff" h)|apply (strip_port_two_colons "" ":FFFF" h)];
        try done; apply (bool_decide_unpack _); vm_compute. }
    destruct Hpre as [-> | ->].
    + by rewrite TrimPrefix_app, TrimPrefix_plain.
    + change (TrimPrefix ("::FFFF:" +:+ h) "::ffff:") with ("::FFFF:" +:+ h).
      by rewrite TrimPrefix_app.
  - by destruct Hpre as [-> | ->].
  - rewrite to_bytes_app, Forall_app. split.
    + destruct Hpre as [-> | ->]; apply (bool_decide_unpack _); by vm_compute.
    + by apply addr_printable, plain_addr.
  - rewrite to_bytes_app, not_elem_of_app. split.
    + destruct Hpre as [-> | ->]; apply (bool_decide_unpack _); by vm_compute.
    + apply plain_not_elem; [done|]. by do 2 constructor.
Qed.

(** * Properties *)

(** One client is one device: an address, the address with a port and the
    two spellings of its IPv4-mapped form normalize to the same string, the lower
    case of the address itself. *)
Theorem normalize_one_device (h p : string) :
  h ≠ "" → Forall plain (to_bytes h) → Forall plain (to_bytes p) →
  NormalizeIP h = ToLower h ∧
  NormalizeIP (h +:+ ":" +:+ p) = ToLower h ∧
  NormalizeIP ("::ffff:" +:+ h) = ToLower h ∧
  NormalizeIP ("::FFFF:" +:+ h) = ToLower h.
Proof.
  intros Hh Hp Hq. split_and!.
  - by apply NormalizeIP_host.
  - by apply NormalizeIP_host_port.
  - apply NormalizeIP_mapped; auto.
  - apply NormalizeIP_mapped; auto.
Qed.

Lemma normalize_one_device_witness :
  NormalizeIP "203.0.113.9" = "203.0.113.9" ∧
  NormalizeIP ("203.0.113.9" +:+ ":" +:+ "443") = "203.0.113.9" ∧
  NormalizeIP ("::ffff:" +:+ "203.0.113.9") = "203.0.113.9" ∧
  NormalizeIP ("::FFFF:" +:+ "203.0.113.9") = "203.0.113.9".
Proof.
  apply (normalize_one_device "203.0.113.9" "443"); [done|..];
    by apply (bool_decide_unpack _); vm_compute.
Defined.
