(* ===== verification/ConnLimiter.v ===== *)
(** limiter/conn.go: the per user limits on TCP connections and on addresses.

    The two [sync.Map]s are finite maps.  The values of the inner address map
    are dynamically typed in the code ([int] for a realtime limiter,
    [time.Time] otherwise): [ip_val] keeps both, and the type assertions that
    would panic do so here. *)
From S2P Require Import Prelude.
#[local] Open Scope Z_scope.

Definition nonRealtimeOnlineTTL : Z := 5 * Minute.

Inductive ip_val :=
| IPCount (n : Z)
| IPTime (t : Z).
#[export] Instance ip_val_eq_dec : EqDecision ip_val.
Proof. solve_decision. Defined.

Record ConnLimiter := MkConnLimiter {
  cl_realtime : bool;
  cl_ipLimit : Z;
  cl_connLimit : Z;
  cl_onlineTTL : Z;
  cl_count : gmap string Z;
  cl_ip : gmap string (gmap string ip_val)
}.

Definition cl_set_count (m : gmap string Z) (c : ConnLimiter) : ConnLimiter :=
  MkConnLimiter (cl_realtime c) (cl_ipLimit c) (cl_connLimit c) (cl_onlineTTL c) m (cl_ip c).
Definition cl_set_ip (m : gmap string (gmap string ip_val)) (c : ConnLimiter) : ConnLimiter :=
  MkConnLimiter (cl_realtime c) (cl_ipLimit c) (cl_connLimit c) (cl_onlineTTL c) (cl_count c) m.

(** * The operations *)

Definition addConnCount (c : ConnLimiter) (user : string) (isTcp : bool) : ConnLimiter :=
  if bool_decide (cl_connLimit c = 0) || negb isTcp then c
  else match cl_count c !! user with
       | Some v => cl_set_count (<[user := v + 1]> (cl_count c)) c
       | None => cl_set_count (<[user := 1]> (cl_count c)) c
       end.

Definition delConnCount (c : ConnLimiter) (user : string) : ConnLimiter :=
  if bool_decide (cl_connLimit c = 0) then c
  else match cl_count c !! user with
       | Some n =>
           if bool_decide (n ≤ 1) then cl_set_count (delete user (cl_count c)) c
           else cl_set_count (<[user := n - 1]> (cl_count c)) c
       | None => c
       end.

Definition NewConnLimiter (conn ip : Z) (realtime : bool) (onlineTTL : Z) : ConnLimiter :=
  let onlineTTL := if bool_decide (onlineTTL ≤ 0) then nonRealtimeOnlineTTL else onlineTTL in
  MkConnLimiter realtime ip conn onlineTTL ∅ ∅.

Definition cl_SetOnlineTTL (c : ConnLimiter) (ttl : Z) : ConnLimiter :=
  if bool_decide (ttl ≤ 0) then c
  else MkConnLimiter (cl_realtime c) (cl_ipLimit c) (cl_connLimit c) ttl (cl_count c) (cl_ip c).

(** The [Range] of [storeIP]: count the entries and stop at the limit. *)
Fixpoint range_reaches {A} (limit cn : Z) (l : list A) : bool :=
  match l with
  | [] => false
  | _ :: l => if bool_decide (limit ≤ cn + 1) then true else range_reaches limit (cn + 1) l
  end.

(** The result is the answer (true when the address limit rejects) and the
    address map of the user. *)
Definition storeIP (c : ConnLimiter) (ips : gmap string ip_val) (ip : string)
    (isTcp : bool) (now : Z) : option (bool * gmap string ip_val) :=
  match ips !! ip with
  | Some online =>
      if cl_realtime c then
        if isTcp then
          match online with
          | IPCount n => Some (false, <[ip := IPCount (n + 2)]> ips)
          | IPTime _ => panic
          end
        else Some (false, ips)
      else Some (false, <[ip := IPTime now]> ips)
  | None =>
      if bool_decide (0 < cl_ipLimit c) && range_reaches (cl_ipLimit c) 0 (map_to_list ips)
      then Some (true, ips)
      else if cl_realtime c
           then Some (false, <[ip := IPCount (if isTcp then 2 else 1)]> ips)
           else Some (false, <[ip := IPTime now]> ips)
  end.

Definition AddConnCount (c : ConnLimiter) (user ip : string) (isTcp : bool) (now : Z)
    : option (bool * ConnLimiter) :=
  if negb (bool_decide (cl_connLimit c = 0)) &&
     match cl_count c !! user with
     | Some v => bool_decide (cl_connLimit c ≤ v)
     | None => false
     end
  then Some (true, c)
  else
    let c := addConnCount c user isTcp in
    let ips := default ∅ (cl_ip c !! user) in
    '(limit, ips) ← storeIP c ips ip isTcp now;
    let c := cl_set_ip (<[user := ips]> (cl_ip c)) c in
    if limit : bool then Some (true, delConnCount c user) else Some (false, c).

Definition DelConnCount (c : ConnLimiter) (user ip : string) : option ConnLimiter :=
  let c := delConnCount c user in
  if negb (cl_realtime c) then Some c
  else if bool_decide (cl_ipLimit c = 0) then Some c
  else match cl_ip c !! user with
       | None => Some c
       | Some ips =>
           match ips !! ip with
           | None => Some c
           | Some (IPTime _) => panic
           | Some (IPCount n) =>
               let ips := if bool_decide (n = 2) then delete ip ips
                          else <[ip := IPCount (n - 2)]> ips in
               if bool_decide (ips = ∅)
               then Some (cl_set_ip (delete user (cl_ip c)) c)
               else Some (cl_set_ip (<[user := ips]> (cl_ip c)) c)
           end
       end.

(** [keep_ip]: the entry survives the sweep. *)
Definition keep_ip (c : ConnLimiter) (now : Z) (v : ip_val) : bool :=
  match v with
  | IPCount n => negb (bool_decide (n = 1))
  | IPTime t => negb (bool_decide (t < now - cl_onlineTTL c))
  end.
Definition cl_ClearOnlineIP (c : ConnLimiter) (now : Z) : ConnLimiter :=
  cl_set_ip
    (omap (λ userIp : gmap string ip_val,
       let notDel := existsb (keep_ip c now ∘ snd) (map_to_list userIp) in
       let userIp := filter (λ kv, keep_ip c now kv.2 = true) userIp in
       if negb notDel || bool_decide (userIp = ∅) then None else Some userIp)
     (cl_ip c)) c.

(** * Histories *)

Inductive cl_op :=
| OpAdd (user ip : string) (isTcp : bool) (now : Z)
| OpDel (user ip : string)
| OpSweep (now : Z)
| OpTTL (ttl : Z).

Definition cl_exec (c : ConnLimiter) (o : cl_op) : option ConnLimiter :=
  match o with
  | OpAdd user ip isTcp now => snd <$> AddConnCount c user ip isTcp now
  | OpDel user ip => DelConnCount c user ip
  | OpSweep now => Some (cl_ClearOnlineIP c now)
  | OpTTL ttl => Some (cl_SetOnlineTTL c ttl)
  end.
Fixpoint cl_run (c : ConnLimiter) (os : list cl_op) : option ConnLimiter :=
  match os with
  | [] => Some c
  | o :: os => c ← cl_exec c o; cl_run c os
  end.

(** * Vocabulary of the theorems *)

Definition ip_full (c : ConnLimiter) (ips : gmap string ip_val) : Prop :=
  0 < cl_ipLimit c ∧ cl_ipLimit c ≤ Z.of_nat (size ips).
#[export] Instance ip_full_dec c ips : Decision (ip_full c ips).
Proof. unfold ip_full. apply _. Defined.

(** [over_conn]: the test that opens [AddConnCount]. *)
Definition over_conn (c : ConnLimiter) (user : string) : Prop :=
  cl_connLimit c ≠ 0 ∧
  match cl_count c !! user with Some v => cl_connLimit c ≤ v | None => False end.
#[export] Instance over_conn_dec c user : Decision (over_conn c user).
Proof. unfold over_conn. destruct (cl_count c !! user); apply _. Defined.

(** The value a new address gets. *)
Definition fresh_ip (c : ConnLimiter) (isTcp : bool) (now : Z) : ip_val :=
  if cl_realtime c then IPCount (if isTcp then 2 else 1) else IPTime now.

(** What the sweep leaves of one address map. *)
Definition sweep_ips (c : ConnLimiter) (now : Z) (ips : gmap string ip_val)
    : gmap string ip_val := filter (λ kv, keep_ip c now kv.2 = true) ips.

Definition ip_typed (rt : bool) (v : ip_val) : Prop :=
  match v with IPCount _ => rt = true | IPTime _ => rt = false end.

Record cl_inv (c : ConnLimiter) : Prop := {
  inv_typed user ips : cl_ip c !! user = Some ips →
    map_Forall (λ _ v, ip_typed (cl_realtime c) v) ips;
  inv_count user n : 0 < cl_connLimit c → cl_count c !! user = Some n →
    1 ≤ n ≤ cl_connLimit c;
  inv_size user ips : cl_ip c !! user = Some ips → 0 < cl_ipLimit c →
    Z.of_nat (size ips) ≤ cl_ipLimit c
}.

(** The system: the limiter and the accepted TCP connections that are open,
    each with its user and address. A history in which no packet session is
    turned away by the address limit. *)
Inductive conn_step : ConnLimiter * list (string * string) → ConnLimiter * list (string * string) → Prop :=
| step_open c c' cs user ip now :
    AddConnCount c user ip true now = Some (false, c') →
    conn_step (c, cs) (c', (user, ip) :: cs)
| step_reject c c' cs user ip now :
    AddConnCount c user ip true now = Some (true, c') →
    conn_step (c, cs) (c', cs)
| step_packet c c' cs user ip now :
    AddConnCount c user ip false now = Some (false, c') →
    conn_step (c, cs) (c', cs)
| step_close c c' cs1 cs2 user ip :
    DelConnCount c user ip = Some c' →
    conn_step (c, cs1 ++ (user, ip) :: cs2)%list (c', cs1 ++ cs2)%list
| step_sweep c cs now :
    conn_step (c, cs) (cl_ClearOnlineIP c now, cs)
| step_ttl c cs ttl :
    conn_step (c, cs) (cl_SetOnlineTTL c ttl, cs).

(** The entry of one address of a user. *)
Definition ip_at (c : ConnLimiter) (user ip : string) : option ip_val :=
  cl_ip c !! user ≫= lookup ip.

(** The open connections of a user, and of one of its addresses. *)
Definition conns_of (user : string) (cs : list (string * string)) : nat :=
  length (filter (λ p, p.1 = user) cs).
Definition conns_at (user ip : string) (cs : list (string * string)) : nat :=
  length (filter (λ p, p = (user, ip)) cs).

(** What the limiter knows of [n] open connections: the counter of the user, and
    in realtime mode twice the number for the address, plus one when a packet
    session opened the entry. *)
Definition count_tracks (n : nat) (v : option Z) : Prop :=
  v = match n with O => None | S _ => Some (Z.of_nat n) end.
Definition ip_tracks (n : nat) (v : option ip_val) : Prop :=
  match v with
  | None => n = 0%nat
  | Some (IPCount m) => (0 < n)%nat ∧ m = 2 * Z.of_nat n ∨ m = 2 * Z.of_nat n + 1
  | Some (IPTime _) => False
  end.
Record accounts (s : ConnLimiter * list (string * string)) : Prop := {
  acc_count user : cl_connLimit s.1 ≠ 0 →
    count_tracks (conns_of user s.2) (cl_count s.1 !! user);
  acc_ip user ip : cl_realtime s.1 = true → cl_ipLimit s.1 ≠ 0 →
    ip_tracks (conns_at user ip s.2) (ip_at s.1 user ip)
}.

(** * The address limit is a bound on the size of the map *)

Lemma range_reaches_length {A} (limit cn : Z) (l : list A) :
  cn < limit →
  range_reaches limit cn l = bool_decide (limit ≤ cn + Z.of_nat (length l)).
Proof.
  revert cn. induction l as [|x l IH]; intros cn Hcn; simpl.
  - by rewrite bool_decide_eq_false_2 by lia.
  - case_bool_decide.
    + rewrite bool_decide_eq_true_2 by lia. done.
    + rewrite IH by lia. apply bool_decide_ext. lia.
Qed.

Lemma storeIP_full_eq c ips :
  bool_decide (0 < cl_ipLimit c) && range_reaches (cl_ipLimit c) 0 (map_to_list ips)
  = bool_decide (ip_full c ips).
Proof.
  unfold ip_full. case_bool_decide; simpl.
  - rewrite range_reaches_length by done. rewrite length_map_to_list.
    apply bool_decide_ext. lia.
  - rewrite bool_decide_eq_false_2; [done|]. lia.
Qed.

Lemma storeIP_new c ips ip isTcp now :
  ips !! ip = None →
  storeIP c ips ip isTcp now =
    if decide (ip_full c ips) then Some (true, ips)
    else Some (false, <[ip := fresh_ip c isTcp now]> ips).
Proof.
  intros H. unfold storeIP, fresh_ip. rewrite H, storeIP_full_eq.
  case_bool_decide; [by rewrite decide_True|]. rewrite decide_False by done.
  by destruct (cl_realtime c).
Qed.

(** * The invariant *)

Lemma cl_inv_new conn ip rt ttl : cl_inv (NewConnLimiter conn ip rt ttl).
Proof. by split. Qed.

Lemma cl_inv_set_count c m :
  cl_inv c →
  (∀ user n, 0 < cl_connLimit c → m !! user = Some n → 1 ≤ n ≤ cl_connLimit c) →
  cl_inv (cl_set_count m c).
Proof. intros [???] Hm. by split. Qed.

Lemma cl_inv_insert_ip c user ips :
  cl_inv c →
  map_Forall (λ _ v, ip_typed (cl_realtime c) v) ips →
  (0 < cl_ipLimit c → Z.of_nat (size ips) ≤ cl_ipLimit c) →
  cl_inv (cl_set_ip (<[user := ips]> (cl_ip c)) c).
Proof.
  intros [???] Ht Hs. split; simpl; [|done|];
    intros u ips'; case_lookup; naive_solver.
Qed.

Lemma cl_inv_delete_ip c user :
  cl_inv c → cl_inv (cl_set_ip (delete user (cl_ip c)) c).
Proof. intros [???]. split; simpl; [|done|]; intros u ips'; case_lookup; naive_solver. Qed.

(** The address map [AddConnCount] starts from. *)
Lemma cl_inv_ips c user :
  cl_inv c →
  map_Forall (λ _ v, ip_typed (cl_realtime c) v) (default ∅ (cl_ip c !! user)) ∧
  (0 < cl_ipLimit c → Z.of_nat (size (default ∅ (cl_ip c !! user))) ≤ cl_ipLimit c).
Proof.
  intros [???]. destruct (cl_ip c !! user) eqn:E; simpl; [naive_solver|].
  split; [apply map_Forall_empty|]. intros. rewrite map_size_empty. lia.
Qed.

(** Only the connection limit, the mode and the address limit matter to
    [storeIP], and the counters leave them alone. *)
Lemma addConnCount_fields c user isTcp :
  let c' := addConnCount c user isTcp in
  cl_realtime c' = cl_realtime c ∧ cl_ipLimit c' = cl_ipLimit c ∧
  cl_connLimit c' = cl_connLimit c ∧ cl_onlineTTL c' = cl_onlineTTL c ∧ cl_ip c' = cl_ip c.
Proof. unfold addConnCount. by repeat case_match. Qed.

Lemma delConnCount_fields c user :
  let c' := delConnCount c user in
  cl_realtime c' = cl_realtime c ∧ cl_ipLimit c' = cl_ipLimit c ∧
  cl_connLimit c' = cl_connLimit c ∧ cl_onlineTTL c' = cl_onlineTTL c ∧ cl_ip c' = cl_ip c.
Proof. unfold delConnCount. by repeat case_match. Qed.

Lemma cl_inv_addConnCount c user isTcp :
  cl_inv c → ¬ over_conn c user → cl_inv (addConnCount c user isTcp).
Proof.
  intros Hc Hn. unfold addConnCount. case_bool_decide; simpl; [done|].
  destruct isTcp; simpl; [|done].
  destruct (cl_count c !! user) as [v|] eqn:E; apply cl_inv_set_count; try done;
    intros u n Hpos; case_lookup; [|by apply Hc| |by apply Hc]; intros [= <-].
  - pose proof (inv_count _ Hc _ _ Hpos E).
    assert (v < cl_connLimit c); [|lia].
    apply Z.nle_gt. intros ?. apply Hn. split; [lia|]. by rewrite E.
  - lia.
Qed.

Lemma cl_inv_delConnCount c user : cl_inv c → cl_inv (delConnCount c user).
Proof.
  intros Hc. unfold delConnCount. case_bool_decide; [done|].
  destruct (cl_count c !! user) as [v|] eqn:E; [|done].
  case_bool_decide; apply cl_inv_set_count; try done;
    intros u n Hpos; case_lookup; try done; try by apply Hc.
  intros [= <-]. pose proof (inv_count _ Hc _ _ Hpos E). lia.
Qed.

(** [storeIP] never panics and keeps the address map within bounds. *)
Lemma storeIP_ok c ips ip isTcp now :
  map_Forall (λ _ v, ip_typed (cl_realtime c) v) ips →
  (0 < cl_ipLimit c → Z.of_nat (size ips) ≤ cl_ipLimit c) →
  ∃ limit ips', storeIP c ips ip isTcp now = Some (limit, ips') ∧
    (limit = true → ips' = ips ∧ ip_full c ips ∧ ips !! ip = None) ∧
    map_Forall (λ _ v, ip_typed (cl_realtime c) v) ips' ∧
    (0 < cl_ipLimit c → Z.of_nat (size ips') ≤ cl_ipLimit c).
Proof.
  intros Ht Hs. destruct (ips !! ip) as [v|] eqn:E.
  - unfold storeIP. rewrite E. pose proof (Ht _ _ E) as Hv.
    assert (∀ w, ip_typed (cl_realtime c) w →
      map_Forall (λ _ v, ip_typed (cl_realtime c) v) (<[ip := w]> ips) ∧
      size (<[ip := w]> ips) = size ips) as Hins.
    { intros w Hw. split; [by apply map_Forall_insert_2|].
      by apply map_size_insert_Some. }
    destruct (cl_realtime c) eqn:Ert.
    + destruct isTcp; [|by eexists _, _].
      destruct v as [n|t]; [|done].
      destruct (Hins (IPCount (n + 2))) as [? Hsz]; [done|].
      eexists _, _. split_and!; [done..|]. by rewrite Hsz.
    + destruct (Hins (IPTime now)) as [? Hsz]; [done|].
      eexists _, _. split_and!; [done..|]. by rewrite Hsz.
  - rewrite storeIP_new by done. case_decide as Hfull; [by eexists _, _|].
    eexists _, _. split_and!; [done..| |].
    + apply map_Forall_insert_2; [|done]. unfold fresh_ip, ip_typed.
      by destruct (cl_realtime c).
    + intros Hpos. rewrite map_size_insert_None by done. unfold ip_full in Hfull. lia.
Qed.

(** The definition of [AddConnCount] with its opening test as a decision. *)
Lemma AddConnCount_eq c user ip isTcp now :
  AddConnCount c user ip isTcp now =
    if decide (over_conn c user) then Some (true, c)
    else
      let c1 := addConnCount c user isTcp in
      '(limit, ips) ← storeIP c (default ∅ (cl_ip c !! user)) ip isTcp now;
      let c2 := cl_set_ip (<[user := ips]> (cl_ip c)) c1 in
      Some (limit, if limit : bool then delConnCount c2 user else c2).
Proof.
  unfold AddConnCount.
  destruct (addConnCount_fields c user isTcp) as (E1 & E2 & E3 & E4 & E5).
  assert (∀ ips, storeIP (addConnCount c user isTcp) ips ip isTcp now
    = storeIP c ips ip isTcp now) as Heq.
  { intros ips. unfold storeIP. by rewrite E1, E2. }
  rewrite Heq, E5.
  match goal with |- (if ?b then _ else ?e) = _ => set (test := b) end.
  assert (test = bool_decide (over_conn c user)) as ->.
  { unfold test, over_conn. apply eq_bool_prop_intro. rewrite bool_decide_spec.
    destruct (cl_count c !! user); repeat case_bool_decide; naive_solver. }
  case_bool_decide as Hov; [by rewrite decide_True|]. rewrite decide_False by done.
  destruct (storeIP c _ ip isTcp now) as [[limit ips]|]; simpl; [|done].
  by destruct limit.
Qed.

Lemma cl_inv_AddConnCount c user ip isTcp now :
  cl_inv c → ∃ limit c', AddConnCount c user ip isTcp now = Some (limit, c') ∧ cl_inv c'.
Proof.
  intros Hc. rewrite AddConnCount_eq. case_decide as Hov; [by eexists _, _|].
  destruct (cl_inv_ips c user) as [Ht Hs]; [done|].
  destruct (storeIP_ok c _ ip isTcp now Ht Hs) as (limit & ips & -> & _ & Ht' & Hs'). simpl.
  destruct (addConnCount_fields c user isTcp) as (E1 & E2 & E3 & E4 & E5).
  assert (cl_inv (cl_set_ip (<[user:=ips]> (cl_ip c)) (addConnCount c user isTcp))).
  { rewrite <-E5. apply cl_inv_insert_ip; [by apply cl_inv_addConnCount|by rewrite E1|by rewrite E2]. }
  eexists _, _. split; [done|]. destruct limit; [by apply cl_inv_delConnCount|done].
Qed.

Lemma cl_inv_DelConnCount c user ip :
  cl_inv c → ∃ c', DelConnCount c user ip = Some c' ∧ cl_inv c'.
Proof.
  intros Hc%(cl_inv_delConnCount _ user). unfold DelConnCount.
  set (c1 := delConnCount c user) in *.
  destruct (cl_realtime c1) eqn:Ert; simpl; [|by eexists]. case_bool_decide; [by eexists|].
  destruct (cl_ip c1 !! user) as [ips|] eqn:E; [|by eexists].
  destruct (ips !! ip) as [[n|t]|] eqn:E'; [| |by eexists].
  - set (ips' := if bool_decide (n = 2) then delete ip ips else <[ip:=IPCount (n - 2)]> ips).
    assert (map_Forall (λ _ v, ip_typed (cl_realtime c1) v) ips' ∧
      Z.of_nat (size ips') ≤ Z.of_nat (size ips)) as [Ht Hsz].
    { pose proof (inv_typed _ Hc _ _ E) as Ht. unfold ips'. case_bool_decide.
      - split; [by apply map_Forall_delete|]. rewrite map_size_delete, E'. lia.
      - split; [by apply map_Forall_insert_2|]. by erewrite map_size_insert_Some. }
    case_bool_decide; eexists; (split; [done|]); [by apply cl_inv_delete_ip|].
    apply cl_inv_insert_ip; [done..|]. intros Hpos.
    pose proof (inv_size _ Hc _ _ E Hpos). lia.
  - pose proof (inv_typed _ Hc _ _ E _ _ E'). simpl in *. congruence.
Qed.

Lemma cl_ClearOnlineIP_lookup c now user :
  cl_ip (cl_ClearOnlineIP c now) !! user =
    ips ← cl_ip c !! user;
    if decide (sweep_ips c now ips = ∅) then None else Some (sweep_ips c now ips).
Proof.
  unfold cl_ClearOnlineIP. simpl. rewrite lookup_omap.
  destruct (cl_ip c !! user) as [ips|]; simpl; [|done].
  fold (sweep_ips c now ips).
  assert (sweep_ips c now ips ≠ ∅ →
    existsb (keep_ip c now ∘ snd) (map_to_list ips) = true) as Hex.
  { intros (k & v & [Hl Hk]%map_lookup_filter_Some)%map_choose. apply existsb_exists.
    exists (k, v). split; [|done]. by apply list_elem_of_In, elem_of_map_to_list. }
  case_decide as Hd.
  - rewrite (bool_decide_eq_true_2 _ Hd). by rewrite orb_true_r.
  - rewrite Hex by done. by rewrite (bool_decide_eq_false_2 _ Hd).
Qed.

Lemma cl_inv_sweep c now : cl_inv c → cl_inv (cl_ClearOnlineIP c now).
Proof.
  intros [Ht Hc Hs]. split; [| done |]; intros user ips; rewrite cl_ClearOnlineIP_lookup;
    destruct (cl_ip c !! user) as [ips0|] eqn:E; simpl; try done;
    case_decide; intros [= <-]; simpl.
  - intros k v [Hk _]%map_lookup_filter_Some. by apply (Ht _ _ E k).
  - intros Hpos. pose proof (map_size_filter (λ kv, keep_ip c now kv.2 = true) ips0).
    specialize (Hs _ _ E Hpos). unfold sweep_ips. lia.
Qed.

Lemma cl_inv_exec c o : cl_inv c → ∃ c', cl_exec c o = Some c' ∧ cl_inv c'.
Proof.
  intros Hc. destruct o as [user ip isTcp now|user ip|now|ttl]; simpl.
  - destruct (cl_inv_AddConnCount c user ip isTcp now) as (l & c' & -> & ?); [done|]. by eexists.
  - by apply cl_inv_DelConnCount.
  - eexists. split; [done|]. by apply cl_inv_sweep.
  - eexists. split; [done|]. unfold cl_SetOnlineTTL. case_bool_decide; [done|].
    by destruct Hc.
Qed.

Lemma cl_run_inv c os : cl_inv c → ∃ c', cl_run c os = Some c' ∧ cl_inv c'.
Proof.
  revert c. induction os as [|o os IH]; intros c Hc; simpl; [by eexists|].
  destruct (cl_inv_exec c o Hc) as (c' & -> & ?). simpl. by apply IH.
Qed.

(** * Accounting *)

Lemma AddConnCount_accept c c' user ip isTcp now :
  AddConnCount c user ip isTcp now = Some (false, c') →
  ¬ over_conn c user ∧ ∃ ips,
    storeIP c (default ∅ (cl_ip c !! user)) ip isTcp now = Some (false, ips) ∧
    c' = cl_set_ip (<[user := ips]> (cl_ip c)) (addConnCount c user isTcp).
Proof.
  rewrite AddConnCount_eq. case_decide; [done|].
  destruct (storeIP _ _ _ _ _) as [[[] ips]|]; simpl; [done| |done].
  intros [= <-]. eauto.
Qed.

Lemma storeIP_reject c ips ip isTcp now ips' :
  storeIP c ips ip isTcp now = Some (true, ips') →
  ips' = ips ∧ ip_full c ips ∧ ips !! ip = None.
Proof.
  destruct (ips !! ip) as [v|] eqn:E.
  - unfold storeIP. rewrite E. by repeat (case_match; try done).
  - rewrite storeIP_new by done. case_decide; [|done]. by intros [= <-].
Qed.

Lemma ip_full_lookup c user :
  ip_full c (default ∅ (cl_ip c !! user)) →
  <[user := default ∅ (cl_ip c !! user)]> (cl_ip c) = cl_ip c.
Proof.
  intros [? Hs]. destruct (cl_ip c !! user) eqn:E; simpl in *; [by apply insert_id|].
  rewrite map_size_empty in Hs. lia.
Qed.

(** A rejected connection: either the connection limit turns it away at once, or
    the address limit does, and then the counter goes up and down again. *)
Lemma AddConnCount_reject c c' user ip isTcp now :
  AddConnCount c user ip isTcp now = Some (true, c') →
  over_conn c user ∧ c' = c ∨
  ¬ over_conn c user ∧ ip_full c (default ∅ (cl_ip c !! user)) ∧
    ip_at c user ip = None ∧ c' = delConnCount (addConnCount c user isTcp) user.
Proof.
  rewrite AddConnCount_eq. case_decide; [naive_solver|].
  destruct (storeIP _ _ _ _ _) as [[[] ips]|] eqn:E; simpl; [|done..].
  apply storeIP_reject in E as (-> & Hf & Hn). intros [= <-]. right.
  split_and!; [done..| |].
  - unfold ip_at. by destruct (cl_ip c !! user).
  - rewrite ip_full_lookup by done. f_equal.
    destruct (addConnCount_fields c user isTcp) as (_ & _ & _ & _ & E5).
    rewrite <-E5. by destruct (addConnCount c user isTcp).
Qed.

Lemma del_add_ConnCount c user :
  (∀ n, cl_connLimit c ≠ 0 → cl_count c !! user = Some n → 1 ≤ n) →
  delConnCount (addConnCount c user true) user = c.
Proof.
  intros Hn. unfold delConnCount, addConnCount.
  destruct (decide (cl_connLimit c = 0)) as [Hl|Hl].
  { by rewrite (bool_decide_eq_true_2 (cl_connLimit c = 0)) by done; simpl;
      rewrite bool_decide_eq_true_2 by done. }
  rewrite (bool_decide_eq_false_2 (cl_connLimit c = 0)) by done. simpl.
  destruct (cl_count c !! user) as [v|] eqn:E; simpl;
    rewrite bool_decide_eq_false_2 by done; rewrite lookup_insert_eq; simpl.
  - specialize (Hn _ Hl eq_refl). rewrite bool_decide_eq_false_2 by lia.
    rewrite insert_insert_eq. replace (v + 1 - 1) with v by lia.
    rewrite insert_id by done. by destruct c.
  - rewrite delete_insert_eq, delete_id by done.
    by destruct c.
Qed.

Lemma addConnCount_lookup c user u :
  cl_connLimit c ≠ 0 →
  cl_count (addConnCount c user true) !! u =
    if decide (user = u) then Some (default 0 (cl_count c !! user) + 1) else cl_count c !! u.
Proof.
  intros Hl. unfold addConnCount. rewrite bool_decide_eq_false_2 by done. simpl.
  destruct (cl_count c !! user); simpl; by rewrite lookup_insert.
Qed.

Lemma delConnCount_lookup c user u :
  cl_connLimit c ≠ 0 →
  cl_count (delConnCount c user) !! u =
    if decide (user = u) then
      n ← cl_count c !! user; if decide (n ≤ 1) then None else Some (n - 1)
    else cl_count c !! u.
Proof.
  intros Hl. unfold delConnCount. rewrite bool_decide_eq_false_2 by done.
  destruct (cl_count c !! user) as [n|] eqn:E; simpl.
  - case_bool_decide; simpl.
    + rewrite lookup_delete. case_decide; [by rewrite decide_True by lia|done].
    + rewrite lookup_insert. case_decide; [by rewrite decide_False by lia|done].
  - case_decide; [by subst|done].
Qed.

Lemma conns_of_cons user u ip cs :
  conns_of user ((u, ip) :: cs) =
    (if decide (u = user) then S (conns_of user cs) else conns_of user cs).
Proof. unfold conns_of. rewrite filter_cons. simpl. by case_decide. Qed.
Lemma conns_at_cons user ip p cs :
  conns_at user ip (p :: cs) =
    (if decide (p = (user, ip)) then S (conns_at user ip cs) else conns_at user ip cs).
Proof. unfold conns_at. rewrite filter_cons. by case_decide. Qed.
Lemma conns_of_middle user u ip cs1 cs2 :
  conns_of user (cs1 ++ (u, ip) :: cs2) = conns_of user ((u, ip) :: cs1 ++ cs2).
Proof. unfold conns_of. by rewrite <-Permutation_middle. Qed.
Lemma conns_at_middle user ip p cs1 cs2 :
  conns_at user ip (cs1 ++ p :: cs2) = conns_at user ip (p :: cs1 ++ cs2).
Proof. unfold conns_at. by rewrite <-Permutation_middle. Qed.

(** What one accepted connection does to the entry of its address. *)
Definition bump (isTcp : bool) (v : option ip_val) : option ip_val :=
  match v with
  | None => Some (IPCount (if isTcp then 2 else 1))
  | Some (IPCount n) => Some (IPCount (if isTcp then n + 2 else n))
  | Some (IPTime t) => Some (IPTime t)
  end.

Lemma storeIP_accept_lookup c ips ips' ip isTcp now j :
  cl_realtime c = true →
  storeIP c ips ip isTcp now = Some (false, ips') →
  ips' !! j = if decide (ip = j) then bump isTcp (ips !! ip) else ips !! j.
Proof.
  intros Hrt. destruct (ips !! ip) as [v|] eqn:E.
  - unfold storeIP. rewrite E, Hrt. destruct isTcp, v; try done; intros [= <-]; simpl;
      rewrite ?lookup_insert; by case_decide; subst.
  - rewrite storeIP_new by done. case_decide; [done|]. intros [= <-].
    unfold fresh_ip. rewrite Hrt, lookup_insert. by case_decide.
Qed.

Lemma ip_at_accept c c' user ip isTcp now u j :
  cl_realtime c = true →
  AddConnCount c user ip isTcp now = Some (false, c') →
  ip_at c' u j = if decide ((user, ip) = (u, j)) then bump isTcp (ip_at c user ip)
                 else ip_at c u j.
Proof.
  intros Hrt (_ & ips & Hs & ->)%AddConnCount_accept. unfold ip_at at 1. simpl.
  rewrite lookup_insert. case_decide; simpl; subst.
  - erewrite storeIP_accept_lookup by done. case_decide; subst.
    + rewrite decide_True by done. unfold ip_at. by destruct (cl_ip c !! u).
    + rewrite decide_False by congruence. unfold ip_at. by destruct (cl_ip c !! u).
  - by rewrite decide_False by congruence.
Qed.

(** What one closed connection does to the entry of its address. *)
Definition unbump (v : option ip_val) : option ip_val :=
  match v with
  | Some (IPCount n) => if decide (n = 2) then None else Some (IPCount (n - 2))
  | v => v
  end.

Lemma ip_at_close c c' user ip u j :
  cl_realtime c = true → cl_ipLimit c ≠ 0 →
  DelConnCount c user ip = Some c' →
  ip_at c' u j = if decide ((user, ip) = (u, j)) then unbump (ip_at c user ip)
                 else ip_at c u j.
Proof.
  intros Hrt Hl. unfold DelConnCount.
  destruct (delConnCount_fields c user) as (E1 & E2 & _ & _ & E5).
  rewrite E1, Hrt, E2, bool_decide_eq_false_2 by done. simpl. unfold ip_at. rewrite E5.
  destruct (cl_ip c !! user) as [ips|] eqn:E; simpl.
  2: { intros [= <-]. rewrite E5. case_decide; simplify_eq; by rewrite ?E. }
  destruct (ips !! ip) as [[n|t]|] eqn:E'; simpl; [|done|].
  2: { intros [= <-]. rewrite E5. case_decide; simplify_eq; by rewrite ?E. }
  set (ips' := if bool_decide (n = 2) then delete ip ips else <[ip:=IPCount (n - 2)]> ips).
  assert (∀ j, ips' !! j = if decide (ip = j) then
    (if decide (n = 2) then None else Some (IPCount (n - 2))) else ips !! j) as Hips.
  { intros k. unfold ips'. case_bool_decide.
    - rewrite lookup_delete. case_decide; [by rewrite decide_True|done].
    - rewrite lookup_insert. case_decide; [by rewrite decide_False|done]. }
  assert (∀ c', (if bool_decide (ips' = ∅) then Some (cl_set_ip (delete user (cl_ip (delConnCount c user))) (delConnCount c user))
      else Some (cl_set_ip (<[user:=ips']> (cl_ip (delConnCount c user))) (delConnCount c user))) = Some c' →
    cl_ip c' !! u ≫= lookup j = if decide (user = u) then ips' !! j else cl_ip c !! u ≫= lookup j) as Hc'.
  { intros d. rewrite E5. case_bool_decide as Hemp; intros [= <-]; simpl.
    - rewrite lookup_delete, Hemp, lookup_empty. by destruct (decide (user = u)).
    - rewrite lookup_insert. by destruct (decide (user = u)). }
  rewrite E5 in Hc'. intros Hd. rewrite (Hc' _ Hd).
  destruct (decide (user = u)) as [<-|]; [|by rewrite decide_False by congruence].
  rewrite Hips, E. destruct (decide (ip = j)) as [<-|].
  - by destruct (decide ((user, ip) = (user, ip))).
  - by destruct (decide ((user, ip) = (user, j))); [congruence|].
Qed.

Lemma ip_at_sweep c now user ip :
  ip_at (cl_ClearOnlineIP c now) user ip =
    v ← ip_at c user ip; if keep_ip c now v then Some v else None.
Proof.
  unfold ip_at. rewrite cl_ClearOnlineIP_lookup.
  destruct (cl_ip c !! user) as [ips|]; simpl; [|done].
  assert (sweep_ips c now ips !! ip =
    (v ← ips !! ip; if keep_ip c now v then Some v else None)) as <-.
  { unfold sweep_ips. rewrite map_lookup_filter. destruct (ips !! ip) as [v|]; [|done].
    simpl. by destruct (keep_ip c now v). }
  case_decide as Hd; simpl; [|done]. by rewrite Hd, lookup_empty.
Qed.

(** * The accounts are kept by every step *)

Lemma count_tracks_open n v :
  count_tracks n v → count_tracks (S n) (Some (default 0 v + 1)).
Proof. unfold count_tracks. intros ->. f_equal. destruct n; simpl; lia. Qed.

Lemma count_tracks_close n v :
  count_tracks (S n) v →
  count_tracks n (m ← v; if decide (m ≤ 1) then None else Some (m - 1)).
Proof.
  unfold count_tracks. intros ->. simpl. destruct n as [|n]; [done|].
  rewrite decide_False by lia. f_equal. lia.
Qed.

Lemma ip_tracks_bump isTcp n v :
  ip_tracks n v → ip_tracks (if isTcp : bool then S n else n) (bump isTcp v).
Proof. destruct v as [[m|t]|], isTcp; simpl; lia. Qed.

Lemma ip_tracks_unbump n v : ip_tracks (S n) v → ip_tracks n (unbump v).
Proof. destruct v as [[m|t]|]; simpl; [|lia..]. case_decide; simpl; lia. Qed.

Lemma ip_tracks_sweep c now n v :
  ip_tracks n v → ip_tracks n (w ← v; if keep_ip c now w then Some w else None).
Proof.
  destruct v as [[m|t]|]; simpl; [|done..]. case_bool_decide; simpl; [|done]. lia.
Qed.

Lemma conn_step_fields s s' :
  conn_step s s' →
  cl_realtime s'.1 = cl_realtime s.1 ∧ cl_ipLimit s'.1 = cl_ipLimit s.1 ∧
  cl_connLimit s'.1 = cl_connLimit s.1.
Proof.
  assert (∀ c c' user ip isTcp now l, AddConnCount c user ip isTcp now = Some (l, c') →
    cl_realtime c' = cl_realtime c ∧ cl_ipLimit c' = cl_ipLimit c ∧
    cl_connLimit c' = cl_connLimit c) as Hadd.
  { intros c c' user ip isTcp now l. rewrite AddConnCount_eq. case_decide; [naive_solver|].
    destruct (storeIP _ _ _ _ _) as [[limit ips]|]; simpl; [|done].
    pose proof (addConnCount_fields c user isTcp).
    pose proof (delConnCount_fields (cl_set_ip (<[user:=ips]> (cl_ip c)) (addConnCount c user isTcp)) user).
    destruct limit; naive_solver congruence. }
  destruct 1 as [| | |c c' ? ? user ip Hd| |c ? ttl]; simpl; try by eapply Hadd.
  - unfold DelConnCount in Hd. pose proof (delConnCount_fields c user).
    repeat (case_match; simplify_eq/=); naive_solver.
  - done.
  - unfold cl_SetOnlineTTL. by case_bool_decide.
Qed.

Lemma accounts_step s s' : accounts s → conn_step s s' → accounts s'.
Proof.
  intros Ha Hs. destruct (conn_step_fields _ _ Hs) as (E1 & E2 & E3).
  destruct Ha as [Hc Hi].
  split; [intros u Hl; rewrite E3 in Hl; specialize (λ u, Hc u Hl)
         |intros u j Hrt Hl; rewrite E1 in Hrt; rewrite E2 in Hl; specialize (λ u j, Hi u j Hrt Hl)];
    clear E1 E2 E3;
    destruct Hs as [c c' cs user ip now Hadd|c c' cs user ip now Hadd|c c' cs user ip now Hadd
      |c c' cs1 cs2 user ip Hdel|c cs now|c cs ttl]; simpl in *.
  (* the counters *)
  - apply AddConnCount_accept in Hadd as (_ & ips & _ & ->). simpl.
    rewrite addConnCount_lookup, conns_of_cons by done.
    destruct (decide (user = u)) as [<-|]; [|done]. by apply count_tracks_open.
  - apply AddConnCount_reject in Hadd as [[_ ->]|(_ & _ & _ & ->)]; [done|].
    rewrite del_add_ConnCount; [done|]. intros n _ Hn. specialize (Hc user).
    rewrite Hn in Hc. unfold count_tracks in Hc. destruct (conns_of user cs); simplify_eq. lia.
  - apply AddConnCount_accept in Hadd as (_ & ips & _ & ->). simpl.
    unfold addConnCount. rewrite orb_true_r. done.
  - assert (cl_count c' = cl_count (delConnCount c user)) as ->.
    { unfold DelConnCount in Hdel. by repeat (case_match; simplify_eq/=). }
    rewrite delConnCount_lookup by done. specialize (Hc u).
    rewrite conns_of_middle, conns_of_cons in Hc.
    destruct (decide (user = u)) as [<-|]; [|done]. by apply count_tracks_close.
  - done.
  - unfold cl_SetOnlineTTL. by case_bool_decide.
  (* the addresses *)
  - erewrite ip_at_accept by done. rewrite conns_at_cons.
    case_decide as Heq; [|done]. simplify_eq. by apply (ip_tracks_bump true).
  - apply AddConnCount_reject in Hadd as [[_ ->]|(_ & _ & _ & ->)]; [done|].
    unfold ip_at.
    destruct (delConnCount_fields (addConnCount c user true) user) as (_ & _ & _ & _ & ->).
    destruct (addConnCount_fields c user true) as (_ & _ & _ & _ & ->). apply Hi.
  - erewrite ip_at_accept by done.
    case_decide as Heq; [|done]. simplify_eq. by apply (ip_tracks_bump false).
  - erewrite ip_at_close by done. specialize (Hi u j).
    rewrite conns_at_middle, conns_at_cons in Hi.
    case_decide as Heq; [|done]. simplify_eq. by apply ip_tracks_unbump.
  - rewrite ip_at_sweep. by apply ip_tracks_sweep.
  - unfold cl_SetOnlineTTL. by case_bool_decide.
Qed.

Lemma conn_step_exec s s' :
  conn_step s s' → ∃ o, cl_exec s.1 o = Some s'.1.
Proof.
  destruct 1 as [c c' cs user ip now Hadd|c c' cs user ip now Hadd|c c' cs user ip now Hadd
    |c c' cs1 cs2 user ip Hdel|c cs now|c cs ttl]; simpl.
  - exists (OpAdd user ip true now). simpl. by rewrite Hadd.
  - exists (OpAdd user ip true now). simpl. by rewrite Hadd.
  - exists (OpAdd user ip false now). simpl. by rewrite Hadd.
  - by exists (OpDel user ip).
  - by exists (OpSweep now).
  - by exists (OpTTL ttl).
Qed.

(** Everything that holds of every reachable state of the system. *)
Lemma conn_reachable conn ip rt ttl s :
  steps conn_step (NewConnLimiter conn ip rt ttl, []) s →
  accounts s ∧ cl_inv s.1 ∧ cl_realtime s.1 = rt ∧ cl_ipLimit s.1 = ip ∧ cl_connLimit s.1 = conn.
Proof.
  apply (steps_invariant conn_step (λ s, accounts s ∧ cl_inv s.1 ∧ cl_realtime s.1 = rt ∧
    cl_ipLimit s.1 = ip ∧ cl_connLimit s.1 = conn)).
  - intros s1 s2 (Ha & Hi & H1 & H2 & H3) Hs.
    destruct (conn_step_fields _ _ Hs) as (E1 & E2 & E3).
    destruct (conn_step_exec _ _ Hs) as [o Ho].
    destruct (cl_inv_exec _ o Hi) as (c' & Ho' & ?).
    split_and!; [by eapply accounts_step|naive_solver|congruence..].
  - by split_and!.
Qed.

(** The addresses with an open connection are entries of the address map. *)
Lemma open_ip_in_map c cs user :
  accounts (c, cs) → cl_realtime c = true → cl_ipLimit c ≠ 0 →
  (list_to_set (snd <$> filter (λ p, p.1 = user) cs) : gset string)
    ⊆ dom (default ∅ (cl_ip c !! user)).
Proof.
  intros [_ Hi] Hrt Hl ip. rewrite elem_of_list_to_set, list_elem_of_fmap.
  intros ([u j] & -> & [Hu Hin]%list_elem_of_filter). simpl in *. subst u.
  specialize (Hi user j Hrt Hl). apply elem_of_dom. unfold ip_at in Hi.
  assert (0 < conns_at user j cs)%nat.
  { unfold conns_at. apply list_elem_of_split in Hin as (l1 & l2 & ->).
    rewrite filter_app, filter_cons, decide_True by done. rewrite length_app. simpl. lia. }
  destruct (cl_ip c !! user) as [ips|]; simpl in *; [|lia].
  destruct (ips !! j); simpl in *; [done|lia].
Qed.

(** * Properties *)

(** No operation sequence makes the limiter panic; from its creation on,
    every counter is between 1 and the connection limit and no user has more
    addresses than the address limit, whatever the order of connections, closes
    and sweeps, packet sessions and unmatched closes included. *)
Theorem conn_limiter_bounds (conn ip : Z) (rt : bool) (ttl : Z) (os : list cl_op) :
  0 < conn →
  ∃ c, cl_run (NewConnLimiter conn ip rt ttl) os = Some c ∧
    (∀ user n, cl_count c !! user = Some n → 1 ≤ n) ∧
    (∀ user n, cl_count c !! user = Some n → n ≤ cl_connLimit c) ∧
    (∀ user ips, cl_ip c !! user = Some ips →
       0 < cl_ipLimit c → Z.of_nat (size ips) ≤ cl_ipLimit c).
Proof.
  intros Hconn.
  assert (∀ c os c', cl_run c os = Some c' → cl_connLimit c' = cl_connLimit c) as Hfix.
  { clear. intros c os. revert c. induction os as [|o os IH]; intros c c'; simpl; [by intros [= ->]|].
    destruct (cl_exec c o) as [c1|] eqn:E; simpl; [|done]. intros ->%IH.
    destruct o as [u i t n|u i|n|t]; simpl in E.
    - destruct (AddConnCount c u i t n) as [[l c2]|] eqn:E'; simplify_eq/=. destruct l.
      + apply AddConnCount_reject in E' as [[_ ->]|(_ & _ & _ & ->)]; [done|].
        destruct (delConnCount_fields (addConnCount c u t) u) as (_ & _ & -> & _).
        by destruct (addConnCount_fields c u t) as (_ & _ & -> & _).
      + apply AddConnCount_accept in E' as (_ & ips & _ & ->). simpl.
        by destruct (addConnCount_fields c u t) as (_ & _ & -> & _).
    - unfold DelConnCount in E. destruct (delConnCount_fields c u) as (_ & _ & <- & _).
      by repeat (case_match; simplify_eq/=).
    - by simplify_eq.
    - unfold cl_SetOnlineTTL in E. by case_bool_decide; simplify_eq. }
  destruct (cl_run_inv (NewConnLimiter conn ip rt ttl) os) as (c & Hrun & Hinv); [apply cl_inv_new|].
  exists c. split; [done|]. pose proof (Hfix _ _ _ Hrun) as Hc. simpl in Hc.
  split_and!; [intros user n Hn; eapply (inv_count c Hinv user n); [lia|done]..|
    intros user ips; by apply (inv_size c Hinv)].
Qed.

Lemma conn_limiter_bounds_witness :
  0 < 2 ∧ ∃ c, cl_run (NewConnLimiter 2 1 true 0)
      [OpAdd "u" "a" true 0; OpAdd "u" "b" true 0; OpDel "u" "z"; OpSweep 5] = Some c ∧
    (∀ user n, cl_count c !! user = Some n → 1 ≤ n) ∧
    (∀ user n, cl_count c !! user = Some n → n ≤ cl_connLimit c) ∧
    (∀ user ips, cl_ip c !! user = Some ips →
       0 < cl_ipLimit c → Z.of_nat (size ips) ≤ cl_ipLimit c).
Proof. split; [lia|]. apply conn_limiter_bounds; lia. Defined.



(** A TCP connection that is turned away, by the connection limit or by the
    address limit, leaves the limiter exactly as it was: nothing is leaked. *)
Theorem rejected_tcp_unchanged (c c' : ConnLimiter) (user ip : string) (now : Z) :
  cl_inv c → 0 < cl_connLimit c →
  AddConnCount c user ip true now = Some (true, c') → c' = c.
Proof.
  intros Hi Hc [[_ ->]|(_ & _ & _ & ->)]%AddConnCount_reject; [done|].
  apply del_add_ConnCount. intros n _ Hn. by apply (inv_count c Hi user n).
Qed.

Lemma rejected_tcp_unchanged_witness :
  ∃ c, AddConnCount (NewConnLimiter 2 1 true 0) "u" "a" true 0 = Some (false, c) ∧
    ∀ c', AddConnCount c "u" "b" true 0 = Some (true, c') → c' = c.
Proof.
  eexists. split; [reflexivity|]. intros c'. apply rejected_tcp_unchanged; [|reflexivity].
  destruct (cl_inv_AddConnCount (NewConnLimiter 2 1 true 0) "u" "a" true 0) as (l & c1 & E & ?);
    [apply cl_inv_new|]. by injection E as _ <-.
Defined.

(** A packet session that the address limit turns away releases a TCP slot
    it never took: the counter of the user goes down by one although none of its
    connections closed.  (The roll back in [AddConnCount] ignores [isTcp].) *)
Theorem packet_rejection_releases_slot (c : ConnLimiter) (user ip : string) (now n : Z) :
  cl_count c !! user = Some n → 1 ≤ n < cl_connLimit c →
  ip_full c (default ∅ (cl_ip c !! user)) → ip_at c user ip = None →
  ∃ c', AddConnCount c user ip false now = Some (true, c') ∧
    default 0 (cl_count c' !! user) = n - 1.
Proof.
  intros Hn Hlt Hf Hip. rewrite AddConnCount_eq, decide_False.
  2: { unfold over_conn. rewrite Hn. lia. }
  assert (default ∅ (cl_ip c !! user) !! ip = None) as Hnone.
  { unfold ip_at in Hip. by destruct (cl_ip c !! user); [|apply lookup_empty]. }
  rewrite storeIP_new, decide_True by done. simpl. eexists. split; [done|].
  assert (addConnCount c user false = c) as ->.
  { unfold addConnCount. by rewrite orb_true_r. }
  rewrite delConnCount_lookup by (simpl; lia). rewrite decide_True by done. simpl.
  rewrite Hn. simpl. case_decide; simpl; lia.
Qed.

(** Three connections are open where two are allowed. *)
Lemma packet_rejection_releases_slot_witness :
  (∃ c, AddConnCount (MkConnLimiter true 1 2 1 {["u" := 1]} {["u" := {["a" := IPCount 2]}]})
          "u" "b" false 0 = Some (true, c) ∧ default 0 (cl_count c !! "u") = 0) ∧
  map fst (omap id (snd (fold_left
    (λ '(oc, rs) p, match oc with
                    | Some c => let r := AddConnCount c "u" p.1 p.2 0 in (snd <$> r, rs ++ [r])%list
                    | None => (None, rs)
                    end)
    [("a", true); ("b", false); ("a", true); ("a", true)]
    (Some (NewConnLimiter 2 1 true 0), []))))
  = [false; true; false; false].
Proof.
  split; [|reflexivity]. apply (packet_rejection_releases_slot _ "u" "b" 0 1);
    [reflexivity|simpl; lia|by apply (bool_decide_unpack _); vm_compute|reflexivity].
Defined.

(** The periodic sweep removes exactly the packet entries (value 1) of a
    realtime limiter and the addresses whose last connection is older than the
    window of a non realtime one; a user keeps an address map only if it holds
    an address, and the counters do not change. *)
Theorem sweep_exact (c : ConnLimiter) (now : Z) :
  let c' := cl_ClearOnlineIP c now in
  (∀ user ip, ip_at c' user ip =
     match ip_at c user ip with
     | Some (IPCount n) => if decide (n = 1) then None else Some (IPCount n)
     | Some (IPTime t) => if decide (t < now - cl_onlineTTL c) then None else Some (IPTime t)
     | None => None
     end) ∧
  (∀ user, cl_ip c' !! user ≠ Some ∅) ∧ cl_count c' = cl_count c.
Proof.
  cbv zeta. split_and!; [|intros user; rewrite cl_ClearOnlineIP_lookup|done].
  - intros user ip. rewrite ip_at_sweep.
    destruct (ip_at c user ip) as [[n|t]|]; simpl; [..|done];
      case_bool_decide; simpl; by case_decide.
  - destruct (cl_ip c !! user) as [ips|]; simpl; [|done]. case_decide; [done|]. congruence.
Qed.
