(* ===== verification/PanelTypes.v ===== *)
(** api/panel: the data the panel and the node exchange (the types of node.go,
    user.go and panel.go).

    [json.RawMessage] and [[]byte] are strings of bytes, a pointer to a struct is
    an [option] (the program never compares or shares these pointers), and a
    value of type [interface{}] is an [any], one constructor per dynamic type the
    program tells apart. *)
From S2P Require Import Prelude.
From Stdlib Require Export Floats.SpecFloat.
#[local] Open Scope Z_scope.

(** * Dynamically typed values *)

Inductive any :=
| ANil
| ABool (b : bool)
| AInt (z : Z)              (* int *)
| AInt64 (z : Z)            (* int64 *)
| AIntKind (z : Z)          (* int8, int16, int32 and named integer types *)
| AUintKind (z : Z)         (* the unsigned kinds *)
| AFloat64 (f : spec_float)
| AFloat32 (f : spec_float)
| AString (s : string)
| AStrings (l : list string)           (* []string *)
| ASlice (l : list any)                (* []interface{} *)
| AMap (m : list (string * any)).      (* map[string]interface{} *)

(** * user.go *)

Record OnlineUser := MkOnlineUser { ou_UID : Z; ou_IP : string }.
#[export] Instance OnlineUser_eq_dec : EqDecision OnlineUser.
Proof. solve_decision. Defined.

Record UserInfo := MkUserInfo {
  ui_Id : Z;
  ui_Uuid : string;
  ui_SpeedLimit : Z;
  ui_DeviceLimit : Z
}.
#[export] Instance UserInfo_eq_dec : EqDecision UserInfo.
Proof. solve_decision. Defined.

Record UserTraffic := MkUserTraffic {
  ut_UID : Z;
  ut_Upload : Z;
  ut_Download : Z;
  ut_Key : string
}.
#[export] Instance UserTraffic_eq_dec : EqDecision UserTraffic.
Proof. solve_decision. Defined.

(** * node.go *)

(** Security type. *)
Definition SecNone : Z := 0.
Definition SecTls : Z := 1.
Definition SecReality : Z := 2.

Record ECHSettings := MkECHSettings {
  ech_Enabled : bool;
  ech_Config : string;
  ech_ConfigList : string;
  ech_ForceQuery : string;
  ech_QueryServerName : string;
  ech_PrivateKey : string;
  ech_ServerKeys : string
}.
#[export] Instance ECHSettings_eq_dec : EqDecision ECHSettings.
Proof. solve_decision. Defined.
Definition ECHSettings_zero : ECHSettings := MkECHSettings false "" "" "" "" "" "".

Record TlsSettings := MkTlsSettings {
  ts_ServerName : string;
  ts_Dest : string;
  ts_ServerPort : string;
  ts_ShortId : string;
  ts_PrivateKey : string;
  ts_Xver : Z;
  ts_ECH : ECHSettings
}.

Record Route := MkRoute {
  rt_Id : Z;
  rt_Match : any;
  rt_Action : string;
  rt_ActionValue : string
}.

(** [BaseConfig] and [BasicConfig] have the same fields. *)
Record BaseConfig := MkBaseConfig { bc_PushInterval : any; bc_PullInterval : any }.

Record CommonNode := MkCommonNode {
  cn_Host : string;
  cn_ServerPort : Z;
  cn_ServerName : string;
  cn_Routes : list Route;
  cn_BaseConfig : option BaseConfig
}.

Record RealityConfig := MkRealityConfig {
  rc_Xver : Z;
  rc_MinClientVer : string;
  rc_MaxClientVer : string;
  rc_MaxTimeDiff : string
}.

Record VAllssNode := MkVAllssNode {
  va_Common : CommonNode;
  va_Tls : Z;
  va_TlsSettings : TlsSettings;
  va_TlsSettingsBack : option TlsSettings;
  va_ECH : ECHSettings;
  va_Network : string;
  va_NetworkSettings : string;
  va_NetworkSettingsBack : string;
  va_ServerName : string;
  va_Encryption : string;
  va_Decryption : string;
  va_Flow : string;
  va_RealityConfig : RealityConfig
}.

Record ShadowsocksNode := MkShadowsocksNode {
  sn_Common : CommonNode;
  sn_Cipher : string;
  sn_ServerKey : string
}.

Record TrojanNode := MkTrojanNode {
  tn_Common : CommonNode;
  tn_Network : string;
  tn_NetworkSettings : string;
  tn_NetworkSettingsBack : string;
  tn_TlsSettings : TlsSettings;
  tn_TlsSettingsBack : option TlsSettings;
  tn_ECH : ECHSettings
}.

Record TuicNode := MkTuicNode {
  tu_Common : CommonNode;
  tu_CongestionControl : string;
  tu_ZeroRTTHandshake : bool
}.

Record AnyTLSNode := MkAnyTLSNode {
  an_Common : CommonNode;
  an_PaddingScheme : string;
  an_Tls : Z;
  an_TlsSettings : TlsSettings;
  an_TlsSettingsBack : option TlsSettings;
  an_RealityConfig : RealityConfig
}.

Record NaiveNode := MkNaiveNode {
  nn_Common : CommonNode;
  nn_Network : string;
  nn_NetworkSettings : string;
  nn_NetworkSettingsBack : string;
  nn_Tls : Z;
  nn_TlsSettings : TlsSettings;
  nn_TlsSettingsBack : option TlsSettings
}.

Record HysteriaNode := MkHysteriaNode {
  hy_Common : CommonNode;
  hy_UpMbps : Z;
  hy_DownMbps : Z;
  hy_Obfs : string
}.

Record Hysteria2Node := MkHysteria2Node {
  h2_Common : CommonNode;
  h2_Ignore_Client_Bandwidth : bool;
  h2_UpMbps : Z;
  h2_DownMbps : Z;
  h2_ObfsType : string;
  h2_ObfsPassword : string
}.

(** One entry of the DNS map: the keys "address" and "domains". *)
Record DNSEntry := MkDNSEntry { dns_address : string; dns_domains : list string }.
Record RawDNS := MkRawDNS {
  rd_DNSMap : gmap string DNSEntry;
  rd_DNSJson : string
}.

Record Rules := MkRules { ru_Regexp : list string; ru_Protocol : list string }.
#[export] Instance Rules_eq_dec : EqDecision Rules.
Proof. solve_decision. Defined.

Record NodeInfo := MkNodeInfo {
  ni_Id : Z;
  ni_Type : string;
  ni_Protocol : string;
  ni_Security : Z;
  ni_PushInterval : Z;
  ni_PullInterval : Z;
  ni_RawDNS : RawDNS;
  ni_Rules : Rules;
  ni_Config : string;
  ni_VAllss : option VAllssNode;
  ni_Shadowsocks : option ShadowsocksNode;
  ni_Trojan : option TrojanNode;
  ni_Tuic : option TuicNode;
  ni_AnyTLS : option AnyTLSNode;
  ni_Naive : option NaiveNode;
  ni_Hysteria : option HysteriaNode;
  ni_Hysteria2 : option Hysteria2Node;
  ni_Common : option CommonNode;
  ni_Basic : option BaseConfig
}.
