(* ===== verification/OnlineRegistry.v ===== *)
(** limiter/online_registry.go: the devices that are online.

    One entry per user key and normalized address.  An entry is touched by every
    accepted connection, counted by the cores that see connections close, and
    removed by [Sweep] when it is neither referenced nor recently seen.  Each
    operation holds the registry's mutex for its whole body: it is one step. *)
From S2P Require Import Prelude GoStrings Netutil PanelTypes.
#[local] Open Scope string_scope.
#[local] Open Scope Z_scope.

Definition defaultOnlineTTL : Z := 5 * Minute.
Definition minOnlineTTL : Z := 90 * Second.

Record OnlineEntry := MkOnlineEntry {
  oe_UID : Z;
  oe_IP : string;
  oe_Refs : Z;
  oe_LastSeen : Z
}.
#[export] Instance OnlineEntry_eq_dec : EqDecision OnlineEntry.
Proof. solve_decision. Defined.

(** [onlineKey]: the user key and the address. *)
Record OnlineRegistry := MkOnlineRegistry {
  or_ttl : Z;
  or_m : gmap (string * string) OnlineEntry
}.

(** The zero [time.Time], year 1. *)
Definition zeroTime : Z := -62135596800 * Second.

(** * The operations *)

Definition newOnlineRegistry (ttl : Z) : OnlineRegistry :=
  MkOnlineRegistry (if bool_decide (ttl < minOnlineTTL) then minOnlineTTL else ttl) ∅.

(** [time.Duration(seconds) * time.Second] is a 64 bit product. *)
Definition onlineTTLFromSeconds (seconds : Z) : Z :=
  if bool_decide (seconds ≤ 0) then defaultOnlineTTL else wrap64 (seconds * Second).

Definition normalizeOnlineKey (taguuid ip : string) : option (string * string) :=
  if decide (taguuid = "") then None
  else let ip := NormalizeIP ip in
       if decide (ip = "") then None else Some (taguuid, ip).

Definition or_SetTTL (r : OnlineRegistry) (ttl : Z) : OnlineRegistry :=
  MkOnlineRegistry (if bool_decide (ttl < minOnlineTTL) then minOnlineTTL else ttl) (or_m r).
Definition or_TTL (r : OnlineRegistry) : Z := or_ttl r.

(** [entry]: the entry of a key, created if it is not there. *)
Definition or_entry (r : OnlineRegistry) (key : string * string) (uid : Z) : OnlineEntry :=
  let e := match or_m r !! key with
           | Some e => e
           | None => MkOnlineEntry uid key.2 0 zeroTime
           end in
  if bool_decide (uid = 0) then e
  else MkOnlineEntry uid (oe_IP e) (oe_Refs e) (oe_LastSeen e).

Definition or_put (r : OnlineRegistry) (key : string * string) (e : OnlineEntry) : OnlineRegistry :=
  MkOnlineRegistry (or_ttl r) (<[key := e]> (or_m r)).

Definition or_Touch (r : OnlineRegistry) (taguuid ip : string) (uid now : Z) : OnlineRegistry :=
  if bool_decide (uid = 0) then r
  else match normalizeOnlineKey taguuid ip with
       | None => r
       | Some key =>
           let e := or_entry r key uid in
           or_put r key (MkOnlineEntry (oe_UID e) (oe_IP e) (oe_Refs e) now)
       end.

Definition or_Add (r : OnlineRegistry) (taguuid ip : string) (uid now : Z) : OnlineRegistry :=
  if bool_decide (uid = 0) then r
  else match normalizeOnlineKey taguuid ip with
       | None => r
       | Some key =>
           let e := or_entry r key uid in
           or_put r key (MkOnlineEntry (oe_UID e) (oe_IP e) (oe_Refs e + 1) now)
       end.

Definition or_Del (r : OnlineRegistry) (taguuid ip : string) (now : Z) : OnlineRegistry :=
  match normalizeOnlineKey taguuid ip with
  | None => r
  | Some key =>
      match or_m r !! key with
      | Some e =>
          let refs := if bool_decide (0 < oe_Refs e) then oe_Refs e - 1 else oe_Refs e in
          or_put r key (MkOnlineEntry (oe_UID e) (oe_IP e) refs now)
      | None => r
      end
  end.

Definition or_DeleteUser (r : OnlineRegistry) (taguuid : string) : OnlineRegistry :=
  MkOnlineRegistry (or_ttl r) (filter (λ kv, kv.1.1 ≠ taguuid) (or_m r)).

(** [or_stale]: the test of [Sweep]. *)
Definition or_stale (ttl now : Z) (e : OnlineEntry) : Prop :=
  oe_Refs e ≤ 0 ∧ oe_LastSeen e < now - ttl.
#[export] Instance or_stale_dec ttl now e : Decision (or_stale ttl now e).
Proof. unfold or_stale. apply _. Defined.
Definition or_Sweep (r : OnlineRegistry) (now : Z) : OnlineRegistry :=
  MkOnlineRegistry (or_ttl r) (filter (λ kv, ¬ or_stale (or_ttl r) now kv.2) (or_m r)).

(** The order of [Snapshot]: by uid, then by address. *)
Definition online_le (a b : OnlineUser) : Prop :=
  ou_UID a < ou_UID b ∨ ou_UID a = ou_UID b ∧ String.le (ou_IP a) (ou_IP b).
#[export] Instance online_le_dec a b : Decision (online_le a b).
Proof. unfold online_le. apply _. Defined.
Definition or_Snapshot (r : OnlineRegistry) : list OnlineUser :=
  merge_sort online_le
    (map (λ e, MkOnlineUser (oe_UID e) (oe_IP e))
      (filter (λ e, ¬ (oe_UID e = 0 ∨ oe_IP e = "")) (map snd (map_to_list (or_m r))))).

(** * Vocabulary of the theorems *)

(** Every entry carries the address of its key, an address some client was
    normalized to, a uid, and a count that is not negative. *)
Definition entry_ok (key : string * string) (e : OnlineEntry) : Prop :=
  key.1 ≠ "" ∧ (∃ raw, key.2 = NormalizeIP raw) ∧ key.2 ≠ "" ∧
  oe_IP e = key.2 ∧ oe_UID e ≠ 0 ∧ 0 ≤ oe_Refs e.
Definition registry_ok (r : OnlineRegistry) : Prop :=
  map_Forall entry_ok (or_m r) ∧ minOnlineTTL ≤ or_ttl r.

(** Calls of the registry. *)
Inductive online_op :=
| OnTouch (taguuid ip : string) (uid now : Z)
| OnAdd (taguuid ip : string) (uid now : Z)
| OnDel (taguuid ip : string) (now : Z)
| OnDeleteUser (taguuid : string)
| OnSweep (now : Z)
| OnSetTTL (ttl : Z).
Definition online_exec (r : OnlineRegistry) (o : online_op) : OnlineRegistry :=
  match o with
  | OnTouch u ip uid now => or_Touch r u ip uid now
  | OnAdd u ip uid now => or_Add r u ip uid now
  | OnDel u ip now => or_Del r u ip now
  | OnDeleteUser u => or_DeleteUser r u
  | OnSweep now => or_Sweep r now
  | OnSetTTL ttl => or_SetTTL r ttl
  end.

(** The system of a registry and the connections that are open, each with its
    user key and the address it reports: a connection is added when it opens and
    deleted when it closes, and a user the panel removed has no connections. *)
Inductive online_step :
    OnlineRegistry * list (string * string) → OnlineRegistry * list (string * string) → Prop :=
| on_open r cs taguuid ip uid now :
    uid ≠ 0 → normalizeOnlineKey taguuid ip ≠ None →
    online_step (r, cs) (or_Add r taguuid ip uid now, (taguuid, ip) :: cs)
| on_close r cs1 cs2 taguuid ip now :
    online_step (r, cs1 ++ (taguuid, ip) :: cs2)%list (or_Del r taguuid ip now, cs1 ++ cs2)%list
| on_touch r cs taguuid ip uid now :
    online_step (r, cs) (or_Touch r taguuid ip uid now, cs)
| on_sweep r cs now :
    online_step (r, cs) (or_Sweep r now, cs)
| on_ttl r cs ttl :
    online_step (r, cs) (or_SetTTL r ttl, cs)
| on_remove r cs taguuid :
    (∀ ip, (taguuid, ip) ∉ cs) →
    online_step (r, cs) (or_DeleteUser r taguuid, cs).

(** The open connections of one device. *)
Definition live (key : string * string) (cs : list (string * string)) : nat :=
  length (filter (λ p, normalizeOnlineKey p.1 p.2 = Some key) cs).

(** * The order of the snapshot *)

#[export] Instance online_le_total : Total online_le.
Proof.
  intros a b. unfold online_le.
  destruct (total String.le (ou_IP a) (ou_IP b)); destruct (Z.lt_total (ou_UID a) (ou_UID b))
    as [?|[?|?]]; naive_solver.
Qed.
#[export] Instance online_le_trans : Transitive online_le.
Proof.
  intros a b c [?|[? ?]] [?|[? ?]]; unfold online_le; try (left; lia).
  right. split; [congruence|]. by etrans.
Qed.
#[export] Instance online_le_antisymm : AntiSymm (=) online_le.
Proof.
  intros [u1 i1] [u2 i2] [?|[? ?]] [?|[? ?]]; simpl in *; try lia.
  f_equal; [done|]. by apply (anti_symm String.le).
Qed.

(** * Keys *)

Lemma normalizeOnlineKey_Some taguuid ip key :
  normalizeOnlineKey taguuid ip = Some key ↔
  taguuid ≠ "" ∧ NormalizeIP ip ≠ "" ∧ key = (taguuid, NormalizeIP ip).
Proof. unfold normalizeOnlineKey. repeat case_decide; naive_solver. Qed.

(** * The invariant *)

Lemma entry_ok_entry r taguuid ip uid key refs now :
  registry_ok r → uid ≠ 0 → normalizeOnlineKey taguuid ip = Some key → 0 ≤ refs →
  entry_ok key (MkOnlineEntry (oe_UID (or_entry r key uid)) (oe_IP (or_entry r key uid)) refs now).
Proof.
  intros [Hm _] Huid (? & ? & ->)%normalizeOnlineKey_Some Hrefs. unfold or_entry.
  rewrite bool_decide_eq_false_2 by done. simpl.
  assert (oe_IP (match or_m r !! (taguuid, NormalizeIP ip) with
    | Some e => e | None => MkOnlineEntry uid (NormalizeIP ip) 0 zeroTime end) = NormalizeIP ip) as ->.
  { destruct (or_m r !! _) as [e|] eqn:E; [|done]. by destruct (Hm _ _ E) as (_ & _ & _ & ? & _). }
  by split_and!; eauto.
Qed.

Lemma registry_ok_put r key e :
  registry_ok r → entry_ok key e → registry_ok (or_put r key e).
Proof. intros [Hm Ht] He. split; [by apply map_Forall_insert_2|done]. Qed.

Lemma or_entry_Refs r key uid :
  oe_Refs (or_entry r key uid) = default 0 (oe_Refs <$> or_m r !! key).
Proof. unfold or_entry. case_bool_decide; by destruct (or_m r !! key). Qed.

Lemma or_entry_Refs_nonneg r key uid : registry_ok r → 0 ≤ oe_Refs (or_entry r key uid).
Proof.
  intros [Hm _]. rewrite or_entry_Refs. destruct (or_m r !! key) eqn:E; simpl; [|done].
  by apply Hm in E as (_ & _ & _ & _ & _ & ?).
Qed.

Lemma registry_ok_exec r o : registry_ok r → registry_ok (online_exec r o).
Proof.
  intros Hr. destruct o as [u ip uid now|u ip uid now|u ip now|u|now|ttl]; simpl.
  - unfold or_Touch. case_bool_decide; [done|].
    destruct (normalizeOnlineKey u ip) as [key|] eqn:E; [|done].
    apply registry_ok_put; [done|]. eapply entry_ok_entry; try done.
    by apply or_entry_Refs_nonneg.
  - unfold or_Add. case_bool_decide; [done|].
    destruct (normalizeOnlineKey u ip) as [key|] eqn:E; [|done].
    apply registry_ok_put; [done|]. eapply entry_ok_entry; try done.
    pose proof (or_entry_Refs_nonneg r key uid Hr). lia.
  - unfold or_Del. destruct (normalizeOnlineKey u ip) as [key|]; [|done].
    destruct (or_m r !! key) as [e|] eqn:E; [|done].
    apply registry_ok_put; [done|]. destruct Hr as [Hm _]. apply Hm in E as (?&?&?&?&?&?).
    unfold entry_ok. simpl. split_and!; try done. case_bool_decide; lia.
  - destruct Hr as [Hm Ht]. split; [|done]. intros k e [Hk _]%map_lookup_filter_Some. by apply Hm.
  - destruct Hr as [Hm Ht]. split; [|done]. intros k e [Hk _]%map_lookup_filter_Some. by apply Hm.
  - destruct Hr as [Hm Ht]. split; [done|]. simpl. case_bool_decide; lia.
Qed.

Lemma registry_ok_run ttl os : registry_ok (foldl online_exec (newOnlineRegistry ttl) os).
Proof.
  assert (∀ r, registry_ok r → registry_ok (foldl online_exec r os)) as H.
  { induction os as [|o os IH]; intros r Hr; [done|]. apply IH, registry_ok_exec, Hr. }
  apply H. split; [done|]. simpl. case_bool_decide; lia.
Qed.

(** * The snapshot *)

Lemma elem_of_Snapshot r x :
  x ∈ or_Snapshot r ↔
  ∃ key e, or_m r !! key = Some e ∧ oe_UID e ≠ 0 ∧ oe_IP e ≠ "" ∧
           x = MkOnlineUser (oe_UID e) (oe_IP e).
Proof.
  unfold or_Snapshot. rewrite merge_sort_Permutation, list_elem_of_fmap. split.
  - intros (e & -> & [Hn ((key & e') & -> & Hin%elem_of_map_to_list)%list_elem_of_fmap]%list_elem_of_filter).
    exists key, e'. naive_solver.
  - intros (key & e & Hl & ? & ? & ->). exists e. split; [done|].
    apply list_elem_of_filter. split; [naive_solver|]. apply list_elem_of_fmap.
    exists (key, e). by rewrite elem_of_map_to_list.
Qed.

(** Under the invariant no entry is skipped. *)
Lemma Snapshot_Permutation r :
  registry_ok r →
  or_Snapshot r ≡ₚ map (λ kv, MkOnlineUser (oe_UID kv.2) kv.1.2) (map_to_list (or_m r)).
Proof.
  intros [Hm _]. unfold or_Snapshot. rewrite merge_sort_Permutation.
  assert (Forall (λ kv, entry_ok kv.1 kv.2) (map_to_list (or_m r))) as HF.
  { apply Forall_forall. intros [k e] Hin%elem_of_map_to_list. by apply Hm. }
  induction HF as [|[k e] l (_ & _ & Hk & HIP & HU & _) _ IH]; [done|]. simpl in *.
  rewrite filter_cons. case_decide as Hd; [|exfalso; destruct Hd; congruence].
  simpl. by rewrite IH, HIP.
Qed.

(** * References are the open connections *)

Definition refs_ok (s : OnlineRegistry * list (string * string)) : Prop :=
  ∀ key, default 0 (oe_Refs <$> or_m s.1 !! key) = Z.of_nat (live key s.2).

Lemma live_cons key u ip cs :
  live key ((u, ip) :: cs) =
    (if decide (normalizeOnlineKey u ip = Some key) then S (live key cs) else live key cs).
Proof. unfold live. rewrite filter_cons. simpl. by case_decide. Qed.
Lemma live_middle key p cs1 cs2 : live key (cs1 ++ p :: cs2) = live key (p :: cs1 ++ cs2).
Proof. unfold live. by rewrite <-Permutation_middle. Qed.

Lemma refs_put r key e k :
  default 0 (oe_Refs <$> or_m (or_put r key e) !! k) =
    (if decide (key = k) then oe_Refs e else default 0 (oe_Refs <$> or_m r !! k)).
Proof. simpl. rewrite lookup_insert. by case_decide. Qed.

Lemma live_none_user (u : string) key cs :
  key.1 = u → (∀ ip, (u, ip) ∉ cs) → live key cs = 0%nat.
Proof.
  intros Hk Hn. unfold live. apply length_zero_iff_nil.
  destruct (filter _ cs) as [|[u' i] l] eqn:E; [done|]. exfalso.
  assert ((u', i) ∈ filter (λ p : string * string, normalizeOnlineKey p.1 p.2 = Some key) cs) as Hin
    by (rewrite E; constructor).
  apply list_elem_of_filter in Hin as [(_ & _ & ->)%normalizeOnlineKey_Some Hin].
  simpl in *. subst. by apply (Hn i).
Qed.

Lemma refs_ok_step s s' : refs_ok s → online_step s s' → refs_ok s'.
Proof.
  intros Hr Hs k. specialize (Hr k).
  destruct Hs as [r cs u ip uid now Huid Hk|r cs1 cs2 u ip now|r cs u ip uid now|r cs now
    |r cs ttl|r cs u Hnone]; simpl in Hr |- *.
  - unfold or_Add. rewrite bool_decide_eq_false_2 by done. rewrite live_cons.
    destruct (normalizeOnlineKey u ip) as [key|]; [|done].
    rewrite refs_put. simpl. rewrite or_entry_Refs.
    destruct (decide (key = k)) as [->|]; [rewrite decide_True by done; lia|].
    by rewrite decide_False by congruence.
  - rewrite live_middle, live_cons in Hr. unfold or_Del.
    destruct (normalizeOnlineKey u ip) as [key|]; [|by rewrite decide_False in Hr].
    destruct (decide (key = k)) as [->|Hne].
    + rewrite decide_True in Hr by done. destruct (or_m r !! k) as [e|] eqn:E; simpl in Hr; [|lia].
      rewrite refs_put, decide_True by done. simpl. rewrite bool_decide_eq_true_2; lia.
    + rewrite decide_False in Hr by congruence.
      destruct (or_m r !! key) as [e|]; [|done]. by rewrite refs_put, decide_False.
  - unfold or_Touch. case_bool_decide; [done|].
    destruct (normalizeOnlineKey u ip) as [key|]; [|done].
    rewrite refs_put. simpl. rewrite or_entry_Refs. case_decide; [by subst|done].
  - rewrite map_lookup_filter. destruct (or_m r !! k) as [e|]; simpl in *; [|done].
    case_guard as Hst; simpl; [done|]. destruct Hst. lia.
  - done.
  - rewrite map_lookup_filter. destruct (or_m r !! k) as [e|] eqn:E; simpl in *; [|done].
    case_guard as Hst; simpl; [done|]. by rewrite (live_none_user u k cs).
Qed.

Lemma online_step_exec s s' : online_step s s' → ∃ o, online_exec s.1 o = s'.1.
Proof.
  destruct 1; simpl; [by eexists (OnAdd _ _ _ _)|by eexists (OnDel _ _ _)
    |by eexists (OnTouch _ _ _ _)|by eexists (OnSweep _)|by eexists (OnSetTTL _)
    |by eexists (OnDeleteUser _)].
Qed.

Lemma online_reachable ttl s :
  steps online_step (newOnlineRegistry ttl, []) s → refs_ok s ∧ registry_ok s.1.
Proof.
  apply (steps_invariant online_step (λ s, refs_ok s ∧ registry_ok s.1)).
  - intros s1 s2 [Hr Ho] Hs. split; [by eapply refs_ok_step|].
    destruct (online_step_exec _ _ Hs) as [o <-]. by apply registry_ok_exec.
  - split; [intros k; simpl; by rewrite lookup_empty|]. apply (registry_ok_run ttl []).
Qed.

(** * Properties *)



(** After any sequence of calls the snapshot is the content of the
    registry: sorted by uid and address, one element per (user, normalized
    address) entry, each with a uid that is not 0 and a normalized address that
    is not empty. *)
Theorem snapshot_exact (ttl : Z) (os : list online_op) :
  let r := foldl online_exec (newOnlineRegistry ttl) os in
  StronglySorted online_le (or_Snapshot r) ∧
  or_Snapshot r ≡ₚ map (λ kv, MkOnlineUser (oe_UID kv.2) kv.1.2) (map_to_list (or_m r)) ∧
  length (or_Snapshot r) = size (or_m r) ∧
  (∀ x, x ∈ or_Snapshot r →
     ou_UID x ≠ 0 ∧ ou_IP x ≠ "" ∧ ∃ raw, ou_IP x = NormalizeIP raw).
Proof.
  intros r. pose proof (registry_ok_run ttl os) as Hr. fold r in Hr.
  pose proof (Snapshot_Permutation r Hr) as Hp. split_and!; [|done|..].
  - by apply StronglySorted_merge_sort; apply _.
  - rewrite Hp, length_map. apply length_map_to_list.
  - intros x (key & e & Hl & ? & ? & ->)%elem_of_Snapshot. simpl.
    destruct Hr as [Hm _]. pose proof (Hm _ _ Hl) as (_ & [raw ?] & _ & HIP & _).
    split_and!; [done..|]. exists raw. congruence.
Qed.
