(* ===== verification/Json5.v ===== *)
(** common/json5/json5.go: comments and trailing commas are blanked before a
    configuration is decoded.

    The buffer [s] is a list of bytes updated by index and [i] an index into it,
    as in the code.  A loop is a function of a fuel that ends with [None] when the
    fuel does; [prep_total] shows that it never does. *)
From S2P Require Import Prelude GoStrings.
#[local] Open Scope char_scope.

Definition isNL (c : ascii) : bool :=
  bool_decide (c = byte 10) || bool_decide (c = byte 13).
Definition isWS (c : ascii) : bool :=
  bool_decide (c = " ") || bool_decide (c = byte 9) || isNL c.

Definition quote : ascii := byte 34.

(** [s[i] == c], false out of range: the code tests the range first. *)
Definition at_byte (s : list ascii) (i : nat) (c : ascii) : bool := bool_decide (s !! i = Some c).

(** The loop over a line comment. *)
Fixpoint consume_line (fuel : nat) (s : list ascii) (i : nat) : option (list ascii * nat) :=
  match fuel with
  | O => None
  | S fuel =>
      match s !! i with
      | Some c => if isNL c then Some (s, i) else consume_line fuel (<[i := " "]> s) (S i)
      | None => Some (s, i)
      end
  end.

(** The loop over a block comment; [break] leaves [i] on the closing slash. *)
Fixpoint consume_block (fuel : nat) (s : list ascii) (i : nat) : option (list ascii * nat) :=
  match fuel with
  | O => None
  | S fuel =>
      match s !! i with
      | None => Some (s, i)
      | Some c =>
          if bool_decide (c ≠ "*") then consume_block fuel (<[i := " "]> s) (S i)
          else
            let s := <[i := " "]> s in
            let i := S i in
            if at_byte s i "/" then Some (<[i := " "]> s, i)
            else consume_block fuel s (S i)
      end
  end.

Definition consumeComment (fuel : nat) (s : list ascii) (i : nat) : option (list ascii * nat) :=
  '(s, i) ← (if at_byte s i "/" then consume_line fuel (<[i - 1 := " "]> s) i else Some (s, i));
  if at_byte s i "*"
  then consume_block fuel (<[i := " "]> (<[i - 1 := " "]> s)) i
  else Some (s, i).

(** The loop over a string literal. *)
Fixpoint skip_string (fuel : nat) (s : list ascii) (i : nat) : option nat :=
  match fuel with
  | O => None
  | S fuel =>
      match s !! i with
      | None => Some i
      | Some c =>
          if bool_decide (c = quote) then Some (S i)
          else if bool_decide (c = "\") then skip_string fuel s (S (S i))
          else skip_string fuel s (S i)
      end
  end.

(** The loop after the comma at [j]. *)
Fixpoint after_comma (fuel : nat) (j : nat) (s : list ascii) (i : nat)
    : option (list ascii * nat) :=
  match fuel with
  | O => None
  | S fuel' =>
      let i := S i in
      match s !! i with
      | None => Some (s, i)
      | Some c =>
          if bool_decide (c = "}") || bool_decide (c = "]") then Some (<[j := " "]> s, i)
          else if bool_decide (c = "/") then
            '(s, i) ← consumeComment fuel s (S i); after_comma fuel' j s i
          else if isWS c then after_comma fuel' j s i
          else Some (s, i)
      end
  end.

Fixpoint prep_loop (fuel : nat) (s : list ascii) (i : nat) : option (list ascii) :=
  match fuel with
  | O => None
  | S fuel' =>
      match s !! i with
      | None => Some s
      | Some c =>
          if bool_decide (c = quote) then
            i ← skip_string fuel s (S i); prep_loop fuel' s i
          else if bool_decide (c = "/") then
            '(s, i) ← consumeComment fuel s (S i); prep_loop fuel' s i
          else if bool_decide (c = ",") then
            '(s, i) ← after_comma fuel i s i; prep_loop fuel' s i
          else prep_loop fuel' s (S i)
      end
  end.

(** The fuel is the length of the buffer plus two: every loop moves [i] forward. *)
Definition prep_bytes (s : list ascii) : option (list ascii) := prep_loop (length s + 2) s 0.
Definition prep (s : string) : option string := of_bytes <$> prep_bytes (to_bytes s).

(** * Vocabulary of the theorems *)

(** [s'] is [s] with some bytes replaced by spaces. *)
Definition blanked (s s' : list ascii) : Prop :=
  length s' = length s ∧
  ∀ k, s' !! k = s !! k ∨ (k < length s ∧ s' !! k = Some " ").

(** No byte starts a string, a comment or a comma. *)
Definition neutral (c : ascii) : Prop := c ∉ [quote; "/"; ","].
#[export] Instance neutral_dec c : Decision (neutral c).
Proof. unfold neutral. apply _. Defined.

Definition spaces (n : nat) : list ascii := replicate n " ".

(** * Termination, and what can change *)

Lemma blanked_refl s : blanked s s.
Proof. split; [done|]. by left. Qed.
Lemma blanked_trans s1 s2 s3 : blanked s1 s2 → blanked s2 s3 → blanked s1 s3.
Proof.
  intros [L1 H1] [L2 H2]. split; [congruence|]. intros k.
  destruct (H2 k) as [->|[? ->]]; [apply H1|]. right. split; [congruence|done].
Qed.
Lemma blanked_insert s i : blanked s (<[i := " "]> s).
Proof.
  split; [apply length_insert|]. intros k. destruct (decide (i = k)) as [->|].
  - destruct (decide (k < length s)).
    + right. split; [done|]. by apply list_lookup_insert_eq.
    + left. rewrite list_insert_ge by lia. done.
  - left. by apply list_lookup_insert_ne.
Qed.
#[local] Hint Resolve blanked_refl blanked_insert : core.

(** A loop ends, moves forward and blanks. *)
Definition good (s : list ascii) (i : nat) (r : option (list ascii * nat)) : Prop :=
  ∃ s' i', r = Some (s', i') ∧ blanked s s' ∧ i ≤ i'.

Lemma good_here s s' i i' : blanked s s' → i ≤ i' → good s i (Some (s', i')).
Proof. by eexists _, _. Qed.
Lemma good_after s s1 i i1 r : blanked s s1 → i ≤ i1 → good s1 i1 r → good s i r.
Proof.
  intros Hb Hi (s' & i' & -> & Hb' & ?). eexists _, _. split; [done|].
  split; [by eapply blanked_trans|lia].
Qed.

Lemma consume_line_good fuel s i : length s - i < fuel → good s i (consume_line fuel s i).
Proof.
  revert s i. induction fuel as [|fuel IH]; intros s i Hf; [lia|]. simpl.
  destruct (s !! i) as [c|] eqn:E; [|by apply good_here].
  case_match; [by apply good_here|].
  apply (good_after _ (<[i:=" "]> s) _ (S i)); [done|lia|].
  apply lookup_lt_Some in E. apply IH. rewrite length_insert. lia.
Qed.

Lemma consume_block_good fuel s i : length s - i < fuel → good s i (consume_block fuel s i).
Proof.
  revert s i. induction fuel as [|fuel IH]; intros s i Hf; [lia|]. simpl.
  destruct (s !! i) as [c|] eqn:E; [|by apply good_here].
  apply lookup_lt_Some in E. case_bool_decide.
  - apply (good_after _ (<[i:=" "]> s) _ (S i)); [done|lia|].
    apply IH. rewrite length_insert. lia.
  - case_match.
    + apply good_here; [|lia]. eapply blanked_trans; apply blanked_insert.
    + apply (good_after _ (<[i:=" "]> s) _ (S (S i))); [done|lia|].
      apply IH. rewrite length_insert. lia.
Qed.

Lemma consumeComment_good fuel s i : length s - i < fuel → good s i (consumeComment fuel s i).
Proof.
  intros Hf. unfold consumeComment.
  assert (good s i (if at_byte s i "/" then consume_line fuel (<[i - 1:=" "]> s) i
    else Some (s, i))) as (s1 & i1 & -> & Hb & Hi).
  { case_match; [|by apply good_here].
    apply (good_after _ (<[i - 1:=" "]> s) _ i); [done|lia|].
    apply consume_line_good. by rewrite length_insert. }
  simpl. apply (good_after _ s1 _ i1); [done..|].
  case_match; [|by apply good_here].
  apply (good_after _ (<[i1:=" "]> (<[i1 - 1:=" "]> s1)) _ i1);
    [eapply blanked_trans; apply blanked_insert|lia|].
  apply consume_block_good. rewrite !length_insert. destruct Hb as [-> _]. lia.
Qed.

Lemma skip_string_good fuel s i :
  length s - i < fuel → ∃ i', skip_string fuel s i = Some i' ∧ i ≤ i'.
Proof.
  revert i. induction fuel as [|fuel IH]; intros i Hf; [lia|]. simpl.
  destruct (s !! i) as [c|] eqn:E; [|by eexists]. apply lookup_lt_Some in E.
  repeat case_match; [by eexists; split; [done|lia]|..];
    [destruct (IH (S (S i))) as (i' & -> & ?)|destruct (IH (S i)) as (i' & -> & ?)];
    try lia; eexists; (split; [done|lia]).
Qed.

Lemma after_comma_good fuel j s i :
  length s - i < fuel → good s (S i) (after_comma fuel j s i).
Proof.
  revert s i. induction fuel as [|fuel IH]; intros s i Hf; [lia|]. simpl.
  destruct (s !! S i) as [c|] eqn:E; [|by apply good_here]. apply lookup_lt_Some in E.
  repeat (case_match; [|]); try by apply good_here.
  - destruct (consumeComment_good (S fuel) s (S (S i))) as (s1 & i1 & -> & Hb & ?); [lia|].
    simpl. apply (good_after _ s1 _ (S i1)); [done|lia|]. apply IH.
    destruct Hb as [-> _]. lia.
  - apply (good_after _ s _ (S (S i))); [done|lia|]. apply IH. lia.
Qed.

Lemma prep_loop_good fuel s i :
  length s - i < fuel → ∃ s', prep_loop fuel s i = Some s' ∧ blanked s s'.
Proof.
  revert s i. induction fuel as [|fuel IH]; intros s i Hf; [lia|]. cbn [prep_loop].
  destruct (s !! i) as [c|] eqn:E; [|by eexists]. apply lookup_lt_Some in E.
  assert (∀ s1 i1, blanked s s1 → i < i1 →
    ∃ s', prep_loop fuel s1 i1 = Some s' ∧ blanked s s') as Hnext.
  { intros s1 i1 Hb ?. destruct (IH s1 i1) as (s' & -> & ?); [destruct Hb as [-> _]; lia|].
    eexists. split; [done|]. by eapply blanked_trans. }
  repeat (case_match; [|]).
  - destruct (skip_string_good (S fuel) s (S i)) as (i1 & Hs & ?); [lia|].
    rewrite Hs. apply Hnext; [done|lia].
  - destruct (consumeComment_good (S fuel) s (S i)) as (s1 & i1 & -> & Hb & ?); [lia|].
    apply Hnext; [done|lia].
  - destruct (after_comma_good (S fuel) i s i) as (s1 & i1 & Hs & Hb & ?); [lia|].
    rewrite Hs. apply Hnext; [done|lia].
  - apply Hnext; [done|lia].
Qed.

(** * More fuel changes nothing *)

Lemma consume_line_fuel f1 f2 s i r :
  consume_line f1 s i = Some r → f1 ≤ f2 → consume_line f2 s i = Some r.
Proof.
  revert f2 s i. induction f1 as [|f1 IH]; intros [|f2] s i H Hf; try done; [lia|].
  simpl in *. destruct (s !! i) as [c|]; [|done]. case_match; [done|]. apply IH; [done|lia].
Qed.
Lemma consume_block_fuel f1 f2 s i r :
  consume_block f1 s i = Some r → f1 ≤ f2 → consume_block f2 s i = Some r.
Proof.
  revert f2 s i. induction f1 as [|f1 IH]; intros [|f2] s i H Hf; try done; [lia|].
  simpl in *. destruct (s !! i) as [c|]; [|done].
  repeat (case_match; [|]); try done; apply IH; try done; lia.
Qed.
Lemma consumeComment_fuel f1 f2 s i r :
  consumeComment f1 s i = Some r → f1 ≤ f2 → consumeComment f2 s i = Some r.
Proof.
  unfold consumeComment. intros H Hf.
  destruct (if at_byte s i "/" then _ else _) as [[s1 i1]|] eqn:E; [|done].
  assert ((if at_byte s i "/" then consume_line f2 (<[i - 1:=" "]> s) i else Some (s, i))
    = Some (s1, i1)) as ->.
  { case_match; [by eapply consume_line_fuel|done]. }
  simpl in *. case_match; [by eapply consume_block_fuel|done].
Qed.
Lemma skip_string_fuel f1 f2 s i r :
  skip_string f1 s i = Some r → f1 ≤ f2 → skip_string f2 s i = Some r.
Proof.
  revert f2 i. induction f1 as [|f1 IH]; intros [|f2] i H Hf; try done; [lia|].
  simpl in *. destruct (s !! i) as [c|]; [|done].
  repeat (case_match; [|]); try done; apply IH; try done; lia.
Qed.
Lemma after_comma_fuel f1 f2 j s i r :
  after_comma f1 j s i = Some r → f1 ≤ f2 → after_comma f2 j s i = Some r.
Proof.
  revert f2 s i. induction f1 as [|f1 IH]; intros [|f2] s i H Hf; try done; [lia|].
  cbn [after_comma] in *. destruct (s !! S i) as [c|]; [|done].
  repeat (case_match; [|]); try done; [|by apply IH; [|lia]].
  destruct (consumeComment (S f1) s (S (S i))) as [[s1 i1]|] eqn:E; [|done].
  rewrite (consumeComment_fuel _ (S f2) _ _ _ E) by lia. simpl in *. by apply IH; [|lia].
Qed.
Lemma prep_loop_fuel f1 f2 s i r :
  prep_loop f1 s i = Some r → f1 ≤ f2 → prep_loop f2 s i = Some r.
Proof.
  revert f2 s i. induction f1 as [|f1 IH]; intros [|f2] s i H Hf; try done; [lia|].
  cbn [prep_loop] in *. destruct (s !! i) as [c|]; [|done].
  repeat (case_match; [|]).
  - destruct (skip_string (S f1) s (S i)) as [i1|] eqn:E; [|done].
    rewrite (skip_string_fuel _ (S f2) _ _ _ E) by lia. simpl in *. by apply IH; [|lia].
  - destruct (consumeComment (S f1) s (S i)) as [[s1 i1]|] eqn:E; [|done].
    rewrite (consumeComment_fuel _ (S f2) _ _ _ E) by lia. simpl in *. by apply IH; [|lia].
  - destruct (after_comma (S f1) i s i) as [[s1 i1]|] eqn:E; [|done].
    rewrite (after_comma_fuel _ (S f2) _ _ _ _ E) by lia. simpl in *. by apply IH; [|lia].
  - by apply IH; [|lia].
Qed.

Lemma consume_line_mono fuel s i s' i' :
  consume_line fuel s i = Some (s', i') → i ≤ i'.
Proof.
  revert s i. induction fuel as [|fuel IH]; intros s i; simpl; [done|].
  destruct (s !! i); [case_match|]; [|intros Hc%IH; lia|]; by intros [= <- <-].
Qed.

(** * A prefix that was passed plays no part *)

Section shift.
Context (p : list ascii).

(** A result, seen behind the prefix. *)
Definition behind (r : list ascii * nat) : list ascii * nat := (p ++ r.1, length p + r.2).

Lemma lookup_behind (s : list ascii) i : (p ++ s) !! (length p + i) = s !! i.
Proof. rewrite lookup_app_r by lia. f_equal. lia. Qed.
Lemma insert_behind (s : list ascii) i (c : ascii) :
  <[length p + i := c]> (p ++ s) = p ++ <[i := c]> s.
Proof. rewrite insert_app_r_alt by lia. f_equal. f_equal. lia. Qed.
Lemma insert_behind_pred (s : list ascii) i (c : ascii) :
  0 < i → <[length p + i - 1 := c]> (p ++ s) = p ++ <[i - 1 := c]> s.
Proof. intros ?. rewrite <-insert_behind. f_equal. lia. Qed.
Lemma at_byte_behind s i c : at_byte (p ++ s) (length p + i) c = at_byte s i c.
Proof. unfold at_byte. by rewrite lookup_behind. Qed.

Lemma consume_line_behind fuel s i :
  consume_line fuel (p ++ s) (length p + i) = behind <$> consume_line fuel s i.
Proof.
  revert s i. induction fuel as [|fuel IH]; intros s i; [done|]. simpl.
  rewrite lookup_behind. destruct (s !! i) as [c|]; [|done]. case_match; [done|].
  rewrite insert_behind, <-IH. f_equal. lia.
Qed.
Lemma consume_block_behind fuel s i :
  consume_block fuel (p ++ s) (length p + i) = behind <$> consume_block fuel s i.
Proof.
  revert s i. induction fuel as [|fuel IH]; intros s i; [done|]. simpl.
  rewrite lookup_behind. destruct (s !! i) as [c|]; [|done].
  rewrite insert_behind, <-!Nat.add_succ_r.
  case_match; [apply IH|]. rewrite at_byte_behind, insert_behind.
  case_match; [done|]. apply IH.
Qed.
Lemma consumeComment_behind fuel s i :
  0 < i →
  consumeComment fuel (p ++ s) (length p + i) = behind <$> consumeComment fuel s i.
Proof.
  intros Hi. unfold consumeComment. rewrite at_byte_behind, insert_behind_pred by done.
  assert ((if at_byte s i "/" then consume_line fuel (p ++ <[i - 1:=" "]> s) (length p + i)
     else Some (p ++ s, length p + i)) =
    behind <$> (if at_byte s i "/" then consume_line fuel (<[i - 1:=" "]> s) i
      else Some (s, i))) as ->.
  { case_match; [apply consume_line_behind|done]. }
  destruct (if at_byte s i "/" then _ else _) as [[s1 i1]|] eqn:E; simpl; [|done].
  assert (0 < i1).
  { destruct (at_byte s i "/"); [apply consume_line_mono in E; lia|]. by injection E as _ <-. }
  clear E. rewrite at_byte_behind. case_match; [|done].
  rewrite insert_behind_pred, insert_behind by done. apply consume_block_behind.
Qed.
Lemma skip_string_behind fuel s i :
  skip_string fuel (p ++ s) (length p + i) = (λ i, length p + i) <$> skip_string fuel s i.
Proof.
  revert i. induction fuel as [|fuel IH]; intros i; [done|]. simpl.
  rewrite lookup_behind, <-!Nat.add_succ_r. destruct (s !! i) as [c|]; [|done].
  repeat case_match; try done; apply IH.
Qed.
Lemma after_comma_behind fuel j s i :
  after_comma fuel (length p + j) (p ++ s) (length p + i) = behind <$> after_comma fuel j s i.
Proof.
  revert s i. induction fuel as [|fuel IH]; intros s i; [done|]. cbn [after_comma].
  rewrite <-!Nat.add_succ_r, lookup_behind. destruct (s !! S i) as [c|]; [|done].
  rewrite insert_behind. repeat (case_match; [|]); [done| |apply IH|done].
  rewrite consumeComment_behind by lia.
  destruct (consumeComment _ s _) as [[s1 i1]|]; [|done]. apply IH.
Qed.
Lemma prep_loop_behind fuel s i :
  prep_loop fuel (p ++ s) (length p + i) = app p <$> prep_loop fuel s i.
Proof.
  revert s i. induction fuel as [|fuel IH]; intros s i; [done|]. cbn [prep_loop].
  rewrite lookup_behind. destruct (s !! i) as [c|]; [|done].
  rewrite <-!Nat.add_succ_r, skip_string_behind, consumeComment_behind, after_comma_behind by lia.
  repeat (case_match; [|]).
  - destruct (skip_string _ s _); [|done]. apply IH.
  - destruct (consumeComment _ s _) as [[s1 i1]|]; [|done]. apply IH.
  - destruct (after_comma _ _ s _) as [[s1 i1]|]; [|done]. apply IH.
  - apply IH.
Qed.
End shift.

(** * Running the loop

    [runs s i r]: from index [i] of the buffer [s] the loop ends with [r], under
    some fuel and hence under any that is enough. *)

Definition runs (s : list ascii) (i : nat) (r : list ascii) : Prop :=
  ∃ f, prep_loop f s i = Some r.

Lemma runs_prep s r : runs s 0 r ↔ prep_bytes s = Some r.
Proof.
  split; [|by eexists]. intros [f Hf].
  destruct (prep_loop_good (length s + 2) s 0) as (r' & Hr' & _); [lia|].
  unfold prep_bytes. rewrite Hr'.
  apply (prep_loop_fuel _ (f + (length s + 2))) in Hf; [|lia].
  apply (prep_loop_fuel _ (f + (length s + 2))) in Hr'; [|lia]. congruence.
Qed.

Lemma runs_behind p s r : prep_bytes s = Some r → runs (p ++ s) (length p) (p ++ r).
Proof.
  intros [f Hf]%runs_prep. exists f.
  replace (length p) with (length p + 0) by lia. by rewrite prep_loop_behind, Hf.
Qed.

Lemma runs_neutral s i c r : s !! i = Some c → neutral c → runs s (S i) r → runs s i r.
Proof.
  unfold neutral. rewrite !not_elem_of_cons. intros Hc (? & ? & ? & _) [f Hf].
  exists (S f). cbn [prep_loop]. rewrite Hc. by rewrite !bool_decide_eq_false_2.
Qed.

Lemma runs_string s i i' r f :
  s !! i = Some quote → skip_string f s (S i) = Some i' → runs s i' r → runs s i r.
Proof.
  intros Hc Hs [g Hg]. exists (S (f + g)). cbn [prep_loop]. rewrite Hc.
  rewrite bool_decide_eq_true_2 by done.
  rewrite (skip_string_fuel _ _ _ _ _ Hs) by lia. simpl.
  apply (prep_loop_fuel _ _ _ _ _ Hg). lia.
Qed.

Lemma runs_comment s i s' i' r f :
  s !! i = Some "/" → consumeComment f s (S i) = Some (s', i') → runs s' i' r → runs s i r.
Proof.
  intros Hc Hs [g Hg]. exists (S (f + g)). cbn [prep_loop]. rewrite Hc.
  rewrite bool_decide_eq_false_2, bool_decide_eq_true_2 by done.
  rewrite (consumeComment_fuel _ _ _ _ _ Hs) by lia. simpl.
  apply (prep_loop_fuel _ _ _ _ _ Hg). lia.
Qed.

Lemma runs_comma s i s' i' r f :
  s !! i = Some "," → after_comma f i s i = Some (s', i') → runs s' i' r → runs s i r.
Proof.
  intros Hc Hs [g Hg]. exists (S (f + g)). cbn [prep_loop]. rewrite Hc.
  rewrite !bool_decide_eq_false_2, bool_decide_eq_true_2 by done.
  rewrite (after_comma_fuel _ _ _ _ _ _ Hs) by lia. simpl.
  apply (prep_loop_fuel _ _ _ _ _ Hg). lia.
Qed.

(** ** What each construct becomes *)

(** The byte at the end of a prefix. *)
Lemma lookup_at (a b : list ascii) i c : i = length a → (a ++ c :: b) !! i = Some c.
Proof. intros ->. by apply list_lookup_middle. Qed.
Lemma insert_at (a b : list ascii) i c d : i = length a → <[i := d]> (a ++ c :: b) = a ++ d :: b.
Proof. intros ->. by rewrite insert_app_r_alt, Nat.sub_diag by lia. Qed.

Lemma consume_line_run c u nl b :
  Forall (λ x, ¬ isNL x) c → isNL nl →
  ∃ f, consume_line f (u ++ c ++ nl :: b) (length u)
    = Some (u ++ spaces (length c) ++ nl :: b, length u + length c).
Proof.
  intros Hc Hnl. revert u. induction Hc as [|x c Hx Hc IH]; intros u.
  - exists 1. simpl. rewrite lookup_at by done. rewrite (Is_true_true_1 _ Hnl). do 2 f_equal. lia.
  - destruct (IH (u ++ [" "])) as [f Hf]. exists (S f). simpl.
    rewrite lookup_at, insert_at by done. apply Is_true_false_1 in Hx as ->.
    rewrite length_app, Nat.add_1_r, <-!(assoc_L app) in Hf. simpl in Hf. rewrite Hf.
    do 2 f_equal. lia.
Qed.

Lemma consume_block_run c u b :
  "*" ∉ c →
  ∃ f, consume_block f (u ++ c ++ "*" :: "/" :: b) (length u)
    = Some (u ++ spaces (length c + 2) ++ b, length u + length c + 1).
Proof.
  revert u. induction c as [|x c IH]; intros u Hc.
  - exists 1. simpl. rewrite lookup_at by done. rewrite bool_decide_eq_false_2 by naive_solver.
    rewrite insert_at by done.
    change (u ++ " " :: "/" :: b) with (u ++ [" "] ++ "/" :: b). rewrite (assoc_L app).
    unfold at_byte. rewrite lookup_at by (rewrite length_app; simpl; lia).
    rewrite bool_decide_eq_true_2 by done.
    rewrite insert_at by (rewrite length_app; simpl; lia). rewrite <-(assoc_L app). simpl.
    do 2 f_equal. lia.
  - apply not_elem_of_cons in Hc as [Hx Hc]. destruct (IH (u ++ [" "]) Hc) as [f Hf].
    exists (S f). simpl. rewrite lookup_at, insert_at by done.
    rewrite bool_decide_eq_true_2 by done.
    rewrite length_app, Nat.add_1_r, <-!(assoc_L app) in Hf. simpl in Hf. rewrite Hf.
    do 2 f_equal. lia.
Qed.

Lemma skip_string_run c u b :
  Forall (λ x, x ≠ quote ∧ x ≠ "\") c →
  ∃ f, skip_string f (u ++ c ++ quote :: b) (length u) = Some (length u + length c + 1).
Proof.
  intros Hc. revert u. induction Hc as [|x c [? ?] Hc IH]; intros u.
  - exists 1. simpl. rewrite lookup_at by done. rewrite bool_decide_eq_true_2 by done. f_equal; lia.
  - destruct (IH (u ++ [x])) as [f Hf]. exists (S f). simpl. rewrite lookup_at by done.
    rewrite !bool_decide_eq_false_2 by done.
    rewrite length_app, Nat.add_1_r, <-!(assoc_L app) in Hf. simpl in Hf. rewrite Hf.
    f_equal. lia.
Qed.

(** The loop after a comma reaches the first byte that is not white space. *)
Lemma after_comma_run w u x d b :
  Forall isWS w → d ≠ "/" → ¬ isWS d →
  ∃ f, after_comma f (length u) (u ++ x :: w ++ d :: b) (length u)
    = Some (u ++ (if bool_decide (d = "}") || bool_decide (d = "]") then " " else x) :: w ++ d :: b,
            length u + S (length w)).
Proof.
  intros Hw Hd Hws.
  assert (∀ v, ∃ f, ∀ s, s = u ++ x :: v ++ w ++ d :: b →
    after_comma f (length u) s (length u + length v)
    = Some (u ++ (if bool_decide (d = "}") || bool_decide (d = "]") then " " else x)
              :: v ++ w ++ d :: b, length u + length v + S (length w))) as H.
  { induction Hw as [|y w Hy Hw IH]; intros v.
    - exists 1. intros s ->. simpl.
      assert ((u ++ x :: v ++ d :: b) !! S (length u + length v) = Some d) as ->.
      { change (u ++ x :: v ++ d :: b) with (u ++ (x :: v) ++ d :: b). rewrite (assoc_L app).
        apply lookup_at. rewrite length_app. simpl. lia. }
      case_match; [rewrite insert_at by done; do 2 f_equal; lia|].
      rewrite bool_decide_eq_false_2 by done. apply Is_true_false_1 in Hws as ->.
      do 2 f_equal. lia.
    - destruct (IH (v ++ [y])) as [f Hf]. exists (S f). intros s ->. cbn [after_comma].
      assert ((u ++ x :: v ++ (y :: w) ++ d :: b) !! S (length u + length v) = Some y) as ->.
      { change (u ++ x :: v ++ (y :: w) ++ d :: b) with (u ++ (x :: v) ++ y :: (w ++ d :: b)).
        rewrite (assoc_L app). apply lookup_at. rewrite length_app. simpl. lia. }
      assert (y ∉ ["}"; "]"; "/"]) as Hy'.
      { rewrite !not_elem_of_cons. repeat split; try (by intros ->). apply not_elem_of_nil. }
      rewrite !not_elem_of_cons in Hy'. destruct Hy' as (? & ? & ? & _).
      rewrite !bool_decide_eq_false_2 by done. simpl. rewrite (Is_true_true_1 _ Hy).
      rewrite length_app in Hf. simpl in Hf.
      replace (S (length u + length v)) with (length u + (length v + 1)) by lia.
      rewrite Hf by (by rewrite <-(assoc_L app)). rewrite <-(assoc_L app). do 2 f_equal. lia. }
  destruct (H []) as [f Hf]. exists f. simpl in Hf.
  rewrite Nat.add_0_r in Hf. by rewrite Hf.
Qed.

Lemma consume_block_end c u :
  "*" ∉ c →
  ∃ f, consume_block f (u ++ c) (length u) = Some (u ++ spaces (length c), length u + length c).
Proof.
  revert u. induction c as [|x c IH]; intros u Hc.
  - exists 1. simpl. rewrite lookup_ge_None_2; [do 2 f_equal; lia|]. rewrite length_app. simpl. lia.
  - apply not_elem_of_cons in Hc as [Hx Hc]. destruct (IH (u ++ [" "]) Hc) as [f Hf].
    exists (S f). simpl. rewrite lookup_at, insert_at by done.
    rewrite bool_decide_eq_true_2 by done.
    rewrite length_app, Nat.add_1_r, <-!(assoc_L app) in Hf. simpl in Hf. rewrite Hf.
    do 2 f_equal. lia.
Qed.

Lemma prep_neutral a b r :
  Forall neutral a → prep_bytes b = Some r → prep_bytes (a ++ b) = Some (a ++ r).
Proof.
  intros Ha Hb. apply runs_prep. revert Ha.
  assert (∀ p, Forall neutral a → runs (p ++ a ++ b) (length p) (p ++ a ++ r)) as H; [|apply (H [])].
  induction a as [|x a IH]; intros p Ha; [by apply runs_behind|].
  apply Forall_cons in Ha as [Hx Ha]. eapply runs_neutral; [by apply lookup_at|done|].
  specialize (IH (p ++ [x]) Ha). by rewrite length_app, Nat.add_1_r, <-!(assoc_L app) in IH.
Qed.

Lemma spaces_app n m : spaces n ++ spaces m = spaces (n + m).
Proof. unfold spaces. by rewrite replicate_add. Qed.

(** Passing [x], which becomes [y], in front of [b]. *)
Lemma runs_pass (x y b r s : list ascii) :
  prep_bytes b = Some r → s = y ++ b → length x = length y → runs s (length x) (y ++ r).
Proof. intros Hb -> ->. by apply runs_behind. Qed.

Lemma prep_line_comment c nl b r :
  Forall (λ x, ¬ isNL x) c → isNL nl → prep_bytes b = Some r →
  prep_bytes ("/" :: "/" :: c ++ nl :: b) = Some (spaces (2 + length c) ++ nl :: r).
Proof.
  intros Hc Hnl Hb. apply runs_prep.
  destruct (consume_line_run ("/" :: c) [" "] nl b) as [f Hf]; [|done|].
  { constructor; [|done]. by vm_compute. }
  set (i := length [" "] + length ("/" :: c)) in *.
  set (s1 := [" "] ++ spaces (length ("/" :: c)) ++ nl :: b) in *.
  assert (s1 !! i = Some nl) as Hi.
  { subst s1. rewrite (assoc_L app). apply lookup_at. subst i.
    rewrite length_app. unfold spaces. by rewrite length_replicate. }
  assert (nl ≠ "*" ∧ neutral nl) as [Hstar Hneutral].
  { unfold isNL in Hnl.
    apply orb_True in Hnl as [->%bool_decide_unpack| ->%bool_decide_unpack];
      (split; [done|by apply (bool_decide_unpack _)]). }
  eapply (runs_comment _ _ _ _ _ f); [done| |apply (runs_neutral _ _ nl); [exact Hi|done|]].
  - change (consumeComment f ("/" :: "/" :: c ++ nl :: b) 1) with
      ('(s, i) ← consume_line f ([" "] ++ ("/" :: c) ++ nl :: b) (length [" "]);
       if at_byte s i "*" then consume_block f (<[i := " "]> (<[i - 1 := " "]> s)) i
       else Some (s, i)).
    rewrite Hf. simpl. unfold at_byte. rewrite Hi, bool_decide_eq_false_2; [done|congruence].
  - change (nl :: r) with ([nl] ++ r). rewrite (assoc_L app).
    replace (S i) with (length (spaces (2 + length c) ++ [nl])).
    2: { rewrite length_app. unfold spaces. rewrite length_replicate. subst i. simpl. lia. }
    apply (runs_pass _ _ b); [done| |done]. by rewrite <-(assoc_L app).
Qed.

Lemma prep_block_comment c b r :
  "*" ∉ c → prep_bytes b = Some r →
  prep_bytes ("/" :: "*" :: c ++ "*" :: "/" :: b) = Some (spaces (4 + length c) ++ r).
Proof.
  intros Hc Hb. apply runs_prep.
  destruct (consume_block_run (" " :: c) [" "] b) as [f Hf]; [by apply not_elem_of_cons|].
  eapply (runs_comment _ _ _ _ _ f); [done| |].
  - unfold consumeComment. cbn -[consume_line consume_block]. exact Hf.
  - apply (runs_neutral _ _ " ").
    + change ([" "] ++ spaces (length (" " :: c) + 2) ++ b)
        with (spaces (1 + (S (length c) + 2)) ++ b).
      rewrite lookup_app_l by (unfold spaces; rewrite length_replicate; simpl; lia).
      apply lookup_replicate_2. simpl. lia.
    + by apply (bool_decide_unpack _).
    + replace (S (length ([" "] : list ascii) + length (" " :: c) + 1)) with (length (spaces (4 + length c))).
      2: { unfold spaces. rewrite length_replicate. simpl. lia. }
      apply (runs_pass _ _ b); [done| |done]. change [" "] with (spaces 1).
      rewrite (assoc_L app), spaces_app. do 2 f_equal. simpl. lia.
Qed.

Lemma prep_string c b r :
  Forall (λ x, x ≠ quote ∧ x ≠ "\") c → prep_bytes b = Some r →
  prep_bytes (quote :: c ++ quote :: b) = Some (quote :: c ++ quote :: r).
Proof.
  intros Hc Hb. apply runs_prep.
  destruct (skip_string_run c [quote] b Hc) as [f Hf].
  eapply (runs_string _ _ _ _ f); [done|exact Hf|].
  replace (length [quote] + length c + 1) with (length (quote :: c ++ [quote])).
  2: { simpl. rewrite length_app. simpl. lia. }
  replace (quote :: c ++ quote :: r) with ((quote :: c ++ [quote]) ++ r)
    by (simpl; by rewrite <-(assoc_L app)).
  apply (runs_pass _ _ b); [done| |done]. simpl. by rewrite <-(assoc_L app).
Qed.

Lemma prep_comma w d b r :
  Forall isWS w → d ≠ "/" → ¬ isWS d → prep_bytes (d :: b) = Some r →
  prep_bytes ("," :: w ++ d :: b)
    = Some ((if bool_decide (d = "}") || bool_decide (d = "]") then " " else ",") :: w ++ r).
Proof.
  intros Hw Hd Hws Hb. apply runs_prep.
  destruct (after_comma_run w [] "," d b Hw Hd Hws) as [f Hf].
  eapply (runs_comma _ _ _ _ _ f); [done|exact Hf|]. simpl.
  set (x := if bool_decide (d = "}") || bool_decide (d = "]") then " " else ",").
  by apply (runs_pass ("," :: w) (x :: w) (d :: b)).
Qed.

(** * The theorems *)

(** Cleaning a configuration ends for every input, and its output is the input
    with some bytes replaced by spaces: no byte is added, removed, moved or replaced
    by anything else, so the positions of a later JSON syntax error stay right. *)
Theorem prep_total s : ∃ s', prep_bytes s = Some s' ∧ blanked s s'.
Proof. apply prep_loop_good. lia. Qed.

(** What each construct becomes in front of a rest [b] that cleans to [r], after
    bytes [a] that start nothing: a line comment and a block comment without a star
    are blanked, a comma before a closing brace or bracket is blanked, any other
    comma and a string literal, whatever it holds, are kept. *)
Theorem prep_constructs a b r :
  Forall neutral a → prep_bytes b = Some r →
  prep_bytes (a ++ b) = Some (a ++ r) ∧
  (∀ c nl, Forall (λ x, ¬ isNL x) c → isNL nl →
    prep_bytes (a ++ "/" :: "/" :: c ++ nl :: b) = Some (a ++ spaces (2 + length c) ++ nl :: r)) ∧
  (∀ c, "*" ∉ c →
    prep_bytes (a ++ "/" :: "*" :: c ++ "*" :: "/" :: b) = Some (a ++ spaces (4 + length c) ++ r)) ∧
  (∀ w d, Forall isWS w → d ∈ ["}"; "]"] →
    prep_bytes (a ++ "," :: w ++ d :: b) = Some (a ++ " " :: w ++ d :: r)) ∧
  (∀ w d, Forall isWS w → neutral d → ¬ isWS d → d ∉ ["}"; "]"] →
    prep_bytes (a ++ "," :: w ++ d :: b) = Some (a ++ "," :: w ++ d :: r)) ∧
  (∀ c, Forall (λ x, x ≠ quote ∧ x ≠ "\") c →
    prep_bytes (a ++ quote :: c ++ quote :: b) = Some (a ++ quote :: c ++ quote :: r)).
Proof.
  intros Ha Hb.
  assert (∀ d, neutral d → prep_bytes (d :: b) = Some (d :: r)) as Hd.
  { intros d ?. by apply (prep_neutral [d]); [constructor|]. }
  split; [by apply prep_neutral|].
  split; [intros; apply prep_neutral; [done|]; by apply prep_line_comment|].
  split; [intros; apply prep_neutral; [done|]; by apply prep_block_comment|].
  split.
  { intros w d Hw Hin. apply prep_neutral; [done|].
    assert (d ≠ "/" ∧ ¬ isWS d ∧ neutral d ∧ (bool_decide (d = "}") || bool_decide (d = "]") = true))
      as (? & ? & ? & Hclose).
    { apply elem_of_cons in Hin as [->|Hin%list_elem_of_singleton]; [|subst d];
        (split_and!; [done|by vm_compute|by apply (bool_decide_unpack _)|done]). }
    rewrite (prep_comma w d b (d :: r)) by auto. by rewrite Hclose. }
  split; [|intros; apply prep_neutral; [done|]; by apply prep_string].
  intros w d Hw Hn Hws Hin. apply prep_neutral; [done|].
  rewrite !not_elem_of_cons in Hin. destruct Hin as (? & ? & _).
  rewrite (prep_comma w d b (d :: r)); [|done| |done|by apply Hd].
  - by rewrite !bool_decide_eq_false_2.
  - intros ->. by apply Hn, (bool_decide_unpack _).
Qed.

Lemma prep_constructs_witness :
  prep_bytes (to_bytes "{ a: // b" ++ byte 10 :: to_bytes "}")
  = Some (to_bytes "{ a:     " ++ byte 10 :: to_bytes "}").
Proof.
  destruct (prep_constructs (to_bytes "{ a: ") (to_bytes "}") (to_bytes "}"))
    as (_ & H & _); [apply (bool_decide_unpack _); by vm_compute|reflexivity|].
  apply (H (to_bytes " b") (byte 10)); [|done].
  repeat constructor; by vm_compute.
Defined.

(** The byte after a star inside a block comment is not looked at again: in a
    comment that ends with two stars and a slash the end is not seen, everything up
    to the next star is blanked as well, and the byte after the star survives. *)
Theorem prep_double_star t :
  "*" ∉ t → prep_bytes (to_bytes "/***/" ++ t) = Some (to_bytes "   * " ++ spaces (length t)).
Proof.
  intros Ht. apply runs_prep.
  destruct (consume_block_end ("/" :: t) (to_bytes "   *")) as [f Hf].
  { by apply not_elem_of_cons. }
  eapply (runs_comment _ _ _ _ _ (S (S f))); [done|exact Hf|].
  exists 1. cbn [prep_loop]. rewrite lookup_ge_None_2; [done|].
  simpl. unfold spaces. rewrite length_replicate. lia.
Qed.

Lemma prep_double_star_witness :
  prep_bytes (to_bytes "/***/{x:1}") = Some (to_bytes "   *      ").
Proof.
  apply (prep_double_star (to_bytes "{x:1}")). by apply (bool_decide_unpack _).
Defined.
