(* ===== verification/LogHook.v ===== *)
(** common/loghook/loghook.go, and setLogLevel of cmd/server.go: which log entries are written.

    A moment is its number of nanoseconds.  The values of the fields of an entry are given
    by how [%v] prints them.  The mutex makes [Suppress] atomic. *)
From S2P Require Import Prelude GoStrings.
#[local] Open Scope string_scope.
#[local] Open Scope Z_scope.

(** * Levels *)

Definition PanicLevel : Z := 0.
Definition FatalLevel : Z := 1.
Definition ErrorLevel : Z := 2.
Definition WarnLevel : Z := 3.
Definition InfoLevel : Z := 4.
Definition DebugLevel : Z := 5.
Definition TraceLevel : Z := 6.
(** logrus names its levels. *)
Definition level_String (l : Z) : string :=
  default "unknown" (["panic"; "fatal"; "error"; "warning"; "info"; "debug"; "trace"] !! Z.to_nat l).

(** The level, and whether the text is unknown, which is warned about. *)
Definition setLogLevel (level : string) : Z * bool :=
  let l := ToLower (TrimSpace level) in
  if decide (l = "" ∨ l = "info") then (InfoLevel, false)
  else if decide (l = "trace") then (TraceLevel, false)
  else if decide (l = "debug") then (DebugLevel, false)
  else if decide (l = "warn" ∨ l = "warning") then (WarnLevel, false)
  else if decide (l = "error") then (ErrorLevel, false)
  else if decide (l = "fatal") then (FatalLevel, false)
  else if decide (l = "panic") then (PanicLevel, false)
  else (InfoLevel, true).

(** * The entries *)

Record entry := MkEntry { en_Level : Z; en_Message : string; en_Data : gmap string string }.

Definition DefaultWindow : Z := Minute.
Definition retention : Z := 10 * Minute.

Record record := MkRecord { rc_first : Z; rc_last : Z; rc_suppressed : Z }.
Record Deduper := MkDeduper {
  dd_window : Z;
  dd_minLevel : Z;
  dd_entries : gmap string record;
  dd_lastPrune : option Z
}.
Definition New (window minLevel : Z) : Deduper :=
  MkDeduper (if bool_decide (window ≤ 0) then DefaultWindow else window) minLevel ∅ None.

Definition NUL : ascii := byte 0.
(** The parts of a key, which [entryKey] writes with a zero byte between two of them. *)
Definition key_field (data : gmap string string) (k : string) : string :=
  k +:+ "=" +:+ default "" (data !! k).
Definition key_parts (e : entry) : list string :=
  level_String (en_Level e) :: en_Message e ::
  map (key_field (en_Data e)) (sort_Strings (map fst (map_to_list (en_Data e)))).
Definition entryKey (e : entry) : string := Join (key_parts e) (of_bytes [NUL]).

Definition prune (now : Z) (d : Deduper) : Deduper :=
  match dd_lastPrune d with
  | Some t => if bool_decide (now - t < dd_window d) then d
      else MkDeduper (dd_window d) (dd_minLevel d)
             (filter (λ kr, now - rc_last kr.2 < retention) (dd_entries d)) (Some now)
  | None => MkDeduper (dd_window d) (dd_minLevel d)
             (filter (λ kr, now - rc_last kr.2 < retention) (dd_entries d)) (Some now)
  end.

Definition set_entry (key : string) (r : record) (d : Deduper) : Deduper :=
  MkDeduper (dd_window d) (dd_minLevel d) (<[key := r]> (dd_entries d)) (dd_lastPrune d).
Section duration.
(** How a time.Duration is printed. *)
Context (print_duration : Z → string).

Definition collapsed (e : entry) (n window : Z) : entry :=
  MkEntry (en_Level e) (en_Message e +:+ " (the same message was logged " +:+ Itoa n +:+
    " more times in the previous " +:+ print_duration window +:+ ")") (en_Data e).
(** The cases of [Suppress], after [prune]. *)
Definition note (now : Z) (e : entry) (d : Deduper) : bool * entry * Deduper :=
  let key := entryKey e in
  match dd_entries d !! key with
  | None => (false, e, set_entry key (MkRecord now now 0) d)
  | Some rec =>
      if bool_decide (now - rc_first rec < dd_window d) then
        (true, e, set_entry key (MkRecord (rc_first rec) now (wrapu64 (rc_suppressed rec + 1))) d)
      else
        (false, if bool_decide (rc_suppressed rec > 0) then collapsed e (rc_suppressed rec) (dd_window d) else e,
         set_entry key (MkRecord now now 0) d)
  end.
(** [None] is the nil Deduper. *)
Definition Suppress (now : Z) (e : entry) (d : option Deduper) : bool * entry * option Deduper :=
  match d with
  | None => (false, e, None)
  | Some d =>
      if bool_decide (en_Level e > dd_minLevel d) then (false, e, Some d)
      else let '(b, e, d) := note now e (prune now d) in (b, e, Some d)
  end.

(** [inner] formats an entry; a nil Inner is the text formatter. *)
Definition Format (inner : option (entry → result string)) (text : entry → result string)
    (now : Z) (e : entry) (d : option Deduper) : result string * option Deduper :=
  match Suppress now e d with
  | (true, _, d) => (Ok "", d)
  | (false, e, d) => (default text inner e, d)
  end.
Definition Install (window minLevel : Z) : option Deduper := Some (New window minLevel).

(** * The key *)

(** An entry whose parts can be told apart: no zero byte, and no '=' in a field name. *)
Definition NUL_free (s : string) : Prop := NUL ∉ to_bytes s.
Definition separable (e : entry) : Prop :=
  0 ≤ en_Level e ≤ 6 ∧ NUL_free (en_Message e) ∧
  map_Forall (λ k v, NUL_free k ∧ "="%char ∉ to_bytes k ∧ NUL_free v) (en_Data e).

Lemma level_String_inj l m : 0 ≤ l ≤ 6 → 0 ≤ m ≤ 6 → level_String l = level_String m → l = m.
Proof.
  intros Hl Hm. assert (∀ x, 0 ≤ x ≤ 6 → x ∈ [0;1;2;3;4;5;6]) as H by (intros; set_unfold; lia).
  apply H in Hl, Hm. set_unfold in Hl. set_unfold in Hm.
  destruct_or!; subst; cbn; try done; by intros ?%(f_equal to_bytes).
Qed.
Lemma level_String_NUL l : NUL_free (level_String l).
Proof.
  unfold level_String. destruct (_ !! _) as [s|] eqn:E; [|by apply (bool_decide_unpack _)].
  apply list_elem_of_lookup_2 in E. revert s E. apply Forall_forall. by apply (bool_decide_unpack _).
Qed.

Lemma key_parts_free e : separable e → Forall NUL_free (key_parts e).
Proof.
  intros (Hl & Hm & Hd). unfold key_parts. apply Forall_cons. split; [apply level_String_NUL|].
  apply Forall_cons. split; [done|]. apply Forall_forall. intros s (k & -> & Hk)%list_elem_of_fmap.
  rewrite sort_Strings_Permutation in Hk. apply list_elem_of_fmap in Hk as ([k' v] & -> & Hk). simpl.
  apply elem_of_map_to_list in Hk. destruct (Hd _ _ Hk) as (H1 & _ & H2). unfold key_field. rewrite Hk. simpl.
  unfold NUL_free in *. rewrite !to_bytes_app, !elem_of_app. intros [?|[H|?]]; [done| |done].
  by apply (bool_decide_pack _) in H.
Qed.

Lemma fields_subset (m1 m2 : gmap string string) :
  map_Forall (λ k _, "="%char ∉ to_bytes k) m1 → map_Forall (λ k _, "="%char ∉ to_bytes k) m2 →
  map (key_field m1) (sort_Strings (map fst (map_to_list m1))) =
  map (key_field m2) (sort_Strings (map fst (map_to_list m2))) → m1 ⊆ m2.
Proof.
  intros H1 H2 E. apply map_subseteq_spec. intros k v Hk.
  assert (key_field m1 k ∈ map (key_field m2) (sort_Strings (map fst (map_to_list m2)))) as Hin.
  { rewrite <-E. apply list_elem_of_fmap. exists k. split; [done|]. rewrite sort_Strings_Permutation.
    apply list_elem_of_fmap. exists (k, v). split; [done|]. by apply elem_of_map_to_list. }
  apply list_elem_of_fmap in Hin as (k2 & Hf & Hin). rewrite sort_Strings_Permutation in Hin.
  apply list_elem_of_fmap in Hin as ([k' v'] & -> & Hin). apply elem_of_map_to_list in Hin.
  unfold key_field in Hf. cbn [fst] in Hf. rewrite Hk, Hin in Hf. apply (f_equal to_bytes) in Hf. simpl in Hf.
  rewrite !to_bytes_app in Hf.
  apply (cut_first "="%char) in Hf as [Ek%(inj to_bytes) Ev%(inj to_bytes)]; [by subst|exact (H1 _ _ Hk)|exact (H2 _ _ Hin)].
Qed.

(** Entries that differ in level, message or a field have different keys. *)
Lemma entryKey_inj e1 e2 : separable e1 → separable e2 → entryKey e1 = entryKey e2 → e1 = e2.
Proof.
  intros H1 H2 E. apply (f_equal (λ s, Split s NUL)) in E. unfold entryKey in E.
  rewrite !Split_Join in E by (by try apply key_parts_free).
  destruct H1 as (Hl1 & _ & Hd1), H2 as (Hl2 & _ & Hd2), e1 as [l1 m1 d1], e2 as [l2 m2 d2].
  unfold key_parts in E. cbn [en_Level en_Message en_Data] in *. injection E as El -> Ed.
  apply level_String_inj in El as ->; [|done..]. f_equal.
  assert (∀ d : gmap string string, map_Forall (λ k v, NUL_free k ∧ "="%char ∉ to_bytes k ∧ NUL_free v) d →
    map_Forall (λ k _, "="%char ∉ to_bytes k) d) as Hw by (intros d Hd k v Hk; by apply (Hd k v)).
  apply (anti_symm (⊆)); apply fields_subset; auto.
Qed.

(** * What is written, in terms of the whole history *)

(** The entries seen so far that are deduplicated, the last one first. *)
Record seen := MkSeen { se_time : Z; se_key : string; se_suppressed : bool }.
Fixpoint last_seen (key : string) (h : list seen) : option Z :=
  match h with
  | [] => None
  | s :: h => if decide (se_key s = key) then Some (se_time s) else last_seen key h
  end.
(** The time of the last written entry, and how many were suppressed since. *)
Fixpoint last_written (key : string) (h : list seen) : option Z :=
  match h with
  | [] => None
  | s :: h => if decide (se_key s = key ∧ se_suppressed s = false) then Some (se_time s) else last_written key h
  end.
Fixpoint since_written (key : string) (h : list seen) : Z :=
  match h with
  | [] => 0
  | s :: h => if decide (se_key s = key) then (if se_suppressed s then 1 + since_written key h else 0)
              else since_written key h
  end.

(** An entry is logged, not before the ones already logged. *)
Inductive log_step : Z * list seen * Deduper → Z * list seen * Deduper → Prop :=
| log_step_skip t now h d e : t ≤ now → en_Level e > dd_minLevel d → log_step (t, h, d) (now, h, d)
| log_step_note t now h d e : t ≤ now → en_Level e ≤ dd_minLevel d →
    log_step (t, h, d)
      (now, MkSeen now (entryKey e) (note now e (prune now d)).1.1 :: h, (note now e (prune now d)).2).

(** What the Deduper remembers agrees with the history; what it has forgotten is old. *)
Definition key_inv (w now : Z) (h : list seen) (o : option record) (key : string) : Prop :=
  match o with
  | Some r => last_seen key h = Some (rc_last r) ∧ last_written key h = Some (rc_first r) ∧
      rc_first r ≤ rc_last r ≤ now ∧ wrapu64 (since_written key h) = rc_suppressed r
  | None => ∀ t, last_seen key h = Some t →
      retention ≤ now - t ∧ ∃ t', last_written key h = Some t' ∧ t' ≤ t
  end.
Definition log_inv (w lvl : Z) (s : Z * list seen * Deduper) : Prop :=
  let '(now, h, d) := s in
  dd_window d = w ∧ dd_minLevel d = lvl ∧ ∀ key, key_inv w now h (dd_entries d !! key) key.

Lemma key_inv_later w t now h o key : t ≤ now → key_inv w t h o key → key_inv w now h o key.
Proof. unfold key_inv. destruct o; [naive_solver lia|]. intros Ht H t' Hs. destruct (H t' Hs). split; [lia|done]. Qed.
Lemma prune_inv w lvl t now h d : t ≤ now → log_inv w lvl (t, h, d) → log_inv w lvl (now, h, prune now d).
Proof.
  intros Ht (Hw & Hl & H).
  assert (log_inv w lvl (now, h, d)) as Hd by (split_and!; try done; intros key; by eapply key_inv_later).
  assert (log_inv w lvl (now, h, MkDeduper (dd_window d) (dd_minLevel d)
    (filter (λ kr, now - rc_last kr.2 < retention) (dd_entries d)) (Some now))) as Hf.
  { split_and!; [done..|]. intros key. cbn [dd_entries]. destruct Hd as (_ & _ & Hd). specialize (Hd key).
    destruct (filter _ _ !! key) as [r|] eqn:E.
    - apply map_lookup_filter_Some in E as [E _]. by rewrite E in Hd.
    - destruct (dd_entries d !! key) as [r|] eqn:Ed; [|done]. simpl in *. destruct Hd as (H1 & H2 & H3 & _).
      intros t' Ht'. assert (t' = rc_last r) as -> by congruence. split; [|exists (rc_first r); split; [done|lia]].
      assert (¬ now - rc_last r < retention); [|lia]. intros Hlt.
      by rewrite (map_lookup_filter_Some_2 _ _ _ _ Ed Hlt) in E. }
  unfold prune. destruct (dd_lastPrune d); [|done]. by case_bool_decide.
Qed.
Lemma note_inv w lvl now h d e : log_inv w lvl (now, h, d) →
  log_inv w lvl (now, MkSeen now (entryKey e) (note now e d).1.1 :: h, (note now e d).2).
Proof.
  intros (Hw & Hl & H). unfold note. pose proof (H (entryKey e)) as Hk.
  assert (∀ b r, key_inv w now (MkSeen now (entryKey e) b :: h) (Some r) (entryKey e) →
    log_inv w lvl (now, MkSeen now (entryKey e) b :: h, set_entry (entryKey e) r d)) as Hset.
  { intros b r Hr. split_and!; [done..|]. intros key. cbn [dd_entries set_entry].
    destruct (decide (entryKey e = key)) as [<-|Hne]; [by rewrite lookup_insert_eq|].
    rewrite lookup_insert_ne by done. specialize (H key). unfold key_inv in *.
    cbn [last_seen last_written since_written se_key se_suppressed].
    rewrite !(decide_False (P := entryKey e = key)) by done.
    rewrite (decide_False (P := _ ∧ _)) by (by intros []). done. }
  destruct (dd_entries d !! entryKey e) as [r|] eqn:E.
  - destruct Hk as (H1 & H2 & H3 & H4). case_bool_decide as Hlt; cbn [fst snd]; apply Hset; unfold key_inv;
      cbn [last_seen last_written since_written se_key se_suppressed se_time rc_first rc_last rc_suppressed].
    + rewrite !(decide_True (P := entryKey e = entryKey e)) by done.
      rewrite (decide_False (P := _ ∧ _)) by (by intros []). split_and!; [done|done|lia|lia|].
      rewrite <-H4. unfold wrapu64. rewrite Zplus_mod_idemp_l. f_equal. lia.
    + rewrite !(decide_True (P := entryKey e = entryKey e)) by done.
      rewrite (decide_True (P := _ ∧ _)) by done. split_and!; [done|done|lia|lia|done].
  - cbn [fst snd]. apply Hset. unfold key_inv.
    cbn [last_seen last_written since_written se_key se_suppressed se_time rc_first rc_last rc_suppressed].
    rewrite !(decide_True (P := entryKey e = entryKey e)) by done.
    rewrite (decide_True (P := _ ∧ _)) by done. split_and!; [done|done|lia|lia|done].
Qed.
Lemma log_step_inv w lvl s s' : log_inv w lvl s → log_step s s' → log_inv w lvl s'.
Proof.
  intros Hs Hst. destruct Hst as [t now h d e Ht He|t now h d e Ht He].
  - destruct Hs as (Hw & Hl & H). split_and!; [done..|]. intros key. by eapply key_inv_later.
  - by apply note_inv, (prune_inv w lvl t).
Qed.
Lemma New_inv window lvl t : log_inv (dd_window (New window lvl)) lvl (t, [], New window lvl).
Proof. split_and!; [done..|]. intros key. cbn [New dd_entries]. by rewrite lookup_empty. Qed.

(** The entries written and collapsed, at any moment, in terms of all that was logged before.
    Forgetting old records does not show: an entry is suppressed exactly when one with the
    same key was written less than a window ago (a window up to the retention), and it then leaves
    the message alone.  A written entry mentions how many were collapsed since the last
    written one, if any were; only a key not seen for ten minutes may have lost its count. *)
Theorem dedupe_exact (window lvl t0 t now : Z) (h : list seen) (d : Deduper) (e : entry) :
  steps log_step (t0, [], New window lvl) (t, h, d) → t ≤ now → en_Level e ≤ lvl →
  let w := dd_window (New window lvl) in
  let key := entryKey e in
  let '(suppressed, e', _) := Suppress now e (Some d) in
  w ≤ retention →
  (suppressed = true ↔ ∃ t', last_written key h = Some t' ∧ now - t' < w) ∧
  (suppressed = true → e' = e) ∧
  (suppressed = false → since_written key h < 2 ^ 64 →
     (∀ t', last_seen key h = Some t' → now - t' < retention) →
     e' = if bool_decide (since_written key h > 0) then collapsed e (since_written key h) w else e).
Proof.
  intros Hst Ht Hlvl. cbv zeta. pose proof (New_inv window lvl t0) as H0.
  set (w := dd_window (New window lvl)) in *.
  assert (log_inv w lvl (t, h, d)) as Hi.
  { eapply (steps_invariant log_step (log_inv w lvl)); [intros ? ?; apply log_step_inv|exact H0|exact Hst]. }
  clear H0 Hst. apply (prune_inv w lvl t now) in Hi; [|done].
  assert (bool_decide (en_Level e > dd_minLevel d) = false) as Hb.
  { apply bool_decide_eq_false. assert (dd_minLevel (prune now d) = dd_minLevel d) as E.
    { unfold prune. destruct (dd_lastPrune d); [|done]. by case_bool_decide. }
    destruct Hi as (_ & Hl & _). lia. }
  unfold Suppress. rewrite Hb. destruct Hi as (Hw & _ & H). specialize (H (entryKey e)).
  unfold note. rewrite Hw. set (key := entryKey e) in *.
  assert (0 ≤ since_written key h) as Hpos.
  { clear. induction h as [|[t k []] h IH]; simpl; [lia|case_decide; lia..]. }
  destruct (dd_entries (prune now d) !! key) as [r|]; unfold key_inv in H.
  - destruct H as (H1 & H2 & H3 & H4).
    destruct (bool_decide (now - rc_first r < w)) eqn:Hlt;
      [apply bool_decide_eq_true in Hlt|apply bool_decide_eq_false in Hlt]; intros Hret.
    + split; [split; [intros _; by exists (rc_first r)|done]|]. by split.
    + split; [split; [done|intros (t' & Ht' & Hc); exfalso; apply Hlt; congruence]|]. split; [done|].
      intros _ Hs _. rewrite <-H4. unfold wrapu64. rewrite Z.mod_small by lia. done.
  - intros Hret. split; [|split; [done|]].
    + split; [done|]. intros (t' & Ht' & Hc). exfalso. destruct (last_seen key h) as [t1|] eqn:E.
      * destruct (H t1 eq_refl) as (H1 & t2 & H2 & H3). assert (t2 = t') as -> by congruence. lia.
      * revert Ht' E. clear. induction h as [|[t k b] h IH]; [done|]. simpl.
        do 2 case_decide; try done; tauto.
    + intros _ _ Hseen. destruct (last_seen key h) as [t1|] eqn:E.
      * destruct (H t1 eq_refl) as (H1 & _). specialize (Hseen t1 eq_refl). lia.
      * assert (since_written key h = 0) as ->; [|done]. revert E. clear.
        induction h as [|[t k b] h IH]; [done|]. simpl. by case_decide.
Qed.
End duration.

Lemma dedupe_exact_witness :
  let e := MkEntry ErrorLevel "m" ∅ in
  let '(suppressed, e', _) := Suppress (λ _, "1m0s") 5 e (Some (New 0 WarnLevel)) in suppressed = false.
Proof.
  pose proof (dedupe_exact (λ _, "1m0s") 0 WarnLevel 0 0 5 [] (New 0 WarnLevel) (MkEntry ErrorLevel "m" ∅)
    (steps_refl _ _) ltac:(lia) ltac:(by vm_compute)) as H. cbv zeta in *.
  destruct (Suppress _ 5 _ _) as [[b e'] o]. specialize (H ltac:(vm_compute; congruence)).
  destruct b; [|reflexivity]. destruct (proj1 (proj1 H) eq_refl) as (t' & Ht' & _). discriminate Ht'.
Defined.
