(* ===== verification/Conf.v ===== *)
(** conf: the configuration, its defaults and how it is decoded.

    The JSON library is not part of the repository.  What the code relies on is
    that [json.Unmarshal(data, &v)] overwrites the fields of [v] that [data]
    mentions and keeps the others: [Unmarshal] takes the value the target holds
    and returns the new one, or an error. *)
From S2P Require Import Prelude GoStrings Json5.
#[local] Open Scope string_scope.
#[local] Open Scope Z_scope.

(** Decoding into a [T] that already holds a value. *)
Class Unmarshal (T : Type) := unmarshal : string → T → result T.

(** * limit.go *)

Record RecorderConfig := MkRecorderConfig {
  rec_Url : string; rec_Token : string; rec_Timeout : Z
}.
Record RedisConfig := MkRedisConfig {
  red_Address : string; red_Password : string; red_Db : Z; red_Expiry : Z
}.
Record IpReportConfig := MkIpReportConfig {
  irc_Periodic : Z;
  irc_Type : string;
  irc_RecorderConfig : option RecorderConfig;
  irc_RedisConfig : option RedisConfig;
  irc_EnableIpSync : bool
}.
Record DynamicSpeedLimitConfig := MkDynamicSpeedLimitConfig {
  dsl_Periodic : Z;
  dsl_Traffic : Z;
  dsl_SpeedLimit : Z;
  dsl_ExpireTime : Z
}.
Record LimitConfig := MkLimitConfig {
  lc_EnableRealtime : bool;
  lc_SpeedLimit : Z;
  lc_IPLimit : Z;
  lc_ConnLimit : Z;
  lc_OnlineTimeout : Z;
  lc_EnableIpRecorder : bool;
  lc_IpRecorderConfig : option IpReportConfig;
  lc_EnableDynamicSpeedLimit : bool;
  lc_DynamicSpeedLimitConfig : option DynamicSpeedLimitConfig
}.
Definition LimitConfig_zero : LimitConfig :=
  MkLimitConfig false 0 0 0 0 false None false None.

(** * cert.go *)

Record CertConfig := MkCertConfig {
  cc_CertMode : string;
  cc_RejectUnknownSni : bool;
  cc_CertDomain : string;
  cc_CertFile : string;
  cc_KeyFile : string;
  cc_Provider : string;
  cc_Email : string;
  cc_DNSEnv : gmap string string
}.
Definition NewCertConfig : CertConfig := MkCertConfig "none" false "" "" "" "" "" ∅.

(** * xray.go *)

Record FallBackConfigForXray := MkFallBackConfigForXray {
  fx_SNI : string; fx_Alpn : string; fx_Path : string; fx_Dest : string;
  fx_ProxyProtocolVer : Z
}.
Record XrayOptions := MkXrayOptions {
  xo_EnableProxyProtocol : bool;
  xo_EnableDNS : bool;
  xo_DNSType : string;
  xo_EnableUot : bool;
  xo_EnableTFO : bool;
  xo_DisableIVCheck : bool;
  xo_DisableSniffing : bool;
  xo_EnableFallback : bool;
  xo_FallBackConfigs : option (list FallBackConfigForXray)
}.
Definition NewXrayOptions : XrayOptions :=
  MkXrayOptions false false "AsIs" false false false false false None.

Record XrayLogConfig := MkXrayLogConfig {
  xl_Level : string; xl_AccessPath : string; xl_ErrorPath : string
}.
Record XrayConnectionConfig := MkXrayConnectionConfig {
  xc_Handshake : Z; xc_ConnIdle : Z; xc_UplinkOnly : Z; xc_DownlinkOnly : Z; xc_BufferSize : Z
}.
Record XrayConfig := MkXrayConfig {
  xr_LogConfig : option XrayLogConfig;
  xr_AssetPath : string;
  xr_DnsConfigPath : string;
  xr_RouteConfigPath : string;
  xr_ConnectionConfig : option XrayConnectionConfig;
  xr_InboundConfigPath : string;
  xr_OutboundConfigPath : string;
  xr_outboundConfigPathSet : bool
}.

Definition MiB : Z := 2 ^ 20.
(** The per connection buffer in KB, by memory budget. *)
Definition defaultXrayBufferSize (budget : Z) : Z :=
  if bool_decide (budget = 0) then 64
  else if bool_decide (budget ≤ 512 * MiB) then 8
  else if bool_decide (budget ≤ 1024 * MiB) then 16
  else if bool_decide (budget ≤ 2048 * MiB) then 32
  else 64.
(** [budget] is [sysmem.Budget()]. *)
Definition NewXrayConfig (budget : Z) : XrayConfig :=
  MkXrayConfig (Some (MkXrayLogConfig "warning" "" "")) "/etc/V2bX/" "" ""
    (Some (MkXrayConnectionConfig 4 30 2 4 (defaultXrayBufferSize budget))) "" "" false.

(** [keys] is the first decoding, into a map of raw values: only the presence of
    a key matters. *)
Definition XrayConfig_UnmarshalJSON `{Unmarshal XrayConfig} (keys : string → result (list string))
    (data : string) (c : XrayConfig) : result XrayConfig :=
  raw ← keys data;
  c ← unmarshal data c;
  Ok (MkXrayConfig (xr_LogConfig c) (xr_AssetPath c) (xr_DnsConfigPath c)
        (xr_RouteConfigPath c) (xr_ConnectionConfig c) (xr_InboundConfigPath c)
        (xr_OutboundConfigPath c) (bool_decide ("OutboundConfigPath" ∈ raw))).

(** [isFile]: os.Stat succeeds and the path is no directory.  filepath.Join of
    the directory and a name without separators is taken as [join]. *)
Definition ResolveOutboundConfigPath (isFile : string → bool) (join : string → string → string)
    (c : XrayConfig) : string * bool :=
  if xr_outboundConfigPathSet c then (xr_OutboundConfigPath c, false)
  else if decide (xr_AssetPath c = "") then ("", false)
  else
    let sidecar := join (xr_AssetPath c) "custom_outbound.json" in
    if isFile sidecar then (sidecar, true) else ("", false).

(** * sing.go *)

Record SingLogConfig := MkSingLogConfig {
  sl_Disabled : bool; sl_Level : string; sl_Output : string; sl_Timestamp : bool
}.
Record SingNtpConfig := MkSingNtpConfig {
  sntp_Enable : bool; sntp_Server : string; sntp_ServerPort : Z
}.
Record SingConfig := MkSingConfig {
  sg_LogConfig : SingLogConfig;
  sg_NtpConfig : SingNtpConfig;
  sg_OriginalPath : string
}.
Definition NewSingConfig : SingConfig :=
  MkSingConfig (MkSingLogConfig false "error" "" true)
    (MkSingNtpConfig false "time.apple.com" 0) "".

Record FallBack := MkFallBack { fb_Server : string; fb_ServerPort : string }.
Record FallBackConfigForSing := MkFallBackConfigForSing {
  fs_FallBack : FallBack;
  fs_FallBackForALPN : gmap string FallBack
}.
Record BrutalOptions := MkBrutalOptions {
  br_Enabled : bool; br_UpMbps : Z; br_DownMbps : Z
}.
Record MultiplexConfig := MkMultiplexConfig {
  mx_Enabled : bool; mx_Padding : bool; mx_Brutal : BrutalOptions
}.
Record SingOptions := MkSingOptions {
  so_TCPFastOpen : bool;
  so_SniffEnabled : bool;
  so_SniffOverrideDestination : bool;
  so_EnableDNS : bool;
  so_DomainStrategy : Z;
  so_FallBackConfigs : option FallBackConfigForSing;
  so_Multiplex : option MultiplexConfig
}.
Definition NewSingOptions : SingOptions :=
  MkSingOptions false true true false 0
    (Some (MkFallBackConfigForSing (MkFallBack "" "") ∅))
    (Some (MkMultiplexConfig false false (MkBrutalOptions false 0 0))).

(** * hy.go and core.go *)

Record Hysteria2LogConfig := MkHysteria2LogConfig { hl_Level : string }.
Record Hysteria2Config := MkHysteria2Config { hc_LogConfig : Hysteria2LogConfig }.
Definition NewHysteria2Config : Hysteria2Config :=
  MkHysteria2Config (MkHysteria2LogConfig "error").

Record CoreConfig := MkCoreConfig {
  co_Type : string;
  co_Name : string;
  co_XrayConfig : option XrayConfig;
  co_SingConfig : option SingConfig;
  co_Hysteria2Config : option Hysteria2Config
}.

(** * node.go *)

Record ApiConfig := MkApiConfig {
  ac_PanelType : string;
  ac_APIHost : string;
  ac_NodeID : Z;
  ac_Key : string;
  ac_NodeType : string;
  ac_Timeout : Z;
  ac_RuleListPath : string
}.
Record Options := MkOptions {
  op_Name : string;
  op_Core : string;
  op_CoreName : string;
  op_ListenIP : string;
  op_SendIP : string;
  op_DeviceOnlineMinTraffic : Z;
  op_LimitConfig : LimitConfig;
  op_RawOptions : string;
  op_XrayOptions : option XrayOptions;
  op_SingOptions : option SingOptions;
  op_Hysteria2ConfigPath : string;
  op_CertConfig : option CertConfig
}.
Record NodeConfig := MkNodeConfig { nc_ApiConfig : ApiConfig; nc_Options : Options }.
Record rawNodeConfig := MkrawNodeConfig {
  rn_Include : string; rn_ApiRaw : string; rn_OptRaw : string
}.
Definition ApiConfig_default : ApiConfig := MkApiConfig "" "http://127.0.0.1" 0 "" "" 30 "".
Definition Options_default : Options :=
  MkOptions "" "" "" "0.0.0.0" "0.0.0.0" 0 LimitConfig_zero "" None None "" (Some NewCertConfig).

(** * conf.go *)

Record LogConfig := MkLogConfig { log_Level : string; log_Output : string }.
Record Conf := MkConf {
  cf_LogConfig : LogConfig;
  cf_CoresConfig : list CoreConfig;
  cf_NodeConfig : list NodeConfig;
  cf_Instances : Z
}.
Definition New : Conf := MkConf (MkLogConfig "info" "") [] [] 0.

(** [io.ReadAll(json5.NewTrimNodeReader(r))], where [r] holds [data]. *)
Definition TrimNodeReader_ReadAll (data : string) : string := default data (prep data).

Section decoding.
(** The decoders of the JSON library; for a type with an [UnmarshalJSON] method
    this is the decoder of the type converted to one without it. *)
Context `{Unmarshal XrayConfig, Unmarshal SingConfig, Unmarshal Hysteria2Config,
  Unmarshal CoreConfig, Unmarshal XrayOptions, Unmarshal SingOptions, Unmarshal ApiConfig,
  Unmarshal Options, Unmarshal rawNodeConfig}.
Context (keys : string → result (list string)) (budget : Z).
(** http.Get with the body read, and os.Open with the file read. *)
Context (http_get os_open : string → result string).

Definition CoreConfig_UnmarshalJSON (b : string) (c : CoreConfig) : result CoreConfig :=
  c ← unmarshal b c;
  if decide (co_Type c = "xray") then
    x ← XrayConfig_UnmarshalJSON keys b (NewXrayConfig budget);
    Ok (MkCoreConfig (co_Type c) (co_Name c) (Some x) (co_SingConfig c) (co_Hysteria2Config c))
  else if decide (co_Type c = "sing") then
    x ← unmarshal b NewSingConfig;
    Ok (MkCoreConfig (co_Type c) (co_Name c) (co_XrayConfig c) (Some x) (co_Hysteria2Config c))
  else if decide (co_Type c = "hysteria2") then
    x ← unmarshal b NewHysteria2Config;
    Ok (MkCoreConfig (co_Type c) (co_Name c) (co_XrayConfig c) (co_SingConfig c) (Some x))
  else Ok c.

Definition Options_with (o : Options) (core raw : string) (x : option XrayOptions)
    (s : option SingOptions) : Options :=
  MkOptions (op_Name o) core (op_CoreName o) (op_ListenIP o) (op_SendIP o)
    (op_DeviceOnlineMinTraffic o) (op_LimitConfig o) raw x s (op_Hysteria2ConfigPath o)
    (op_CertConfig o).

Definition Options_UnmarshalJSON (data : string) (o : Options) : result Options :=
  o ← unmarshal data o;
  if decide (op_Core o = "xray") then
    x ← unmarshal data NewXrayOptions;
    Ok (Options_with o (op_Core o) (op_RawOptions o) (Some x) (op_SingOptions o))
  else if decide (op_Core o = "sing") then
    s ← unmarshal data NewSingOptions;
    Ok (Options_with o (op_Core o) (op_RawOptions o) (op_XrayOptions o) (Some s))
  else if decide (op_Core o = "hysteria2") then
    Ok (Options_with o (op_Core o) data (op_XrayOptions o) (op_SingOptions o))
  else Ok (Options_with o "" data (op_XrayOptions o) (op_SingOptions o)).

Definition NodeConfig_UnmarshalJSON (data : string) : result NodeConfig :=
  rn ← unmarshal data (MkrawNodeConfig "" "" "");
  '(data, rn) ←
    (if decide (rn_Include rn = "") then Ok (data, rn)
     else
       let file := (CutPrefix (rn_Include rn) ":").1 in
       body ← (if decide (file = "http" ∨ file = "https") then http_get file
               else os_open (rn_Include rn));
       let data := TrimNodeReader_ReadAll body in
       rn ← unmarshal data rn;
       Ok (data, rn));
  api ← unmarshal (if decide (rn_ApiRaw rn = "") then data else rn_ApiRaw rn) ApiConfig_default;
  opt ← Options_UnmarshalJSON (if decide (rn_OptRaw rn = "") then data else rn_OptRaw rn)
          Options_default;
  Ok (MkNodeConfig api opt).

(** [decodeConf] is the decoder of the top level, which calls the decoders above
    for the elements of Cores and Nodes. *)
Definition LoadFromPath (decodeConf : string → Conf → result Conf) (filePath : string) (p : Conf)
    : result Conf :=
  body ← os_open filePath;
  decodeConf (TrimNodeReader_ReadAll body) p.

(** * Theorems *)

Lemma Options_UnmarshalJSON_complete data o0 o :
  Options_UnmarshalJSON data o0 = Ok o →
  op_Core o ∈ ["xray"; "sing"; "hysteria2"; ""] ∧
  (op_Core o = "xray" → is_Some (op_XrayOptions o)) ∧
  (op_Core o = "sing" → is_Some (op_SingOptions o)) ∧
  (op_Core o ∈ ["hysteria2"; ""] → op_RawOptions o = data).
Proof.
  unfold Options_UnmarshalJSON. simpl. destruct (unmarshal data o0) as [o1|]; [|done]. simpl.
  (case_decide as Hc; [|case_decide as Hc'; [|case_decide as Hc'']]);
    try destruct (unmarshal data _) as [x|]; simpl; intros [= <-]; simpl;
    rewrite ?Hc, ?Hc', ?Hc''; set_solver by eauto.
Qed.

(** A configuration that decodes is complete for the core it names, so that a core
    never finds the section it dereferences missing: the core of a node is one of the
    three or none, and the options of its kind are there; a core configuration has the
    section of its type. *)
Theorem decoded_config_complete data :
  (∀ n, NodeConfig_UnmarshalJSON data = Ok n →
    op_Core (nc_Options n) ∈ ["xray"; "sing"; "hysteria2"; ""] ∧
    (op_Core (nc_Options n) = "xray" → is_Some (op_XrayOptions (nc_Options n))) ∧
    (op_Core (nc_Options n) = "sing" → is_Some (op_SingOptions (nc_Options n)))) ∧
  (∀ c0 c, CoreConfig_UnmarshalJSON data c0 = Ok c →
    (co_Type c = "xray" → is_Some (co_XrayConfig c)) ∧
    (co_Type c = "sing" → is_Some (co_SingConfig c)) ∧
    (co_Type c = "hysteria2" → is_Some (co_Hysteria2Config c))).
Proof.
  split.
  - intros n. unfold NodeConfig_UnmarshalJSON.
    destruct (unmarshal data _) as [rn0|]; [|done]. simpl.
    destruct (if decide (rn_Include rn0 = "") then _ else _) as [[d rn]|]; [|done]. simpl.
    destruct (unmarshal _ ApiConfig_default) as [api|]; [|done]. simpl.
    destruct (Options_UnmarshalJSON _ _) as [o|] eqn:Ho; [|done]. intros [= <-].
    apply Options_UnmarshalJSON_complete in Ho. naive_solver.
  - intros c0 c. unfold CoreConfig_UnmarshalJSON.
    destruct (unmarshal data c0) as [c1|]; [|done]. simpl.
    (case_decide as Hc; [|case_decide as Hc'; [|case_decide as Hc'']]);
      try destruct (XrayConfig_UnmarshalJSON _ _ _); try destruct (unmarshal data _);
      simpl; intros [= <-]; simpl; split_and!; intros; eauto; congruence.
Qed.

(** An Include that is a URL is not fetched: [CutPrefix] removes a leading colon
    instead of cutting the URL at its colon, so only the words http and https reach the
    download.  Any other Include, a URL too, is opened as a file, whatever the download
    would give. *)
Theorem include_url_opened_as_file data rn host :
  unmarshal data (MkrawNodeConfig "" "" "") = Ok rn →
  rn_Include rn = ("http://" ++ host)%string ∨ rn_Include rn = ("https://" ++ host)%string →
  NodeConfig_UnmarshalJSON data =
    (body ← os_open (rn_Include rn);
     let data := TrimNodeReader_ReadAll body in
     rn ← unmarshal data rn;
     api ← unmarshal (if decide (rn_ApiRaw rn = "") then data else rn_ApiRaw rn)
             ApiConfig_default;
     opt ← Options_UnmarshalJSON (if decide (rn_OptRaw rn = "") then data else rn_OptRaw rn)
             Options_default;
     Ok (MkNodeConfig api opt)).
Proof.
  intros Hrn Hurl. unfold NodeConfig_UnmarshalJSON. rewrite Hrn. simpl.
  assert (rn_Include rn ≠ "" ∧ ¬ ((CutPrefix (rn_Include rn) ":").1 = "http" ∨
    (CutPrefix (rn_Include rn) ":").1 = "https")) as [Hne Hfile].
  { destruct Hurl as [-> | ->]; (split; [done|intros [[=]|[=]]]). }
  rewrite decide_False by done.
  rewrite (decide_False (P := _ ∨ _)) by exact Hfile.
  destruct (os_open _) as [body|]; [|done]. cbn.
  by destruct (unmarshal (TrimNodeReader_ReadAll body) rn) as [rn'|].
Qed.
End decoding.

(** A decoder that finds [Include] in any text and leaves the other targets as they are. *)
#[local] Instance witness_raw : Unmarshal rawNodeConfig :=
  λ _ _, Ok (MkrawNodeConfig "https://a/b.json" "{}" "{}").
#[local] Instance witness_api : Unmarshal ApiConfig := λ _ v, Ok v.
#[local] Instance witness_opt : Unmarshal Options := λ _ v, Ok v.
#[local] Instance witness_xo : Unmarshal XrayOptions := λ _ v, Ok v.
#[local] Instance witness_so : Unmarshal SingOptions := λ _ v, Ok v.

#[local] Instance witness_xray : Unmarshal XrayConfig := λ _ v, Ok v.
#[local] Instance witness_sing : Unmarshal SingConfig := λ _ v, Ok v.
#[local] Instance witness_hy : Unmarshal Hysteria2Config := λ _ v, Ok v.
#[local] Instance witness_core : Unmarshal CoreConfig := λ _ v, Ok v.

Lemma decoded_config_complete_witness :
  is_Some (co_XrayConfig (MkCoreConfig "xray" "" (Some (NewXrayConfig 0)) None None)).
Proof.
  apply (proj2 (decoded_config_complete (λ _, Ok []) 0 (λ _, Err "") (λ _, Err "") "{}")
    (MkCoreConfig "xray" "" None None None)); reflexivity.
Defined.

Lemma include_url_opened_as_file_witness :
  NodeConfig_UnmarshalJSON (λ _, Ok "{}") (λ _, Err "no such file") "" = Err "no such file".
Proof.
  rewrite (include_url_opened_as_file _ _ "" (MkrawNodeConfig "https://a/b.json" "{}" "{}")
    "a/b.json"); [reflexivity|reflexivity|by right].
Defined.
