(* ===== verification/Machine.v ===== *)
(** What a process learns of its machine and shares with the other instances:
    common/sysmem (the memory it can use), cmd/memlimit.go (the soft limit), common/startlock
    (taking turns at starting) and cmd/coreversion.go.

    Files are read through a function from paths to contents; a file that can not be read has
    none.  Memory sizes are unsigned 64 bit integers. *)
From S2P Require Import Prelude GoStrings Paths Conf.
#[local] Open Scope string_scope.
#[local] Open Scope Z_scope.

(** * common/sysmem *)

Definition is_space (c : ascii) : bool := bool_decide ([c] ∈ space_runes).
(** strings.Fields of a line of ASCII text. *)
Definition Fields (s : string) : list string := FieldsFunc s is_space.
(** bufio.ScanLines: the lines of a text, without their ends; a text that ends with a newline
    has no empty last line.  (A line beyond the buffer of the scanner ends the scan; the files
    under /proc have none.) *)
Definition nl : ascii := byte 10.
Definition drop_cr (s : string) : string := TrimSuffix s (of_bytes [byte 13]).
Definition scan_lines (text : string) : list string :=
  map drop_cr
    (match reverse (Split text nl) with
     | "" :: rest => reverse rest
     | _ => Split text nl
     end).

Section sysmem.
Context (read : string → option string).

Definition memTotal_line (line : string) : option Z :=
  match Fields line with
  | f0 :: f1 :: _ =>
      if decide (f0 = "MemTotal:") then
        match ParseUint f1 64 with
        | None => Some 0
        | Some kb => Some (wrapu64 (kb * 1024))
        end
      else None
  | _ => None
  end.
Definition memTotal (root : string) : Z :=
  match read (Path_Join [root; "proc"; "meminfo"]) with
  | None => 0
  | Some text => default 0 (range_first memTotal_line (scan_lines text))
  end.

Definition readLimit (file : string) : Z :=
  match read file with
  | None => 0
  | Some data =>
      match ParseUint (TrimSpace data) 64 with
      | None => 0
      | Some v => if bool_decide (2 ^ 62 ≤ v) then 0 else v
      end
  end.
Definition consider (limit : Z) (file : string) : Z :=
  let v := readLimit file in
  if bool_decide (v > 0) && (bool_decide (limit = 0) || bool_decide (v < limit)) then v else limit.

Definition cgroup_line (line : string) : option string :=
  let '(p, ok) := CutPrefix line "0::" in
  if ok then Some (Clean ("/" +:+ TrimSpace p)) else None.
Definition cgroupV2Path (root : string) : string :=
  match read (Path_Join [root; "proc"; "self"; "cgroup"]) with
  | None => ""
  | Some data => default "" (range_first cgroup_line (Split data nl))
  end.

(** The loop over the directory of the process and the ones above it.  Without enough
    fuel there is no result. *)
Fixpoint up_loop (fuel : nat) (cgRoot dir : string) (limit : Z) : option Z :=
  match fuel with
  | O => None
  | S fuel =>
      let limit := consider limit (Path_Join [cgRoot; dir; "memory.max"]) in
      if decide (dir = "/" ∨ dir = ".") then Some limit
      else up_loop fuel cgRoot (Dir dir) limit
  end.
(** Each turn takes one element off the path. *)
Definition cgroupLimit (root : string) : option Z :=
  let cgRoot := Path_Join [root; "sys"; "fs"; "cgroup"] in
  let p := cgroupV2Path root in
  limit ← (if decide (p = "") then Some 0 else up_loop (S (length (to_bytes p))) cgRoot p 0) ;
  let limit := consider limit (Path_Join [cgRoot; "memory.max"]) in
  Some (consider limit (Path_Join [cgRoot; "memory"; "memory.limit_in_bytes"])).

Definition budget (root : string) : option Z :=
  let total := memTotal root in
  limit ← cgroupLimit root ;
  Some (if bool_decide (limit > 0) && (bool_decide (total = 0) || bool_decide (limit < total)) then limit else total).
Definition Budget : option Z := budget "/".
End sysmem.

(** * cmd/memlimit.go *)

Definition minMemoryLimit : Z := 64 * MiB.
(** Unsigned arithmetic; the divisor is an int converted to uint64. *)
Definition memoryLimitFor (budget instances : Z) : Z :=
  let instances := if bool_decide (instances < 1) then 1 else instances in
  let limit := wrapu64 (budget / 10 * 7) / wrapu64 instances in
  if bool_decide (limit < minMemoryLimit) then minMemoryLimit else limit.
(** The value given to debug.SetMemoryLimit, if any. *)
Definition applyMemoryLimit (GOMEMLIMIT : string) (budget instances : Z) : option Z :=
  if decide (GOMEMLIMIT ≠ "") then None
  else if decide (budget = 0) then None
  else Some (wrap64 (memoryLimitFor budget instances)).

Definition meminfo_toy (p : string) : option string :=
  if decide (p = "/proc/meminfo") then Some ("MemTotal:  2048 kB" +:+ of_bytes [nl])
  else if decide (p = "/proc/self/cgroup") then Some ("0::/a/b" +:+ of_bytes [nl])
  else if decide (p = "/sys/fs/cgroup/a/b/memory.max") then Some ("max" +:+ of_bytes [nl])
  else if decide (p = "/sys/fs/cgroup/a/memory.max") then Some ("1000000" +:+ of_bytes [nl])
  else None.
Example budget_ex : Budget meminfo_toy = Some 1000000.
Proof. vm_compute. reflexivity. Qed.
Example memoryLimit_ex :
  memoryLimitFor (1000 * MiB) 0 = 700 * MiB ∧ memoryLimitFor (512 * MiB) 8 = minMemoryLimit.
Proof. split; vm_compute; reflexivity. Qed.

(** * common/startlock *)

(** Path, by whether /run is a directory. *)
Definition lock_Path (run_is_dir : bool) (tempDir : string) : string :=
  if run_is_dir then "/run/V2bX-start.lock" else Path_Join [tempDir; "V2bX-start.lock"].
Definition pollInterval : Z := 200 * Millisecond.
Inductive flock_answer := FlockOk | EWOULDBLOCK | FlockError.

Section acquire.
(** What the [n]th attempt is answered, and when it is. *)
Context (flock : nat → flock_answer) (clock : nat → Z).

Fixpoint acquire_loop (fuel : nat) (deadline : Z) (n : nat) : option bool :=
  match fuel with
  | O => None
  | S fuel =>
      match flock n with
      | FlockOk => Some true
      | FlockError => Some false
      | EWOULDBLOCK => if bool_decide (clock n < deadline) then acquire_loop fuel deadline (S n) else Some false
      end
  end.
(** [start]: the time the deadline is taken from.  One attempt for each interval that fits
    into the wait, and one at each end. *)
Definition acquire (opened : bool) (start wait : Z) : option bool :=
  if opened then acquire_loop (Z.to_nat (wait / pollInterval) + 2) (start + wait) 0
  else Some false.
End acquire.

(** * cmd/coreversion.go *)

Record Module_ := MkModule { md_Path : string; md_Version : string; md_Replace : option string }.
Definition coreModules : gmap string string :=
  {["hysteria2" := "github.com/apernet/hysteria/core/v2"; "sing" := "github.com/sagernet/sing-box";
    "xray" := "github.com/xtls/xray-core"]}.
(** The version a dependency is linked with; [md_Replace] is the version of its replacement. *)
Definition module_version (m : Module_) : string :=
  match md_Replace m with
  | Some v => if decide (v ≠ "" ∧ v ≠ "(devel)") then v else md_Version m
  | None => md_Version m
  end.
Definition versions_of (deps : list (option Module_)) : gmap string string :=
  foldl (λ versions dep, match dep with
    | None => versions
    | Some m => <[md_Path m := module_version m]> versions
    end) ∅ deps.
Definition version_line (versions reported : gmap string string) (name : string) : option string :=
  module ← coreModules !! name;
  let version := default "" (versions !! module) in
  if decide (version = "") then None
  else
    let v := default "" (reported !! name) in
    Some (name +:+ " " +:+ (if decide (v ≠ "") then v else version)).
Definition coreVersionLines (deps : list (option Module_)) (registered : list string)
    (reported : gmap string string) : list string :=
  sort_Strings (omap (version_line (versions_of deps) reported) registered).
Definition installedCoreVersions (info : option (list (option Module_))) (registered : list string)
    (reported : gmap string string) : list string :=
  match info with None => [] | Some deps => coreVersionLines deps registered reported end.

Example coreVersionLines_ex :
  coreVersionLines [None; Some (MkModule "github.com/sagernet/sing-box" "v1" (Some "(devel)"));
    Some (MkModule "github.com/xtls/xray-core" "v1.2" None)] ["xray"; "sing"; "hysteria2"] {["xray" := "v26"]} =
  ["sing v1"; "xray v26"].
Proof. vm_compute. reflexivity. Qed.

(** * The limits of the cgroups *)

(** The smallest positive limit of a list, 0 when there is none. *)
Definition tightest (limits : list Z) (limit : Z) : Prop :=
  limit = 0 ∧ Forall (λ l, l = 0) limits ∨
  0 < limit ∧ limit ∈ limits ∧ Forall (λ l, 0 < l → limit ≤ l) limits.

Section limits.
Context (read : string → option string).
#[local] Open Scope list_scope.

Lemma digits_nonneg l a v : 0 ≤ a → digits a l = Some v → 0 ≤ v.
Proof.
  revert a. induction l as [|c l IH]; intros a Ha; [by intros [= <-]|]. simpl.
  unfold digit. case_bool_decide as Hd; [|done]. apply IH. lia.
Qed.
Lemma ParseUint_range s bits v : ParseUint s bits = Some v → 0 ≤ v < 2 ^ bits.
Proof.
  unfold ParseUint. destruct (to_bytes s) as [|c l] eqn:E; [done|].
  destruct (digits 0 (c :: l)) as [w|] eqn:Ed; [|done]. simpl. case_decide; [|done]. intros [= <-].
  split; [|done]. by eapply digits_nonneg; [|exact Ed].
Qed.
Lemma readLimit_range file : 0 ≤ readLimit read file < 2 ^ 62.
Proof.
  unfold readLimit. destruct (read file) as [data|]; [|lia].
  destruct (ParseUint _ 64) as [v|] eqn:E; [|lia]. apply ParseUint_range in E. case_bool_decide; lia.
Qed.

Lemma consider_tightest limits limit file : tightest limits limit →
  tightest (limits ++ [readLimit read file]) (consider read limit file).
Proof.
  intros H. unfold consider. cbv zeta. pose proof (readLimit_range file) as [Hv _].
  set (v := readLimit read file) in *. unfold tightest in *.
  destruct (bool_decide_reflect (v > 0)); simpl.
  - destruct (bool_decide_reflect (limit = 0)) as [->|Hl]; simpl.
    + right. destruct H as [[_ H]|H]; [|lia]. split; [lia|]. split; [set_solver|].
      apply Forall_app. split; [eapply Forall_impl; [exact H|]; simpl; lia|]. by apply Forall_singleton.
    + destruct H as [[? _]|(H1 & H2 & H3)]; [done|].
      destruct (bool_decide_reflect (v < limit)); right.
      * split; [lia|]. split; [set_solver|]. apply Forall_app.
        split; [eapply Forall_impl; [exact H3|]; simpl; lia|]. by apply Forall_singleton.
      * split; [lia|]. split; [set_solver|]. apply Forall_app. split; [done|]. apply Forall_singleton. lia.
  - destruct H as [[-> H]|(H1 & H2 & H3)].
    + left. split; [done|]. apply Forall_app. split; [done|]. apply Forall_singleton. lia.
    + right. split; [done|]. split; [set_solver|]. apply Forall_app. split; [done|]. apply Forall_singleton. lia.
Qed.

(** The directories from one up to the root. *)
Definition ancestors (es : list string) : list string :=
  map (λ n, abs_path (take n es)) (reverse (seq 0 (S (length es)))).
Definition limit_file (cgRoot dir : string) : string := Path_Join [cgRoot; dir; "memory.max"].

Lemma ancestors_snoc es e : ancestors (es ++ [e]) = abs_path (es ++ [e]) :: ancestors es.
Proof.
  unfold ancestors. rewrite length_app. simpl length. rewrite Nat.add_1_r, (seq_S (S (length es))), reverse_app.
  change (reverse [(0 + S (length es))%nat]) with [(0 + S (length es))%nat]. cbn [app map].
  f_equal; [f_equal; apply take_ge; rewrite length_app; simpl; lia|].
  apply map_ext_in. intros n Hn%list_elem_of_In. rewrite elem_of_reverse, elem_of_seq in Hn.
  by rewrite take_app_le by lia.
Qed.
Lemma up_loop_spec fuel cgRoot es limits limit :
  Forall plain_element es → (length es < fuel)%nat → tightest limits limit →
  ∃ limit', up_loop read fuel cgRoot (abs_path es) limit = Some limit' ∧
    tightest (limits ++ map (λ d, readLimit read (limit_file cgRoot d)) (ancestors es)) limit'.
Proof.
  revert fuel limits limit. induction es as [|e es IH] using rev_ind; intros fuel limits limit Hes Hf Ht.
  - destruct fuel as [|fuel]; [simpl in Hf; lia|]. cbn [up_loop]. rewrite decide_True by by left.
    eexists. split; [done|]. by apply consider_tightest.
  - rewrite length_app in Hf. simpl in Hf. destruct fuel as [|fuel]; [lia|]. cbn [up_loop].
    assert (abs_path (es ++ [e]) ≠ "/" ∧ abs_path (es ++ [e]) ≠ ".") as [H1 H2].
    { split; [|done]. intros H%abs_path_root; [by destruct es|done]. }
    rewrite decide_False by tauto. rewrite Dir_abs by done.
    destruct (IH fuel (limits ++ [readLimit read (limit_file cgRoot (abs_path (es ++ [e])))])
      (consider read limit (limit_file cgRoot (abs_path (es ++ [e]))))) as (l & Hl & Hlt);
      [by apply Forall_app in Hes as [? _]|lia|by apply consider_tightest|].
    exists l. split; [exact Hl|]. rewrite ancestors_snoc. cbn [map]. by rewrite <-(assoc_L (++)) in Hlt.
Qed.
Lemma cgroupV2Path_abs root : cgroupV2Path read root = "" ∨
  ∃ es, Forall plain_element es ∧ cgroupV2Path read root = abs_path es.
Proof.
  unfold cgroupV2Path. destruct (read _) as [data|]; [|by left].
  destruct (range_first cgroup_line (Split data nl)) as [p|] eqn:E; [|by left]. right. simpl.
  apply range_first_Some in E as (line & _ & E). unfold cgroup_line, CutPrefix in E.
  destruct (HasPrefix line "0::"); [|done]. injection E as <-. apply Clean_rooted.
Qed.

(** The files with limits of a process whose cgroup is [p]. *)
Definition limit_files (root p : string) (es : list string) : list string :=
  let cgRoot := Path_Join [root; "sys"; "fs"; "cgroup"] in
  (if decide (p = "") then [] else map (limit_file cgRoot) (ancestors es)) ++
  [Path_Join [cgRoot; "memory.max"]; Path_Join [cgRoot; "memory"; "memory.limit_in_bytes"]].
Lemma cgroupLimit_spec root : ∃ es limit, Forall plain_element es ∧
  (cgroupV2Path read root = "" ∨ cgroupV2Path read root = abs_path es) ∧
  cgroupLimit read root = Some limit ∧
  tightest (map (readLimit read) (limit_files root (cgroupV2Path read root) es)) limit.
Proof.
  unfold cgroupLimit, limit_files. set (cgRoot := Path_Join [root; "sys"; "fs"; "cgroup"]).
  assert (∀ limits limit, tightest limits limit →
    tightest (limits ++ map (readLimit read) [Path_Join [cgRoot; "memory.max"];
      Path_Join [cgRoot; "memory"; "memory.limit_in_bytes"]])
      (consider read (consider read limit (Path_Join [cgRoot; "memory.max"]))
        (Path_Join [cgRoot; "memory"; "memory.limit_in_bytes"]))) as Hend.
  { intros limits limit H.
    pose proof (consider_tightest _ _ (Path_Join [cgRoot; "memory"; "memory.limit_in_bytes"])
      (consider_tightest _ _ (Path_Join [cgRoot; "memory.max"]) H)) as H'.
    by rewrite <-(assoc_L (++)) in H'. }
  destruct (cgroupV2Path_abs root) as [Hp|(es & Hes & Hp)]; rewrite Hp.
  - exists []. eexists. split; [done|]. split; [by left|]. split; [reflexivity|]. apply (Hend [] 0). by left.
  - exists es. rewrite !decide_False by done.
    destruct (up_loop_spec (S (length (to_bytes (abs_path es)))) cgRoot es [] 0 Hes) as (l & Hl & Ht).
    { pose proof (abs_path_length es Hes). lia. }
    { by left. }
    rewrite Hl. eexists. split; [done|]. split; [by right|]. split; [reflexivity|].
    rewrite map_app, map_map. by apply Hend.
Qed.
End limits.

(** (C36) The memory this process can use.  Going up the directories of its cgroup ends, whatever the
    files hold, and gives the smallest of the limits set on the cgroup, on those above it
    and by cgroup v1; the budget is the smaller of that and the physical memory, where 0
    stands for unknown. *)
Theorem budget_tightest (read : string → option string) (root : string) :
  ∃ es limit b, Forall plain_element es ∧
    (cgroupV2Path read root = "" ∨ cgroupV2Path read root = abs_path es) ∧
    cgroupLimit read root = Some limit ∧ budget read root = Some b ∧
    tightest (map (readLimit read) (limit_files root (cgroupV2Path read root) es)) limit ∧
    tightest [memTotal read root; limit] b ∧ b < 2 ^ 64.
Proof.
  destruct (cgroupLimit_spec read root) as (es & limit & Hes & Hp & Hl & Ht).
  assert (0 ≤ memTotal read root < 2 ^ 64) as Hm.
  { unfold memTotal. destruct (read _) as [text|]; [|lia].
    destruct (range_first memTotal_line _) as [m|] eqn:E; [|simpl; lia]. simpl.
    apply range_first_Some in E as (line & _ & E). unfold memTotal_line in E.
    destruct (Fields line) as [|f0 [|f1 fs]]; [done..|]. destruct (decide _); [|done].
    destruct (ParseUint f1 64); injection E as <-; [apply Z.mod_pos_bound; lia|lia]. }
  assert (0 ≤ limit < 2 ^ 64) as Hlim.
  { destruct Ht as [[-> _]|(H1 & H2 & _)]; [lia|]. apply list_elem_of_fmap in H2 as (f & -> & _).
    pose proof (readLimit_range read f). lia. }
  exists es, limit. unfold budget. rewrite Hl. cbn. eexists. split_and!; [done|done|done|reflexivity|done|..].
  - unfold tightest. set (m := memTotal read root) in *. rewrite !Forall_cons, !elem_of_cons.
    destruct (bool_decide_reflect (limit > 0)), (bool_decide_reflect (m = 0)), (bool_decide_reflect (limit < m));
      simpl; try (right; repeat split; first [tauto|lia|constructor]; fail).
    all: destruct (decide (m = 0)); [left; repeat split; first [lia|constructor]|right; repeat split; first [tauto|lia|constructor]].
  - destruct (_ && _); lia.
Qed.

(** The soft limit of one of [n] instances (less than one counts as one).  It is never below
    64 MiB; above that the instances together stay within 70 percent of the budget.  The
    arithmetic does not overflow, and below 2^63 bytes the limit is passed on as it is. *)
Theorem memory_limit_bounds (b n : Z) :
  0 ≤ b < 2 ^ 64 → n < 2 ^ 63 →
  let limit := memoryLimitFor b n in
  let instances := Z.max n 1 in
  limit = Z.max minMemoryLimit (b / 10 * 7 / instances) ∧
  (limit = minMemoryLimit ∨ limit * instances * 10 ≤ 7 * b) ∧
  (b ≠ 0 → b < 2 ^ 63 → applyMemoryLimit "" b n = Some limit).
Proof.
  intros Hb Hn. cbv zeta.
  assert (memoryLimitFor b n = Z.max minMemoryLimit (b / 10 * 7 / Z.max n 1)) as E.
  { unfold memoryLimitFor. cbv zeta.
    assert ((if bool_decide (n < 1) then 1 else n) = Z.max n 1) as -> by (case_bool_decide; lia).
    pose proof (Z.mul_div_le b 10 ltac:(lia)). assert (0 ≤ b / 10) by (apply Z.div_pos; lia).
    assert (0 ≤ b / 10 * 7 < 2 ^ 64) as Hr by lia.
    unfold wrapu64. rewrite !Z.mod_small by lia. case_bool_decide; lia. }
  split; [done|]. rewrite E. pose proof (Z.mul_div_le b 10 ltac:(lia)).
  assert (0 ≤ b / 10) by (apply Z.div_pos; lia).
  pose proof (Z.mul_div_le (b / 10 * 7) (Z.max n 1) ltac:(lia)). split.
  - destruct (Z.max_spec minMemoryLimit (b / 10 * 7 / Z.max n 1)) as [[_ ->]|[_ ->]]; [right; lia|by left].
  - intros Hne Hlt. unfold applyMemoryLimit. rewrite decide_False by (by intros []). rewrite decide_False by done.
    rewrite E. f_equal. apply wrap64_id. unfold in_int64, int64_min, int64_max, minMemoryLimit, MiB.
    assert (b / 10 * 7 / Z.max n 1 ≤ b / 10 * 7) by (apply Z.div_le_upper_bound; nia). lia.
Qed.

Lemma memory_limit_bounds_witness : applyMemoryLimit "" (512 * MiB) 2 = Some (memoryLimitFor (512 * MiB) 2).
Proof. apply memory_limit_bounds; vm_compute; first [done|split; congruence]. Defined.

(** * Taking turns *)

(** The attempts of an instance come at least an interval apart: the clock does not
    run backwards, and the sleep is not cut short. *)
Definition paced (clock : nat → Z) : Prop := ∀ n, clock n + pollInterval ≤ clock (S n).
Lemma paced_after clock n : paced clock → clock 0%nat + Z.of_nat n * pollInterval ≤ clock n.
Proof. intros Hp. induction n as [|n IH]; [lia|]. specialize (Hp n). unfold pollInterval, Millisecond in *. lia. Qed.

Lemma acquire_loop_spec flock clock fuel deadline n :
  (∃ m, (n ≤ m < n + fuel)%nat ∧ (flock m ≠ EWOULDBLOCK ∨ deadline ≤ clock m)) →
  ∃ m, (n ≤ m)%nat ∧
    acquire_loop flock clock fuel deadline n = Some (match flock m with FlockOk => true | _ => false end) ∧
    (flock m = EWOULDBLOCK → deadline ≤ clock m) ∧
    ∀ k, (n ≤ k < m)%nat → flock k = EWOULDBLOCK ∧ clock k < deadline.
Proof.
  revert n. induction fuel as [|fuel IH]; intros n (m & Hm & Hend); [lia|]. cbn [acquire_loop].
  assert (∀ a, flock n = a → a ≠ EWOULDBLOCK →
    ∃ m, (n ≤ m)%nat ∧ Some (match a with FlockOk => true | _ => false end) =
      Some (match flock m with FlockOk => true | _ => false end) ∧ (flock m = EWOULDBLOCK → deadline ≤ clock m) ∧
      ∀ k, (n ≤ k < m)%nat → flock k = EWOULDBLOCK ∧ clock k < deadline) as Hnow.
  { intros a Ha Hne. exists n. rewrite Ha. split_and!; [lia|done|done|lia]. }
  destruct (flock n) eqn:Ef; [by apply (Hnow FlockOk)| |by apply (Hnow FlockError)].
  case_bool_decide as Hlt.
  - destruct (IH (S n)) as (m' & H1 & H2 & H3 & H4).
    { exists m. split; [|done]. destruct (decide (m = n)) as [->|]; [|lia].
      rewrite Ef in Hend. destruct Hend as [[]|]; [done|lia]. }
    exists m'. split_and!; [lia|done|done|]. intros k Hk.
    destruct (decide (k = n)) as [->|]; [done|apply H4; lia].
  - exists n. rewrite Ef. split_and!; [lia|done|intros _; lia|lia].
Qed.

(** (C37) Waiting for the other instances always ends.  An instance that can open the file asks a bounded
    number of times and answers at the first attempt that is not turned away or that comes after the
    deadline; it starts without the lock only after an error of the lock or after the wait
    it was given.  A lock that becomes free for good before the deadline is obtained, when
    attempts come up to then. *)
Theorem acquire_ends (flock : nat → flock_answer) (clock : nat → Z) (start wait : Z) :
  paced clock → start ≤ clock 0%nat → 0 ≤ wait →
  ∃ m, acquire flock clock true start wait = Some (match flock m with FlockOk => true | _ => false end) ∧
    Z.of_nat m ≤ wait / pollInterval + 1 ∧
    (∀ k, (k < m)%nat → flock k = EWOULDBLOCK ∧ clock k < start + wait) ∧
    (flock m = EWOULDBLOCK → start + wait ≤ clock m) ∧
    (∀ free, (∀ k, (k < free)%nat → flock k = EWOULDBLOCK ∧ clock k < start + wait) →
       (∀ k, (free ≤ k)%nat → flock k = FlockOk) → acquire flock clock true start wait = Some true).
Proof.
  intros Hp Hs Hw. unfold acquire.
  assert (0 < pollInterval) as Hpos by done. set (N := Z.to_nat (wait / pollInterval)).
  assert (Z.of_nat N = wait / pollInterval) as HN by (apply Z2Nat.id, Z.div_pos; lia).
  assert (start + wait ≤ clock (S N)) as Hlate.
  { pose proof (paced_after clock (S N) Hp). pose proof (Z.mod_pos_bound wait pollInterval Hpos).
    pose proof (Z.div_mod wait pollInterval ltac:(lia)). nia. }
  destruct (acquire_loop_spec flock clock (N + 2) (start + wait) 0) as (m & _ & H1 & H2 & H3).
  { exists (S N). split; [lia|by right]. }
  exists m. split; [exact H1|]. split; [|split; [intros k Hk; apply H3; lia|split; [exact H2|]]].
  - destruct (decide (m ≤ S N)%nat); [lia|]. destruct (H3 (S N)) as [_ ?]; [lia|]. lia.
  - intros free Hfree Hok. rewrite H1. destruct (decide (free ≤ m)%nat) as [Hle|Hgt]; [by rewrite (Hok m Hle)|].
    destruct (Hfree m ltac:(lia)) as [He Hlt]. specialize (H2 He). lia.
Qed.

Lemma acquire_ends_witness :
  acquire (λ n, if decide (n < 3)%nat then EWOULDBLOCK else FlockOk) (λ n, Z.of_nat n * pollInterval) true 0 Second =
    Some true.
Proof.
  destruct (acquire_ends (λ n, if decide (n < 3)%nat then EWOULDBLOCK else FlockOk)
    (λ n, Z.of_nat n * pollInterval) 0 Second) as (m & _ & _ & _ & _ & H).
  - intros n. unfold pollInterval, Millisecond. lia.
  - vm_compute. congruence.
  - vm_compute. congruence.
  - apply (H 3%nat).
    + intros k Hk. rewrite decide_True by lia. split; [reflexivity|]. unfold pollInterval, Millisecond, Second. lia.
    + intros k Hk. by rewrite decide_False by lia.
Defined.

(** * The versions *)

(** A line for every core that is both registered and linked, and no other, in order. *)
Lemma coreVersionLines_exact deps registered reported line :
  StronglySorted String.le (coreVersionLines deps registered reported) ∧
  (line ∈ coreVersionLines deps registered reported ↔
   ∃ name module v, name ∈ registered ∧ coreModules !! name = Some module ∧
     versions_of deps !! module = Some v ∧ v ≠ "" ∧
     line = name +:+ " " +:+ (let r := default "" (reported !! name) in if decide (r ≠ "") then r else v)).
Proof.
  split; [apply sort_Strings_sorted|]. unfold coreVersionLines. rewrite sort_Strings_Permutation.
  rewrite list_elem_of_omap. unfold version_line. split.
  - intros (name & Hin & H). destruct (coreModules !! name) as [module|] eqn:Em; [|done]. cbn in H.
    destruct (versions_of deps !! module) as [v|] eqn:Ev; cbn in H; [|done].
    destruct (decide (v = "")); [done|]. injection H as <-. by exists name, module, v.
  - intros (name & module & v & Hin & Hm & Hv & Hne & ->). exists name. split; [done|]. rewrite Hm. cbn.
    rewrite Hv. cbn. by destruct (decide (v = "")).
Qed.
