(* ===== verification/Watch.v ===== *)
(** conf/watch.go: reading the configuration again when its file changes.

    The watcher is a step relation over time in nanoseconds.  The events of fsnotify, the
    edits of the file and the reads the watcher has put off are its steps; a read happens at
    the moment it was put off to, so time does not pass one that is due. *)
From S2P Require Import Prelude GoStrings Paths Conf.
#[local] Open Scope string_scope.
#[local] Open Scope Z_scope.
#[local] Open Scope list_scope.

Definition reloadDelay : Z := 5 * Second.
Definition eventPause : Z := 10 * Second.

(** Which message a read announces: whether the changed file is one of the DNS files. *)
Definition dns_changed (name xDnsPath sDnsPath : string) : bool :=
  let base := Base (TrimSuffix name "~") in
  bool_decide (base = Base xDnsPath ∨ base = Base sDnsPath).

(** An event: whether it only changes the attributes. *)
Record event := MkEvent { ev_Chmod : bool; ev_Name : string }.

(** [Watch]: the goroutine is started once there is a watcher, whatever becomes of the paths
    that are added; the error, the paths that are watched, and whether the loop runs. *)
Section start.
Context (NewWatcher : option string) (watcher_Add : string → option string).

Fixpoint watch_dns (paths watched : list string) : option string * list string :=
  match paths with
  | [] => (None, watched)
  | p :: paths =>
      if decide (p = "") then watch_dns paths watched
      else match watcher_Add p with
           | Some e => (Some ("watch dns file error: " +:+ e)%string, watched)
           | None => watch_dns paths (watched ++ [p])
           end
  end.
Definition Watch (filePath xDnsPath sDnsPath : string) : option string * list string * bool :=
  match NewWatcher with
  | Some e => (Some ("new watcher error: " +:+ e)%string, [], false)
  | None =>
      match watcher_Add filePath with
      | Some e => (Some ("watch file error: " +:+ e)%string, [], true)
      | None => (watch_dns [xDnsPath; sDnsPath] [filePath], true)
      end
  end.

Lemma watch_dns_spec paths watched :
  (watch_dns paths watched).1 = None ↔ Forall (λ p, p ≠ "" → watcher_Add p = None) paths.
Proof.
  revert watched. induction paths as [|p paths IH]; intros watched; cbn [watch_dns]; [by split|].
  rewrite Forall_cons. case_decide as Hp; [rewrite IH; naive_solver|].
  destruct (watcher_Add p) eqn:E; [|rewrite IH; naive_solver]. split; [done|]. intros [H _]. by specialize (H Hp).
Qed.
(** Watching succeeds when every path that is given can be watched, and then all of them are. *)
Lemma Watch_spec filePath xDnsPath sDnsPath :
  (Watch filePath xDnsPath sDnsPath).1.1 = None ↔
  NewWatcher = None ∧ watcher_Add filePath = None ∧
    (xDnsPath ≠ "" → watcher_Add xDnsPath = None) ∧ (sDnsPath ≠ "" → watcher_Add sDnsPath = None).
Proof.
  unfold Watch. destruct NewWatcher; [naive_solver|]. destruct (watcher_Add filePath) eqn:E; [naive_solver|].
  cbn [fst]. rewrite watch_dns_spec, !Forall_cons, Forall_nil. naive_solver.
Qed.
End start.

Section watch.
(** [LoadFromPath] on a given content: what it leaves in a configuration, and its error. *)
Context {T : Type} (new : T) (load : string → T → option string * T).

Record watcher := MkWatcher {
  wt_now : Z;
  wt_pre : option Z;
  wt_pending : list Z;
  wt_file : string;
  wt_conf : T;
  (** Not of the program: when the file was last edited, and what the last read saw. *)
  wt_edited : Z;
  wt_read : string
}.

(** One turn of the loop for an event.  [pre] is the zero time at first. *)
Definition on_event (e : event) (w : watcher) : watcher :=
  if ev_Chmod e then w
  else if match wt_pre w with Some pre => bool_decide (pre + eventPause > wt_now w) | None => false end then w
  else MkWatcher (wt_now w) (Some (wt_now w)) (wt_pending w ++ [wt_now w + reloadDelay]) (wt_file w) (wt_conf w)
         (wt_edited w) (wt_read w).
(** The goroutine of an event, after its sleep: the configuration is replaced even when it
    does not load; [reload] is called in either case. *)
Definition read_again (w : watcher) : watcher :=
  MkWatcher (wt_now w) (wt_pre w) (wt_pending w) (wt_file w) (load (wt_file w) new).2 (wt_edited w) (wt_file w).

Definition set_now (t : Z) (w : watcher) : watcher :=
  MkWatcher t (wt_pre w) (wt_pending w) (wt_file w) (wt_conf w) (wt_edited w) (wt_read w).
Definition set_pending (l : list Z) (w : watcher) : watcher :=
  MkWatcher (wt_now w) (wt_pre w) l (wt_file w) (wt_conf w) (wt_edited w) (wt_read w).
Definition edit (content : string) (w : watcher) : watcher :=
  MkWatcher (wt_now w) (wt_pre w) (wt_pending w) content (wt_conf w) (wt_now w) (wt_read w).

Inductive watch_step : watcher → watcher → Prop :=
| watch_time w t : wt_now w ≤ t → Forall (λ due, t ≤ due) (wt_pending w) → watch_step w (set_now t w)
| watch_edit w content name : watch_step w (on_event (MkEvent false name) (edit content w))
| watch_event w e : watch_step w (on_event e w)
| watch_read w due l1 l2 : wt_pending w = l1 ++ due :: l2 → due ≤ wt_now w →
    watch_step w (read_again (set_pending (l1 ++ l2) w)).

(** The watcher starts with the configuration the server has loaded. *)
Definition started (now : Z) (content : string) (c : T) : watcher :=
  MkWatcher now None [] content c now content.

(** At most one read is pending, five seconds after the last event that counted. *)
Record watch_inv (w : watcher) : Prop := {
  wi_pending : wt_pending w = [] ∨
    ∃ pre, wt_pre w = Some pre ∧ wt_pending w = [pre + reloadDelay] ∧ wt_now w ≤ pre + reloadDelay;
  wi_pre pre : wt_pre w = Some pre → pre ≤ wt_now w;
  wi_done pre : wt_pre w = Some pre → wt_pending w = [] → pre + reloadDelay ≤ wt_now w;
  wi_file : wt_pending w = [] → wt_read w = wt_file w ∨
    ∃ pre, wt_pre w = Some pre ∧ pre + reloadDelay ≤ wt_edited w < pre + eventPause
}.

Lemma watch_inv_started now content c : watch_inv (started now content c).
Proof. split; cbn; [by left|done|done|by left]. Qed.

(** An event, where the file may just have changed. *)
Lemma on_event_inv e w w' :
  watch_inv w → wt_now w' = wt_now w → wt_pre w' = wt_pre w → wt_pending w' = wt_pending w → wt_read w' = wt_read w →
  (wt_file w' = wt_file w ∧ wt_edited w' = wt_edited w ∨ wt_edited w' = wt_now w ∧ ev_Chmod e = false) →
  watch_inv (on_event e w').
Proof.
  intros [H1 H2 H3 H4] En Ep El Er Hf. unfold on_event. destruct (ev_Chmod e) eqn:Ec.
  { destruct Hf as [[Ef Ee]|[_ ?]]; [|done]. split; rewrite ?En, ?Ep, ?El, ?Er, ?Ef, ?Ee; try done. }
  rewrite Ep, En.
  destruct (match wt_pre w with Some pre => bool_decide (pre + eventPause > wt_now w) | None => false end) eqn:Eb.
  - destruct (wt_pre w) as [pre|] eqn:Epre; [|done]. apply bool_decide_eq_true in Eb.
    split; rewrite ?En, ?Ep, ?El, ?Er; [done|done|done|]. intros Hp.
    destruct Hf as [[-> ->]|[-> _]]; [by apply H4|]. right. exists pre. split; [done|].
    specialize (H3 pre eq_refl Hp). lia.
  - assert (wt_pending w = []) as Hp.
    { destruct H1 as [|(pre & Epre & _ & Hn)]; [done|]. rewrite Epre in Eb. apply bool_decide_eq_false in Eb.
      unfold eventPause, reloadDelay, Second in *. lia. }
    split; cbn [wt_now wt_pre wt_pending wt_file wt_conf wt_edited wt_read]; rewrite ?El, ?Hp.
    + right. exists (wt_now w). split; [done|]. split; [done|]. unfold reloadDelay, Second. lia.
    + intros pre [= <-]. lia.
    + done.
    + done.
Qed.

Lemma watch_step_inv w w' : watch_inv w → watch_step w w' → watch_inv w'.
Proof.
  intros Hw Hst. destruct Hst as [w t Ht Hdue|w content name|w e|w due l1 l2 Hl Hdue].
  - destruct Hw as [H1 H2 H3 H4]. split; cbn; [|intros pre Hp; specialize (H2 pre Hp); lia| |done].
    + destruct H1 as [|(pre & Ep & El & Hn)]; [by left|right]. exists pre. split; [done|]. split; [done|].
      rewrite El in Hdue. rewrite Forall_singleton in Hdue. exact Hdue.
    + intros pre Hp Hl. specialize (H3 pre Hp Hl). lia.
  - eapply on_event_inv; [exact Hw|done|done|done|done|by right].
  - eapply on_event_inv; [exact Hw|done|done|done|done|by left].
  - destruct Hw as [H1 H2 H3 H4]. destruct H1 as [E|(pre & Ep & El & Hn)]; [rewrite E in Hl; by destruct l1|].
    rewrite El in Hl. destruct l1 as [|x l1]; [injection Hl as <- <-|destruct l1; discriminate Hl].
    split; cbn; [by left|done| |by left]. intros pre' Hp _. assert (pre' = pre) as -> by congruence. lia.
Qed.


(** ** Two edits *)

(** An edit at second 0 is read at second 5; one at second 6 is not. *)
Lemma late_edit_missed (c0 : T) (wait : Z) : 0 ≤ wait →
  ∃ w, steps watch_step (started 0 "old" c0) w ∧ wt_now w = 6 * Second + wait ∧ wt_pending w = [] ∧
    wt_file w = "second" ∧ wt_read w = "first" ∧ wt_conf w = (load "first" new).2.
Proof.
  intros Hwait. set (c1 := (load "first" new).2).
  assert (∀ w w' w'', watch_step w w' → w' = w'' → steps watch_step w w'') as Hone.
  { intros w w' w'' H <-. by apply steps_one. }
  exists (MkWatcher (6 * Second + wait) (Some 0) [] "second" c1 (6 * Second) "first"). split; [|done].
  eapply (steps_trans _ _ (MkWatcher 0 (Some 0) [5 * Second] "first" c0 0 "old")).
  { eapply Hone; [apply (watch_edit _ "first" "c")|reflexivity]. }
  eapply (steps_trans _ _ (MkWatcher (5 * Second) (Some 0) [5 * Second] "first" c0 0 "old")).
  { eapply Hone; [apply (watch_time _ (5 * Second)); [done|by apply Forall_singleton]|reflexivity]. }
  eapply (steps_trans _ _ (MkWatcher (5 * Second) (Some 0) [] "first" c1 0 "first")).
  { eapply Hone; [by apply (watch_read _ (5 * Second) [] [])|reflexivity]. }
  eapply (steps_trans _ _ (MkWatcher (6 * Second) (Some 0) [] "first" c1 0 "first")).
  { eapply Hone; [by apply (watch_time _ (6 * Second))|reflexivity]. }
  eapply (steps_trans _ _ (MkWatcher (6 * Second) (Some 0) [] "second" c1 (6 * Second) "first")).
  { eapply Hone; [apply (watch_edit _ "second" "c")|reflexivity]. }
  eapply Hone; [apply (watch_time _ (6 * Second + wait)); [cbn [wt_now]; lia|done]|reflexivity].
Qed.
End watch.

