(* ===== verification/Limiter.v ===== *)
(** limiter/limiter.go, dynamic.go, rule.go and clear.go: the limits of one node
    and the registry of the nodes' limiters.

    A [sync.Map] is a finite map.  The values of [UserLimitInfo] are replaced and
    never changed in place (that is what [updateUserLimit] is for), so they are
    plain records.  An operation reads the clock once ([now]).  Token buckets
    come from a library: a [Bucket] is an identity with the rate it was made
    with, and the limiter counts the buckets it has made.  [Range] visits a map in
    an order Go leaves open; the order of [map_to_list] is used. *)
From S2P Require Import Prelude GoStrings Netutil PanelTypes Conf ConnLimiter OnlineRegistry.
#[local] Open Scope string_scope.
#[local] Open Scope Z_scope.

Record oldOnlineEntry := MkOldOnlineEntry { oo_uid : Z; oo_seenAt : Z }.
#[export] Instance oldOnlineEntry_eq_dec : EqDecision oldOnlineEntry.
Proof. solve_decision. Defined.

Record Bucket := MkBucket {
  bk_id : nat;
  bk_fillInterval : Z;
  bk_capacity : Z;
  bk_quantum : Z
}.
#[export] Instance Bucket_eq_dec : EqDecision Bucket.
Proof. solve_decision. Defined.
Record speedBucket := MkSpeedBucket { sb_Limit : Z; sb_Bucket : Bucket }.

Record UserLimitInfo := MkUserLimitInfo {
  ul_UID : Z;
  ul_SpeedLimit : Z;
  ul_DeviceLimit : Z;
  ul_DynamicSpeedLimit : Z;
  ul_ExpireTime : Z;
  ul_OverLimit : bool
}.
#[export] Instance UserLimitInfo_eq_dec : EqDecision UserLimitInfo.
Proof. solve_decision. Defined.

(** A compiled [regexp.Regexp] is known by the expression it was compiled from. *)
Record Limiter := MkLimiter {
  lm_DomainRules : list string;
  lm_ProtocolRules : list string;
  lm_SpeedLimit : Z;
  lm_UserOnlineIP : gmap string (gmap string Z);
  lm_OldUserOnline : gmap string oldOnlineEntry;
  lm_UserLimitInfo : gmap string UserLimitInfo;
  lm_ConnLimiter : ConnLimiter;
  lm_SpeedLimiter : gmap string speedBucket;
  lm_Online : OnlineRegistry;
  lm_AliveList : gmap Z Z;
  lm_oldOnlineTTL : Z;
  lm_buckets : nat
}.

(** Assignments to the fields. *)
Definition set_rules (d p : list string) (l : Limiter) : Limiter :=
  MkLimiter d p (lm_SpeedLimit l) (lm_UserOnlineIP l) (lm_OldUserOnline l) (lm_UserLimitInfo l)
    (lm_ConnLimiter l) (lm_SpeedLimiter l) (lm_Online l) (lm_AliveList l) (lm_oldOnlineTTL l)
    (lm_buckets l).
Definition set_UserOnlineIP (m : gmap string (gmap string Z)) (l : Limiter) : Limiter :=
  MkLimiter (lm_DomainRules l) (lm_ProtocolRules l) (lm_SpeedLimit l) m (lm_OldUserOnline l)
    (lm_UserLimitInfo l) (lm_ConnLimiter l) (lm_SpeedLimiter l) (lm_Online l) (lm_AliveList l)
    (lm_oldOnlineTTL l) (lm_buckets l).
Definition set_OldUserOnline (m : gmap string oldOnlineEntry) (l : Limiter) : Limiter :=
  MkLimiter (lm_DomainRules l) (lm_ProtocolRules l) (lm_SpeedLimit l) (lm_UserOnlineIP l) m
    (lm_UserLimitInfo l) (lm_ConnLimiter l) (lm_SpeedLimiter l) (lm_Online l) (lm_AliveList l)
    (lm_oldOnlineTTL l) (lm_buckets l).
Definition set_UserLimitInfo (m : gmap string UserLimitInfo) (l : Limiter) : Limiter :=
  MkLimiter (lm_DomainRules l) (lm_ProtocolRules l) (lm_SpeedLimit l) (lm_UserOnlineIP l)
    (lm_OldUserOnline l) m (lm_ConnLimiter l) (lm_SpeedLimiter l) (lm_Online l) (lm_AliveList l)
    (lm_oldOnlineTTL l) (lm_buckets l).
Definition set_ConnLimiter (c : ConnLimiter) (l : Limiter) : Limiter :=
  MkLimiter (lm_DomainRules l) (lm_ProtocolRules l) (lm_SpeedLimit l) (lm_UserOnlineIP l)
    (lm_OldUserOnline l) (lm_UserLimitInfo l) c (lm_SpeedLimiter l) (lm_Online l) (lm_AliveList l)
    (lm_oldOnlineTTL l) (lm_buckets l).
Definition set_SpeedLimiter (m : gmap string speedBucket) (n : nat) (l : Limiter) : Limiter :=
  MkLimiter (lm_DomainRules l) (lm_ProtocolRules l) (lm_SpeedLimit l) (lm_UserOnlineIP l)
    (lm_OldUserOnline l) (lm_UserLimitInfo l) (lm_ConnLimiter l) m (lm_Online l) (lm_AliveList l)
    (lm_oldOnlineTTL l) n.
Definition set_Online (r : OnlineRegistry) (l : Limiter) : Limiter :=
  MkLimiter (lm_DomainRules l) (lm_ProtocolRules l) (lm_SpeedLimit l) (lm_UserOnlineIP l)
    (lm_OldUserOnline l) (lm_UserLimitInfo l) (lm_ConnLimiter l) (lm_SpeedLimiter l) r
    (lm_AliveList l) (lm_oldOnlineTTL l) (lm_buckets l).
Definition set_AliveList (m : gmap Z Z) (l : Limiter) : Limiter :=
  MkLimiter (lm_DomainRules l) (lm_ProtocolRules l) (lm_SpeedLimit l) (lm_UserOnlineIP l)
    (lm_OldUserOnline l) (lm_UserLimitInfo l) (lm_ConnLimiter l) (lm_SpeedLimiter l) (lm_Online l)
    m (lm_oldOnlineTTL l) (lm_buckets l).

(** * limiter.go *)

Definition defaultOldOnlineTTL : Z := 10 * Minute.

(** The minimum non-zero rate. *)
Definition determineSpeedLimit (limit1 limit2 : Z) : Z :=
  if bool_decide (limit1 = 0) || bool_decide (limit2 = 0) then
    if bool_decide (limit1 > limit2) then limit1
    else if bool_decide (limit1 < limit2) then limit2
    else 0
  else
    if bool_decide (limit1 > limit2) then limit2
    else if bool_decide (limit1 < limit2) then limit1
    else limit1.

Definition SetAliveList (aliveList : gmap Z Z) (l : Limiter) : Limiter :=
  set_AliveList aliveList l.
Definition DeleteAlive (uid : Z) (l : Limiter) : Limiter :=
  set_AliveList (delete uid (lm_AliveList l)) l.
Definition GetAlive (l : Limiter) (uid : Z) : Z := default 0 (lm_AliveList l !! uid).

(** The entry [AddLimiter] and [UpdateUser] make for a user of the panel. *)
Definition newUserLimit (u : UserInfo) : UserLimitInfo :=
  MkUserLimitInfo (ui_Id u) (ui_SpeedLimit u) (ui_DeviceLimit u) 0 0 false.
Definition storeUser (tag : string) (m : gmap string UserLimitInfo) (u : UserInfo)
    : gmap string UserLimitInfo :=
  <[UserTag tag (ui_Uuid u) := newUserLimit u]> m.

Definition newLimiter (tag : string) (lc : LimitConfig) (users : list UserInfo)
    (aliveList : gmap Z Z) : Limiter :=
  let info := MkLimiter [] [] (lc_SpeedLimit lc) ∅ ∅ ∅
    (NewConnLimiter (lc_ConnLimit lc) (lc_IPLimit lc) (lc_EnableRealtime lc)
      (onlineTTLFromSeconds (lc_OnlineTimeout lc)))
    ∅ (newOnlineRegistry (onlineTTLFromSeconds (lc_OnlineTimeout lc))) ∅
    defaultOldOnlineTTL 0 in
  let info := SetAliveList aliveList info in
  set_UserLimitInfo (foldl (storeUser tag) ∅ users) info.

Definition deleteUser (tag : string) (l : Limiter) (u : UserInfo) : Limiter :=
  let taguuid := UserTag tag (ui_Uuid u) in
  let l := set_UserLimitInfo (delete taguuid (lm_UserLimitInfo l)) l in
  let l := set_UserOnlineIP (delete taguuid (lm_UserOnlineIP l)) l in
  let l := set_SpeedLimiter (delete taguuid (lm_SpeedLimiter l)) (lm_buckets l) l in
  let l := DeleteAlive (ui_Id u) l in
  set_Online (or_DeleteUser (lm_Online l) taguuid) l.

Definition UpdateUser (tag : string) (added deleted : list UserInfo) (l : Limiter) : Limiter :=
  let l := foldl (deleteUser tag) l deleted in
  set_UserLimitInfo (foldl (storeUser tag) (lm_UserLimitInfo l) added) l.

Definition updateUserLimit (taguuid : string) (mutate : UserLimitInfo → UserLimitInfo)
    (l : Limiter) : result Limiter :=
  match lm_UserLimitInfo l !! taguuid with
  | None => Err "not found"
  | Some old => Ok (set_UserLimitInfo (<[taguuid := mutate old]> (lm_UserLimitInfo l)) l)
  end.

Definition with_dynamic (limit expire : Z) (u : UserLimitInfo) : UserLimitInfo :=
  MkUserLimitInfo (ul_UID u) (ul_SpeedLimit u) (ul_DeviceLimit u) limit expire (ul_OverLimit u).
Definition with_over (over : bool) (u : UserLimitInfo) : UserLimitInfo :=
  MkUserLimitInfo (ul_UID u) (ul_SpeedLimit u) (ul_DeviceLimit u) (ul_DynamicSpeedLimit u)
    (ul_ExpireTime u) over.

Definition dropBucket (taguuid : string) (l : Limiter) : Limiter :=
  set_SpeedLimiter (delete taguuid (lm_SpeedLimiter l)) (lm_buckets l) l.

Definition UpdateDynamicSpeedLimit (tag uuid : string) (limit expire : Z) (l : Limiter)
    : result Limiter :=
  let taguuid := UserTag tag uuid in
  l ← updateUserLimit taguuid (with_dynamic limit (Unix expire)) l;
  Ok (dropBucket taguuid l).

(** The error of [updateUserLimit] is dropped. *)
Definition ignoring (l : Limiter) (r : result Limiter) : Limiter :=
  match r with Ok l => l | Err _ => l end.

Definition SetOverLimit (taguuid : string) (over : bool) (l : Limiter) : Limiter :=
  ignoring l (updateUserLimit taguuid (with_over over) l).

Definition ConsumeOverLimit (taguuid : string) (l : Limiter) : bool * Limiter :=
  match lm_UserLimitInfo l !! taguuid with
  | None => (false, l)
  | Some old =>
      if negb (ul_OverLimit old) then (false, l)
      else (true, set_UserLimitInfo (<[taguuid := with_over false old]> (lm_UserLimitInfo l)) l)
  end.

Definition UserID (l : Limiter) (taguuid : string) : Z :=
  match lm_UserLimitInfo l !! taguuid with Some u => ul_UID u | None => 0 end.

Definition SetOnlineTTL (ttl : Z) (l : Limiter) : Limiter :=
  let l := set_Online (or_SetTTL (lm_Online l) ttl) l in
  set_ConnLimiter (cl_SetOnlineTTL (lm_ConnLimiter l) ttl) l.

Definition oldOnlineTTLValue (l : Limiter) : Z :=
  if bool_decide (lm_oldOnlineTTL l ≤ 0) then defaultOldOnlineTTL else lm_oldOnlineTTL l.
Definition oldOnlineExpired (l : Limiter) (e : oldOnlineEntry) (now : Z) : bool :=
  bool_decide (now - oo_seenAt e > oldOnlineTTLValue l).
Definition oldOnlineLookup (ip : string) (now : Z) (l : Limiter) : option Z * Limiter :=
  match lm_OldUserOnline l !! ip with
  | None => (None, l)
  | Some entry =>
      if oldOnlineExpired l entry now
      then (None, set_OldUserOnline (delete ip (lm_OldUserOnline l)) l)
      else (Some (oo_uid entry), l)
  end.

(** ** checkLimit, in its three parts *)

(** The user's entry: its device limit, uid and speed limit, and what the expiry
    of a dynamic limit changes. *)
Definition expired (u : UserLimitInfo) (now : Z) : bool :=
  bool_decide (ul_ExpireTime u < Unix now) && negb (bool_decide (ul_ExpireTime u = 0)).
Definition check_user (taguuid : string) (now : Z) (l : Limiter)
    : option (Z * Z * Z * Limiter) :=
  match lm_UserLimitInfo l !! taguuid with
  | None => None
  | Some u =>
      if expired u now then
        if bool_decide (ul_SpeedLimit u ≠ 0) then
          Some (ul_DeviceLimit u, ul_UID u, ul_SpeedLimit u,
                ignoring l (updateUserLimit taguuid (with_dynamic 0 0) l))
        else
          Some (ul_DeviceLimit u, ul_UID u, 0,
                set_UserLimitInfo (delete taguuid (lm_UserLimitInfo l)) l)
      else
        Some (ul_DeviceLimit u, ul_UID u,
              determineSpeedLimit (ul_SpeedLimit u) (ul_DynamicSpeedLimit u), l)
  end.

(** The device limit; true rejects. *)
Definition check_device (taguuid ip : string) (uid deviceLimit now : Z) (l : Limiter)
    : bool * Limiter :=
  let aliveIp := GetAlive l uid in
  match lm_UserOnlineIP l !! taguuid with
  | Some ipMap =>
      match ipMap !! ip with
      | Some _ => (false, l)
      | None =>
          if bool_decide (0 < deviceLimit) && bool_decide (deviceLimit ≤ aliveIp)
          then (true, l)
          else (false, set_UserOnlineIP
                         (<[taguuid := <[ip := uid]> ipMap]> (lm_UserOnlineIP l)) l)
      end
  | None =>
      let l := set_UserOnlineIP (<[taguuid := {[ip := uid]}]> (lm_UserOnlineIP l)) l in
      match oldOnlineLookup ip now l with
      | (Some seenUID, l) =>
          if bool_decide (seenUID = uid)
          then (false, set_OldUserOnline (delete ip (lm_OldUserOnline l)) l)
          else (false, l)
      | (None, l) =>
          if bool_decide (0 < deviceLimit) && bool_decide (deviceLimit ≤ aliveIp)
          then (true, set_UserOnlineIP (delete taguuid (lm_UserOnlineIP l)) l)
          else (false, l)
      end
  end.

(** ratelimit.NewBucketWithQuantum. *)
Definition NewBucketWithQuantum (id : nat) (fillInterval capacity quantum : Z) : Bucket :=
  MkBucket id fillInterval capacity quantum.

(** Bytes per second of a limit in Mbit per second. *)
Definition byte_rate (mbps : Z) : Z := Z.quot (wrap64 (mbps * 1000000)) 8.

Definition take_bucket (taguuid : string) (userLimit : Z) (l : Limiter)
    : option Bucket * Limiter :=
  let limit := byte_rate (determineSpeedLimit (lm_SpeedLimit l) userLimit) in
  if bool_decide (0 < limit) then
    let fresh :=
      let b := NewBucketWithQuantum (lm_buckets l) Second limit limit in
      (Some b, set_SpeedLimiter (<[taguuid := MkSpeedBucket limit b]> (lm_SpeedLimiter l))
                 (S (lm_buckets l)) l) in
    match lm_SpeedLimiter l !! taguuid with
    | Some cached => if bool_decide (sb_Limit cached = limit) then (Some (sb_Bucket cached), l)
                     else fresh
    | None => fresh
    end
  else (None, dropBucket taguuid l).

(** The answer is the bucket and whether the connection is rejected; [None] is a
    panic. *)
Definition checkLimit (taguuid ip : string) (isTcp noSSUDP : bool) (now : Z) (l : Limiter)
    : option (option Bucket * bool * Limiter) :=
  let ip := NormalizeIP ip in
  '(full, c) ← AddConnCount (lm_ConnLimiter l) taguuid ip isTcp now;
  let l := set_ConnLimiter c l in
  if full : bool then Some (None, true, l)
  else
    match check_user taguuid now l with
    | None => Some (None, true, l)
    | Some (deviceLimit, uid, userLimit, l) =>
        let '(rejected, l) :=
          if noSSUDP then check_device taguuid ip uid deviceLimit now l else (false, l) in
        if rejected : bool then Some (None, true, l)
        else let '(b, l) := take_bucket taguuid userLimit l in Some (b, false, l)
    end.

Definition CheckLimit (taguuid ip : string) (isTcp noSSUDP : bool) (now : Z) (l : Limiter)
    : option (option Bucket * bool * Limiter) :=
  '(bucket, reject, l) ← checkLimit taguuid ip isTcp noSSUDP now l;
  Some (bucket, reject,
        if reject : bool then l
        else set_Online (or_Touch (lm_Online l) taguuid ip (UserID l taguuid) now) l).

(** ** The device window *)

(** The inner [Range] of [rotateDeviceWindow]. *)
Definition remember (now : Z) (old : gmap string oldOnlineEntry) (e : string * Z)
    : gmap string oldOnlineEntry :=
  let ip := NormalizeIP e.1 in
  if decide (ip = "") then old else <[ip := MkOldOnlineEntry e.2 now]> old.
Definition rotate_user (now : Z) (l : Limiter) (e : string * gmap string Z) : Limiter :=
  let l := set_OldUserOnline (foldl (remember now) (lm_OldUserOnline l) (map_to_list e.2)) l in
  set_UserOnlineIP (delete e.1 (lm_UserOnlineIP l)) l.
Definition rotateDeviceWindow (now : Z) (l : Limiter) : Limiter :=
  foldl (rotate_user now) l (map_to_list (lm_UserOnlineIP l)).

Definition GetOnlineDevice (now : Z) (l : Limiter) : list OnlineUser * Limiter :=
  (or_Snapshot (lm_Online l), rotateDeviceWindow now l).

Definition sweepOldOnline (now : Z) (l : Limiter) : Limiter :=
  set_OldUserOnline (filter (λ kv, ¬ oldOnlineExpired l kv.2 now) (lm_OldUserOnline l)) l.

Definition GetOnlineIPMap (l : Limiter) : gmap Z (list string) :=
  foldl (λ data u, <[ou_UID u := default [] (data !! ou_UID u) ++ [ou_IP u]]> data)%list ∅
    (or_Snapshot (lm_Online l)).

(** * dynamic.go *)

Definition AddDynamicSpeedLimit (tag : string) (userInfo : UserInfo) (limitNum expire now : Z)
    (l : Limiter) : Limiter :=
  let taguuid := UserTag tag (ui_Uuid userInfo) in
  let expireTime := Unix (now + wrap64 (expire * Second)) in
  let l := match updateUserLimit taguuid (with_dynamic limitNum expireTime) l with
           | Ok l => l
           | Err _ =>
               set_UserLimitInfo (<[taguuid :=
                 MkUserLimitInfo (ui_Id userInfo) 0 0 limitNum expireTime false]>
                 (lm_UserLimitInfo l)) l
           end in
  dropBucket taguuid l.

(** * rule.go *)

Section rules.
(** [regexp.Compile] succeeds, and [MatchString] of a compiled expression. *)
Context (compiles : string → bool) (matches : string → string → bool).

Fixpoint any_rule (match_ : string → bool) (rules : list string) : bool :=
  match rules with
  | [] => false
  | r :: rules => if match_ r then true else any_rule match_ rules
  end.

Definition CheckDomainRule (destination : string) (l : Limiter) : bool :=
  any_rule (λ r, matches r destination) (lm_DomainRules l).
Definition CheckProtocolRule (protocol : string) (l : Limiter) : bool :=
  any_rule (λ r, bool_decide (r = protocol)) (lm_ProtocolRules l).

(** [MustCompile] panics. *)
Fixpoint MustCompile (rules : list string) : option (list string) :=
  match rules with
  | [] => Some []
  | r :: rules => if compiles r then rules ← MustCompile rules; Some (r :: rules) else panic
  end.
Definition UpdateRule (rule : Rules) (l : Limiter) : option (result Limiter) :=
  d ← MustCompile (ru_Regexp rule);
  Some (Ok (set_rules d (ru_Protocol rule) l)).
End rules.

(** * The registry of limiters, and clear.go

    [limiter] maps a tag to a pointer: [reg] holds the pointers, [objs] the
    objects.  A caller that kept the pointer of a deleted limiter still reaches it. *)
Record Limiters := MkLimiters { reg : gmap string nat; objs : gmap nat Limiter }.

Definition Init (s : Limiters) : Limiters := MkLimiters ∅ (objs s).
Definition AddLimiter (tag : string) (lc : LimitConfig) (users : list UserInfo)
    (aliveList : gmap Z Z) (s : Limiters) : nat * Limiters :=
  let p := fresh (dom (objs s)) in
  (p, MkLimiters (<[tag := p]> (reg s)) (<[p := newLimiter tag lc users aliveList]> (objs s))).
Definition GetLimiter (tag : string) (s : Limiters) : result nat :=
  match reg s !! tag with Some p => Ok p | None => Err "not found" end.
Definition DeleteLimiter (tag : string) (s : Limiters) : Limiters :=
  MkLimiters (delete tag (reg s)) (objs s).

(** What [ClearOnlineIP] does to one limiter. *)
Definition sweepLimiter (now : Z) (l : Limiter) : Limiter :=
  let l := set_ConnLimiter (cl_ClearOnlineIP (lm_ConnLimiter l) now) l in
  let l := set_Online (or_Sweep (lm_Online l) now) l in
  sweepOldOnline now l.
Definition ClearOnlineIP (now : Z) (s : Limiters) : Limiters :=
  let limiters := map snd (map_to_list (reg s)) in
  MkLimiters (reg s) (foldl (λ o p, alter (sweepLimiter now) p o) (objs s) limiters).

(** * Vocabulary of the theorems *)

(** Calls on one limiter, the ones cores make on its parts included. *)
Inductive lm_op :=
| LmCheckLimit (taguuid ip : string) (isTcp noSSUDP : bool) (now : Z)
| LmUpdateUser (tag : string) (added deleted : list UserInfo)
| LmUpdateDynamic (tag uuid : string) (limit expire : Z)
| LmAddDynamic (tag : string) (user : UserInfo) (limitNum expire now : Z)
| LmSetOverLimit (taguuid : string) (over : bool)
| LmConsumeOverLimit (taguuid : string)
| LmSetAliveList (m : gmap Z Z)
| LmSetOnlineTTL (ttl : Z)
| LmGetOnlineDevice (now : Z)
| LmSweep (now : Z)
| LmDelConnCount (taguuid ip : string)
| LmOnline (o : online_op).
Definition lm_exec (l : Limiter) (o : lm_op) : option Limiter :=
  match o with
  | LmCheckLimit u ip t n now => snd <$> CheckLimit u ip t n now l
  | LmUpdateUser tag a d => Some (UpdateUser tag a d l)
  | LmUpdateDynamic tag u n e => Some (ignoring l (UpdateDynamicSpeedLimit tag u n e l))
  | LmAddDynamic tag u n e now => Some (AddDynamicSpeedLimit tag u n e now l)
  | LmSetOverLimit u b => Some (SetOverLimit u b l)
  | LmConsumeOverLimit u => Some (ConsumeOverLimit u l).2
  | LmSetAliveList m => Some (SetAliveList m l)
  | LmSetOnlineTTL ttl => Some (SetOnlineTTL ttl l)
  | LmGetOnlineDevice now => Some (GetOnlineDevice now l).2
  | LmSweep now => Some (sweepLimiter now l)
  | LmDelConnCount u ip =>
      c ← DelConnCount (lm_ConnLimiter l) u ip; Some (set_ConnLimiter c l)
  | LmOnline o => Some (set_Online (online_exec (lm_Online l) o) l)
  end.
Fixpoint lm_run (l : Limiter) (os : list lm_op) : option Limiter :=
  match os with
  | [] => Some l
  | o :: os => l ← lm_exec l o; lm_run l os
  end.

(** A cached bucket refills once a second with what its limit allows, and was made
    by this limiter. *)
Definition bucket_ok (n : nat) (s : speedBucket) : Prop :=
  0 < sb_Limit s ∧ (bk_id (sb_Bucket s) < n)%nat ∧
  sb_Bucket s = MkBucket (bk_id (sb_Bucket s)) Second (sb_Limit s) (sb_Limit s).
Record lm_inv (l : Limiter) : Prop := {
  lmi_conn : cl_inv (lm_ConnLimiter l);
  lmi_online : registry_ok (lm_Online l);
  lmi_bucket : map_Forall (λ _ s, bucket_ok (lm_buckets l) s) (lm_SpeedLimiter l);
  lmi_distinct u v s t : lm_SpeedLimiter l !! u = Some s → lm_SpeedLimiter l !! v = Some t →
    bk_id (sb_Bucket s) = bk_id (sb_Bucket t) → u = v
}.

(** The speed limit of a user at a time, a dynamic limit that expired left out. *)
Definition user_limit (u : UserLimitInfo) (now : Z) : Z :=
  if expired u now then ul_SpeedLimit u
  else determineSpeedLimit (ul_SpeedLimit u) (ul_DynamicSpeedLimit u).
(** The uid an address is remembered for. *)
Definition remembered (l : Limiter) (ip : string) (now : Z) : option Z :=
  match lm_OldUserOnline l !! ip with
  | Some e => if oldOnlineExpired l e now then None else Some (oo_uid e)
  | None => None
  end.
Definition device_full (l : Limiter) (deviceLimit uid : Z) : bool :=
  bool_decide (0 < deviceLimit) && bool_decide (deviceLimit ≤ GetAlive l uid).
(** The device limit counts the address as a new device. *)
Definition new_device (l : Limiter) (taguuid ip : string) (now : Z) : bool :=
  match lm_UserOnlineIP l !! taguuid with
  | Some ipMap => match ipMap !! ip with Some _ => false | None => true end
  | None => match remembered l ip now with Some _ => false | None => true end
  end.
(** What turns a connection away after the connection limiter let it pass. *)
Definition turned_away (l : Limiter) (taguuid ip : string) (noSSUDP : bool) (now : Z) : bool :=
  match lm_UserLimitInfo l !! taguuid with
  | None => true
  | Some u => noSSUDP && device_full l (ul_DeviceLimit u) (ul_UID u) &&
      new_device l taguuid ip now
  end.

(** The addresses of the current window once a connection is accepted. *)
Definition window_with (l : Limiter) (taguuid ip : string) (uid : Z)
    : gmap string (gmap string Z) :=
  match lm_UserOnlineIP l !! taguuid with
  | Some ipMap => match ipMap !! ip with
                  | Some _ => lm_UserOnlineIP l
                  | None => <[taguuid := <[ip := uid]> ipMap]> (lm_UserOnlineIP l)
                  end
  | None => <[taguuid := {[ip := uid]}]> (lm_UserOnlineIP l)
  end.

(** The rate of the bucket an accepted connection of the user gets. *)
Definition user_rate (l : Limiter) (u : UserLimitInfo) (now : Z) : Z :=
  byte_rate (determineSpeedLimit (lm_SpeedLimit l) (user_limit u now)).

(** * The parts of checkLimit *)

Lemma determineSpeedLimit_0_l b : 0 ≤ b → determineSpeedLimit 0 b = b.
Proof. intros. unfold determineSpeedLimit. simpl. case_all; lia. Qed.

Lemma check_user_spec taguuid now l :
  match lm_UserLimitInfo l !! taguuid with
  | None => check_user taguuid now l = None
  | Some u => ∃ m,
      check_user taguuid now l =
        Some (ul_DeviceLimit u, ul_UID u, user_limit u now, set_UserLimitInfo m l) ∧
      (∀ k, k ≠ taguuid → m !! k = lm_UserLimitInfo l !! k) ∧
      m !! taguuid =
        if expired u now then
          if decide (ul_SpeedLimit u = 0) then None else Some (with_dynamic 0 0 u)
        else Some u
  end.
Proof.
  unfold check_user, user_limit, updateUserLimit.
  destruct (lm_UserLimitInfo l !! taguuid) as [u|] eqn:E; [|done].
  destruct (expired u now).
  - destruct (decide (ul_SpeedLimit u = 0)) as [H0|H0].
    + rewrite bool_decide_eq_false_2 by naive_solver. rewrite H0. eexists. split; [done|].
      split; [intros; by apply lookup_delete_ne|apply lookup_delete_eq].
    + rewrite bool_decide_eq_true_2 by done. simpl. eexists. split; [done|].
      split; [intros; by apply lookup_insert_ne|apply lookup_insert_eq].
  - exists (lm_UserLimitInfo l). split; [by destruct l|done].
Qed.

Lemma check_device_spec taguuid ip uid dl now l :
  let rejected := device_full l dl uid && new_device l taguuid ip now in
  ∃ o, check_device taguuid ip uid dl now l =
    (rejected, set_UserOnlineIP
       (if rejected then lm_UserOnlineIP l else window_with l taguuid ip uid)
       (set_OldUserOnline o l)).
Proof.
  unfold check_device, new_device, remembered, oldOnlineLookup, device_full, window_with.
  assert (l = set_UserOnlineIP (lm_UserOnlineIP l) (set_OldUserOnline (lm_OldUserOnline l) l))
    as Hid by (by destruct l).
  destruct (lm_UserOnlineIP l !! taguuid) as [ipMap|] eqn:E; simpl.
  - destruct (ipMap !! ip) eqn:Eip; rewrite ?andb_false_r, ?andb_true_r; [|case_match];
      eexists; first [done|f_equal; exact Hid].
  - destruct (lm_OldUserOnline l !! ip) as [e|] eqn:Eo;
      [change (oldOnlineExpired (set_UserOnlineIP _ l)) with (oldOnlineExpired l);
       destruct (oldOnlineExpired l e now)|]; simpl;
      rewrite ?andb_false_r, ?andb_true_r; case_match;
      eexists; unfold set_OldUserOnline, set_UserOnlineIP; simpl;
      rewrite ?delete_insert_id by done; reflexivity.
Qed.

Lemma take_bucket_rest taguuid userLimit l :
  ∃ b x n, ∀ l', lm_SpeedLimiter l' = lm_SpeedLimiter l → lm_SpeedLimit l' = lm_SpeedLimit l →
    lm_buckets l' = lm_buckets l → take_bucket taguuid userLimit l' = (b, set_SpeedLimiter x n l').
Proof.
  destruct (take_bucket taguuid userLimit l) as [b l1] eqn:E.
  exists b, (lm_SpeedLimiter l1), (lm_buckets l1). intros l' E1 E2 E3. revert E.
  unfold take_bucket, dropBucket. rewrite E1, E2, E3.
  case_bool_decide; [case_match; [case_bool_decide|]|]; intros [= <- <-]; try done.
  rewrite <-E1, <-E3. by destruct l'.
Qed.

Lemma take_bucket_spec taguuid userLimit l :
  map_Forall (λ _ s, bucket_ok (lm_buckets l) s) (lm_SpeedLimiter l) →
  let rate := byte_rate (determineSpeedLimit (lm_SpeedLimit l) userLimit) in
  ∃ b m n, take_bucket taguuid userLimit l = (b, set_SpeedLimiter m n l) ∧
    (if decide (0 < rate) then
       ∃ id, b = Some (MkBucket id Second rate rate) ∧
         m = <[taguuid := MkSpeedBucket rate (MkBucket id Second rate rate)]>
           (lm_SpeedLimiter l) ∧
         ((∃ s, lm_SpeedLimiter l !! taguuid = Some s ∧ sb_Limit s = rate ∧
             sb_Bucket s = MkBucket id Second rate rate ∧ n = lm_buckets l) ∨
          id = lm_buckets l ∧ n = S (lm_buckets l) ∧
          (∀ s, lm_SpeedLimiter l !! taguuid = Some s → sb_Limit s ≠ rate))
     else b = None ∧ n = lm_buckets l ∧ m = delete taguuid (lm_SpeedLimiter l)).
Proof.
  intros Hb rate. unfold take_bucket. fold rate.
  destruct (decide (0 < rate)) as [Hr|Hr].
  - rewrite bool_decide_eq_true_2 by done.
    destruct (lm_SpeedLimiter l !! taguuid) as [s|] eqn:Es; [case_bool_decide as Hs|].
    + exists (Some (sb_Bucket s)), (lm_SpeedLimiter l), (lm_buckets l).
      split; [by destruct l|]. exists (bk_id (sb_Bucket s)).
      destruct (Hb _ _ Es) as (_ & _ & Hs'). rewrite Hs in Hs'.
      split; [f_equal; exact Hs'|]. split; [|left; by eexists].
      symmetry. apply insert_id. rewrite Es. f_equal. destruct s as [lim bk]. simpl in *.
      by rewrite <-Hs', Hs.
    + eexists _, _, _. split; [done|]. exists (lm_buckets l).
      split; [done|]. split; [done|]. right. split_and!; [done..|]. by intros ? [= <-].
    + eexists _, _, _. split; [done|]. exists (lm_buckets l).
      split; [done|]. split; [done|]. right. by split_and!.
  - rewrite bool_decide_eq_false_2 by done. by eexists _, _, _.
Qed.

(** * The invariant *)

(** The invariant is about four of the fields. *)
Lemma lm_inv_fields l l' :
  lm_inv l → cl_inv (lm_ConnLimiter l') → registry_ok (lm_Online l') →
  lm_SpeedLimiter l' = lm_SpeedLimiter l → lm_buckets l' = lm_buckets l → lm_inv l'.
Proof.
  intros [H1 H2 H3 H4] ?? E1 E2. constructor; [done|done|by rewrite E1, E2|].
  intros u v s t. rewrite E1. apply H4.
Qed.
Lemma lm_inv_same l l' :
  lm_inv l → lm_ConnLimiter l' = lm_ConnLimiter l → lm_Online l' = lm_Online l →
  lm_SpeedLimiter l' = lm_SpeedLimiter l → lm_buckets l' = lm_buckets l → lm_inv l'.
Proof. intros Hl E1 E2. apply lm_inv_fields; [done|..]; rewrite ?E1, ?E2; apply Hl. Qed.

Lemma lm_inv_dropBucket taguuid l : lm_inv l → lm_inv (dropBucket taguuid l).
Proof.
  intros [H1 H2 H3 H4]. constructor; [done|done|..]; simpl.
  - by apply map_Forall_delete.
  - intros u v s t [_ ?]%lookup_delete_Some [_ ?]%lookup_delete_Some. by apply H4.
Qed.

Lemma lm_inv_take_bucket taguuid userLimit l :
  lm_inv l → lm_inv (take_bucket taguuid userLimit l).2.
Proof.
  intros Hl. destruct (take_bucket_spec taguuid userLimit l (lmi_bucket l Hl))
    as (b & m & n & -> & Hb). simpl.
  set (rate := byte_rate _) in *. case_decide as Hr.
  2: { destruct Hb as (_ & -> & ->). by apply lm_inv_dropBucket. }
  destruct Hb as (id & _ & -> & [(s & Hls & Hlim & Hbk & ->)|(-> & -> & _)]).
  - apply (lm_inv_same l); [done..| |done]. simpl.
    apply insert_id. rewrite Hls. f_equal. destruct s. simpl in *. by subst.
  - destruct Hl as [H1 H2 H3 H4]. constructor; [done|done|..]; simpl.
    + apply map_Forall_insert_2; [by split_and!; simpl; [|lia|]|].
      intros u s Hu. destruct (H3 u s Hu) as (? & ? & ?). split_and!; [done|lia|done].
    + assert (∀ w s, lm_SpeedLimiter l !! w = Some s → bk_id (sb_Bucket s) ≠ lm_buckets l) as Hid.
      { intros w s Hw. destruct (H3 w s Hw) as (_ & ? & _). lia. }
      intros u v s t [[<- <-]|[? Hu]]%lookup_insert_Some [[<- <-]|[? Hv]]%lookup_insert_Some;
        simpl; [done|..].
      * intros Heq. by destruct (Hid _ _ Hv).
      * intros Heq. by destruct (Hid _ _ Hu).
      * by apply H4.
Qed.

(** The verdict, and what an accepted connection gets; the rest of [CheckLimit]
    as a function of these. *)
Lemma CheckLimit_spec taguuid ip isTcp noSSUDP now l :
  lm_inv l →
  ∃ full c, AddConnCount (lm_ConnLimiter l) taguuid (NormalizeIP ip) isTcp now = Some (full, c) ∧
  ∃ b l', CheckLimit taguuid ip isTcp noSSUDP now l
      = Some (b, full || turned_away l taguuid (NormalizeIP ip) noSSUDP now, l') ∧
    lm_inv l' ∧ lm_ConnLimiter l' = c ∧
    (full || turned_away l taguuid (NormalizeIP ip) noSSUDP now = true →
       b = None ∧ lm_SpeedLimiter l' = lm_SpeedLimiter l ∧ lm_buckets l' = lm_buckets l ∧
       lm_Online l' = lm_Online l) ∧
    (full || turned_away l taguuid (NormalizeIP ip) noSSUDP now = false →
       ∃ u m o x n, lm_UserLimitInfo l !! taguuid = Some u ∧
         take_bucket taguuid (user_limit u now) l = (b, set_SpeedLimiter x n l) ∧
         l' = set_Online (or_Touch (lm_Online l) taguuid ip
                (match m !! taguuid with Some u => ul_UID u | None => 0 end) now)
              (set_SpeedLimiter x n (set_UserOnlineIP
                (if noSSUDP then window_with l taguuid (NormalizeIP ip) (ul_UID u)
                 else lm_UserOnlineIP l)
                (set_OldUserOnline o (set_UserLimitInfo m (set_ConnLimiter c l))))) ∧
         (∀ k, k ≠ taguuid → m !! k = lm_UserLimitInfo l !! k) ∧
         m !! taguuid =
           (if expired u now then
              if decide (ul_SpeedLimit u = 0) then None else Some (with_dynamic 0 0 u)
            else Some u)).
Proof.
  intros Hl. unfold CheckLimit, checkLimit.
  destruct (cl_inv_AddConnCount (lm_ConnLimiter l) taguuid (NormalizeIP ip) isTcp now (lmi_conn l Hl))
    as (full & c & Hadd & Hc). exists full, c. split; [done|]. rewrite Hadd. simpl.
  set (l0 := set_ConnLimiter c l).
  assert (lm_inv l0) as Hl0 by (apply (lm_inv_fields l); try done; apply Hl).
  destruct full; simpl.
  { eexists _, l0. split; [done|]. by split_and!. }
  unfold turned_away. pose proof (check_user_spec taguuid now l0) as Hu. simpl in Hu.
  destruct (lm_UserLimitInfo l !! taguuid) as [u|] eqn:Eu.
  2: { rewrite Hu. simpl. eexists _, l0. split; [done|]. by split_and!. }
  destruct Hu as (m & -> & Hm & Hu1). set (l1 := set_UserLimitInfo m l0).
  set (rejected := noSSUDP && device_full l (ul_DeviceLimit u) (ul_UID u) &&
    new_device l taguuid (NormalizeIP ip) now).
  set (w := if noSSUDP && negb rejected then window_with l taguuid (NormalizeIP ip) (ul_UID u)
            else lm_UserOnlineIP l).
  assert (∃ o, (if noSSUDP
      then check_device taguuid (NormalizeIP ip) (ul_UID u) (ul_DeviceLimit u) now l1
      else (false, l1)) = (rejected, set_UserOnlineIP w (set_OldUserOnline o l1)))
    as (o & Hdev).
  { subst w rejected. destruct noSSUDP; [|by exists (lm_OldUserOnline l)].
    destruct (check_device_spec taguuid (NormalizeIP ip) (ul_UID u) (ul_DeviceLimit u) now l1)
      as (o & E). exists o. etrans; [exact E|].
    change (device_full l1) with (device_full l). change (new_device l1) with (new_device l).
    simpl. by destruct (device_full l (ul_DeviceLimit u) (ul_UID u) && _). }
  cbn beta iota. rewrite Hdev. clear Hdev.
  set (l2 := set_UserOnlineIP w (set_OldUserOnline o l1)).
  assert (lm_inv l2) as Hl2 by (by apply (lm_inv_same l0)).
  destruct rejected; simpl.
  { eexists _, l2. split; [done|]. by split_and!. }
  pose proof (lm_inv_take_bucket taguuid (user_limit u now) l2 Hl2) as Hl3.
  assert (∃ b x n, take_bucket taguuid (user_limit u now) l2 = (b, set_SpeedLimiter x n l2) ∧
      take_bucket taguuid (user_limit u now) l = (b, set_SpeedLimiter x n l))
    as (b & x & n & E3 & E3').
  { destruct (take_bucket_rest taguuid (user_limit u now) l) as (b & x & n & E).
    exists b, x, n. by split; apply E. }
  rewrite E3 in Hl3 |- *. simpl.
  eexists b, _. split; [done|]. split_and!.
  - apply (lm_inv_fields (set_SpeedLimiter x n l2)); try done; simpl.
    apply (registry_ok_exec _ (OnTouch taguuid ip (UserID (set_SpeedLimiter x n l2) taguuid) now)), Hl3.
  - done.
  - done.
  - intros _. exists u, m, o, x, n. split_and!; [done..| |done|done].
    subst l2 w l1 l0. by rewrite andb_true_r.
Qed.

Lemma newLimiter_inv tag lc users alive : lm_inv (newLimiter tag lc users alive).
Proof.
  constructor; simpl; [apply cl_inv_new| |apply map_Forall_empty|].
  - by apply (registry_ok_run (onlineTTLFromSeconds (lc_OnlineTimeout lc)) []).
  - intros u v s t H. by rewrite lookup_empty in H.
Qed.

Lemma lm_inv_deleteUser tag l u : lm_inv l → lm_inv (deleteUser tag l u).
Proof.
  intros Hl. apply (lm_inv_fields (dropBucket (UserTag tag (ui_Uuid u)) l));
    [by apply lm_inv_dropBucket|apply Hl| |done|done].
  apply (registry_ok_exec _ (OnDeleteUser _)), Hl.
Qed.

Lemma lm_inv_UpdateUser tag added deleted l : lm_inv l → lm_inv (UpdateUser tag added deleted l).
Proof.
  intros Hl. unfold UpdateUser. apply (lm_inv_same (foldl (deleteUser tag) l deleted)); try done.
  revert l Hl. induction deleted as [|u us IH]; intros l Hl; [done|].
  apply IH. by apply lm_inv_deleteUser.
Qed.

Lemma lm_inv_updateUserLimit taguuid f l :
  lm_inv l → lm_inv (ignoring l (updateUserLimit taguuid f l)).
Proof.
  intros Hl. unfold updateUserLimit. destruct (lm_UserLimitInfo l !! taguuid); [|done].
  by apply (lm_inv_same l).
Qed.

Lemma rotate_fields now l :
  ∃ m o, rotateDeviceWindow now l = set_UserOnlineIP m (set_OldUserOnline o l).
Proof.
  unfold rotateDeviceWindow. generalize (map_to_list (lm_UserOnlineIP l)) as es. intros es.
  revert l. induction es as [|e es IH]; intros l; simpl.
  - exists (lm_UserOnlineIP l), (lm_OldUserOnline l). by destruct l.
  - destruct (IH (rotate_user now l e)) as (m & o & ->). by exists m, o.
Qed.

Lemma lm_inv_rotate now l : lm_inv l → lm_inv (rotateDeviceWindow now l).
Proof. intros Hl. destruct (rotate_fields now l) as (m & o & ->). by apply (lm_inv_same l). Qed.

Lemma lm_inv_exec l o : lm_inv l → ∃ l', lm_exec l o = Some l' ∧ lm_inv l'.
Proof.
  intros Hl.
  destruct o as [u ip t n now|tag a d|tag u n e|tag u n e now|u b|u|m|ttl|now|now|u ip|o]; simpl.
  - destruct (CheckLimit_spec u ip t n now l Hl) as (full & c & _ & b & l' & -> & Hl' & _).
    by eexists.
  - eexists. split; [done|]. by apply lm_inv_UpdateUser.
  - eexists. split; [done|]. unfold UpdateDynamicSpeedLimit.
    pose proof (lm_inv_updateUserLimit (UserTag tag u) (with_dynamic n (Unix e)) l Hl) as H.
    destruct (updateUserLimit _ _ l); simpl in *; [by apply lm_inv_dropBucket|done].
  - eexists. split; [done|]. unfold AddDynamicSpeedLimit. apply lm_inv_dropBucket.
    pose proof (lm_inv_updateUserLimit (UserTag tag (ui_Uuid u))
      (with_dynamic n (Unix (now + wrap64 (e * Second)))) l Hl) as H.
    destruct (updateUserLimit _ _ l); simpl in *; [done|]. by apply (lm_inv_same l).
  - eexists. split; [done|]. by apply lm_inv_updateUserLimit.
  - eexists. split; [done|]. unfold ConsumeOverLimit. repeat case_match; [done| |done].
    by apply (lm_inv_same l).
  - eexists. split; [done|]. by apply (lm_inv_same l).
  - eexists. split; [done|]. apply (lm_inv_fields l); try done; simpl.
    + destruct (cl_inv_exec (lm_ConnLimiter l) (OpTTL ttl) (lmi_conn l Hl)) as (c & E & ?).
      by injection E as <-.
    + apply (registry_ok_exec _ (OnSetTTL ttl)), Hl.
  - eexists. split; [done|]. by apply lm_inv_rotate.
  - eexists. split; [done|]. apply (lm_inv_fields l); try done; simpl.
    + apply cl_inv_sweep, Hl.
    + apply (registry_ok_exec _ (OnSweep now)), Hl.
  - destruct (cl_inv_DelConnCount (lm_ConnLimiter l) u ip (lmi_conn l Hl)) as (c & -> & ?).
    eexists. split; [done|]. apply (lm_inv_fields l); try done. apply Hl.
  - eexists. split; [done|]. apply (lm_inv_fields l); try done; simpl; [apply Hl|].
    apply registry_ok_exec, Hl.
Qed.

Lemma lm_run_inv l os : lm_inv l → ∃ l', lm_run l os = Some l' ∧ lm_inv l'.
Proof.
  revert l. induction os as [|o os IH]; intros l Hl; simpl; [by eexists|].
  destruct (lm_inv_exec l o Hl) as (l' & -> & Hl'). simpl. by apply IH.
Qed.

(** * The device window *)

Definition seen_at (now : Z) (old : gmap string oldOnlineEntry) (ip : string) : Prop :=
  ∃ uid, old !! ip = Some (MkOldOnlineEntry uid now).

Lemma remember_keeps now old e ip : seen_at now old ip → seen_at now (remember now old e) ip.
Proof.
  intros [uid H]. unfold remember, seen_at. case_decide; [by eexists|].
  case_lookup; by eexists.
Qed.
Lemma remember_all now es old ip :
  ip ≠ "" → seen_at now old ip ∨ (∃ e, e ∈ es ∧ NormalizeIP e.1 = ip) →
  seen_at now (foldl (remember now) old es) ip.
Proof.
  intros Hip. revert old. induction es as [|e es IH]; intros old; simpl.
  - intros [?|(e & []%elem_of_nil & _)]. done.
  - intros [H|(e' & [->|He']%elem_of_cons & E)]; apply IH.
    + left. by apply remember_keeps.
    + left. unfold remember. rewrite decide_False by congruence. exists e.2.
      rewrite E. apply lookup_insert_eq.
    + right. by exists e'.
Qed.

Lemma rotate_remembers now l taguuid m a uid :
  lm_UserOnlineIP l !! taguuid = Some m → m !! a = Some uid → NormalizeIP a ≠ "" →
  seen_at now (lm_OldUserOnline (rotateDeviceWindow now l)) (NormalizeIP a).
Proof.
  intros Hl Hm Hne. unfold rotateDeviceWindow.
  assert (∀ es l, seen_at now (lm_OldUserOnline l) (NormalizeIP a) ∨ (taguuid, m) ∈ es →
    seen_at now (lm_OldUserOnline (foldl (rotate_user now) l es)) (NormalizeIP a)) as H.
  { clear l Hl. induction es as [|[u m'] es IH]; intros l; simpl.
    - by intros [?|[]%elem_of_nil].
    - intros [H|[[= <- <-]|H]%elem_of_cons]; apply IH; [left; simpl..|by right].
      + apply remember_all; [done|by left].
      + apply remember_all; [done|]. right. exists (a, uid). by rewrite elem_of_map_to_list. }
  apply H. right. by apply elem_of_map_to_list.
Qed.

Lemma rotate_clears now l : lm_UserOnlineIP (rotateDeviceWindow now l) = ∅.
Proof.
  unfold rotateDeviceWindow. apply map_eq. intros k. rewrite lookup_empty.
  assert (∀ es l, k ∈ es.*1 ∨ lm_UserOnlineIP l !! k = None →
    lm_UserOnlineIP (foldl (rotate_user now) l es) !! k = None) as H.
  { clear l. induction es as [|[u m] es IH]; intros l; simpl.
    - by intros [[]%elem_of_nil|?].
    - intros [[->|H]%elem_of_cons|H]; apply IH; simpl; [|by left|].
      + right. apply lookup_delete_eq.
      + right. by rewrite lookup_delete_None; right. }
  apply H. destruct (lm_UserOnlineIP l !! k) as [m|] eqn:E; [left|by right].
  apply list_elem_of_fmap. exists (k, m). by rewrite elem_of_map_to_list.
Qed.

Lemma rotate_not_new now now' l taguuid m a uid other :
  lm_UserOnlineIP l !! taguuid = Some m → m !! a = Some uid → NormalizeIP a ≠ "" →
  now' - now ≤ oldOnlineTTLValue l →
  new_device (rotateDeviceWindow now l) other (NormalizeIP a) now' = false.
Proof.
  intros Hl Hm Hne Ht. destruct (rotate_remembers now l _ _ _ _ Hl Hm Hne) as [w Hw].
  unfold new_device, remembered. rewrite rotate_clears, lookup_empty, Hw.
  unfold oldOnlineExpired. rewrite bool_decide_eq_false_2; [done|]. simpl.
  destruct (rotate_fields now l) as (m' & o & ->). unfold oldOnlineTTLValue in *. simpl. lia.
Qed.

(** * UpdateUser *)

Lemma storeUsers_lookup tag us m k :
  NoDup (map ui_Uuid us) →
  foldl (storeUser tag) m us !! k =
    match list_find (λ u, UserTag tag (ui_Uuid u) = k) us with
    | Some (_, u) => Some (newUserLimit u)
    | None => m !! k
    end.
Proof.
  revert m. induction us as [|u us IH]; intros m; [done|].
  cbn [map foldl]. intros [Hu Hnd]%NoDup_cons. rewrite IH by done. simpl. unfold storeUser.
  case_decide as Hk.
  - assert (list_find (λ u, UserTag tag (ui_Uuid u) = k) us = None) as ->.
    { apply list_find_None, Forall_forall. intros v Hv E. apply Hu. subst k.
      apply (inj (UserTag tag)) in E. apply list_elem_of_fmap. by exists v. }
    subst k. apply lookup_insert_eq.
  - destruct (list_find _ us) as [[i v]|]; simpl; [done|]. by apply lookup_insert_ne.
Qed.

Lemma deleteUsers_spec tag us l :
  let l' := foldl (deleteUser tag) l us in
  let gone k := k ∈ map (UserTag tag ∘ ui_Uuid) us in
  ∀ k, (lm_UserLimitInfo l' !! k = if decide (gone k) then None else lm_UserLimitInfo l !! k) ∧
    (lm_UserOnlineIP l' !! k = if decide (gone k) then None else lm_UserOnlineIP l !! k) ∧
    (lm_SpeedLimiter l' !! k = if decide (gone k) then None else lm_SpeedLimiter l !! k) ∧
    (∀ ip, or_m (lm_Online l') !! (k, ip) =
       if decide (gone k) then None else or_m (lm_Online l) !! (k, ip)).
Proof.
  cbv zeta. revert l. induction us as [|u us IH]; intros l k.
  - cbn [foldl map]. split_and!; intros; by rewrite decide_False by apply not_elem_of_nil.
  - cbn [foldl map]. destruct (IH (deleteUser tag l u) k) as (E1 & E2 & E3 & E4).
    rewrite E1, E2, E3. simpl. clear IH E1 E2 E3.
    assert (∀ A (o : option A),
      (if decide (k ∈ map (UserTag tag ∘ ui_Uuid) us) then None
       else if decide (k = UserTag tag (ui_Uuid u)) then None else o)
      = if decide (k ∈ (UserTag tag ∘ ui_Uuid) u :: map (UserTag tag ∘ ui_Uuid) us)
        then None else o) as H.
    { intros A o. clear E4. repeat case_decide; try done; set_solver. }
    assert (∀ A (m : gmap string A), delete (UserTag tag (ui_Uuid u)) m !! k =
      if decide (k = UserTag tag (ui_Uuid u)) then None else m !! k) as Hd.
    { intros A m. destruct (decide (k = UserTag tag (ui_Uuid u))) as [->|];
        [apply lookup_delete_eq|by apply lookup_delete_ne]. }
    rewrite !Hd, !H. split_and!; [done..|].
    intros ip. rewrite E4, <-H. destruct (decide (k ∈ _)); [done|]. simpl.
    destruct (decide (k = UserTag tag (ui_Uuid u))) as [->|E].
    + apply map_lookup_filter_None. right. naive_solver.
    + destruct (or_m (lm_Online l) !! (k, ip)) as [e|] eqn:Ee.
      * by apply map_lookup_filter_Some.
      * apply map_lookup_filter_None. by left.
Qed.

(** * Properties *)

(** (C4) The verdict of [CheckLimit].  A connection is turned away exactly when the
    connection limiter says so, the panel does not know the user, or the device limit
    applies, is reached and the address is a new device.  An accepted connection gets
    no bucket when neither the node nor the user has a limit, and otherwise one that
    refills every second with the smaller of the limits that are set; a rejected one
    leaves the online devices and the buckets alone. *)
Theorem check_limit_verdict (taguuid ip : string) (isTcp noSSUDP : bool) (now : Z) (l : Limiter) :
  lm_inv l →
  ∃ full c b l',
    AddConnCount (lm_ConnLimiter l) taguuid (NormalizeIP ip) isTcp now = Some (full, c) ∧
    let reject := full || turned_away l taguuid (NormalizeIP ip) noSSUDP now in
    CheckLimit taguuid ip isTcp noSSUDP now l = Some (b, reject, l') ∧
    (reject = false → ∃ u, lm_UserLimitInfo l !! taguuid = Some u ∧
       if decide (0 < user_rate l u now)
       then ∃ id, b = Some (MkBucket id Second (user_rate l u now) (user_rate l u now))
       else b = None) ∧
    (reject = true → b = None ∧ lm_Online l' = lm_Online l ∧
       lm_SpeedLimiter l' = lm_SpeedLimiter l).
Proof.
  intros Hl. destruct (CheckLimit_spec taguuid ip isTcp noSSUDP now l Hl)
    as (full & c & Hadd & b & l' & Hcheck & _ & _ & Hrej & Hacc).
  exists full, c, b, l'. split; [done|]. cbv zeta. split; [done|]. split.
  - intros (u & m & o & x & n & Hu & Hb & _)%Hacc. exists u. split; [done|].
    destruct (take_bucket_spec taguuid (user_limit u now) l (lmi_bucket l Hl))
      as (b' & m' & n' & E & H). rewrite E in Hb. injection Hb as -> _ _.
    unfold user_rate. case_decide; [|by destruct H]. destruct H as (id & -> & _). by exists id.
  - intros (? & ? & _ & ?)%Hrej. done.
Qed.

Lemma check_limit_verdict_witness :
  ∃ b l', CheckLimit (UserTag "n" "a") "1.2.3.4:5" true true 0
      (newLimiter "n" (MkLimitConfig true 8 0 0 0 false None false None)
        [MkUserInfo 7 "a" 16 1] ∅) = Some (b, false, l') ∧
    b = Some (MkBucket 0 Second 1000000 1000000).
Proof.
  destruct (check_limit_verdict (UserTag "n" "a") "1.2.3.4:5" true true 0 _
    (newLimiter_inv "n" (MkLimitConfig true 8 0 0 0 false None false None)
       [MkUserInfo 7 "a" 16 1] ∅)) as (full & c & b & l' & Hadd & E & Hacc & _).
  vm_compute in Hadd. injection Hadd as <- <-.
  assert (b = Some (MkBucket 0 Second 1000000 1000000)) as ->.
  { revert E. vm_compute. by intros [= <- _]. }
  exists (Some (MkBucket 0 Second 1000000 1000000)), l'. split; [|done]. rewrite E. reflexivity.
Defined.



(** (C14) [UpdateUser] makes the limiter know exactly the users the panel reports: a user
    that was added has a fresh entry with the panel's limits, one that was only deleted
    is unknown and leaves no bucket, no address of the current window and no online
    device, and every other user, of this node or another, keeps all of it. *)
Theorem update_user_exact (tag : string) (added deleted : list UserInfo) (l : Limiter) :
  NoDup (map ui_Uuid added) →
  let l' := UpdateUser tag added deleted l in
  ∀ k,
    lm_UserLimitInfo l' !! k =
      match list_find (λ u, UserTag tag (ui_Uuid u) = k) added with
      | Some (_, u) => Some (MkUserLimitInfo (ui_Id u) (ui_SpeedLimit u) (ui_DeviceLimit u) 0 0 false)
      | None => if decide (k ∈ map (UserTag tag ∘ ui_Uuid) deleted) then None
                else lm_UserLimitInfo l !! k
      end ∧
    (k ∈ map (UserTag tag ∘ ui_Uuid) deleted →
       lm_SpeedLimiter l' !! k = None ∧ lm_UserOnlineIP l' !! k = None ∧
       ∀ ip, or_m (lm_Online l') !! (k, ip) = None) ∧
    (k ∉ map (UserTag tag ∘ ui_Uuid) deleted →
       lm_SpeedLimiter l' !! k = lm_SpeedLimiter l !! k ∧
       lm_UserOnlineIP l' !! k = lm_UserOnlineIP l !! k ∧
       ∀ ip, or_m (lm_Online l') !! (k, ip) = or_m (lm_Online l) !! (k, ip)).
Proof.
  intros Hnd l' k. destruct (deleteUsers_spec tag deleted l k) as (E1 & E2 & E3 & E4).
  subst l'. unfold UpdateUser. simpl. rewrite storeUsers_lookup by done.
  split; [by rewrite E1|]. rewrite E2, E3. split; intros Hk.
  - rewrite !decide_True by done. split_and!; [done..|]. intros ip. by rewrite E4, decide_True.
  - rewrite !decide_False by done. split_and!; [done..|]. intros ip. by rewrite E4, decide_False.
Qed.

Lemma update_user_exact_witness :
  let l := newLimiter "n" LimitConfig_zero [MkUserInfo 1 "a" 5 0; MkUserInfo 2 "b" 0 0] ∅ in
  lm_UserLimitInfo (UpdateUser "n" [MkUserInfo 1 "a" 9 1] [MkUserInfo 1 "a" 5 0] l)
    !! UserTag "n" "a" = Some (MkUserLimitInfo 1 9 1 0 0 false).
Proof.
  cbv zeta. destruct (update_user_exact "n" [MkUserInfo 1 "a" 9 1] [MkUserInfo 1 "a" 5 0]
    (newLimiter "n" LimitConfig_zero [MkUserInfo 1 "a" 5 0; MkUserInfo 2 "b" 0 0] ∅)
    ltac:(apply (bool_decide_unpack _); by vm_compute) (UserTag "n" "a")) as (E & _).
  rewrite E. reflexivity.
Defined.

(** Calls that have no effect on the bucket of a user. *)
Definition keeps_bucket (taguuid : string) (o : lm_op) : Prop :=
  match o with
  | LmCheckLimit u _ _ _ _ => u ≠ taguuid
  | LmUpdateUser tag _ d => taguuid ∉ map (UserTag tag ∘ ui_Uuid) d
  | LmUpdateDynamic tag u _ _ => UserTag tag u ≠ taguuid
  | LmAddDynamic tag u _ _ _ => UserTag tag (ui_Uuid u) ≠ taguuid
  | _ => True
  end.

Lemma take_bucket_other k taguuid userLimit l :
  k ≠ taguuid →
  lm_SpeedLimiter (take_bucket taguuid userLimit l).2 !! k = lm_SpeedLimiter l !! k.
Proof.
  intros Hk. unfold take_bucket, dropBucket.
  case_bool_decide; [case_match; [case_bool_decide|]|]; simpl; try done;
    by (apply lookup_insert_ne || apply lookup_delete_ne).
Qed.

Lemma updateUserLimit_buckets taguuid f l :
  lm_SpeedLimiter (ignoring l (updateUserLimit taguuid f l)) = lm_SpeedLimiter l.
Proof. unfold updateUserLimit. by destruct (lm_UserLimitInfo l !! taguuid). Qed.

Lemma keeps_bucket_exec taguuid o l l' :
  lm_inv l → keeps_bucket taguuid o → lm_exec l o = Some l' →
  lm_SpeedLimiter l' !! taguuid = lm_SpeedLimiter l !! taguuid.
Proof.
  intros Hl Hk.
  destruct o as [u ip t n now|tag a d|tag u n e|tag u n e now|u b|u|m|ttl|now|now|u ip|o]; simpl.
  - destruct (CheckLimit_spec u ip t n now l Hl)
      as (full & c & _ & b & l1 & -> & _ & _ & Hrej & Hacc). intros [= <-].
    destruct (full || _) eqn:E; [by destruct (Hrej eq_refl) as (_ & -> & _)|].
    destruct (Hacc eq_refl) as (w & m & o & x & i & _ & Hb & -> & _). simpl.
    rewrite <-(take_bucket_other taguuid u (user_limit w now) l) by done. by rewrite Hb.
  - intros [= <-]. destruct (deleteUsers_spec tag d l taguuid) as (_ & _ & E & _).
    simpl. rewrite E. by apply decide_False.
  - intros [= <-]. unfold UpdateDynamicSpeedLimit.
    pose proof (updateUserLimit_buckets (UserTag tag u) (with_dynamic n (Unix e)) l) as H.
    destruct (updateUserLimit _ _ _); simpl in *; [|done]. rewrite H. by apply lookup_delete_ne.
  - intros [= <-]. simpl. rewrite lookup_delete_ne by done. unfold updateUserLimit.
    by destruct (lm_UserLimitInfo l !! UserTag tag (ui_Uuid u)).
  - intros [= <-]. unfold SetOverLimit. by rewrite updateUserLimit_buckets.
  - intros [= <-]. unfold ConsumeOverLimit. by repeat case_match.
  - by intros [= <-].
  - by intros [= <-].
  - intros [= <-]. simpl. by destruct (rotate_fields now l) as (m & o & ->).
  - by intros [= <-].
  - destruct (DelConnCount _ _ _); simpl; [|done]. by intros [= <-].
  - by intros [= <-].
Qed.

Lemma keeps_bucket_run taguuid os l l' :
  lm_inv l → Forall (keeps_bucket taguuid) os → lm_run l os = Some l' →
  lm_inv l' ∧ lm_SpeedLimiter l' !! taguuid = lm_SpeedLimiter l !! taguuid.
Proof.
  revert l. induction os as [|o os IH]; intros l Hl Hos; simpl; [by intros [= ->]|].
  apply Forall_cons in Hos as [Ho Hos]. destruct (lm_inv_exec l o Hl) as (l1 & E & Hl1).
  rewrite E. simpl. intros Hrun. destruct (IH l1 Hl1 Hos Hrun) as [? ->].
  split; [done|]. by eapply keeps_bucket_exec.
Qed.



(** The limit that applies is the smallest one that is set (zero means none), and
    for any limit up to 2^43 Mbit/s the rate in bytes per second is exact. *)
Theorem speed_limit_exact (a b : Z) :
  0 ≤ a → 0 ≤ b →
  (determineSpeedLimit a b = 0 ↔ a = 0 ∧ b = 0) ∧
  (∀ x, (x = a ∨ x = b) → x ≠ 0 → determineSpeedLimit a b ≤ x) ∧
  (determineSpeedLimit a b = a ∨ determineSpeedLimit a b = b) ∧
  determineSpeedLimit a b = determineSpeedLimit b a ∧
  (a ≤ 2 ^ 43 → b ≤ 2 ^ 43 →
   byte_rate (determineSpeedLimit a b) = 125000 * determineSpeedLimit a b).
Proof.
  intros Ha Hb.
  assert (∀ x, 0 ≤ x ≤ 2 ^ 43 → byte_rate x = 125000 * x) as Hrate.
  { intros x Hx. unfold byte_rate. rewrite wrap64_id by (unfold in_int64, int64_min, int64_max; lia).
    replace (x * 1000000) with (125000 * x * 8) by lia. by apply Z.quot_mul. }
  unfold determineSpeedLimit.
  repeat case_bool_decide; simpl; split_and!; try lia; intros; apply Hrate || idtac; lia.
Qed.

Lemma speed_limit_exact_witness :
  byte_rate (determineSpeedLimit 100 30) = 3750000.
Proof.
  destruct (speed_limit_exact 100 30 ltac:(lia) ltac:(lia)) as (_ & _ & _ & _ & H).
  rewrite H by lia. reflexivity.
Defined.

(** When a device window ends, its addresses are remembered: until the
    remembered time is over, the first connection of the new window from such an
    address is not a new device, so a user whose device limit is reached can
    reconnect.  This holds for every user, not only for the one the address was seen
    with. *)
Theorem remembered_not_new (l : Limiter) (t now : Z) (taguuid other a ip : string)
    (m : gmap string Z) (uid : Z) (noSSUDP : bool) :
  lm_UserOnlineIP l !! taguuid = Some m → m !! a = Some uid → NormalizeIP a = ip → ip ≠ "" →
  now - t ≤ oldOnlineTTLValue l →
  is_Some (lm_UserLimitInfo (rotateDeviceWindow t l) !! other) →
  turned_away (rotateDeviceWindow t l) other ip noSSUDP now = false.
Proof.
  intros Hl Hm <- Hne Ht [u Hu]. unfold turned_away. rewrite Hu.
  rewrite (rotate_not_new t now l taguuid m a uid) by done. apply andb_false_r.
Qed.

Definition witness_limiter (users : list UserInfo) (alive : gmap Z Z)
    (window : gmap string (gmap string Z)) : Limiter :=
  set_UserOnlineIP window (newLimiter "n" LimitConfig_zero users alive).

Lemma remembered_not_new_witness :
  turned_away (rotateDeviceWindow 0
    (witness_limiter [MkUserInfo 1 "a" 0 1] {[1 := 1]} {[UserTag "n" "a" := {["1.1.1.1" := 1]}]}))
    (UserTag "n" "a") "1.1.1.1" true Second = false.
Proof.
  apply (remembered_not_new _ _ _ (UserTag "n" "a") _ "1.1.1.1" _ {["1.1.1.1" := 1]} 1).
  - apply lookup_singleton_eq.
  - apply lookup_singleton_eq.
  - by vm_compute.
  - done.
  - by vm_compute.
  - vm_compute. by eexists.
Defined.

(** The device limit turns a user's own second device away.  A user at its device
    limit with two addresses in the window that just ended reconnects with the first:
    accepted, it opens the user's new window, and from then on the remembered
    addresses are not looked at, so the second address counts as a new device and is
    rejected although it was online all along. *)
Theorem second_device_locked_out (taguuid ip1 ip2 : string) (t1 t2 : bool) (t now1 now2 : Z)
    (l l1 : Limiter) (u : UserLimitInfo) (m : gmap string Z) (b : option Bucket) :
  lm_inv (rotateDeviceWindow t l) →
  lm_UserLimitInfo (rotateDeviceWindow t l) !! taguuid = Some u →
  device_full l (ul_DeviceLimit u) (ul_UID u) = true →
  lm_UserOnlineIP l !! taguuid = Some m →
  is_Some (m !! NormalizeIP ip1) → is_Some (m !! NormalizeIP ip2) →
  NormalizeIP ip1 ≠ NormalizeIP ip2 → expired u now1 = false →
  CheckLimit taguuid ip1 t1 true now1 (rotateDeviceWindow t l) = Some (b, false, l1) →
  ∃ l2, CheckLimit taguuid ip2 t2 true now2 l1 = Some (None, true, l2).
Proof.
  intros Hl Hu Hfull _ _ _ Hne Hexp Hc1.
  destruct (CheckLimit_spec taguuid ip1 t1 true now1 _ Hl)
    as (f1 & c1 & _ & b1 & l1' & E1 & Hl1 & _ & _ & Hacc).
  rewrite Hc1 in E1. injection E1 as <- Hv1 <-.
  destruct (Hacc (eq_sym Hv1)) as (u' & m1 & o1 & x1 & i1 & Hu' & _ & El1 & _ & Hm1).
  rewrite Hu in Hu'. injection Hu' as <-. rewrite Hexp in Hm1.
  destruct (CheckLimit_spec taguuid ip2 t2 true now2 l1 Hl1)
    as (f2 & c2 & _ & b2 & l2 & E2 & _ & _ & Hrej & _).
  assert (turned_away l1 taguuid (NormalizeIP ip2) true now2 = true) as Haway.
  { unfold turned_away, new_device, device_full, GetAlive. rewrite El1. simpl. rewrite Hm1.
    unfold window_with. rewrite rotate_clears, lookup_empty, lookup_insert_eq.
    rewrite lookup_singleton_ne by done. rewrite andb_true_r. unfold device_full, GetAlive in Hfull.
    by destruct (rotate_fields t l) as (w & o & ->). }
  rewrite Haway, orb_true_r in *. destruct (Hrej eq_refl) as (-> & _). by exists l2.
Qed.

Definition two_devices : Limiter :=
  witness_limiter [MkUserInfo 1 "a" 0 2] {[1 := 2]}
    {[UserTag "n" "a" := {["1.1.1.1" := 1; "2.2.2.2" := 1]}]}.

Lemma second_device_locked_out_witness :
  ∃ b l1,
    CheckLimit (UserTag "n" "a") "1.1.1.1" true true Second (rotateDeviceWindow 0 two_devices)
      = Some (b, false, l1) ∧
    ∃ l2, CheckLimit (UserTag "n" "a") "2.2.2.2" true true (2 * Second) l1 = Some (None, true, l2).
Proof.
  eexists _, _. split; [vm_compute; reflexivity|].
  eapply (second_device_locked_out _ "1.1.1.1" "2.2.2.2" true true 0 Second (2 * Second) two_devices
    _ (MkUserLimitInfo 1 0 2 0 0 false) {["1.1.1.1" := 1; "2.2.2.2" := 1]}).
  - apply lm_inv_rotate.
    apply (lm_inv_same (newLimiter "n" LimitConfig_zero [MkUserInfo 1 "a" 0 2] {[1 := 2]}));
      [apply newLimiter_inv|done..].
  - by vm_compute.
  - by vm_compute.
  - apply lookup_singleton_eq.
  - vm_compute. by eexists.
  - vm_compute. by eexists.
  - by vm_compute.
  - by vm_compute.
  - vm_compute. reflexivity.
Defined.

(** A TCP connection that the device limit turns away, or whose user is unknown,
    keeps its slot: [AddConnCount] has counted it, nothing counts it down again (the
    cores call [DelConnCount] only for connections that were accepted), and after as
    many attempts as the connection limit the user is locked out. *)
Theorem turned_away_keeps_slot (taguuid ip : string) (noSSUDP : bool) (now : Z) (l : Limiter)
    (c : ConnLimiter) :
  lm_inv l → 0 < cl_connLimit (lm_ConnLimiter l) →
  AddConnCount (lm_ConnLimiter l) taguuid (NormalizeIP ip) true now = Some (false, c) →
  turned_away l taguuid (NormalizeIP ip) noSSUDP now = true →
  ∃ l', CheckLimit taguuid ip true noSSUDP now l = Some (None, true, l') ∧
    default 0 (cl_count (lm_ConnLimiter l') !! taguuid)
      = default 0 (cl_count (lm_ConnLimiter l) !! taguuid) + 1.
Proof.
  intros Hl Hlim Hadd Haway.
  destruct (CheckLimit_spec taguuid ip true noSSUDP now l Hl)
    as (full & c' & Hadd' & b & l' & E & _ & Hc & Hrej & _).
  rewrite Hadd in Hadd'. injection Hadd' as <- <-. rewrite Haway in *. simpl in *.
  destruct (Hrej eq_refl) as (-> & _). exists l'. split; [done|].
  apply AddConnCount_accept in Hadd as (_ & ips & _ & ->). rewrite Hc. simpl.
  unfold addConnCount. rewrite bool_decide_eq_false_2 by lia. simpl.
  by destruct (cl_count (lm_ConnLimiter l) !! taguuid) as [n|]; simpl; rewrite lookup_insert_eq.
Qed.

Lemma turned_away_keeps_slot_witness :
  let l := newLimiter "n" (MkLimitConfig true 0 0 3 0 false None false None) [] ∅ in
  ∃ l', CheckLimit (UserTag "n" "a") "1.1.1.1" true true 0 l = Some (None, true, l') ∧
    default 0 (cl_count (lm_ConnLimiter l') !! UserTag "n" "a") = 0 + 1.
Proof.
  cbv zeta. eapply turned_away_keeps_slot; [apply newLimiter_inv|done|reflexivity|reflexivity].
Defined.

(** A dynamic limit locks out a user the panel gave no speed limit: the first
    connection after its expiry is accepted, but the expiry deletes the whole entry
    instead of the dynamic limit, and the next connection is turned away as one of an
    unknown user, until the panel reports the user again. *)
Theorem expired_dynamic_limit_locks_out (taguuid ip1 ip2 : string) (t1 t2 n1 n2 : bool)
    (now1 now2 : Z) (l l1 : Limiter) (u : UserLimitInfo) (b : option Bucket) :
  lm_inv l → lm_UserLimitInfo l !! taguuid = Some u →
  ul_SpeedLimit u = 0 → ul_ExpireTime u ≠ 0 → ul_ExpireTime u < Unix now1 →
  CheckLimit taguuid ip1 t1 n1 now1 l = Some (b, false, l1) →
  lm_UserLimitInfo l1 !! taguuid = None ∧
  ∃ l2, CheckLimit taguuid ip2 t2 n2 now2 l1 = Some (None, true, l2).
Proof.
  intros Hl Hu H0 Hne Hexp Hc1.
  destruct (CheckLimit_spec taguuid ip1 t1 n1 now1 l Hl)
    as (f1 & c1 & _ & b1 & l1' & E1 & Hl1 & _ & _ & Hacc).
  rewrite Hc1 in E1. injection E1 as <- Hv1 <-.
  destruct (Hacc (eq_sym Hv1)) as (u' & m & o & x & i & Hu' & _ & El1 & _ & Hm).
  rewrite Hu in Hu'. injection Hu' as <-.
  assert (expired u now1 = true) as Hex.
  { unfold expired. by rewrite bool_decide_eq_true_2, bool_decide_eq_false_2. }
  rewrite Hex, decide_True in Hm by done.
  assert (lm_UserLimitInfo l1 !! taguuid = None) as Hnone by (by rewrite El1).
  split; [done|].
  destruct (CheckLimit_spec taguuid ip2 t2 n2 now2 l1 Hl1)
    as (f2 & c2 & _ & b2 & l2 & E2 & _ & _ & Hrej & _).
  assert (turned_away l1 taguuid (NormalizeIP ip2) n2 now2 = true) as Haway.
  { unfold turned_away. by rewrite Hnone. }
  rewrite Haway, orb_true_r in *. destruct (Hrej eq_refl) as (-> & _). by exists l2.
Qed.

Lemma expired_dynamic_limit_locks_out_witness :
  let l := AddDynamicSpeedLimit "n" (MkUserInfo 1 "a" 0 0) 50 60 0
    (newLimiter "n" LimitConfig_zero [MkUserInfo 1 "a" 0 0] ∅) in
  ∃ b l1,
    CheckLimit (UserTag "n" "a") "1.1.1.1" true true (61 * Second) l = Some (b, false, l1) ∧
    ∃ l2, CheckLimit (UserTag "n" "a") "1.1.1.1" true true (62 * Second) l1 = Some (None, true, l2).
Proof.
  cbv zeta. eexists _, _. split; [vm_compute; reflexivity|].
  eapply (expired_dynamic_limit_locks_out _ "1.1.1.1" "1.1.1.1" true true true true
    (61 * Second) (62 * Second)
    (AddDynamicSpeedLimit "n" (MkUserInfo 1 "a" 0 0) 50 60 0
      (newLimiter "n" LimitConfig_zero [MkUserInfo 1 "a" 0 0] ∅))
    _ (MkUserLimitInfo 1 0 0 50 60 false)).
  - destruct (lm_inv_exec (newLimiter "n" LimitConfig_zero [MkUserInfo 1 "a" 0 0] ∅)
      (LmAddDynamic "n" (MkUserInfo 1 "a" 0 0) 50 60 0)) as (l' & El & Hl'); [apply newLimiter_inv|].
    assert (∀ x y : Limiter, Some x = Some y → y = x) as Hi by congruence.
    by rewrite (Hi _ _ El) in Hl'.
  - by vm_compute.
  - done.
  - done.
  - by vm_compute.
  - vm_compute. reflexivity.
Defined.

(** * Rules and the registry *)

Lemma any_rule_true f rules : any_rule f rules = true ↔ ∃ r, r ∈ rules ∧ f r = true.
Proof.
  induction rules as [|r rules IH]; simpl.
  - split; [done|]. intros (r & []%elem_of_nil & _).
  - destruct (f r) eqn:E.
    + split; [|done]. intros _. exists r. split; [by constructor|done].
    + rewrite IH. split; intros (x & Hx & Hf); exists x; (split; [|done]); [by constructor|].
      apply elem_of_cons in Hx as [->|]; congruence.
Qed.

Lemma MustCompile_spec compiles rules :
  (Forall (λ r, compiles r = true) rules ∧ MustCompile compiles rules = Some rules) ∨
  (Exists (λ r, compiles r = false) rules ∧ MustCompile compiles rules = None).
Proof.
  induction rules as [|r rules IH]; simpl; [left; by split|].
  destruct (compiles r) eqn:E; [|right; split; [by constructor|done]].
  destruct IH as [[? ->]|[? ->]]; [left; split; [by constructor|done]|].
  right. split; [by apply Exists_cons_tl|done].
Qed.

(** Once the rules of the panel are installed, a destination is rejected exactly
    when one of the expressions matches it and a protocol exactly when it is listed,
    nothing else of the limiter changes, and no error is ever returned: an expression
    that does not compile brings the process down instead ([MustCompile]). *)
Theorem update_rule_exact (compiles : string → bool) (matches : string → string → bool)
    (rule : Rules) (l : Limiter) :
  (Forall (λ r, compiles r = true) (ru_Regexp rule) →
   ∃ l', UpdateRule compiles rule l = Some (Ok l') ∧
     l' = set_rules (ru_Regexp rule) (ru_Protocol rule) l ∧
     (∀ dest, CheckDomainRule matches dest l' = true ↔
        ∃ r, r ∈ ru_Regexp rule ∧ matches r dest = true) ∧
     (∀ p, CheckProtocolRule p l' = true ↔ p ∈ ru_Protocol rule)) ∧
  (Exists (λ r, compiles r = false) (ru_Regexp rule) → UpdateRule compiles rule l = None).
Proof.
  unfold UpdateRule. destruct (MustCompile_spec compiles (ru_Regexp rule)) as [[Hf ->]|[He ->]].
  - split.
    + intros _. simpl. eexists. split; [done|]. split; [done|]. split.
      * intros dest. apply any_rule_true.
      * intros p. unfold CheckProtocolRule. rewrite any_rule_true. simpl. split.
        -- by intros (r & Hr & ->%bool_decide_eq_true_1).
        -- intros Hp. exists p. by rewrite bool_decide_eq_true_2.
    + intros He. exfalso. apply Exists_exists in He as (r & Hr & Hc).
      rewrite Forall_forall in Hf. rewrite Hf in Hc by done. done.
  - split; [|done]. intros Hf. exfalso. apply Exists_exists in He as (r & Hr & Hc).
    rewrite Forall_forall in Hf. rewrite Hf in Hc by done. done.
Qed.

Lemma update_rule_exact_witness :
  let l := newLimiter "n" LimitConfig_zero [] ∅ in
  UpdateRule (λ r, negb (bool_decide (r = "("))) (MkRules ["ads"; "("] []) l = None ∧
  CheckDomainRule (λ r d, bool_decide (r = d)) "ads" (set_rules ["ads"] [] l) = true.
Proof.
  cbv zeta. split.
  - apply (update_rule_exact _ (λ _ _, false)). do 2 constructor. reflexivity.
  - destruct (update_rule_exact (λ _, true) (λ r d, bool_decide (r = d)) (MkRules ["ads"] [])
      (newLimiter "n" LimitConfig_zero [] ∅)) as [(l' & _ & -> & H & _) _]; [by repeat constructor|].
    apply H. exists "ads". split; [by constructor|done].
Defined.

(** Calls on the registry; [RUpdate] is any call on the limiter at a pointer. *)
Inductive reg_step : Limiters → Limiters → Prop :=
| reg_init s : reg_step s (Init s)
| reg_add s tag lc users alive : reg_step s (AddLimiter tag lc users alive s).2
| reg_delete s tag : reg_step s (DeleteLimiter tag s)
| reg_clear s now : reg_step s (ClearOnlineIP now s)
| reg_call s p l l' o : objs s !! p = Some l → lm_exec l o = Some l' →
    reg_step s (MkLimiters (reg s) (<[p := l']> (objs s))).

(** Every registered pointer is that of an object, and of one tag only. *)
Definition registry_wf (s : Limiters) : Prop :=
  (∀ t p, reg s !! t = Some p → is_Some (objs s !! p)) ∧
  (∀ t1 t2 p, reg s !! t1 = Some p → reg s !! t2 = Some p → t1 = t2).

Lemma sweep_all_lookup now (ps : list nat) (o : gmap nat Limiter) p :
  NoDup ps →
  foldl (λ o p, alter (sweepLimiter now) p o) o ps !! p =
    if decide (p ∈ ps) then sweepLimiter now <$> o !! p else o !! p.
Proof.
  revert o. induction ps as [|q ps IH]; intros o; [done|]. cbn [foldl].
  intros [Hq Hnd]%NoDup_cons. rewrite IH by done. destruct (decide (p ∈ ps)) as [Hin|Hin].
  - rewrite (decide_True (P := p ∈ q :: ps)) by set_solver.
    by rewrite lookup_alter_ne by (by intros ->).
  - destruct (decide (q = p)) as [->|Hqp].
    + rewrite (decide_True (P := p ∈ p :: ps)) by set_solver. apply lookup_alter_eq.
    + rewrite (decide_False (P := p ∈ q :: ps)) by set_solver. by apply lookup_alter_ne.
Qed.

Lemma registered_nodup s : registry_wf s → NoDup (map snd (map_to_list (reg s))).
Proof.
  intros [_ Hinj]. apply NoDup_fmap_2_strong; [|apply NoDup_map_to_list].
  intros [t1 p1] [t2 p2] H1%elem_of_map_to_list H2%elem_of_map_to_list E. simpl in E. subst p2.
  f_equal. by eapply Hinj.
Qed.
Lemma registered_elem s p :
  p ∈ map snd (map_to_list (reg s)) ↔ ∃ t, reg s !! t = Some p.
Proof.
  rewrite list_elem_of_fmap. split.
  - intros ([t q] & -> & H%elem_of_map_to_list). by exists t.
  - intros [t H]. exists (t, p). by rewrite elem_of_map_to_list.
Qed.

Lemma registry_wf_step s s' : registry_wf s → reg_step s s' → registry_wf s'.
Proof.
  intros Hs Hstep. pose proof Hs as [Hdom Hinj].
  destruct Hstep as [s|s tag lc users alive|s tag|s now|s p l l' o Hp _].
  - split; simpl; intros *; by rewrite lookup_empty.
  - assert (objs s !! fresh (dom (objs s)) = None) as Hfresh.
    { apply not_elem_of_dom, is_fresh. }
    split; simpl.
    + intros t p [[<- <-]|[Ht Hp]]%lookup_insert_Some; [by rewrite lookup_insert_eq|].
      rewrite lookup_insert_ne; [by eapply Hdom|]. intros <-.
      apply Hdom in Hp as [? Hp]. congruence.
    + assert (∀ t p, reg s !! t = Some p → p ≠ fresh (dom (objs s))) as Hne.
      { intros t p [l Hl]%Hdom ->. congruence. }
      intros t1 t2 p [[<- <-]|[H1 H1']]%lookup_insert_Some [[<- E]|[H2 H2']]%lookup_insert_Some.
      * done.
      * by destruct (Hne _ _ H2').
      * by destruct (Hne _ _ H1').
      * by eapply Hinj.
  - split; simpl.
    + intros t p [_ Ht]%lookup_delete_Some. by eapply Hdom.
    + intros t1 t2 p [_ H1]%lookup_delete_Some [_ H2]%lookup_delete_Some. by eapply Hinj.
  - split; [|done]. intros t p Hp. simpl. rewrite sweep_all_lookup by by apply registered_nodup.
    apply Hdom in Hp as [l Hl]. rewrite Hl. by case_decide.
  - split; [|done]. intros t q Hq. simpl. destruct (decide (p = q)) as [<-|].
    + by rewrite lookup_insert_eq.
    + rewrite lookup_insert_ne by done. by eapply Hdom.
Qed.

(** Whatever nodes were added, replaced and deleted before, the sweep of the
    process sweeps the limiter of every registered node exactly once and no other, a tag
    finds the limiter that was added for it last, and a deleted tag finds none. *)
Theorem registry_exact (s : Limiters) :
  steps reg_step (MkLimiters ∅ ∅) s →
  (∀ now t p, reg s !! t = Some p →
     ∃ l, objs s !! p = Some l ∧ objs (ClearOnlineIP now s) !! p = Some (sweepLimiter now l)) ∧
  (∀ now p, (∀ t, reg s !! t ≠ Some p) → objs (ClearOnlineIP now s) !! p = objs s !! p) ∧
  (∀ tag lc users alive,
     let '(p, s') := AddLimiter tag lc users alive s in
     GetLimiter tag s' = Ok p ∧ objs s' !! p = Some (newLimiter tag lc users alive) ∧
     (∀ q l, objs s !! q = Some l → objs s' !! q = Some l) ∧
     (∀ t, t ≠ tag → GetLimiter t s' = GetLimiter t s)) ∧
  (∀ tag, GetLimiter tag (DeleteLimiter tag s) = Err "not found").
Proof.
  intros Hs. assert (registry_wf s) as Hwf.
  { apply (steps_invariant reg_step registry_wf _ _ registry_wf_step) in Hs; [done|].
    split; simpl; intros *; by rewrite lookup_empty. }
  split_and!.
  - intros now t p Hp. destruct (proj1 Hwf t p Hp) as [l Hl]. exists l. split; [done|]. simpl.
    rewrite sweep_all_lookup by by apply registered_nodup.
    rewrite decide_True by (apply registered_elem; eauto). by rewrite Hl.
  - intros now p Hp. simpl. rewrite sweep_all_lookup by by apply registered_nodup.
    apply decide_False. rewrite registered_elem. naive_solver.
  - intros tag lc users alive. unfold GetLimiter. simpl.
    split_and!; [by rewrite lookup_insert_eq|apply lookup_insert_eq|..].
    + intros q l Hq. rewrite lookup_insert_ne; [done|]. intros <-.
      assert (objs s !! fresh (dom (objs s)) = None) by apply not_elem_of_dom, is_fresh.
      congruence.
    + intros t Ht. by rewrite lookup_insert_ne.
  - intros tag. unfold GetLimiter. simpl. by rewrite lookup_delete_eq.
Qed.

Lemma registry_exact_witness :
  let s := (AddLimiter "n" LimitConfig_zero [] ∅ (MkLimiters ∅ ∅)).2 in
  GetLimiter "n" (DeleteLimiter "n" s) = Err "not found".
Proof.
  cbv zeta. apply registry_exact. apply steps_one. apply reg_add.
Defined.
