(* ===== verification/Slots.v ===== *)
(** The connection slots of a user: how many of its TCP connections the connection limiter
    counts, what a successful check adds and what a release takes away. *)
From S2P Require Import Prelude Netutil ConnLimiter OnlineRegistry Limiter.
#[local] Open Scope Z_scope.

Definition open_slots (l : Limiter) (taguuid : string) : Z :=
  default 0 (cl_count (lm_ConnLimiter l) !! taguuid).

Lemma CheckLimit_accepted_slot taguuid ip noSSUDP now l b l' :
  lm_inv l → 0 < cl_connLimit (lm_ConnLimiter l) →
  CheckLimit taguuid ip true noSSUDP now l = Some (b, false, l') →
  lm_inv l' ∧ cl_connLimit (lm_ConnLimiter l') = cl_connLimit (lm_ConnLimiter l) ∧
  open_slots l' taguuid = open_slots l taguuid + 1 ∧
  is_Some (cl_count (lm_ConnLimiter l') !! taguuid).
Proof.
  intros Hl Hlim E.
  destruct (CheckLimit_spec taguuid ip true noSSUDP now l Hl)
    as (full & c & Hadd & b1 & l1 & E1 & Hl1 & Hc & _ & _).
  rewrite E in E1. injection E1 as <- Hv <-. destruct full; [done|].
  apply AddConnCount_accept in Hadd as (_ & ips & _ & ->). split; [done|].
  unfold open_slots. rewrite Hc. simpl.
  destruct (addConnCount_fields (lm_ConnLimiter l) taguuid true) as (_ & _ & E3 & _).
  rewrite E3, addConnCount_lookup, decide_True by (done || lia). by eauto.
Qed.

(** Releasing a slot that is taken frees exactly it. *)
Lemma DelConnCount_slot taguuid ip l :
  cl_inv (lm_ConnLimiter l) → 0 < cl_connLimit (lm_ConnLimiter l) → 1 ≤ open_slots l taguuid →
  ∃ c, DelConnCount (lm_ConnLimiter l) taguuid ip = Some c ∧
    default 0 (cl_count c !! taguuid) = open_slots l taguuid - 1.
Proof.
  intros Hl Hlim Hs.
  destruct (cl_inv_DelConnCount (lm_ConnLimiter l) taguuid ip Hl) as (c & E & _).
  exists c. split; [done|]. unfold open_slots in *.
  assert (cl_count c = cl_count (delConnCount (lm_ConnLimiter l) taguuid)) as ->.
  { unfold DelConnCount in E. by repeat (case_match; simplify_eq/=). }
  rewrite delConnCount_lookup, decide_True by (done || lia).
  destruct (cl_count (lm_ConnLimiter l) !! taguuid) as [n|]; simpl in *; [|lia].
  case_decide; simpl; lia.
Qed.

(** Counting a live device keeps the limiter sound and the slots as they are. *)
Lemma lm_inv_add_online taguuid ip uid now l :
  lm_inv l → lm_inv (set_Online (or_Add (lm_Online l) taguuid ip uid now) l).
Proof.
  intros Hl. apply (lm_inv_fields l); try done; [apply Hl|].
  apply (registry_ok_exec _ (OnAdd taguuid ip uid now)), Hl.
Qed.
