(* ===== verification/Rate.v ===== *)
(** common/rate and the counting writer of the dispatcher (core/xray/app/dispatcher/stats.go):
    the layers a connection's bytes pass through.

    What a call does to the rest of the world is the list of its effects: waiting for tokens
    of a bucket, adding to a counter of the statistics, and the call of the wrapped object.
    Buffers are known by their lengths. *)
From S2P Require Import Prelude Limiter.
#[local] Open Scope Z_scope.

Inductive effect :=
| Wait (b : Bucket) (n : Z)          (* l.Wait(n) *)
| Count (counter : string) (n : Z)   (* counter.Add(n) *)
| Write (pipe : nat) (n : Z)         (* WriteMultiBuffer of the wrapped writer *)
| Closed (pipe : nat)
| Interrupted (pipe : nat).
#[export] Instance effect_eq_dec : EqDecision effect.
Proof. solve_decision. Defined.

(** * conn.go: [n] bytes were read or written by the wrapped connection *)

Definition Conn_Read (limiter : Bucket) (n : Z) : list effect :=
  if bool_decide (0 < n) then [Wait limiter n] else [].
Definition Conn_Write (limiter : Bucket) (n : Z) : list effect :=
  if bool_decide (0 < n) then [Wait limiter n] else [].

(** * reader.go: [mb] is the buffer the wrapped reader returned, if any *)

Definition Reader_ReadMultiBuffer (limiter : option Bucket) (mb : option Z) : list effect :=
  match mb, limiter with
  | Some n, Some b => [Wait b n]
  | _, _ => []
  end.

(** A reader is the source, or a rate limited one around another. *)
Inductive reader :=
| SourceReader (r : nat)
| RateReader (r : reader) (limiter : option Bucket).
Definition NewRateLimitReader (r : reader) (limiter : option Bucket) : reader := RateReader r limiter.
(** Reading: the source returns [mb]. *)
Fixpoint ReadMultiBuffer (r : reader) (mb : option Z) : list effect :=
  match r with
  | SourceReader _ => []
  | RateReader r b => ReadMultiBuffer r mb ++ Reader_ReadMultiBuffer b mb
  end.
Fixpoint reader_Close (r : reader) : list effect :=
  match r with SourceReader p => [Closed p] | RateReader r _ => reader_Close r end.
Fixpoint reader_Interrupt (r : reader) : list effect :=
  match r with SourceReader p => [Interrupted p] | RateReader r _ => reader_Interrupt r end.

(** * writer.go and stats.go: writers around a pipe *)

Inductive writer :=
| PipeWriter (p : nat)
| RateWriter (w : writer) (limiter : Bucket)
| SizeStatWriter (w : writer) (counter : string).
Definition NewRateLimitWriter (w : writer) (limiter : Bucket) : writer := RateWriter w limiter.

Fixpoint WriteMultiBuffer (w : writer) (n : Z) : list effect :=
  match w with
  | PipeWriter p => [Write p n]
  | RateWriter w b => Wait b n :: WriteMultiBuffer w n
  | SizeStatWriter w c => Count c n :: WriteMultiBuffer w n
  end.
Fixpoint writer_Close (w : writer) : list effect :=
  match w with
  | PipeWriter p => [Closed p]
  | RateWriter w _ => writer_Close w
  | SizeStatWriter w _ => writer_Close w
  end.
(** [common.Interrupt] closes what has no [Interrupt], as a rate limited writer. *)
Fixpoint writer_Interrupt (w : writer) : list effect :=
  match w with
  | PipeWriter p => [Interrupted p]
  | RateWriter w _ => writer_Close w
  | SizeStatWriter w _ => writer_Interrupt w
  end.

(** * What a list of effects amounts to *)

Definition waited (b : Bucket) (es : list effect) : Z :=
  sumZ (map (λ e, match e with Wait b' n => if decide (b' = b) then n else 0 | _ => 0 end) es).
Definition counted (c : string) (es : list effect) : Z :=
  sumZ (map (λ e, match e with Count c' n => if decide (c' = c) then n else 0 | _ => 0 end) es).
Definition written (p : nat) (es : list effect) : Z :=
  sumZ (map (λ e, match e with Write p' n => if decide (p' = p) then n else 0 | _ => 0 end) es).

Lemma waited_app b l k : waited b (l ++ k) = waited b l + waited b k.
Proof. unfold waited. by rewrite map_app, sumZ_app. Qed.
Lemma counted_app c l k : counted c (l ++ k) = counted c l + counted c k.
Proof. unfold counted. by rewrite map_app, sumZ_app. Qed.
Lemma written_app p l k : written p (l ++ k) = written p l + written p k.
Proof. unfold written. by rewrite map_app, sumZ_app. Qed.

(** What a read draws from a bucket: the bytes that were read, once for each layer that has it. *)
Fixpoint reader_layers (b : Bucket) (r : reader) : Z :=
  match r with
  | SourceReader _ => 0
  | RateReader r b' => (if decide (b' = Some b) then 1 else 0) + reader_layers b r
  end.
Lemma waited_read b r n : waited b (ReadMultiBuffer r (Some n)) = reader_layers b r * n.
Proof.
  induction r as [|r IH b']; cbn [ReadMultiBuffer reader_layers]; [done|].
  rewrite waited_app, IH. destruct b' as [b'|]; cbn [Reader_ReadMultiBuffer].
  - unfold waited, sumZ. cbn. destruct (decide (b' = b)), (decide (Some b' = Some b)); simplify_eq; lia.
  - rewrite decide_False by done. unfold waited, sumZ. cbn. lia.
Qed.

(** ** The layers of a writer *)

Fixpoint layers_b (b : Bucket) (w : writer) : Z :=
  match w with
  | PipeWriter _ => 0
  | RateWriter w b' => (if decide (b' = b) then 1 else 0) + layers_b b w
  | SizeStatWriter w _ => layers_b b w
  end.
Fixpoint layers_c (c : string) (w : writer) : Z :=
  match w with
  | PipeWriter _ => 0
  | RateWriter w _ => layers_c c w
  | SizeStatWriter w c' => (if decide (c' = c) then 1 else 0) + layers_c c w
  end.
Fixpoint writer_pipe (w : writer) : nat :=
  match w with PipeWriter p => p | RateWriter w _ => writer_pipe w | SizeStatWriter w _ => writer_pipe w end.

Lemma waited_write b w n : waited b (WriteMultiBuffer w n) = layers_b b w * n.
Proof.
  unfold waited. induction w as [p|w IH b'|w IH c]; cbn [WriteMultiBuffer map layers_b];
    rewrite ?sumZ_cons, ?IH; [done| |lia]. destruct (decide (b' = b)); lia.
Qed.
Lemma counted_write c w n : counted c (WriteMultiBuffer w n) = layers_c c w * n.
Proof.
  unfold counted. induction w as [p|w IH b'|w IH c']; cbn [WriteMultiBuffer map layers_c];
    rewrite ?sumZ_cons, ?IH; [done|lia|]. destruct (decide (c' = c)); lia.
Qed.
Lemma written_write p w n : written p (WriteMultiBuffer w n) = if decide (writer_pipe w = p) then n else 0.
Proof.
  unfold written. induction w as [q|w IH b'|w IH c']; cbn [WriteMultiBuffer map writer_pipe];
    rewrite ?sumZ_cons, ?IH; [|lia|lia]. unfold sumZ. simpl. case_decide; lia.
Qed.

(** A sequence of writes. *)
Definition writes (w : writer) (ns : list Z) : list effect := concat (map (WriteMultiBuffer w) ns).
Lemma writes_sum w ns b c p :
  waited b (writes w ns) = layers_b b w * sumZ ns ∧
  counted c (writes w ns) = layers_c c w * sumZ ns ∧
  written p (writes w ns) = if decide (writer_pipe w = p) then sumZ ns else 0.
Proof.
  unfold writes. induction ns as [|n ns (IH1 & IH2 & IH3)].
  - unfold waited, counted, written, sumZ. cbn. rewrite !Z.mul_0_r. split_and!; [done|done|by case_decide].
  - cbn [map concat]. rewrite waited_app, counted_app, written_app, IH1, IH2, IH3.
    rewrite waited_write, counted_write, written_write, sumZ_cons.
    split_and!; [lia|lia|]. case_decide; lia.
Qed.
