(* ===== verification/TrafficCounter.v ===== *)
(** common/counter: the traffic counters of a node, one pair per user.

    [TrafficCounter] maps a user to a storage it points to; a connection keeps that
    pointer and adds to it for as long as it lives, so the storages are a heap.
    Every method below the comment on races is one atomic step per storage access
    in the code; [race] at the end takes them apart. *)
From S2P Require Import Prelude.
#[local] Open Scope string_scope.
#[local] Open Scope Z_scope.

(** * traffic.go *)

(** Two [atomic.Int64]. *)
Record TrafficStorage := MkTrafficStorage { UpCounter : Z; DownCounter : Z }.
#[export] Instance TrafficStorage_eq_dec : EqDecision TrafficStorage.
Proof. solve_decision. Defined.

Record TrafficCounter := MkTrafficCounter {
  tc_counters : gmap string nat;
  tc_heap : gmap nat TrafficStorage
}.

Definition add_up (n : Z) (s : TrafficStorage) : TrafficStorage :=
  MkTrafficStorage (wrap64 (UpCounter s + n)) (DownCounter s).
Definition add_down (n : Z) (s : TrafficStorage) : TrafficStorage :=
  MkTrafficStorage (UpCounter s) (wrap64 (DownCounter s + n)).

Definition tc_update (f : TrafficStorage → TrafficStorage) (p : nat) (c : TrafficCounter)
    : TrafficCounter := MkTrafficCounter (tc_counters c) (alter f p (tc_heap c)).
(** The storage of a user, if there is one. *)
Definition tc_load (c : TrafficCounter) (id : string) : option TrafficStorage :=
  p ← tc_counters c !! id; tc_heap c !! p.

Definition NewTrafficCounter : TrafficCounter := MkTrafficCounter ∅ ∅.

Definition GetCounter (id : string) (c : TrafficCounter) : nat * TrafficCounter :=
  match tc_counters c !! id with
  | Some p => (p, c)
  | None =>
      let p := fresh (dom (tc_heap c)) in
      (p, MkTrafficCounter (<[id := p]> (tc_counters c))
            (<[p := MkTrafficStorage 0 0]> (tc_heap c)))
  end.

Definition GetUpCount (c : TrafficCounter) (id : string) : Z :=
  match tc_load c id with Some s => UpCounter s | None => 0 end.
Definition GetDownCount (c : TrafficCounter) (id : string) : Z :=
  match tc_load c id with Some s => DownCounter s | None => 0 end.

Definition Len (c : TrafficCounter) : Z := Z.of_nat (size (tc_counters c)).

Definition Reset (id : string) (c : TrafficCounter) : TrafficCounter :=
  match tc_counters c !! id with
  | Some p => tc_update (λ _, MkTrafficStorage 0 0) p c
  | None => c
  end.

Definition Delete (id : string) (c : TrafficCounter) : TrafficCounter :=
  MkTrafficCounter (delete id (tc_counters c)) (tc_heap c).

Definition Restore (id : string) (up down : Z) (c : TrafficCounter) : TrafficCounter :=
  if bool_decide (up ≤ 0) && bool_decide (down ≤ 0) then c
  else match tc_counters c !! id with
       | None => c
       | Some p =>
           let c := if bool_decide (0 < up) then tc_update (add_up up) p c else c in
           if bool_decide (0 < down) then tc_update (add_down down) p c else c
       end.

Definition Rx (id : string) (n : Z) (c : TrafficCounter) : TrafficCounter :=
  let '(p, c) := GetCounter id c in tc_update (add_down n) p c.
Definition Tx (id : string) (n : Z) (c : TrafficCounter) : TrafficCounter :=
  let '(p, c) := GetCounter id c in tc_update (add_up n) p c.

(** * conn.go

    A counted connection is the pointer to its storage.  [n] and [err] are what the
    wrapped connection returns.  The functions an unwrapping reader or writer calls
    ([readFunc], [writeFunc]) add whatever they are given. *)
Definition ConnCounter_Read (p : nat) (n : Z) : TrafficCounter → TrafficCounter :=
  if bool_decide (0 < n) then tc_update (add_up n) p else id.
Definition ConnCounter_Write (p : nat) (n : Z) : TrafficCounter → TrafficCounter :=
  if bool_decide (0 < n) then tc_update (add_down n) p else id.
Definition ConnCounter_ReadBuffer (p : nat) (n : Z) (err : bool) : TrafficCounter → TrafficCounter :=
  if err then id else if bool_decide (0 < n) then tc_update (add_up n) p else id.
Definition ConnCounter_WriteBuffer (p : nat) (n : Z) (err : bool) : TrafficCounter → TrafficCounter :=
  if err then id else if bool_decide (0 < n) then tc_update (add_down n) p else id.
Definition readFunc (p : nat) (n : Z) : TrafficCounter → TrafficCounter := tc_update (add_up n) p.
Definition writeFunc (p : nat) (n : Z) : TrafficCounter → TrafficCounter := tc_update (add_down n) p.
Definition PacketConnCounter_ReadPacket (p : nat) (n : Z) (err : bool)
    : TrafficCounter → TrafficCounter := if err then id else tc_update (add_up n) p.
Definition PacketConnCounter_WritePacket (p : nat) (n : Z) (err : bool)
    : TrafficCounter → TrafficCounter :=
  if err then id else if bool_decide (0 < n) then tc_update (add_down n) p else id.

(** What a copy that unwraps a connection calls with the number of bytes it moved. *)
Definition CountFunc : Type := Z → TrafficCounter → TrafficCounter.
Definition UnwrapReader (p : nat) : list CountFunc := [readFunc p].
Definition UnwrapWriter (p : nat) : list CountFunc := [writeFunc p].
Definition UnwrapPacketReader (p : nat) : list CountFunc := [readFunc p].
Definition UnwrapPacketWriter (p : nat) : list CountFunc := [writeFunc p].
Definition call_all (fs : list CountFunc) (n : Z) (c : TrafficCounter) : TrafficCounter :=
  foldl (λ c f, f n c) c fs.
(** Such a copy counts what reading or writing the connection would have counted. *)
Lemma unwrapped_counts p n c : 0 < n →
  call_all (UnwrapReader p) n c = ConnCounter_Read p n c ∧
  call_all (UnwrapWriter p) n c = ConnCounter_Write p n c ∧
  call_all (UnwrapPacketReader p) n c = PacketConnCounter_ReadPacket p n false c ∧
  call_all (UnwrapPacketWriter p) n c = PacketConnCounter_WritePacket p n false c.
Proof.
  intros Hn. unfold ConnCounter_Read, ConnCounter_Write, PacketConnCounter_ReadPacket, PacketConnCounter_WritePacket.
  by rewrite bool_decide_eq_true_2.
Qed.

(** * Well-formed counters *)

(** Every user points to a storage, and to one of its own. *)
Definition tc_wf (c : TrafficCounter) : Prop :=
  (∀ id p, tc_counters c !! id = Some p → is_Some (tc_heap c !! p)) ∧
  (∀ id1 id2 p, tc_counters c !! id1 = Some p → tc_counters c !! id2 = Some p → id1 = id2).

(** What a user has used since the last reset. *)
Definition usage (c : TrafficCounter) (id : string) : Z * Z := (GetUpCount c id, GetDownCount c id).
#[global] Arguments usage : simpl never.

Lemma tc_wf_new : tc_wf NewTrafficCounter.
Proof. split; intros *; simpl; by rewrite lookup_empty. Qed.

Lemma tc_wf_update f p c : tc_wf c → tc_wf (tc_update f p c).
Proof.
  intros [H1 H2]. split; [|done]. intros id q Hq. simpl.
  destruct (H1 id q Hq) as [s Hs].
  destruct (decide (p = q)) as [<-|]; [rewrite lookup_alter_eq|rewrite lookup_alter_ne by done];
    by rewrite Hs.
Qed.

Lemma tc_wf_GetCounter id c : tc_wf c → tc_wf (GetCounter id c).2.
Proof.
  intros Hc. unfold GetCounter. destruct (tc_counters c !! id) as [p|] eqn:E; [done|].
  assert (tc_heap c !! fresh (dom (tc_heap c)) = None) as Hf by apply not_elem_of_dom, is_fresh.
  destruct Hc as [H1 H2]. split; simpl.
  - intros j q [[<- <-]|[? Hq]]%lookup_insert_Some; [by rewrite lookup_insert_eq|].
    destruct (H1 j q Hq) as [s Hs]. rewrite lookup_insert_ne by congruence. by exists s.
  - assert (∀ j q, tc_counters c !! j = Some q → q ≠ fresh (dom (tc_heap c))) as Hne.
    { intros j q [s Hs]%H1 ->. congruence. }
    intros i j q [[<- <-]|[? Hi]]%lookup_insert_Some [[<- Ej]|[? Hj]]%lookup_insert_Some.
    + done.
    + by destruct (Hne _ _ Hj).
    + by destruct (Hne _ _ Hi).
    + by eapply H2.
Qed.
#[export] Hint Resolve tc_wf_new tc_wf_update tc_wf_GetCounter : yabx.

Lemma tc_wf_Reset id c : tc_wf c → tc_wf (Reset id c).
Proof. unfold Reset. case_match; auto with yabx. Qed.
Lemma tc_wf_Restore id up down c : tc_wf c → tc_wf (Restore id up down c).
Proof. unfold Restore. intros. repeat case_match; auto with yabx. Qed.
Lemma tc_wf_Rx id n c : tc_wf c → tc_wf (Rx id n c).
Proof.
  intros Hc. unfold Rx. pose proof (tc_wf_GetCounter id c Hc).
  destruct (GetCounter id c). auto with yabx.
Qed.
Lemma tc_wf_Tx id n c : tc_wf c → tc_wf (Tx id n c).
Proof.
  intros Hc. unfold Tx. pose proof (tc_wf_GetCounter id c Hc).
  destruct (GetCounter id c). auto with yabx.
Qed.
#[export] Hint Resolve tc_wf_Reset tc_wf_Restore tc_wf_Rx tc_wf_Tx : yabx.

(** * What the operations do to the storages *)

Lemma tc_load_update f id p c j :
  tc_wf c → tc_counters c !! id = Some p →
  tc_load (tc_update f p c) j = if decide (id = j) then f <$> tc_load c j else tc_load c j.
Proof.
  intros [_ Hinj] Hp. unfold tc_load, tc_update. simpl.
  destruct (tc_counters c !! j) as [q|] eqn:Hq; simpl; [|by case_decide].
  destruct (decide (id = j)) as [->|Hne].
  - assert (q = p) as -> by congruence. apply lookup_alter_eq.
  - apply lookup_alter_ne. intros <-. by apply Hne, (Hinj id j p).
Qed.

Lemma tc_load_Some c id p :
  tc_wf c → tc_counters c !! id = Some p → is_Some (tc_load c id).
Proof. intros [H _] Hp. unfold tc_load. rewrite Hp. simpl. by apply H in Hp. Qed.

Lemma tc_load_GetCounter id c j :
  tc_wf c →
  tc_load (GetCounter id c).2 j =
    if decide (id = j) then Some (default (MkTrafficStorage 0 0) (tc_load c j)) else tc_load c j.
Proof.
  intros Hc. unfold GetCounter. destruct (tc_counters c !! id) as [p|] eqn:E; simpl.
  - case_decide as Hj; [|done]. subst j. by destruct (tc_load_Some c id p Hc E) as [s ->].
  - assert (tc_heap c !! fresh (dom (tc_heap c)) = None) as Hf by apply not_elem_of_dom, is_fresh.
    unfold tc_load. simpl. destruct (decide (id = j)) as [<-|].
    + rewrite lookup_insert_eq. simpl. by rewrite lookup_insert_eq, E.
    + rewrite lookup_insert_ne by done. destruct (tc_counters c !! j) as [q|] eqn:Hq; [|done].
      simpl. apply lookup_insert_ne. destruct (proj1 Hc j q Hq). congruence.
Qed.

Lemma GetCounter_counters id c :
  tc_counters (GetCounter id c).2 !! id = Some (GetCounter id c).1.
Proof. unfold GetCounter. case_match; [done|apply lookup_insert_eq]. Qed.

Lemma usage_load c id :
  usage c id = match tc_load c id with Some s => (UpCounter s, DownCounter s) | None => (0, 0) end.
Proof. unfold usage, GetUpCount, GetDownCount. by case_match. Qed.

Lemma usage_update f id p c j :
  tc_wf c → tc_counters c !! id = Some p →
  usage (tc_update f p c) j =
    if decide (id = j) then
      let s := f (MkTrafficStorage (usage c j).1 (usage c j).2) in (UpCounter s, DownCounter s)
    else usage c j.
Proof.
  intros Hc Hp. rewrite !usage_load, (tc_load_update _ id p c j Hc Hp). case_decide as Hj; [subst j|done].
  destruct (tc_load_Some c id p Hc Hp) as [[u d] ->]. done.
Qed.
Lemma usage_GetCounter id c j : tc_wf c → usage (GetCounter id c).2 j = usage c j.
Proof.
  intros Hc. rewrite !usage_load, tc_load_GetCounter by done. case_decide; [|done].
  by destruct (tc_load c j).
Qed.
Lemma usage_add f id c j :
  tc_wf c →
  usage (let '(p, c) := GetCounter id c in tc_update f p c) j =
    if decide (id = j) then
      let s := f (MkTrafficStorage (usage c j).1 (usage c j).2) in (UpCounter s, DownCounter s)
    else usage c j.
Proof.
  intros Hc. pose proof (GetCounter_counters id c) as Hp.
  pose proof (tc_wf_GetCounter id c Hc) as Hc'. pose proof (tc_load_GetCounter id c j Hc) as Hl.
  destruct (GetCounter id c) as [p c1]. cbn [fst snd] in Hp, Hc', Hl.
  rewrite !usage_load, (tc_load_update f id p c1 j Hc' Hp), Hl. case_decide; [|done].
  by destruct (tc_load c j) as [[u d]|].
Qed.

Lemma usage_Reset id c j :
  tc_wf c → usage (Reset id c) j = if decide (id = j) then (0, 0) else usage c j.
Proof.
  intros Hc. rewrite !usage_load. unfold Reset.
  destruct (tc_counters c !! id) as [p|] eqn:E.
  - rewrite (tc_load_update _ id p c j Hc E). case_decide; [|done]. by destruct (tc_load c j).
  - case_decide; [|done]. subst j. unfold tc_load. by rewrite E.
Qed.

(** Adding what is positive. *)
Definition add_pos (v n : Z) : Z := if bool_decide (0 < n) then wrap64 (v + n) else v.

Lemma usage_Restore id up down c j :
  tc_wf c →
  usage (Restore id up down c) j =
    if decide (id = j ∧ is_Some (tc_counters c !! id))
    then (add_pos (usage c j).1 up, add_pos (usage c j).2 down) else usage c j.
Proof.
  intros Hc. unfold Restore, add_pos.
  destruct (tc_counters c !! id) as [p|] eqn:E.
  2: { rewrite decide_False by (intros [_ []%is_Some_None]). by destruct (_ && _). }
  assert (∀ f c, tc_wf c → tc_counters c !! id = Some p → usage (tc_update f p c) j =
    if decide (id = j) then
      match tc_load c j with Some s => (UpCounter (f s), DownCounter (f s)) | None => (0, 0) end
    else usage c j) as Hu.
  { clear c Hc E. intros f c Hc E. rewrite !usage_load, (tc_load_update f id p c j Hc E).
    case_decide; [|done]. by destruct (tc_load c j). }
  destruct (decide (id = j)) as [<-|Hne].
  - rewrite decide_True by eauto.
    destruct (tc_load_Some c id p Hc E) as [s Hs].
    rewrite (usage_load c id), Hs.
    repeat case_bool_decide; simpl; try lia;
      rewrite ?Hu by auto with yabx; rewrite ?(tc_load_update _ id p c id Hc E), ?decide_True by done;
      rewrite ?usage_load, ?Hs; done.
  - rewrite decide_False by naive_solver.
    repeat case_bool_decide; simpl; rewrite ?Hu by auto with yabx; done.
Qed.

(** * Reading and resetting while connections count

    A report that reads with [GetUpCount] and [GetDownCount] and then calls [Reset]
    is four atomic accesses, between which connections add.  A report that swaps each
    counter with zero (what [Set(0)] of an xray counter does) is two. *)

Definition store_up (id : string) (c : TrafficCounter) : TrafficCounter :=
  match tc_counters c !! id with
  | Some p => tc_update (λ s, MkTrafficStorage 0 (DownCounter s)) p c
  | None => c
  end.
Definition store_down (id : string) (c : TrafficCounter) : TrafficCounter :=
  match tc_counters c !! id with
  | Some p => tc_update (λ s, MkTrafficStorage (UpCounter s) 0) p c
  | None => c
  end.

Lemma Reset_split id c : Reset id c = store_down id (store_up id c).
Proof.
  unfold Reset, store_down, store_up.
  destruct (tc_counters c !! id) as [p|] eqn:E; simpl; rewrite E; [|done].
  unfold tc_update. simpl. f_equal. apply map_eq. intros q.
  destruct (decide (p = q)) as [<-|]; [rewrite !lookup_alter_eq|by rewrite !lookup_alter_ne].
  by destruct (tc_heap c !! p).
Qed.

Inductive report_pc :=
| Idle
| LoadedUp (up : Z)
| LoadedBoth (up down : Z)
| StoredUp (up down : Z)
| Swapped (up : Z).

(** The counters, the report, and the totals: what connections added and what
    finished reports got. *)
Record race := MkRace {
  rc_counter : TrafficCounter; rc_pc : report_pc; rc_sent : Z * Z; rc_reported : Z * Z
}.

Section race.
Context (id : string).

Inductive add_step : race → race → Prop :=
| rs_tx c pc u d r n : 0 < n →
    add_step (MkRace c pc (u, d) r) (MkRace (Tx id n c) pc (u + n, d) r)
| rs_rx c pc u d r n : 0 < n →
    add_step (MkRace c pc (u, d) r) (MkRace (Rx id n c) pc (u, d + n) r).

(** [GetUpCount], [GetDownCount], [Reset]. *)
Inductive load_step : race → race → Prop :=
| ls_add s s' : add_step s s' → load_step s s'
| ls_up c s r : load_step (MkRace c Idle s r) (MkRace c (LoadedUp (GetUpCount c id)) s r)
| ls_down c u s r :
    load_step (MkRace c (LoadedUp u) s r) (MkRace c (LoadedBoth u (GetDownCount c id)) s r)
| ls_store_up c u d s r :
    load_step (MkRace c (LoadedBoth u d) s r) (MkRace (store_up id c) (StoredUp u d) s r)
| ls_store_down c u d s ru rd :
    load_step (MkRace c (StoredUp u d) s (ru, rd))
      (MkRace (store_down id c) Idle s (ru + u, rd + d)).

(** [Set(0)] of both counters. *)
Inductive swap_step : race → race → Prop :=
| ss_add s s' : add_step s s' → swap_step s s'
| ss_up c s r :
    swap_step (MkRace c Idle s r) (MkRace (store_up id c) (Swapped (GetUpCount c id)) s r)
| ss_down c u s ru rd :
    swap_step (MkRace c (Swapped u) s (ru, rd))
      (MkRace (store_down id c) Idle s (ru + u, rd + GetDownCount c id)).

Definition held (pc : report_pc) : Z := match pc with Swapped u => u | _ => 0 end.

(** What was added is what reports got, what a report holds and what is counted. *)
Definition balanced (s : race) : Prop :=
  tc_wf (rc_counter s) ∧
  wrap64 ((rc_sent s).1 - (rc_reported s).1 - held (rc_pc s)) = GetUpCount (rc_counter s) id ∧
  wrap64 ((rc_sent s).2 - (rc_reported s).2) = GetDownCount (rc_counter s) id.

Lemma counts_usage c : GetUpCount c id = (usage c id).1 ∧ GetDownCount c id = (usage c id).2.
Proof. done. Qed.

Lemma usage_Tx n c : tc_wf c → usage (Tx id n c) id = (wrap64 ((usage c id).1 + n), (usage c id).2).
Proof. intros Hc. unfold Tx. rewrite usage_add by done. by rewrite decide_True. Qed.
Lemma usage_Rx n c : tc_wf c → usage (Rx id n c) id = ((usage c id).1, wrap64 ((usage c id).2 + n)).
Proof. intros Hc. unfold Rx. rewrite usage_add by done. by rewrite decide_True. Qed.

Lemma usage_stores c :
  tc_wf c → usage (store_up id c) id = (0, (usage c id).2) ∧
    usage (store_down id c) id = ((usage c id).1, 0) ∧
    tc_wf (store_up id c) ∧ tc_wf (store_down id c).
Proof.
  intros Hc. unfold store_up, store_down.
  destruct (tc_counters c !! id) as [p|] eqn:E.
  - rewrite !usage_load.
    rewrite (tc_load_update (λ s, MkTrafficStorage 0 (DownCounter s)) id p c id Hc E).
    rewrite (tc_load_update (λ s, MkTrafficStorage (UpCounter s) 0) id p c id Hc E).
    rewrite !decide_True by done.
    destruct (tc_load_Some c id p Hc E) as [s ->]. by split_and!; [| |apply tc_wf_update..].
  - rewrite usage_load. unfold tc_load. by rewrite E.
Qed.

Lemma balanced_add s s' : balanced s → add_step s s' → balanced s'.
Proof.
  intros (Hc & Hu & Hd) Hs. destruct Hs as [c pc u d [ru rd] n|c pc u d [ru rd] n]; simpl in *.
  - destruct (counts_usage (Tx id n c)) as [E1 E2]. destruct (counts_usage c) as [E3 E4].
    split_and!; simpl; [auto with yabx|..]; rewrite ?E1, ?E2, usage_Tx by done; cbn [fst snd].
    + rewrite <-E3, <-Hu, wrap64_add_l. f_equal. lia.
    + by rewrite Hd, E4.
  - destruct (counts_usage (Rx id n c)) as [E1 E2]. destruct (counts_usage c) as [E3 E4].
    split_and!; simpl; [auto with yabx|..]; rewrite ?E1, ?E2, usage_Rx by done; cbn [fst snd].
    + by rewrite Hu, E3.
    + rewrite <-E4, <-Hd, wrap64_add_l. f_equal. lia.
Qed.
End race.

Lemma wrap64_sub_wrap a b : wrap64 (a - wrap64 b) = wrap64 (a - b).
Proof.
  unfold wrap64. f_equal. rewrite Zminus_mod || idtac.
  replace (a - ((b + 2 ^ 63) mod 2 ^ 64 - 2 ^ 63) + 2 ^ 63)
    with (a + 2 ^ 64 - (b + 2 ^ 63) mod 2 ^ 64) by lia.
  rewrite Zminus_mod_idemp_r.
  replace (a + 2 ^ 64 - (b + 2 ^ 63)) with (a - b + 2 ^ 63) by lia. done.
Qed.

Lemma balanced_swap id s s' : balanced id s → swap_step id s s' → balanced id s'.
Proof.
  intros Hs Hstep. destruct Hstep as [s s' H|c [su sd] [ru rd]|c u [su sd] ru rd].
  - by eapply balanced_add.
  - destruct Hs as (Hc & Hu & Hd). simpl in *.
    destruct (usage_stores id c Hc) as (E & _ & ? & _).
    split_and!; simpl; [done|..].
    + change (GetUpCount (store_up id c) id) with (usage (store_up id c) id).1. rewrite E. simpl.
      rewrite <-Hu, wrap64_sub_wrap. replace (_ - _) with 0 by lia. reflexivity.
    + change (GetDownCount (store_up id c) id) with (usage (store_up id c) id).2. by rewrite E.
  - destruct Hs as (Hc & Hu & Hd). simpl in *.
    destruct (usage_stores id c Hc) as (_ & E & _ & ?).
    split_and!; simpl; [done|..].
    + change (GetUpCount (store_down id c) id) with (usage (store_down id c) id).1. rewrite E. simpl.
      change (usage c id).1 with (GetUpCount c id). rewrite <-Hu. f_equal. lia.
    + change (GetDownCount (store_down id c) id) with (usage (store_down id c) id).2. rewrite E. simpl.
      rewrite <-Hd. replace (sd - (rd + wrap64 (sd - rd))) with (sd - rd - wrap64 (sd - rd)) by lia.
      rewrite wrap64_sub_wrap. replace (_ - _) with 0 by lia. reflexivity.
Qed.


