(* ===== verification/CoreApi.v ===== *)
(** core/interface.go: what a proxy core offers to the node controllers.

    [CoreTraffic] and [Core] are the methods, as functions on the state of the core;
    [TrafficLaws] is what the controllers rely on when they bill traffic: what a read
    returns, what a resetting read leaves, and what a restore puts back.  The cores
    prove the laws, the controllers use nothing else. *)
From S2P Require Import Prelude Netutil PanelTypes Conf TrafficCounter.
#[local] Open Scope Z_scope.

Class CoreTraffic (S : Type) := {
  (** up and down of a user of a node; the flag resets them. *)
  GetUserTraffic : string → string → bool → S → Z * Z * S;
  RestoreUserTraffic : string → string → Z → Z → S → S
}.

(** A method that returns an error may have changed the core before.  [AddNode] is given
    a pointer to the options, and may fill them in. *)
Class Core (S : Type) := {
  core_traffic :: CoreTraffic S;
  AddNode : string → NodeInfo → Options → S → option string * Options * S;
  DelNode : string → S → option string * S;
  AddUsers : string → list UserInfo → NodeInfo → S → result Z * S;
  DelUsers : list UserInfo → string → NodeInfo → S → option string * S
}.

(** [pending s tag uuid]: the traffic that was counted and not read. *)
Class TrafficLaws (S : Type) `{CoreTraffic S} := {
  pending : S → string → string → Z * Z;
  (** The core has a counter to put up or down traffic into. *)
  counting_up : S → string → string → Prop;
  counting_down : S → string → string → Prop;
  (** The invariant of the core under which the laws hold. *)
  core_ok : S → Prop;

  get_ok tag uuid r s : core_ok s → core_ok (GetUserTraffic tag uuid r s).2;
  restore_ok tag uuid u d s : core_ok s → core_ok (RestoreUserTraffic tag uuid u d s);
  get_value tag uuid r s : core_ok s → (GetUserTraffic tag uuid r s).1 = pending s tag uuid;
  get_keep tag uuid s : core_ok s → (GetUserTraffic tag uuid false s).2 = s;
  get_reset tag uuid v s : core_ok s →
    pending (GetUserTraffic tag uuid true s).2 tag v =
      if decide (uuid = v) then (0, 0) else pending s tag v;
  restore_pending tag uuid u d s : core_ok s →
    (0 < u → counting_up s tag uuid) → (0 < d → counting_down s tag uuid) →
    pending (RestoreUserTraffic tag uuid u d s) tag uuid =
      (add_pos (pending s tag uuid).1 u, add_pos (pending s tag uuid).2 d);
  restore_other tag uuid u d v s : core_ok s → uuid ≠ v →
    pending (RestoreUserTraffic tag uuid u d s) tag v = pending s tag v;
  pending_up tag uuid s : (pending s tag uuid).1 ≠ 0 → counting_up s tag uuid;
  pending_down tag uuid s : (pending s tag uuid).2 ≠ 0 → counting_down s tag uuid;
  get_counting tag uuid r v s : core_ok s →
    (counting_up s tag v → counting_up (GetUserTraffic tag uuid r s).2 tag v) ∧
    (counting_down s tag v → counting_down (GetUserTraffic tag uuid r s).2 tag v);
  restore_counting tag uuid u d v s : core_ok s →
    (counting_up s tag v → counting_up (RestoreUserTraffic tag uuid u d s) tag v) ∧
    (counting_down s tag v → counting_down (RestoreUserTraffic tag uuid u d s) tag v)
}.

(** What several controllers on one core rely on besides: reading or restoring the traffic of
    a user leaves the users with another key alone. *)
Class TrafficLocal (S : Type) `{!CoreTraffic S} `{!TrafficLaws S} := {
  get_elsewhere tag uuid r s tag' v : core_ok s → UserTag tag uuid ≠ UserTag tag' v →
    pending (GetUserTraffic tag uuid r s).2 tag' v = pending s tag' v;
  restore_elsewhere tag uuid u d s tag' v : core_ok s → UserTag tag uuid ≠ UserTag tag' v →
    pending (RestoreUserTraffic tag uuid u d s) tag' v = pending s tag' v
}.
(** The core has counted traffic of a user, up and down. *)
Definition counted_in {S} `{!CoreTraffic S} `{!TrafficLaws S} (tag uuid : string) (u d : Z) (s s' : S) : Prop :=
  core_ok s' ∧
  pending s' tag uuid = ((pending s tag uuid).1 + u, (pending s tag uuid).2 + d) ∧
  ∀ tag' v, UserTag tag uuid ≠ UserTag tag' v → pending s' tag' v = pending s tag' v.

(** * Cores that keep a [TrafficCounter] per node

    [look] finds the counter of a node and [upd] replaces the one that was found. *)
Section counter_core.
Context {S : Type} `{CoreTraffic S}.
Context (look : S → string → option TrafficCounter) (upd : string → TrafficCounter → S → S).
Context (look_upd : ∀ s tag c tag', is_Some (look s tag) →
  look (upd tag c s) tag' = if decide (tag = tag') then Some c else look s tag').
Context (get_eq : ∀ tag uuid (r : bool) s, GetUserTraffic tag uuid r s =
  match look s tag with
  | None => (0, 0, s)
  | Some c => (GetUpCount c uuid, GetDownCount c uuid, if r then upd tag (Reset uuid c) s else s)
  end).
Context (restore_eq : ∀ tag uuid u d s, RestoreUserTraffic tag uuid u d s =
  match look s tag with None => s | Some c => upd tag (Restore uuid u d c) s end).

Definition cc_usage (s : S) (tag uuid : string) : Z * Z :=
  match look s tag with None => (0, 0) | Some c => usage c uuid end.
Definition cc_counting (s : S) (tag uuid : string) : Prop :=
  ∃ c, look s tag = Some c ∧ is_Some (tc_counters c !! uuid).
Definition cc_ok (s : S) : Prop := ∀ tag c, look s tag = Some c → tc_wf c.

Lemma cc_ok_upd tag c s : cc_ok s → is_Some (look s tag) → tc_wf c → cc_ok (upd tag c s).
Proof.
  intros Hs Hl Hc tag' c'. rewrite look_upd by done. case_decide; [by intros [= <-]|apply Hs].
Qed.
Lemma cc_counting_upd tag f s v :
  (∀ c, tc_counters (f c) = tc_counters c) → cc_counting s tag v →
  cc_counting (match look s tag with None => s | Some c => upd tag (f c) s end) tag v.
Proof.
  intros Hf (c & Hc & Hv). rewrite Hc. exists (f c).
  rewrite look_upd, decide_True, Hf by eauto. done.
Qed.
Lemma Reset_counters uuid c : tc_counters (Reset uuid c) = tc_counters c.
Proof. unfold Reset. by case_match. Qed.
Lemma Restore_counters uuid u d c : tc_counters (Restore uuid u d c) = tc_counters c.
Proof. unfold Restore. by repeat case_match. Qed.
Lemma usage_counting c uuid : usage c uuid ≠ (0, 0) → is_Some (tc_counters c !! uuid).
Proof.
  rewrite usage_load. unfold tc_load. destruct (tc_counters c !! uuid); [by eauto|done].
Qed.

Program Definition counter_laws : TrafficLaws S := {|
  pending := cc_usage; counting_up := cc_counting; counting_down := cc_counting; core_ok := cc_ok
|}.
Next Obligation.
  intros tag uuid r s Hs. rewrite get_eq. destruct (look s tag) as [c|] eqn:E; [|done].
  destruct r; [|done]. apply cc_ok_upd; [done|by eexists|]. apply tc_wf_Reset. by eapply Hs.
Qed.
Next Obligation.
  intros tag uuid u d s Hs. rewrite restore_eq. destruct (look s tag) as [c|] eqn:E; [|done].
  apply cc_ok_upd; [done|by eexists|]. apply tc_wf_Restore. by eapply Hs.
Qed.
Next Obligation.
  intros tag uuid r s Hs. rewrite get_eq. unfold cc_usage. by destruct (look s tag).
Qed.
Next Obligation. intros tag uuid s Hs. rewrite get_eq. by destruct (look s tag). Qed.
Next Obligation.
  intros tag uuid v s Hs. rewrite get_eq. unfold cc_usage.
  destruct (look s tag) as [c|] eqn:E; simpl.
  - rewrite look_upd, decide_True by eauto. apply usage_Reset. by eapply Hs.
  - rewrite E. by case_decide.
Qed.
Next Obligation.
  intros tag uuid u d s Hs Hu Hd. rewrite restore_eq. unfold cc_usage.
  destruct (look s tag) as [c|] eqn:E; simpl.
  - rewrite look_upd, decide_True by eauto.
    rewrite usage_Restore by by eapply Hs.
    destruct (decide (uuid = uuid ∧ is_Some (tc_counters c !! uuid))) as [|Hn]; [done|].
    assert (∀ n, (0 < n → cc_counting s tag uuid) → ¬ 0 < n) as Hno.
    { intros n Hc Hpos. destruct (Hc Hpos) as (c' & E' & Hin). rewrite E in E'.
      injection E' as <-. by apply Hn. }
    unfold add_pos. rewrite !bool_decide_eq_false_2 by auto. reflexivity.
  - rewrite E. assert (∀ n, (0 < n → cc_counting s tag uuid) → ¬ 0 < n) as Hno.
    { intros n Hc Hpos. destruct (Hc Hpos) as (c' & E' & Hin). congruence. }
    unfold add_pos. by rewrite !bool_decide_eq_false_2 by auto.
Qed.
Next Obligation.
  intros tag uuid u d v s Hs Hne. rewrite restore_eq. unfold cc_usage.
  destruct (look s tag) as [c|] eqn:E; simpl; [|by rewrite E].
  rewrite look_upd, decide_True by eauto.
  rewrite usage_Restore by by eapply Hs. rewrite decide_False; [done|]. by intros [? _].
Qed.
Next Obligation.
  intros tag uuid s. unfold cc_usage, cc_counting. destruct (look s tag) as [c|]; [|done].
  intros Hne. exists c. split; [done|]. apply usage_counting. intros E. by rewrite E in Hne.
Qed.
Next Obligation.
  intros tag uuid s. unfold cc_usage, cc_counting. destruct (look s tag) as [c|]; [|done].
  intros Hne. exists c. split; [done|]. apply usage_counting. intros E. by rewrite E in Hne.
Qed.
Next Obligation.
  intros tag uuid r v s Hs. rewrite get_eq.
  pose proof (cc_counting_upd tag (Reset uuid) s v (Reset_counters uuid)) as Hc.
  destruct (look s tag) as [c|]; [|done]. by destruct r.
Qed.
Next Obligation.
  intros tag uuid u d v s Hs. rewrite restore_eq.
  pose proof (cc_counting_upd tag (Restore uuid u d) s v (Restore_counters uuid u d)) as Hc. done.
Qed.

#[local] Existing Instance counter_laws.
Lemma cc_usage_upd tag c s tag' v : is_Some (look s tag) →
  cc_usage (upd tag c s) tag' v = if decide (tag = tag') then usage c v else cc_usage s tag' v.
Proof. intros Hs. unfold cc_usage. rewrite look_upd by done. by case_decide. Qed.
Lemma counter_local : TrafficLocal S.
Proof.
  split.
  - intros tag uuid r s tag' v Hs Hne. cbn [pending counter_laws]. rewrite get_eq.
    destruct (look s tag) as [c|] eqn:E; [|done]. destruct r; [|done]. cbn [snd].
    rewrite cc_usage_upd by by eexists. case_decide as Ht; [subst tag'|done].
    rewrite usage_Reset by by eapply Hs. rewrite decide_False by congruence.
    unfold cc_usage. by rewrite E.
  - intros tag uuid u d s tag' v Hs Hne. cbn [pending counter_laws]. rewrite restore_eq.
    destruct (look s tag) as [c|] eqn:E; [|done].
    rewrite cc_usage_upd by by eexists. case_decide as Ht; [subst tag'|done].
    rewrite usage_Restore by by eapply Hs. rewrite decide_False by (intros [? _]; congruence).
    unfold cc_usage. by rewrite E.
Qed.
(** The counter of a node, which may be new, has grown by the usage of one user. *)
Lemma counter_grown tag uuid u d c' s s' :
  cc_ok s → look s' tag = Some c' → (∀ t, t ≠ tag → look s' t = look s t) → tc_wf c' →
  usage c' uuid = ((cc_usage s tag uuid).1 + u, (cc_usage s tag uuid).2 + d) →
  (∀ v, v ≠ uuid → usage c' v = cc_usage s tag v) →
  counted_in tag uuid u d s s'.
Proof.
  intros Hs E Hne Hc Hu Ho. split; [|split].
  - intros t c. destruct (decide (t = tag)) as [->|Ht]; [by rewrite E; intros [= <-]|rewrite Hne by done; apply Hs].
  - cbn [pending counter_laws]. unfold cc_usage at 1. by rewrite E.
  - intros tag' v Hk. cbn [pending counter_laws]. unfold cc_usage at 1.
    destruct (decide (tag' = tag)) as [->|Ht].
    + rewrite E. apply Ho. congruence.
    + by rewrite Hne.
Qed.
(** Replacing the counter of a node by one in which only the usage of one user grew. *)
Lemma counter_counted tag uuid u d c c' s :
  cc_ok s → look s tag = Some c → tc_wf c' →
  usage c' uuid = ((usage c uuid).1 + u, (usage c uuid).2 + d) →
  (∀ v, v ≠ uuid → usage c' v = usage c v) →
  counted_in tag uuid u d s (upd tag c' s).
Proof.
  intros Hs E Hc Hu Ho. apply (counter_grown tag uuid u d c'); [done| | |done|..].
  - rewrite look_upd by by eexists. by rewrite decide_True.
  - intros t Ht. rewrite look_upd by by eexists. by rewrite decide_False.
  - unfold cc_usage. by rewrite E.
  - intros v Hv. unfold cc_usage. rewrite E. by apply Ho.
Qed.
End counter_core.
