(* ===== verification/Task.v ===== *)
(** common/task/task.go: the periodic task, with its interleavings.

    The state has the fields of the task, the timers of the runtime that are still
    going to expire, and the goroutines inside [fire], [Start] and [checkedExecute],
    each at one of the points between two atomic accesses: a critical section of
    [access], taking [execMu], and the body.  [Start] and [Close] may be called at any
    moment, by anyone, the body included.  The length of a delay plays no part: an armed
    timer may expire at any later moment. *)
From S2P Require Import Prelude.

(** Where a goroutine is.  [start] tells the calls that came from [Start]. *)
Inductive pc :=
| FireStart                         (* fire, before access *)
| Checked (first start : bool)      (* checkedExecute, at its first hasClosed *)
| WaitExec (start : bool)           (* waiting for execMu *)
| InExec (start : bool)             (* with execMu, at the second hasClosed *)
| Body (start : bool)               (* inside Execute *)
| Failed (start : bool)             (* Execute returned an error *)
| FailedStart                       (* Start, after the error *)
| Arm (start : bool).               (* at the critical section that arms *)
#[export] Instance pc_eq_dec : EqDecision pc.
Proof. solve_decision. Defined.

Record Task := MkTask {
  running : bool;
  timer : option nat;
  pending_timers : gset nat;
  execMu : option nat;
  threads : gmap nat pc;
  next_timer : nat                  (* names for the timers *)
}.
Definition NewTask : Task := MkTask false None ∅ None ∅ 0.

Definition set_running (b : bool) (t : Task) : Task :=
  MkTask b (timer t) (pending_timers t) (execMu t) (threads t) (next_timer t).
Definition goto (g : nat) (p : pc) (t : Task) : Task :=
  MkTask (running t) (timer t) (pending_timers t) (execMu t) (<[g := p]> (threads t)) (next_timer t).
Definition leave (g : nat) (t : Task) : Task :=
  MkTask (running t) (timer t) (pending_timers t) (execMu t) (delete g (threads t)) (next_timer t).
Definition set_exec (o : option nat) (t : Task) : Task :=
  MkTask (running t) (timer t) (pending_timers t) o (threads t) (next_timer t).

Definition hasClosed (t : Task) : bool := negb (running t).

(** [t.timer.Stop()] if there is one; a timer that has expired is not stopped. *)
Definition stop_timer (t : Task) : Task :=
  match timer t with
  | Some k => MkTask (running t) None (pending_timers t ∖ {[k]}) (execMu t) (threads t)
              (next_timer t)
  | None => t
  end.
Definition Close (t : Task) : Task := stop_timer (set_running false t).

(** The last critical section of [checkedExecute]. *)
Definition arm (t : Task) : Task :=
  if negb (running t) then t
  else match timer t with
       | Some _ => t
       | None =>
           let k := next_timer t in
           MkTask (running t) (Some k) ({[k]} ∪ pending_timers t) (execMu t) (threads t) (S k)
       end.

(** The critical section of [fire]. *)
Definition clear_timer (t : Task) : Task :=
  MkTask (running t) None (pending_timers t) (execMu t) (threads t) (next_timer t).

(** The expiry of a timer: its goroutine runs [fire]. *)
Definition expire (k g : nat) (t : Task) : Task :=
  goto g FireStart
    (MkTask (running t) (timer t) (pending_timers t ∖ {[k]}) (execMu t) (threads t) (next_timer t)).

(** The first critical section of [Start]. *)
Definition start (first : bool) (g : nat) (t : Task) : Task :=
  if running t then t else goto g (Checked first true) (set_running true t).

(** One access of the goroutine [g]; [err] is what the body returns.  [None]: it waits. *)
Definition advance (g : nat) (err : bool) (t : Task) : option Task :=
  p ← threads t !! g;
  match p with
  | FireStart => Some (goto g (Checked true false) (clear_timer t))
  | Checked first st =>
      if hasClosed t then Some (leave g t)
      else if first : bool then Some (goto g (WaitExec st) t) else Some (goto g (Arm st) t)
  | WaitExec st =>
      match execMu t with
      | Some _ => None
      | None => Some (goto g (InExec st) (set_exec (Some g) t))
      end
  | InExec st =>
      if hasClosed t then Some (leave g (set_exec None t)) else Some (goto g (Body st) t)
  | Body st => Some (goto g (if err then Failed st else Arm st) (set_exec None t))
  | Failed st => let t := set_running false t in
                 Some (if st : bool then goto g FailedStart t else leave g t)
  | FailedStart => Some (leave g (Close t))
  | Arm _ => Some (leave g (arm t))
  end.

Inductive task_step : Task → Task → Prop :=
| ts_advance t t' g err : advance g err t = Some t' → task_step t t'
| ts_expire t k g : k ∈ pending_timers t → threads t !! g = None → task_step t (expire k g t)
| ts_start t first g : threads t !! g = None → task_step t (start first g t)
| ts_close t : task_step t (Close t).

(** Histories in which no call comes between the expiry of a timer and the first
    critical section of its [fire]. *)
Inductive quiet_step : Task → Task → Prop :=
| qs_advance t t' g err : advance g err t = Some t' → quiet_step t t'
| qs_fire t k g : k ∈ pending_timers t → threads t !! g = None →
    quiet_step t (goto g (Checked true false) (clear_timer (expire k g t)))
| qs_start t first g : threads t !! g = None → quiet_step t (start first g t)
| qs_close t : quiet_step t (Close t).

(** * The body runs alone *)

Definition in_exec (p : pc) : Prop :=
  match p with InExec _ | Body _ => True | _ => False end.
#[export] Instance in_exec_dec p : Decision (in_exec p).
Proof. destruct p; apply _. Defined.
Definition exec_inv (t : Task) : Prop :=
  ∀ g p, threads t !! g = Some p → in_exec p → execMu t = Some g.

Lemma exec_goto g p t :
  exec_inv t → (in_exec p → execMu t = Some g) → exec_inv (goto g p t).
Proof.
  intros Ht Hp h q; simpl; intros [[<- <-]|[_ Hq]]%lookup_insert_Some; [by apply Hp|by apply Ht].
Qed.
Lemma exec_leave g t : exec_inv t → exec_inv (leave g t).
Proof. intros Ht h q; simpl; intros [_ Hq]%lookup_delete_Some. by apply Ht. Qed.
(** Releasing the mutex: no other goroutine is inside. *)
Lemma exec_others g p t :
  exec_inv t → threads t !! g = Some p → in_exec p →
  ∀ h q, h ≠ g → threads t !! h = Some q → ¬ in_exec q.
Proof.
  intros Ht Hg Hp h q Hne Hh Hq. pose proof (Ht g p Hg Hp). pose proof (Ht h q Hh Hq). congruence.
Qed.
Lemma exec_same t t' :
  exec_inv t → threads t' = threads t → execMu t' = execMu t → exec_inv t'.
Proof. intros Ht E1 E2 g p. rewrite E1, E2. apply Ht. Qed.

Lemma Close_fields t :
  threads (Close t) = threads t ∧ execMu (Close t) = execMu t ∧ running (Close t) = false ∧
  timer (Close t) = None.
Proof. unfold Close, stop_timer. simpl. by destruct (timer t) eqn:E; simpl. Qed.
Lemma arm_fields t : threads (arm t) = threads t ∧ execMu (arm t) = execMu t.
Proof. unfold arm. by repeat case_match. Qed.

Lemma exec_inv_advance t t' g err : exec_inv t → advance g err t = Some t' → exec_inv t'.
Proof.
  intros Ht. unfold advance. destruct (threads t !! g) as [p|] eqn:Hg; [|done]. simpl.
  destruct p as [|first st|st|st|st|st| |st].
  - intros [= <-]. by apply exec_goto; [apply (exec_same t)|].
  - repeat case_match; intros [= <-]; [by apply exec_leave|by apply exec_goto..].
  - destruct (execMu t) eqn:Em; [done|]. intros [= <-].
    apply exec_goto; [|done]. intros h q Hh Hq. pose proof (Ht h q Hh Hq). congruence.
  - pose proof (exec_others g _ t Ht Hg I) as Ho. case_match; intros [= <-].
    + intros h q; simpl; intros [Hne Hh]%lookup_delete_Some Hq. by destruct (Ho h q (not_eq_sym Hne) Hh).
    + apply exec_goto; [done|]. intros _. by apply (Ht g _ Hg).
  - pose proof (exec_others g _ t Ht Hg I) as Ho. intros [= <-].
    intros h q; simpl; intros [[<- <-]|[Hne Hh]]%lookup_insert_Some Hq.
    + by destruct err.
    + by destruct (Ho h q (not_eq_sym Hne) Hh).
  - case_match; intros [= <-]; [apply exec_goto; [|done]|apply exec_leave]; by apply (exec_same t).
  - intros [= <-]. apply exec_leave. destruct (Close_fields t) as (? & ? & _).
    by apply (exec_same t).
  - intros [= <-]. apply exec_leave. destruct (arm_fields t). by apply (exec_same t).
Qed.

Lemma exec_inv_step t t' : exec_inv t → task_step t t' → exec_inv t'.
Proof.
  intros Ht Hs. destruct Hs as [t t' g err H|t k g _ _|t first g _|t].
  - by eapply exec_inv_advance.
  - by apply exec_goto; [apply (exec_same t)|].
  - unfold start. case_match; [done|]. by apply exec_goto; [apply (exec_same t)|].
  - destruct (Close_fields t) as (? & ? & _). by apply (exec_same t).
Qed.

(** * The task does not die *)

Definition firing (t : Task) : Prop := ∃ g, threads t !! g = Some FireStart.
Record alive_inv (t : Task) : Prop := {
  ai_running : running t = true → pending_timers t ≠ ∅ ∨ threads t ≠ ∅;
  ai_timer k : timer t = Some k → k ∈ pending_timers t ∨ firing t
}.

Lemma firing_goto g p t :
  (∀ q, threads t !! g = Some q → q ≠ FireStart) → firing t → firing (goto g p t).
Proof.
  intros Hg [h Hh]. exists h. simpl. rewrite lookup_insert_ne; [done|].
  intros <-. by eapply Hg.
Qed.
Lemma firing_leave g t :
  (∀ q, threads t !! g = Some q → q ≠ FireStart) → firing t → firing (leave g t).
Proof.
  intros Hg [h Hh]. exists h. simpl. rewrite lookup_delete_ne; [done|].
  intros <-. by eapply Hg.
Qed.

(** A goroutine that goes on keeps the task alive. *)
Lemma alive_goto g p t :
  (∀ q, threads t !! g = Some q → q ≠ FireStart) → alive_inv t → alive_inv (goto g p t).
Proof.
  intros Hg [_ Hk]. constructor; simpl.
  - intros _. right. apply insert_non_empty.
  - intros k [?|?]%Hk; [by left|]. right. by apply firing_goto.
Qed.
(** One that leaves a task that is not running, or one with a timer. *)
Lemma alive_leave g t :
  (∀ q, threads t !! g = Some q → q ≠ FireStart) →
  alive_inv t → (running t = true → ∃ k, timer t = Some k) → alive_inv (leave g t).
Proof.
  intros Hg [_ Hk] Hr. constructor; simpl.
  - intros [k Hk']%Hr. destruct (Hk k Hk') as [?|Hf]; [left; set_solver|].
    right. destruct (firing_leave g t Hg Hf) as [h Hh]. simpl in Hh. intros E.
    rewrite E in Hh. by rewrite lookup_empty in Hh.
  - intros k [?|?]%Hk; [by left|]. right. by apply firing_leave.
Qed.
Lemma alive_stopped t t' :
  alive_inv t → running t' = false → timer t' = timer t → pending_timers t' = pending_timers t →
  threads t' = threads t → alive_inv t'.
Proof.
  intros [_ Hk] Hr E1 E2 E3. constructor; [by rewrite Hr|].
  intros k. rewrite E1, E2. unfold firing. rewrite E3. apply Hk.
Qed.
Lemma alive_exec o t : alive_inv t → alive_inv (set_exec o t).
Proof. intros [H1 H2]. by constructor. Qed.
Lemma alive_Close t : alive_inv (Close t).
Proof. destruct (Close_fields t) as (_ & _ & E1 & E2). constructor; rewrite ?E1, ?E2; done. Qed.
Lemma arm_spec t :
  arm t = t ∧ (running t = true → ∃ k, timer t = Some k) ∨
  running t = true ∧ timer t = None ∧
    ∃ k, arm t = MkTask true (Some k) ({[k]} ∪ pending_timers t) (execMu t) (threads t) (S k).
Proof.
  unfold arm. destruct (running t); simpl; [|by left]. destruct (timer t) eqn:E; [left; eauto|].
  right. by eauto.
Qed.

Lemma alive_inv_advance t t' g err : alive_inv t → advance g err t = Some t' → alive_inv t'.
Proof.
  intros Ht. unfold advance. destruct (threads t !! g) as [p|] eqn:Hg; [|done]. simpl.
  assert (p ≠ FireStart → ∀ q, threads t !! g = Some q → q ≠ FireStart) as Hne by naive_solver.
  destruct p as [|first st|st|st|st|st| |st].
  - intros [= <-]. constructor; simpl; [|done]. intros _. right. apply insert_non_empty.
  - unfold hasClosed. destruct (running t) eqn:E; simpl; [destruct first|]; intros [= <-];
      [by apply alive_goto; auto..|]. apply alive_leave; auto. by rewrite E.
  - destruct (execMu t); [done|]. intros [= <-]. by apply alive_goto; auto using alive_exec.
  - unfold hasClosed. destruct (running t) eqn:E; simpl; intros [= <-].
    + by apply alive_goto; auto.
    + apply alive_leave; auto using alive_exec. simpl. by rewrite E.
  - intros [= <-]. by apply alive_goto; auto using alive_exec.
  - assert (alive_inv (set_running false t)) as Hf by by apply (alive_stopped t).
    destruct st; intros [= <-]; [by apply alive_goto; auto|]. by apply alive_leave; auto.
  - intros [= <-]. destruct (Close_fields t) as (E1 & _ & E2 & _).
    apply alive_leave; [rewrite E1; auto|apply alive_Close|by rewrite E2].
  - intros [= <-]. destruct (arm_spec t) as [[-> Hr]|(Hr & _ & k & ->)].
    + by apply alive_leave; auto.
    + apply alive_leave; simpl; [auto| |by eauto].
      constructor; simpl; [left; set_solver|]. intros k' [= <-]. left. set_solver.
Qed.

Lemma alive_inv_step t t' : alive_inv t → task_step t t' → alive_inv t'.
Proof.
  intros Ht Hs. destruct Hs as [t t' g err H|t k g Hk Hg|t first g Hg|t].
  - by eapply alive_inv_advance.
  - constructor; simpl; [intros _; right; apply insert_non_empty|].
    intros k' Hk'. destruct (ai_timer t Ht k' Hk') as [?|[h Hh]].
    + destruct (decide (k' = k)) as [->|]; [right|left; set_solver].
      exists g. apply lookup_insert_eq.
    + right. exists h. simpl. rewrite lookup_insert_ne; [done|]. intros <-. congruence.
  - unfold start. destruct (running t) eqn:E; [done|].
    constructor; simpl; [intros _; right; apply insert_non_empty|].
    intros k [?|?]%(ai_timer t Ht); [by left|]. right.
    by apply (firing_goto g _ (set_running true t)); [simpl; by rewrite Hg|].
  - apply alive_Close.
Qed.

Lemma task_reachable t :
  steps task_step NewTask t → exec_inv t ∧ alive_inv t.
Proof.
  apply (steps_invariant task_step (λ t, exec_inv t ∧ alive_inv t)).
  - intros s s' [? ?] ?. split; [by eapply exec_inv_step|by eapply alive_inv_step].
  - split; [|by constructor]. intros g p. simpl. by rewrite lookup_empty.
Qed.

(** * Timers *)

(** Without a call between an expiry and its [fire], the handle is the only timer. *)
Definition one_timer (t : Task) : Prop :=
  (∀ k, k ∈ pending_timers t → timer t = Some k) ∧
  (∀ g p, threads t !! g = Some p → p ≠ FireStart).

Lemma one_timer_Close t : one_timer t → one_timer (Close t) ∧ pending_timers (Close t) = ∅.
Proof.
  intros [H1 H2]. unfold Close, stop_timer. simpl.
  destruct (timer t) as [k|] eqn:E; simpl.
  - assert (pending_timers t ∖ {[k]} = ∅) as Hp.
    { apply set_eq. intros j. split; [|set_solver]. intros [Hj Hne]%elem_of_difference.
      apply H1 in Hj. assert (j = k) by congruence. set_solver. }
    split; [split; simpl; [rewrite Hp; set_solver|done]|done].
  - assert (pending_timers t = ∅) as Hp.
    { apply set_eq. intros j. split; [|set_solver]. intros Hj%H1. congruence. }
    split; [split; simpl; [rewrite Hp; set_solver|done]|done].
Qed.

Lemma one_timer_goto g p t : p ≠ FireStart → one_timer t → one_timer (goto g p t).
Proof.
  intros Hp [H1 H2]. split; [done|]. intros h q; simpl.
  intros [[<- <-]|[_ Hq]]%lookup_insert_Some; [done|by eapply H2].
Qed.
Lemma one_timer_leave g t : one_timer t → one_timer (leave g t).
Proof. intros [H1 H2]. split; [done|]. intros h q; simpl. intros [_ Hq]%lookup_delete_Some. by eapply H2. Qed.
Lemma one_timer_same t t' :
  one_timer t → timer t' = timer t → pending_timers t' = pending_timers t → threads t' = threads t →
  one_timer t'.
Proof. intros [H1 H2] E1 E2 E3. split; [by rewrite E1, E2|by rewrite E3]. Qed.

Lemma one_timer_step t t' : one_timer t → quiet_step t t' → one_timer t'.
Proof.
  intros Ht Hs. destruct Hs as [t t' g err H|t k g Hk Hg|t first g Hg|t].
  - revert H. unfold advance. destruct (threads t !! g) as [p|] eqn:Hg; [|done]. simpl.
    destruct p as [|first st|st|st|st|st| |st].
    + by destruct (proj2 Ht g _ Hg).
    + repeat case_match; intros [= <-]; [by apply one_timer_leave|by apply one_timer_goto..].
    + case_match; [done|]. intros [= <-]. apply one_timer_goto; [done|]. by apply (one_timer_same t).
    + case_match; intros [= <-]; [apply one_timer_leave; by apply (one_timer_same t)|].
      by apply one_timer_goto.
    + intros [= <-]. apply one_timer_goto; [by destruct err|]. by apply (one_timer_same t).
    + case_match; intros [= <-]; [apply one_timer_goto; [done|]|apply one_timer_leave];
        by apply (one_timer_same t).
    + intros [= <-]. apply one_timer_leave. by apply one_timer_Close.
    + intros [= <-]. apply one_timer_leave.
      destruct (arm_spec t) as [[-> _]|(_ & Hn & k & ->)]; [done|].
      destruct Ht as [H1 H2]. split; simpl; [|done]. intros j Hj. f_equal.
      apply elem_of_union in Hj as [?%elem_of_singleton|Hj]; [done|]. apply H1 in Hj. congruence.
  - destruct Ht as [H1 H2]. split; simpl.
    + intros j [Hj Hne]%elem_of_difference. apply H1 in Hj. apply H1 in Hk.
      assert (j = k) by congruence. set_solver.
    + intros h q [[<- <-]|[Hne Hq]]%lookup_insert_Some; [done|].
      rewrite lookup_insert_ne in Hq by done. by eapply H2.
  - unfold start. case_match; [done|]. apply one_timer_goto; [done|]. by apply (one_timer_same t).
  - by apply one_timer_Close.
Qed.

(** A schedule, executed. *)
Inductive action :=
| AAdvance (g : nat) (err : bool)
| AExpire (k g : nat)
| AStart (first : bool) (g : nat)
| AClose.
Definition act (a : action) (t : Task) : option Task :=
  match a with
  | AAdvance g err => advance g err t
  | AExpire k g =>
      if decide (k ∈ pending_timers t ∧ threads t !! g = None) then Some (expire k g t) else None
  | AStart first g => if decide (threads t !! g = None) then Some (start first g t) else None
  | AClose => Some (Close t)
  end.
Fixpoint acts (l : list action) (t : Task) : option Task :=
  match l with
  | [] => Some t
  | a :: l => t ← act a t; acts l t
  end.

Lemma acts_steps l t t' : acts l t = Some t' → steps task_step t t'.
Proof.
  revert t. induction l as [|a l IH]; intros t; simpl; [intros [= ->]; by apply steps_refl|].
  destruct (act a t) as [t1|] eqn:E; simpl; [|done]. intros Hl%IH. eapply steps_cons; [|exact Hl].
  destruct a as [g err|k g|first g|]; simpl in E.
  - by eapply ts_advance.
  - case_decide as H; [|done]. injection E as <-. by apply ts_expire; apply H.
  - case_decide as H; [|done]. injection E as <-. by apply ts_start.
  - injection E as <-. by apply ts_close.
Qed.

(** Start runs the body once, in goroutine 0, and arms timer 0. *)
Definition start_and_run : list action :=
  [AStart true 0; AAdvance 0 false; AAdvance 0 false; AAdvance 0 false; AAdvance 0 false;
   AAdvance 0 false].
(** Timer 0 expires in goroutine 1; before it goes on the task is closed and started
    again, in goroutine 2. *)
Definition restart_in_gap : list action :=
  [AExpire 0 1; AClose; AStart false 2; AAdvance 2 false; AAdvance 2 false;
   AAdvance 1 false; AAdvance 1 false; AAdvance 1 false; AAdvance 1 false; AAdvance 1 false;
   AAdvance 1 false].
(** The state a schedule leads to. *)
Definition after (l : list action) : Task := default NewTask (acts l NewTask).

(** * The theorems *)

(** (C19) Whatever the order of starts, closes, expiries and the accesses of the
    goroutines: two bodies of a task never run at the same time, and a task that is
    running and has no goroutine at work has a timer that will wake it. *)
Theorem task_exclusive_and_alive (t : Task) :
  steps task_step NewTask t →
  (∀ g h sg sh, threads t !! g = Some (Body sg) → threads t !! h = Some (Body sh) → g = h) ∧
  (running t = true → threads t = ∅ → pending_timers t ≠ ∅).
Proof.
  intros [He Ha]%task_reachable. split.
  - intros g h sg sh Hg Hh. pose proof (He g _ Hg I). pose proof (He h _ Hh I). congruence.
  - intros Hr Ht. by destruct (ai_running t Ha Hr).
Qed.

Lemma task_exclusive_and_alive_witness :
  running (after start_and_run) = true ∧ pending_timers (after start_and_run) ≠ ∅.
Proof.
  assert (acts start_and_run NewTask = Some (after start_and_run)) as E by (vm_compute; reflexivity).
  split; [by vm_compute|].
  apply (task_exclusive_and_alive _ (acts_steps _ _ _ E)); by vm_compute.
Defined.

(** As long as no call comes between the expiry of a timer and the first access of
    its [fire], a task has at most one timer and [Close] stops it.  Otherwise it has not:
    when the task is closed and started again in that gap, [fire] forgets the timer that
    was just armed and arms another, the task runs twice per interval from then on, and
    [Close] leaves one of the two timers. *)
Theorem task_timers :
  (∀ t, steps quiet_step NewTask t →
     (∀ j k, j ∈ pending_timers t → k ∈ pending_timers t → j = k) ∧
     pending_timers (Close t) = ∅) ∧
  (∃ t, steps task_step NewTask t ∧ running t = true ∧ threads t = ∅ ∧
     size (pending_timers t) = 2 ∧ pending_timers (Close t) ≠ ∅).
Proof.
  split.
  - intros t Ht. apply (steps_invariant quiet_step one_timer _ _ one_timer_step) in Ht.
    + split; [|by apply one_timer_Close]. intros j k Hj%Ht Hk%Ht. congruence.
    + split; [set_solver|]. intros g p. simpl. by rewrite lookup_empty.
  - assert (acts (start_and_run ++ restart_in_gap) NewTask
      = Some (after (start_and_run ++ restart_in_gap))) as E by (vm_compute; reflexivity).
    exists (after (start_and_run ++ restart_in_gap)). split; [by eapply acts_steps|].
    split_and!; by vm_compute.
Qed.
