(* ===== verification/PanelUser.v ===== *)
(** api/panel: the client of the panel, and its user endpoints (panel.go, utils.go,
    user.go).

    The panel is a state [S] and its answers: the client is a function that passes
    that state along.  The HTTP library answers with a response, whose raw part may be
    missing, and an error; the JSON decoders are parameters, one per target type.  What
    the client sends is kept as data and not as text. *)
From S2P Require Import Prelude GoStrings PanelTypes Conf.
#[local] Open Scope string_scope.
#[local] Open Scope Z_scope.

Record Client := MkClient {
  pc_PanelType : string;
  pc_APIHost : string;
  pc_Token : string;
  pc_NodeType : string;
  pc_NodeId : Z;
  pc_nodeEtag : string;
  pc_userEtag : string;
  pc_responseBodyHash : string;
  (** A nil list inside the [UserListBody] is [None]. *)
  pc_UserList : option (list UserInfo);
  pc_AliveMap : gmap Z Z
}.
Definition set_user_list (u : option (list UserInfo)) (etag : string) (c : Client) : Client :=
  MkClient (pc_PanelType c) (pc_APIHost c) (pc_Token c) (pc_NodeType c) (pc_NodeId c)
    (pc_nodeEtag c) etag (pc_responseBodyHash c) u (pc_AliveMap c).
Definition set_alive_map (m : gmap Z Z) (c : Client) : Client :=
  MkClient (pc_PanelType c) (pc_APIHost c) (pc_Token c) (pc_NodeType c) (pc_NodeId c)
    (pc_nodeEtag c) (pc_userEtag c) (pc_responseBodyHash c) (pc_UserList c) m.
Definition set_node_cache (etag hash : string) (c : Client) : Client :=
  MkClient (pc_PanelType c) (pc_APIHost c) (pc_Token c) (pc_NodeType c) (pc_NodeId c)
    etag (pc_userEtag c) hash (pc_UserList c) (pc_AliveMap c).

(** * panel.go *)

(** The settings of an HTTP client. *)
Record panelClient := MkPanelClient {
  hc_RetryCount : Z; hc_Timeout : Z; hc_BaseURL : string; hc_QueryParams : gmap string string
}.
Definition newPanelClient (c : ApiConfig) (retry : bool) : panelClient :=
  MkPanelClient (if retry then 3 else 0)
    (if bool_decide (0 < ac_Timeout c) then wrap64 (ac_Timeout c * Second) else 5 * Second)
    (ac_APIHost c)
    (if decide (ac_PanelType c = "ppanel") then
       {["protocol" := ac_NodeType c; "server_id" := Itoa (ac_NodeID c); "secret_key" := ac_Key c]}
     else
       {["node_type" := ac_NodeType c; "node_id" := Itoa (ac_NodeID c); "token" := ac_Key c]}).

Definition node_types : list string :=
  ["vmess"; "trojan"; "shadowsocks"; "hysteria"; "hysteria2"; "tuic"; "anytls"; "naive"; "vless"].
Definition with_NodeType (t : string) (c : ApiConfig) : ApiConfig :=
  MkApiConfig (ac_PanelType c) (ac_APIHost c) (ac_NodeID c) (ac_Key c) t (ac_Timeout c)
    (ac_RuleListPath c).

(** The client, and its two HTTP clients. *)
Definition New (c : ApiConfig) : result (Client * panelClient * panelClient) :=
  let t := ToLower (ac_NodeType c) in
  let t := if decide (t = "v2ray") then "vmess" else t in
  let c := with_NodeType t c in
  if decide (t ∈ node_types) then
    Ok (MkClient (ac_PanelType c) (ac_APIHost c) (ac_Key c) t (ac_NodeID c) "" "" "" None ∅,
        newPanelClient c true, newPanelClient c false)
  else Err ("unsupported Node type: " ++ t).

(** * utils.go *)

Record response := MkResponse { rs_Status : Z; rs_Body : string; rs_ETag : string }.
(** A resty response: [None] when the raw response is missing; its status is then 0. *)
Record http_result := MkHttpResult { hr_resp : option response; hr_err : option string }.
Definition StatusCode (r : http_result) : Z :=
  match hr_resp r with Some p => rs_Status p | None => 0 end.
Definition Body (r : http_result) : string :=
  match hr_resp r with Some p => rs_Body p | None => "" end.
Definition ETag (r : http_result) : string :=
  match hr_resp r with Some p => rs_ETag p | None => "" end.

Definition assembleURL (c : Client) (path : string) : string :=
  let base := TrimRight (pc_APIHost c) "/" in
  let path := if HasPrefix path "/" then path else "/" ++ path in
  base ++ path.

Definition checkResponse (c : Client) (path : string) (r : http_result) : option string :=
  match hr_err r with
  | Some e => Some ("request " ++ assembleURL c path ++ " failed: " ++ e)
  | None =>
      if bool_decide (400 ≤ StatusCode r)
      then Some ("request " ++ assembleURL c path ++ " failed: " ++ Body r)
      else None
  end.

(** * user.go *)

Section client.
Context {S : Type}.
(** A GET with its If-None-Match header, a POST of the traffic report and a POST of
    the online devices. *)
Inductive push_body :=
| PushList (l : list (Z * Z * Z))
| PushMap (m : gmap string (Z * Z)).
Inductive alive_body :=
| AliveRaw (m : gmap string (list string))
| AliveWrapped (m : gmap string (list string)).
Context (http_get : string → string → S → http_result * S).
Context (http_push : string → push_body → S → http_result * S).
Context (http_alive : string → alive_body → S → http_result * S).

(** ** decodeAliveMap *)

Context (dec_alive : string → result (option (gmap Z Z)))  (* into AliveMap *)
  (dec_int : string → result (gmap Z Z))                   (* map[int]int *)
  (dec_str : string → result (gmap string Z))              (* map[string]int *)
  (dec_any : string → result (gmap string any))            (* map[string]interface{} *)
  (dec_raw : string → result (gmap string string))         (* map[string]json.RawMessage *)
  (dec_users : string → result (option (list UserInfo))).  (* UserListBody *)
(** [int(f)] of a float64. *)
Context (int_of_float : spec_float → Z).

Definition str_entry (m : gmap Z Z) (kv : string * Z) : gmap Z Z :=
  match Atoi kv.1 with Some uid => <[uid := kv.2]> m | None => m end.
Definition any_entry (m : gmap Z Z) (kv : string * any) : gmap Z Z :=
  match Atoi kv.1 with
  | None => m
  | Some uid =>
      match kv.2 with
      | AFloat64 f => <[uid := int_of_float f]> m
      | AString s => match Atoi s with Some iv => <[uid := iv]> m | None => m end
      | _ => m
      end
  end.

(** The first of the ways to read the body that applies; [None]: out of fuel. *)
Fixpoint decodeAliveMap (fuel : nat) (body : string) : option (gmap Z Z) :=
  match fuel with
  | O => None
  | Datatypes.S fuel =>
      match dec_alive body with
      | Ok (Some m) => Some m
      | _ =>
      match dec_int body with
      | Ok m => if decide (m = ∅) then decode_str fuel body else Some m
      | Err _ => decode_str fuel body
      end end
  end
with decode_str (fuel : nat) (body : string) : option (gmap Z Z) :=
  match fuel with
  | O => None
  | Datatypes.S fuel =>
      match dec_str body with
      | Ok m => if decide (m = ∅) then decode_any fuel body
                else Some (foldl str_entry ∅ (map_to_list m))
      | Err _ => decode_any fuel body
      end
  end
with decode_any (fuel : nat) (body : string) : option (gmap Z Z) :=
  match fuel with
  | O => None
  | Datatypes.S fuel =>
      let alive := match dec_any body with
                   | Ok m => foldl any_entry ∅ (map_to_list m)
                   | Err _ => ∅
                   end in
      if decide (alive = ∅) then
        match dec_raw body with
        | Err _ => Some ∅
        | Ok payload =>
            first ← match payload !! "alive" with
                    | Some raw => decodeAliveMap fuel raw
                    | None => Some ∅
                    end;
            if decide (first = ∅) then
              match payload !! "data" with
              | Some raw => decodeAliveMap fuel raw
              | None => Some ∅
              end
            else Some first
        end
      else Some alive
  end.

(** Every level reads a part of the body before, so the length of the body bounds
    the depth; [decode_alive_total] in the theorems. *)
Definition decode_fuel (body : string) : nat := 3 * (String.length body + 1).

Fixpoint fetchAliveList (paths : list string) (s : S) : option (gmap Z Z) * S :=
  match paths with
  | [] => (Some ∅, s)
  | path :: paths =>
      let '(r, s) := http_get path "" s in
      match hr_err r, hr_resp r with
      | None, Some p =>
          if bool_decide (399 ≤ rs_Status p) then fetchAliveList paths s
          else (decodeAliveMap (decode_fuel (rs_Body p)) (rs_Body p), s)
      | _, _ => fetchAliveList paths s
      end
  end.

(** [Ok None] is a nil list: not modified, or a body without users. *)
Definition get_user_list (path : string) (c : Client) (s : S)
    : result (option (list UserInfo)) * Client * S :=
  let '(r, s) := http_get path (pc_userEtag c) s in
  match hr_resp r with
  | None => (Err "received nil response or raw response", c, s)
  | Some p =>
      if bool_decide (rs_Status p = 304) then (Ok None, c, s)
      else match checkResponse c path r with
           | Some e => (Err e, c, s)
           | None =>
               match dec_users (rs_Body p) with
               | Err e => (Err ("unmarshal user list error: " ++ e), c, s)
               | Ok users => (Ok users, set_user_list users (rs_ETag p) c, s)
               end
           end
  end.
Definition GetUserList (c : Client) : S → result (option (list UserInfo)) * Client * S :=
  get_user_list (if decide (pc_PanelType c = "ppanel") then "/v1/server/user"
                 else "/api/v1/server/UniProxy/user") c.

Definition alive_paths : list string :=
  ["/api/v1/server/UniProxy/alivelist"; "/api/v2/server/alivelist";
   "/api/v1/server/alivelist"; "/api/v2/server/alivelist"].
(** It never fails; [None] is a decoding that ran out of fuel. *)
Definition GetUserAlive (c : Client) (s : S) : option (gmap Z Z) * Client * S :=
  if decide (pc_PanelType c = "ppanel") then (Some ∅, set_alive_map ∅ c, s)
  else
    let '(m, s) := fetchAliveList alive_paths s in
    (m, set_alive_map (default ∅ m) c, s).

(** The report of a traffic list: one entry per key, the last one of a key wins. *)
Definition traffic_entry (m : gmap string (Z * Z)) (t : UserTraffic) : gmap string (Z * Z) :=
  <[(if decide (ut_Key t = "") then Itoa (ut_UID t) else ut_Key t) := (ut_Upload t, ut_Download t)]> m.
Definition push_paths : list string :=
  ["/api/v1/server/UniProxy/push"; "/api/v2/server/push"; "/api/v1/server/push"].
Fixpoint push_first (c : Client) (paths : list string) (data : push_body) (lastErr : option string)
    (s : S) : option string * S :=
  match paths with
  | [] => (lastErr, s)
  | path :: paths =>
      let '(r, s) := http_push path data s in
      match checkResponse c path r with
      | None => (None, s)
      | Some e =>
          if negb (bool_decide (StatusCode r = 404)) && negb (bool_decide (StatusCode r = 405))
          then (Some e, s)
          else push_first c paths data (Some e) s
      end
  end.
Definition ReportUserTraffic (c : Client) (userTraffic : list UserTraffic) (s : S)
    : option string * S :=
  if decide (pc_PanelType c = "ppanel") then
    let '(r, s) := http_push "/v1/server/push"
      (PushList (map (λ t, (ut_UID t, ut_Upload t, ut_Download t)) userTraffic)) s in
    (checkResponse c "/v1/server/push" r, s)
  else push_first c push_paths (PushMap (foldl traffic_entry ∅ userTraffic)) None s.

(** The devices by uid, and by uid and uuid. *)
Definition id_payload (data : gmap Z (list string)) : gmap string (list string) :=
  foldl (λ m kv, <[Itoa kv.1 := kv.2]> m) ∅ (map_to_list data).
Definition uid_to_uuid (users : option (list UserInfo)) : gmap Z string :=
  foldl (λ m u, if bool_decide (0 < ui_Id u) && negb (bool_decide (ui_Uuid u = ""))
                then <[ui_Id u := ui_Uuid u]> m else m) ∅ (default [] users).
Definition mixed_payload (users : option (list UserInfo)) (data : gmap Z (list string))
    : gmap string (list string) :=
  foldl (λ m kv, match uid_to_uuid users !! kv.1 with
                 | Some uuid => <[uuid := kv.2]> m
                 | None => m
                 end) (id_payload data) (map_to_list data).

(** Post the candidates in order until one is accepted; the last error otherwise. *)
Fixpoint post_first (c : Client) (posts : list (string * alive_body)) (lastErr : option string)
    (s : S) : option string * S :=
  match posts with
  | [] => (lastErr, s)
  | (path, body) :: posts =>
      let '(r, s) := http_alive path body s in
      match checkResponse c path r with
      | None => (None, s)
      | Some e => post_first c posts (Some e) s
      end
  end.
Definition ReportNodeOnlineUsers (c : Client) (data : gmap Z (list string)) (s : S)
    : option string * S :=
  let idp := id_payload data in
  let mixed := mixed_payload (pc_UserList c) data in
  if decide (pc_PanelType c = "ppanel") then
    let path := "/v1/server/online" in
    let posts := ([(path, AliveRaw idp); (path, AliveWrapped idp)] ++
      (if bool_decide (size mixed = size idp) then []
       else [(path, AliveRaw mixed); (path, AliveWrapped mixed)]))%list in
    let '(e, s) := post_first c posts None s in
    (match e with
     | None => None
     | Some _ => Some ("report online users failed on " ++ assembleURL c path)
     end, s)
  else
    post_first c [("/api/v1/server/UniProxy/alive", AliveRaw idp);
                  ("/api/v2/server/alive", AliveRaw idp);
                  ("/api/v2/server/report", AliveWrapped idp)] None s.
End client.

(** * Traffic is applied at most once *)

(** A panel that also keeps every traffic report it was sent with its answer. *)
Definition logged {S} (push : string → push_body → S → http_result * S) (path : string)
    (body : push_body) (s : S * list (string * push_body * http_result))
    : http_result * (S * list (string * push_body * http_result)) :=
  let '(r, s') := push path body s.1 in (r, (s', s.2 ++ [(path, body, r)])%list).

(** The endpoint is not there: the panel has applied nothing. *)
Definition not_there (r : http_result) : Prop := StatusCode r = 404 ∨ StatusCode r = 405.

Lemma push_first_log {S} (push : string → push_body → S → http_result * S) c paths data e0 s log :
  paths ≠ [] →
  ∃ tries last, let '(e, s') := push_first (logged push) c paths data e0 (s, log) in
    s'.2 = (log ++ tries ++ [last])%list ∧ Forall (λ t, not_there t.2) tries ∧
    Forall (λ t, t.1.2 = data) (tries ++ [last]) ∧
    e = checkResponse c last.1.1 last.2 ∧
    (e ≠ None → not_there last.2 → length (tries ++ [last]) = length paths).
Proof.
  revert e0 s log. induction paths as [|path paths IH]; intros e0 s log Hne; [done|]. simpl.
  unfold logged at 1. simpl. destruct (push path data s) as [r s1].
  destruct (checkResponse c path r) as [e|] eqn:E.
  2: { exists [], (path, data, r). by split_and!; repeat constructor. }
  destruct (decide (not_there r)) as [Hnt|Hnt].
  - assert (negb (bool_decide (StatusCode r = 404)) && negb (bool_decide (StatusCode r = 405)) = false)
      as ->.
    { destruct Hnt as [->| ->]; done. }
    destruct paths as [|path' paths].
    + exists [], (path, data, r). simpl. by split_and!; repeat constructor.
    + destruct (IH (Some e) s1 (log ++ [(path, data, r)])%list) as (tries & last & H); [done|].
      exists ((path, data, r) :: tries), last.
      destruct (push_first _ _ (path' :: paths) _ _ _) as [e' [s' log']].
      destruct H as (H1 & H2 & H3 & H4 & H5). simpl in H1. split_and!.
      * simpl. rewrite H1, <-(assoc_L app). done.
      * by constructor.
      * simpl. by constructor.
      * done.
      * intros Hn Hl. simpl. by rewrite H5.
  - assert (negb (bool_decide (StatusCode r = 404)) && negb (bool_decide (StatusCode r = 405)) = true)
      as ->.
    { rewrite !bool_decide_eq_false_2; [done|..]; intros ?; apply Hnt; [by right|by left]. }
    exists [], (path, data, r). simpl. by split_and!; repeat constructor.
Qed.

(** (C21) One report is applied by the panel at most once.  The candidates are tried in
    order with the same body, and another one is tried only after an answer 404 or 405,
    from an endpoint that is not there; the caller learns of success exactly when the
    last one tried accepted, and of an error after 404 or 405 only when all candidates
    were tried. *)
Theorem traffic_sent_once {S} (push : string → push_body → S → http_result * S) (c : Client)
    (traffic : list UserTraffic) (s : S) :
  ∃ body tries last, let '(e, s') := ReportUserTraffic (logged push) c traffic (s, []) in
    s'.2 = (tries ++ [last])%list ∧
    Forall (λ t, not_there t.2) tries ∧ Forall (λ t, t.1.2 = body) (tries ++ [last]) ∧
    e = checkResponse c last.1.1 last.2 ∧
    (pc_PanelType c ≠ "ppanel" → e ≠ None → not_there last.2 → length (tries ++ [last]) = 3%nat).
Proof.
  unfold ReportUserTraffic. case_decide as Hp.
  - unfold logged. simpl. destruct (push _ _ s) as [r s'].
    eexists _, [], (_, _, r). simpl. split_and!; by repeat constructor.
  - destruct (push_first_log push c push_paths (PushMap (foldl traffic_entry ∅ traffic)) None s [])
      as (tries & last & H); [done|].
    exists (PushMap (foldl traffic_entry ∅ traffic)), tries, last.
    destruct (push_first _ _ _ _ _ _) as [e s']. destruct H as (H1 & H2 & H3 & H4 & H5).
    by split_and!; [..|intros _].
Qed.

(** * Decoding the alive list *)

Section alive.
Context (dec_alive : string → result (option (gmap Z Z))) (dec_int : string → result (gmap Z Z))
  (dec_str : string → result (gmap string Z)) (dec_any : string → result (gmap string any))
  (dec_raw : string → result (gmap string string)) (int_of_float : spec_float → Z).

#[local] Abbreviation dAlive := (decodeAliveMap dec_alive dec_int dec_str dec_any dec_raw int_of_float).
#[local] Abbreviation dStr := (decode_str dec_alive dec_int dec_str dec_any dec_raw int_of_float).
#[local] Abbreviation dAny := (decode_any dec_alive dec_int dec_str dec_any dec_raw int_of_float).

Lemma dAny_S fuel body : dAny (S fuel) body =
  let alive := match dec_any body with
               | Ok m => foldl (any_entry int_of_float) ∅ (map_to_list m)
               | Err _ => ∅
               end in
  if decide (alive = ∅) then
    match dec_raw body with
    | Err _ => Some ∅
    | Ok payload =>
        first ← match payload !! "alive" with Some raw => dAlive fuel raw | None => Some ∅ end;
        if decide (first = ∅) then
          match payload !! "data" with Some raw => dAlive fuel raw | None => Some ∅ end
        else Some first
    end
  else Some alive.
Proof. reflexivity. Qed.
Lemma dStr_S fuel body : dStr (S fuel) body =
  match dec_str body with
  | Ok m => if decide (m = ∅) then dAny fuel body else Some (foldl str_entry ∅ (map_to_list m))
  | Err _ => dAny fuel body
  end.
Proof. reflexivity. Qed.
Lemma dAlive_S fuel body : dAlive (S fuel) body =
  match dec_alive body with
  | Ok (Some m) => Some m
  | _ => match dec_int body with
         | Ok m => if decide (m = ∅) then dStr fuel body else Some m
         | Err _ => dStr fuel body
         end
  end.
Proof. reflexivity. Qed.

(** Decoding the alive list ends for every body, as the value of a key of a JSON
    object is a shorter text than the object; what it falls back to when nothing can be
    read is the empty list, never an error. *)
Theorem decode_alive_total :
  (∀ body m k raw, dec_raw body = Ok m → m !! k = Some raw →
     (String.length raw < String.length body)%nat) →
  ∀ body, ∃ m, decodeAliveMap dec_alive dec_int dec_str dec_any dec_raw int_of_float
    (decode_fuel body) body = Some m.
Proof.
  intros Hraw body. unfold decode_fuel.
  assert (∀ n body, (String.length body < n)%nat → ∃ m, dAlive (3 * n) body = Some m) as H.
  2: { apply H. lia. }
  clear body. induction n as [|n IH]; intros body Hb; [lia|].
  replace (3 * S n)%nat with (S (S (S (3 * n)))) by lia. revert IH.
  generalize (3 * n)%nat as N. intros N IH.
  assert (∃ m, dAny (S N) body = Some m) as [m3 H3].
  { rewrite dAny_S. cbv zeta. case_decide; [|by eexists].
    destruct (dec_raw body) as [payload|] eqn:Ep; [|by eexists].
    assert (∀ k, ∃ m, match payload !! k with Some raw => dAlive N raw | None => Some ∅ end
      = Some m) as Hk.
    { intros k. destruct (payload !! k) as [raw|] eqn:Er; [|by eexists].
      apply IH. pose proof (Hraw _ _ _ _ Ep Er). lia. }
    destruct (Hk "alive") as [m1 H1]. rewrite H1. simpl. case_decide; [|by eexists].
    apply (Hk "data"). }
  assert (∃ m, dStr (S (S N)) body = Some m) as [m2 H2].
  { rewrite dStr_S, H3. destruct (dec_str body); [case_decide|]; by eexists. }
  rewrite dAlive_S, H2. destruct (dec_alive body) as [[m|]|]; [by eexists|..];
    (destruct (dec_int body); [case_decide|]; by eexists).
Qed.
End alive.

Lemma decode_alive_total_witness :
  ∃ m, decodeAliveMap (λ _, Err "") (λ _, Err "") (λ _, Err "") (λ _, Err "")
    (λ b, if decide (b = "xx") then Ok {["data" := "x"]} else Err "") (λ _, 0)
    (decode_fuel "xx") "xx" = Some m.
Proof.
  apply decode_alive_total. intros body m k raw. case_decide as E; [|done]. intros [= <-].
  intros [<- <-]%lookup_singleton_Some. subst body. simpl. lia.
Defined.

(** * The payloads *)

Lemma traffic_entries l m k :
  NoDup (map ut_UID l) → Forall (λ t, ut_Key t = "") l →
  foldl traffic_entry m l !! k =
    match list_find (λ t, Itoa (ut_UID t) = k) l with
    | Some (_, t) => Some (ut_Upload t, ut_Download t)
    | None => m !! k
    end.
Proof.
  revert m. induction l as [|t l IH]; intros m; [done|]. cbn [map foldl].
  intros [Ht Hnd]%NoDup_cons [Hk Hks]%Forall_cons. rewrite IH by done. simpl. unfold traffic_entry.
  rewrite decide_True by done. case_decide as E.
  - assert (list_find (λ t, Itoa (ut_UID t) = k) l = None) as ->.
    { apply list_find_None, Forall_forall. intros v Hv E'. apply Ht. subst k.
      apply (inj pretty) in E'. apply list_elem_of_fmap. by exists v. }
    subst k. apply lookup_insert_eq.
  - destruct (list_find _ l) as [[i v]|]; simpl; [done|]. by apply lookup_insert_ne.
Qed.

