(* ===== verification/PanelNode.v ===== *)
(** api/panel/node.go: the node configuration, its cache and its decoding.

    As in PanelUser.v the JSON decoders are parameters.  [hash] stands for the hex
    form of the SHA-256 of a body.  A failed type assertion, a nil pointer and an index
    out of range are panics, [None]. *)
From S2P Require Import Prelude GoStrings PanelTypes Conf PanelUser.
#[local] Open Scope string_scope.
#[local] Open Scope Z_scope.

(** * Normalized settings *)

Definition NormalizedEncryption (v : option VAllssNode) : string :=
  match v with None => "" | Some v => TrimSpace (va_Encryption v) end.
Definition NormalizedDecryption (v : option VAllssNode) : string :=
  match v with None => "" | Some v => TrimSpace (va_Decryption v) end.
Definition HasVlessOutboundEncryption (v : option VAllssNode) : bool :=
  match v with None => false | Some _ => negb (bool_decide (NormalizedEncryption v = "")) end.
Definition HasVlessInboundDecryption (v : option VAllssNode) : bool :=
  match v with None => false | Some _ => negb (bool_decide (NormalizedDecryption v = "")) end.
Definition HasVlessEncryption (v : option VAllssNode) : bool :=
  match v with
  | None => false
  | Some _ => HasVlessOutboundEncryption v || HasVlessInboundDecryption v
  end.

Fixpoint firstTrimmedString (values : list string) : string :=
  match values with
  | [] => ""
  | value :: values =>
      let value := TrimSpace value in
      if decide (value = "") then firstTrimmedString values else value
  end.

Definition or_string (primary fallback : string) : string :=
  if decide (primary = "") then fallback else primary.
Definition mergeECHSettings (primary fallback : ECHSettings) : ECHSettings :=
  MkECHSettings (ech_Enabled primary || ech_Enabled fallback)
    (or_string (ech_Config primary) (ech_Config fallback))
    (or_string (ech_ConfigList primary) (ech_ConfigList fallback))
    (or_string (ech_ForceQuery primary) (ech_ForceQuery fallback))
    (or_string (ech_QueryServerName primary) (ech_QueryServerName fallback))
    (or_string (ech_PrivateKey primary) (ech_PrivateKey fallback))
    (or_string (ech_ServerKeys primary) (ech_ServerKeys fallback)).

(** The fields of the JSON object, each in its four spellings. *)
Record echSettingsJSON := MkEchSettingsJSON {
  ej_Enabled : bool;
  ej_Config : string;
  ej_ConfigList : list string;
  ej_ForceQuery : list string;
  ej_QueryServerName : list string;
  ej_PrivateKey : list string;
  ej_ServerKeys : list string
}.
Definition ECHSettings_UnmarshalJSON (dec : string → result echSettingsJSON) (data : string)
    : result ECHSettings :=
  aux ← dec data;
  Ok (MkECHSettings (ej_Enabled aux) (TrimSpace (ej_Config aux))
        (firstTrimmedString (ej_ConfigList aux)) (firstTrimmedString (ej_ForceQuery aux))
        (firstTrimmedString (ej_QueryServerName aux)) (firstTrimmedString (ej_PrivateKey aux))
        (firstTrimmedString (ej_ServerKeys aux))).

(** The decoders of the four types tried; [format_float] prints a float64. *)
Definition decodeStringOrNumber (dec_string : string → result string)
    (dec_int64 dec_uint64 : string → result Z) (dec_float : string → result spec_float)
    (format_float : spec_float → string) (raw : string) : result string :=
  if decide (raw = "" ∨ raw = "null") then Ok ""
  else match dec_string raw with
  | Ok s => Ok (TrimSpace s)
  | Err _ => match dec_int64 raw with
  | Ok i => Ok (Itoa i)
  | Err _ => match dec_uint64 raw with
  | Ok u => Ok (Itoa u)
  | Err _ => match dec_float raw with
  | Ok f => Ok (format_float f)
  | Err _ => Err ("unsupported value: " ++ raw)
  end end end end.

Record tlsSettingsJSON := MkTlsSettingsJSON {
  tj_ServerName : string; tj_Dest : string; tj_ServerPort : string; tj_ShortId : string;
  tj_PrivateKey : string; tj_Xver : Z; tj_ECH : ECHSettings
}.
Definition TlsSettings_UnmarshalJSON (dec : string → result tlsSettingsJSON)
    (port : string → result string) (data : string) : result TlsSettings :=
  aux ← dec data;
  match port (tj_ServerPort aux) with
  | Err e => Err ("decode tls server_port error: " ++ e)
  | Ok serverPort =>
      Ok (MkTlsSettings (tj_ServerName aux) (tj_Dest aux) serverPort (tj_ShortId aux)
            (tj_PrivateKey aux) (tj_Xver aux) (tj_ECH aux))
  end.

(** * Intervals *)

(** The conversion of a float to int64 as amd64 does it: towards zero, and the
    least value for what does not fit. *)
Definition trunc_float (f : spec_float) : Z :=
  match f with
  | S754_zero _ => 0
  | S754_infinity _ | S754_nan => int64_min
  | S754_finite neg m e =>
      let a := if bool_decide (0 ≤ e) then Z.pos m * 2 ^ e else Z.pos m / 2 ^ (- e) in
      let z := if neg then - a else a in
      if bool_decide (int64_min ≤ z) && bool_decide (z ≤ int64_max) then z else int64_min
  end.

Definition intervalToTime (i : any) : Z :=
  match i with
  | ANil => 0
  | AInt v | AInt64 v => wrap64 (v * Second)
  | AFloat64 f | AFloat32 f => wrap64 (trunc_float f * Second)
  | AString s => wrap64 (Atoi_saturated (TrimSpace s) * Second)
  | AIntKind v | AUintKind v => wrap64 (v * Second)
  | ABool _ | AStrings _ | ASlice _ | AMap _ => 0
  end.

(** * Routes *)

(** The matches of a route; a value of another type fails the assertion. *)
Definition route_matches (m : any) : option (list string) :=
  match m with
  | AString s => Some (Split s ",")
  | AStrings l => Some l
  | ASlice l => mapM (λ v, match v with AString s => Some s | _ => panic end) l
  | _ => panic
  end.

Definition add_rule (r : Rules) (v : string) : Rules :=
  if HasPrefix v "protocol:"
  then MkRules (ru_Regexp r) (ru_Protocol r ++ [TrimPrefix v "protocol:"])
  else MkRules (ru_Regexp r ++ [TrimPrefix v "regexp:"]) (ru_Protocol r).

Definition add_route (i : Z) (rt : Route) (st : Rules * RawDNS) : option (Rules * RawDNS) :=
  let '(rules, dns) := st in
  matchs ← route_matches (rt_Match rt);
  if decide (rt_Action rt = "block") then Some (foldl add_rule rules matchs, dns)
  else if decide (rt_Action rt = "dns") then
    match matchs with
    | [] => panic
    | m0 :: rest =>
        if decide (m0 = "main") then
          Some (rules, MkRawDNS (rd_DNSMap dns) (String.concat "" rest))
        else
          Some (rules, MkRawDNS (<[Itoa i := MkDNSEntry (rt_ActionValue rt) matchs]> (rd_DNSMap dns))
                         (rd_DNSJson dns))
    end
  else Some (rules, dns).

Fixpoint add_routes (i : Z) (rts : list Route) (st : Rules * RawDNS) : option (Rules * RawDNS) :=
  match rts with
  | [] => Some st
  | rt :: rts => st ← add_route i rt st; add_routes (i + 1) rts st
  end.

(** * The node *)

Definition tls_or (t : TlsSettings) (back : option TlsSettings) : TlsSettings := default t back.
Definition with_ECH (t : TlsSettings) (e : ECHSettings) : TlsSettings :=
  MkTlsSettings (ts_ServerName t) (ts_Dest t) (ts_ServerPort t) (ts_ShortId t) (ts_PrivateKey t)
    (ts_Xver t) e.

(** The settings under their other names replace the ones under the first; [net]
    says whether the network settings do so too. *)
Definition settle_vallss (net : bool) (v : VAllssNode) : VAllssNode :=
  let t := tls_or (va_TlsSettings v) (va_TlsSettingsBack v) in
  let over := net && negb (bool_decide (va_NetworkSettingsBack v = "")) in
  MkVAllssNode (va_Common v) (va_Tls v) (with_ECH t (mergeECHSettings (ts_ECH t) (va_ECH v))) None
    (va_ECH v) (va_Network v)
    (if over then va_NetworkSettingsBack v else va_NetworkSettings v)
    (if over then "" else va_NetworkSettingsBack v)
    (va_ServerName v) (va_Encryption v) (va_Decryption v) (va_Flow v) (va_RealityConfig v).
Definition settle_trojan (v : TrojanNode) : TrojanNode :=
  let t := tls_or (tn_TlsSettings v) (tn_TlsSettingsBack v) in
  let over := negb (bool_decide (tn_NetworkSettingsBack v = "")) in
  MkTrojanNode (tn_Common v) (tn_Network v)
    (if over then tn_NetworkSettingsBack v else tn_NetworkSettings v)
    (if over then "" else tn_NetworkSettingsBack v)
    (with_ECH t (mergeECHSettings (ts_ECH t) (tn_ECH v))) None (tn_ECH v).
Definition settle_anytls (v : AnyTLSNode) : AnyTLSNode :=
  MkAnyTLSNode (an_Common v) (an_PaddingScheme v) (an_Tls v)
    (tls_or (an_TlsSettings v) (an_TlsSettingsBack v)) None (an_RealityConfig v).
Definition settle_naive (v : NaiveNode) : NaiveNode :=
  MkNaiveNode (nn_Common v) (nn_Network v) (nn_NetworkSettings v) (nn_NetworkSettingsBack v)
    (nn_Tls v) (tls_or (nn_TlsSettings v) (nn_TlsSettingsBack v)) None.

(** What the two branches start from. *)
Definition node_start (c : Client) : NodeInfo :=
  MkNodeInfo (pc_NodeId c) (pc_NodeType c) "" SecNone 0 0 (MkRawDNS ∅ "") (MkRules [] []) ""
    None None None None None None None None None None.

(** The section of the node that its protocol fills. *)
Inductive section :=
| SVAllss (v : VAllssNode)
| SShadowsocks (v : ShadowsocksNode)
| STrojan (v : TrojanNode)
| STuic (v : TuicNode)
| SAnyTLS (v : AnyTLSNode)
| SNaive (v : NaiveNode)
| SHysteria (v : HysteriaNode)
| SHysteria2 (v : Hysteria2Node).

Definition with_section (n : NodeInfo) (typ : string) (security : Z) (s : section) : NodeInfo :=
  MkNodeInfo (ni_Id n) typ (ni_Protocol n) security (ni_PushInterval n)
    (ni_PullInterval n) (ni_RawDNS n) (ni_Rules n) (ni_Config n)
    (match s with SVAllss v => Some v | _ => ni_VAllss n end)
    (match s with SShadowsocks v => Some v | _ => ni_Shadowsocks n end)
    (match s with STrojan v => Some v | _ => ni_Trojan n end)
    (match s with STuic v => Some v | _ => ni_Tuic n end)
    (match s with SAnyTLS v => Some v | _ => ni_AnyTLS n end)
    (match s with SNaive v => Some v | _ => ni_Naive n end)
    (match s with SHysteria v => Some v | _ => ni_Hysteria n end)
    (match s with SHysteria2 v => Some v | _ => ni_Hysteria2 n end)
    (ni_Common n) (ni_Basic n).

Definition CommonNode_zero : CommonNode := MkCommonNode "" 0 "" [] None.
(** [cm.Routes = nil; cm.BaseConfig = nil]. *)
Definition clear_common (cm : CommonNode) : CommonNode :=
  MkCommonNode (cn_Host cm) (cn_ServerPort cm) (cn_ServerName cm) [] None.
Definition section_common (s : section) : CommonNode :=
  match s with
  | SVAllss v => va_Common v | SShadowsocks v => sn_Common v | STrojan v => tn_Common v
  | STuic v => tu_Common v | SAnyTLS v => an_Common v | SNaive v => nn_Common v
  | SHysteria v => hy_Common v | SHysteria2 v => h2_Common v
  end.
(** [cm] points into the section, which sees the fields cleared. *)
Definition clear_section (s : section) : section :=
  match s with
  | SVAllss v => SVAllss (MkVAllssNode (clear_common (va_Common v)) (va_Tls v) (va_TlsSettings v)
      (va_TlsSettingsBack v) (va_ECH v) (va_Network v) (va_NetworkSettings v)
      (va_NetworkSettingsBack v) (va_ServerName v) (va_Encryption v) (va_Decryption v) (va_Flow v)
      (va_RealityConfig v))
  | SShadowsocks v => SShadowsocks (MkShadowsocksNode (clear_common (sn_Common v)) (sn_Cipher v)
      (sn_ServerKey v))
  | STrojan v => STrojan (MkTrojanNode (clear_common (tn_Common v)) (tn_Network v)
      (tn_NetworkSettings v) (tn_NetworkSettingsBack v) (tn_TlsSettings v) (tn_TlsSettingsBack v)
      (tn_ECH v))
  | STuic v => STuic (MkTuicNode (clear_common (tu_Common v)) (tu_CongestionControl v)
      (tu_ZeroRTTHandshake v))
  | SAnyTLS v => SAnyTLS (MkAnyTLSNode (clear_common (an_Common v)) (an_PaddingScheme v)
      (an_Tls v) (an_TlsSettings v) (an_TlsSettingsBack v) (an_RealityConfig v))
  | SNaive v => SNaive (MkNaiveNode (clear_common (nn_Common v)) (nn_Network v)
      (nn_NetworkSettings v) (nn_NetworkSettingsBack v) (nn_Tls v) (nn_TlsSettings v)
      (nn_TlsSettingsBack v))
  | SHysteria v => SHysteria (MkHysteriaNode (clear_common (hy_Common v)) (hy_UpMbps v)
      (hy_DownMbps v) (hy_Obfs v))
  | SHysteria2 v => SHysteria2 (MkHysteria2Node (clear_common (h2_Common v))
      (h2_Ignore_Client_Bandwidth v) (h2_UpMbps v) (h2_DownMbps v) (h2_ObfsType v)
      (h2_ObfsPassword v))
  end.

Section node.
Context {S : Type} (http_get : string → string → S → http_result * S).
Context (hash : string → string).
(** Decoding into a node, and into each of the sections. *)
Context (dec_node : string → NodeInfo → result NodeInfo).
Context (dec_vallss : string → result VAllssNode) (dec_shadowsocks : string → result ShadowsocksNode)
  (dec_trojan : string → result TrojanNode) (dec_tuic : string → result TuicNode)
  (dec_anytls : string → result AnyTLSNode) (dec_naive : string → result NaiveNode)
  (dec_hysteria : string → result HysteriaNode) (dec_hysteria2 : string → result Hysteria2Node).

(** The section of a ppanel protocol and the security, when it is set. *)
Definition ppanel_section (protocol config : string) (security : Z) : result (section * Z) :=
  if decide (protocol = "vmess" ∨ protocol = "vless") then
    v ← dec_vallss config; let v := settle_vallss false v in Ok (SVAllss v, va_Tls v)
  else if decide (protocol = "trojan") then
    v ← dec_trojan config; Ok (STrojan (settle_trojan v), SecTls)
  else if decide (protocol = "shadowsocks") then
    v ← dec_shadowsocks config; Ok (SShadowsocks v, security)
  else if decide (protocol = "tuic") then v ← dec_tuic config; Ok (STuic v, security)
  else if decide (protocol = "hysteria2") then v ← dec_hysteria2 config; Ok (SHysteria2 v, security)
  else if decide (protocol = "anytls") then
    v ← dec_anytls config; let v := settle_anytls v in Ok (SAnyTLS v, an_Tls v)
  else if decide (protocol = "naive") then
    v ← dec_naive config; let v := settle_naive v in Ok (SNaive v, nn_Tls v)
  else Err ("unknown protocol:" ++ protocol).

Definition with_intervals (b : option BaseConfig) (n : NodeInfo) : NodeInfo :=
  match b with
  | None => n
  | Some b =>
      MkNodeInfo (ni_Id n) (ni_Type n) (ni_Protocol n) (ni_Security n)
        (intervalToTime (bc_PushInterval b)) (intervalToTime (bc_PullInterval b)) (ni_RawDNS n)
        (ni_Rules n) (ni_Config n) (ni_VAllss n) (ni_Shadowsocks n) (ni_Trojan n) (ni_Tuic n)
        (ni_AnyTLS n) (ni_Naive n) (ni_Hysteria n) (ni_Hysteria2 n) (ni_Common n) (ni_Basic n)
  end.
Definition with_common (cm : option CommonNode) (rules : Rules) (dns : RawDNS) (n : NodeInfo) : NodeInfo :=
  MkNodeInfo (ni_Id n) (ni_Type n) (ni_Protocol n) (ni_Security n) (ni_PushInterval n)
    (ni_PullInterval n) dns rules (ni_Config n) (ni_VAllss n) (ni_Shadowsocks n) (ni_Trojan n)
    (ni_Tuic n) (ni_AnyTLS n) (ni_Naive n) (ni_Hysteria n) (ni_Hysteria2 n) cm (ni_Basic n).

Definition ppanel_node (c : Client) (body : string) : result NodeInfo :=
  let start := with_common (Some CommonNode_zero) (MkRules [] []) (MkRawDNS ∅ "") (node_start c) in
  match dec_node body start with
  | Err e => Err ("decode node params error: " ++ e)
  | Ok node =>
      let node := with_intervals (ni_Basic node) node in
      match ppanel_section (ni_Protocol node) (ni_Config node) (ni_Security node) with
      | Err e => Err ("decode node config error: " ++ e)
      | Ok (s, security) => Ok (with_section node (ni_Protocol node) security s)
      end
  end.

(** The error of a section that does not decode. *)
Definition decoding (what : string) {A} (r : result A) : result A :=
  match r with Ok a => Ok a | Err e => Err ("decode " ++ what ++ " params error: " ++ e) end.
Definition uniproxy_section (typ body : string) : result (section * Z) :=
  if decide (typ = "vmess" ∨ typ = "vless") then
    v ← decoding "v2ray" (dec_vallss body); let v := settle_vallss true v in Ok (SVAllss v, va_Tls v)
  else if decide (typ = "shadowsocks") then
    v ← decoding "shadowsocks" (dec_shadowsocks body); Ok (SShadowsocks v, SecNone)
  else if decide (typ = "trojan") then
    v ← decoding "trojan" (dec_trojan body); Ok (STrojan (settle_trojan v), SecTls)
  else if decide (typ = "tuic") then v ← decoding "tuic" (dec_tuic body); Ok (STuic v, SecTls)
  else if decide (typ = "anytls") then
    v ← decoding "anytls" (dec_anytls body); let v := settle_anytls v in Ok (SAnyTLS v, an_Tls v)
  else if decide (typ = "naive") then
    v ← decoding "naive" (dec_naive body); let v := settle_naive v in Ok (SNaive v, nn_Tls v)
  else if decide (typ = "hysteria") then
    v ← decoding "hysteria" (dec_hysteria body); Ok (SHysteria v, SecTls)
  else if decide (typ = "hysteria2") then
    v ← decoding "hysteria2" (dec_hysteria2 body); Ok (SHysteria2 v, SecTls)
  else Err ("unsupported node type: " ++ typ).

Definition uniproxy_node (c : Client) (body : string) : option (result NodeInfo) :=
  match uniproxy_section (pc_NodeType c) body with
  | Err e => Some (Err e)
  | Ok (s, security) =>
      let cm := section_common s in
      '(rules, dns) ← add_routes 0 (cn_Routes cm) (MkRules [] [], MkRawDNS ∅ "");
      let node := with_section (node_start c) (pc_NodeType c) security (clear_section s) in
      let node := with_intervals (cn_BaseConfig cm) node in
      Some (Ok (with_common (Some (clear_common cm)) rules dns node))
  end.

(** The request and the cache: the hash and the ETag are stored before the response
    is checked.  [Ok None] is "not modified". *)
Definition GetNodeInfo (c : Client) (s : S) : option (result (option NodeInfo) * Client * S) :=
  let ppanel := bool_decide (pc_PanelType c = "ppanel") in
  let path := if ppanel then "/v1/server/config" else "/api/v1/server/UniProxy/config" in
  let '(r, s) := http_get path (pc_nodeEtag c) s in
  if bool_decide (StatusCode r = 304) then Some (Ok None, c, s)
  else
    let newBodyHash := hash (Body r) in
    if decide (pc_responseBodyHash c = newBodyHash) then Some (Ok None, c, s)
    else
      let c := set_node_cache (ETag r) newBodyHash c in
      match checkResponse c path r with
      | Some e => Some (Err e, c, s)
      | None =>
          n ← (if ppanel then Some (ppanel_node c (Body r)) else uniproxy_node c (Body r));
          Some (match n with Ok n => Ok (Some n) | Err e => Err e end, c, s)
      end.

Definition InvalidateNodeConfigCache (c : Client) : Client := set_node_cache "" "" c.

(** * ReportNodeStatus

    [http_status] posts a status; ppanel looks only at the error of the request. *)
Context {Status : Type} (http_status : string → Status → S → http_result * S).
Fixpoint status_first (c : Client) (paths : list string) (st : Status) (lastErr : option string)
    (s : S) : option string * S :=
  match paths with
  | [] => (lastErr, s)
  | path :: paths =>
      let '(r, s) := http_status path st s in
      match checkResponse c path r with
      | None => (None, s)
      | Some e => status_first c paths st (Some e) s
      end
  end.
Definition ReportNodeStatus (c : Client) (st : Status) (s : S) : option string * S :=
  if decide (pc_PanelType c = "ppanel") then
    let '(r, s) := http_status "/v1/server/status" st s in
    (match hr_err r with
     | Some e => Some ("request " ++ assembleURL c "/v1/server/status" ++ " failed: " ++ e)
     | None => None
     end, s)
  else status_first c ["/api/v1/server/UniProxy/status"; "/api/v2/server/status"] st None s.
End node.

(** * Properties *)

(** Where the client asks for the node. *)
Definition node_path (c : Client) : string :=
  if bool_decide (pc_PanelType c = "ppanel") then "/v1/server/config"
  else "/api/v1/server/UniProxy/config".

Section node_cache.
Context {S : Type} (http_get : string → string → S → http_result * S) (hash : string → string)
  (dec_node : string → NodeInfo → result NodeInfo) (dec_vallss : string → result VAllssNode)
  (dec_ss : string → result ShadowsocksNode) (dec_trojan : string → result TrojanNode)
  (dec_tuic : string → result TuicNode) (dec_anytls : string → result AnyTLSNode)
  (dec_naive : string → result NaiveNode) (dec_hy : string → result HysteriaNode)
  (dec_hy2 : string → result Hysteria2Node).
(** The request, with its parameters. *)
Definition fetch (c : Client) (s : S) : option (result (option NodeInfo) * Client * S) :=
  GetNodeInfo http_get hash dec_node dec_vallss dec_ss dec_trojan dec_tuic dec_anytls dec_naive
    dec_hy dec_hy2 c s.
(** The answer to the request of a client. *)
#[local] Abbreviation answer c s := (http_get (node_path c) (pc_nodeEtag c) s).

(** The node of a body that is new and fine. *)
Definition decode_node (c : Client) (body : string) : option (result NodeInfo) :=
  if bool_decide (pc_PanelType c = "ppanel")
  then Some (ppanel_node dec_node dec_vallss dec_ss dec_trojan dec_tuic dec_anytls dec_naive dec_hy2 c body)
  else uniproxy_node dec_vallss dec_ss dec_trojan dec_tuic dec_anytls dec_naive dec_hy dec_hy2 c body.

Lemma decode_node_cache e h c body : decode_node (set_node_cache e h c) body = decode_node c body.
Proof. reflexivity. Qed.

Lemma get_eq c s :
  fetch c s =
    if bool_decide (StatusCode (answer c s).1 = 304) then Some (Ok None, c, (answer c s).2)
    else if decide (pc_responseBodyHash c = hash (Body (answer c s).1))
         then Some (Ok None, c, (answer c s).2)
    else
      let c' := set_node_cache (ETag (answer c s).1) (hash (Body (answer c s).1)) c in
      match checkResponse c (node_path c) (answer c s).1 with
      | Some e => Some (Err e, c', (answer c s).2)
      | None =>
          n ← decode_node c (Body (answer c s).1);
          Some (match n with Ok n => Ok (Some n) | Err e => Err e end, c', (answer c s).2)
      end.
Proof.
  unfold fetch, GetNodeInfo, decode_node, node_path.
  by destruct (http_get _ (pc_nodeEtag c) s) as [r s1].
Qed.

Lemma get_cached c s n c' s1 :
  fetch c s = Some (n, c', s1) →
  n = Ok None ∨ StatusCode (answer c s).1 ≠ 304 ∧
    c' = set_node_cache (ETag (answer c s).1) (hash (Body (answer c s).1)) c.
Proof.
  rewrite get_eq. case_bool_decide; [by intros [= <- _ _]; left|].
  case_decide; [by intros [= <- _ _]; left|]. cbv zeta.
  destruct (checkResponse _ _ _); [by intros [= _ <- _]; right|].
  destruct (decode_node _ _) as [r|]; simpl; [|done]. intros [= _ <- _]. by right.
Qed.

(** The hash and the ETag of a response are cached before the response is checked
    and decoded.  So an error, of the panel or of the decoding, is reported once: the same
    body, sent again, is "not modified", the caller is told that all is well and the node
    keeps its old configuration.  And once a different error page came in between, the
    configuration the node already runs is delivered again as a new one. *)
Theorem node_error_reported_once (c c' : Client) (s s1 : S) :
  (∀ e, fetch c s = Some (Err e, c', s1) →
     ∀ s2, Body (answer c' s2).1 = Body (answer c s).1 →
       fetch c' s2 = Some (Ok None, c', (answer c' s2).2)) ∧
  (∀ n s2 s3, fetch c s = Some (Ok (Some n), c', s1) → Inj (=) (=) hash →
     400 ≤ StatusCode (answer c' s2).1 → Body (answer c' s2).1 ≠ Body (answer c s).1 →
     ∃ e c2, fetch c' s2 = Some (Err e, c2, (answer c' s2).2) ∧
       ((answer c2 s3).1 = (answer c s).1 →
        ∃ c3, fetch c2 s3 = Some (Ok (Some n), c3, (answer c2 s3).2))).
Proof.
  split.
  - intros e H s2 Hb. apply get_cached in H as [?|[_ ->]]; [done|]. rewrite get_eq.
    case_bool_decide; [done|]. rewrite decide_True; [done|]. simpl. simpl in Hb. by rewrite Hb.
  - intros n s2 s3 H Hinj Hst Hb. pose proof H as H0.
    apply get_cached in H0 as [?|[Hs ->]]; [done|].
    set (c' := set_node_cache (ETag (answer c s).1) (hash (Body (answer c s).1)) c) in *.
    set (c2 := set_node_cache (ETag (answer c' s2).1) (hash (Body (answer c' s2).1)) c').
    assert (∃ e, checkResponse c' (node_path c') (answer c' s2).1 = Some e) as [e He].
    { unfold checkResponse. destruct (hr_err _); [by eexists|].
      rewrite bool_decide_eq_true_2 by done. by eexists. }
    exists e, c2. split.
    + rewrite get_eq. rewrite bool_decide_eq_false_2 by lia.
      rewrite decide_False; [by rewrite He|]. simpl. intros E%Hinj. by apply Hb.
    + intros Ha. rewrite get_eq in H. rewrite bool_decide_eq_false_2 in H by done.
      case_decide; [done|]. cbv zeta in H.
      rewrite get_eq, Ha. rewrite bool_decide_eq_false_2 by done.
      rewrite decide_False by (simpl; intros E%Hinj; by apply Hb).
      cbv zeta. change (checkResponse c2 (node_path c2)) with (checkResponse c (node_path c)).
      destruct (checkResponse c (node_path c) _); [done|].
      change (decode_node c2) with (decode_node c).
      destruct (decode_node c _) as [[n'|]|]; simpl in *; [|done..].
      injection H as <-. by eexists.
Qed.
End node_cache.

(** The panel answers 500 with the same body twice. *)
Lemma node_error_reported_once_witness :
  let get := GetNodeInfo (λ _ _ n, (MkHttpResult (Some (MkResponse 500 "down" "")) None, S n)) id
    (λ _ _, Err "") (λ _, Err "") (λ _, Err "") (λ _, Err "") (λ _, Err "") (λ _, Err "")
    (λ _, Err "") (λ _, Err "") (λ _, Err "") in
  let c := MkClient "" "h" "" "vless" 1 "" "" "" None ∅ in
  ∃ e c', get c 0%nat = Some (Err e, c', 1%nat) ∧ get c' 1%nat = Some (Ok None, c', 2%nat).
Proof.
  cbv zeta.
  exists "request h/api/v1/server/UniProxy/config failed: down",
    (MkClient "" "h" "" "vless" 1 "" "" "down" None ∅). split; [reflexivity|].
  exact (proj1 (node_error_reported_once
    (λ _ _ n, (MkHttpResult (Some (MkResponse 500 "down" "")) None, S n)) id
    (λ _ _, Err "") (λ _, Err "") (λ _, Err "") (λ _, Err "") (λ _, Err "") (λ _, Err "")
    (λ _, Err "") (λ _, Err "") (λ _, Err "")
    (MkClient "" "h" "" "vless" 1 "" "" "" None ∅) (MkClient "" "h" "" "vless" 1 "" "" "down" None ∅)
    0%nat 1%nat) "request h/api/v1/server/UniProxy/config failed: down" eq_refl 1%nat eq_refl).
Defined.

(** ** Routes *)

(** The matches of the block routes. *)
Definition blocked (rt : Route) : list string :=
  if decide (rt_Action rt = "block") then default [] (route_matches (rt_Match rt)) else [].
Definition is_protocol (v : string) : Prop := HasPrefix v "protocol:" = true.
#[export] Instance is_protocol_dec v : Decision (is_protocol v).
Proof. unfold is_protocol. apply _. Defined.

(** A route the node can read: matches, and one at least for a dns route. *)
Definition readable (rt : Route) : Prop :=
  match route_matches (rt_Match rt) with
  | None => False
  | Some [] => rt_Action rt ≠ "dns"
  | Some _ => True
  end.
#[export] Instance readable_dec rt : Decision (readable rt).
Proof. unfold readable. destruct (route_matches _) as [[|]|]; apply _. Defined.

Definition rules_of (vs : list string) : Rules :=
  MkRules (map (λ v, TrimPrefix v "regexp:") (filter (λ v, ¬ is_protocol v) vs))
    (map (λ v, TrimPrefix v "protocol:") (filter is_protocol vs)).

Lemma add_rules vs r :
  foldl add_rule r vs =
    MkRules (ru_Regexp r ++ ru_Regexp (rules_of vs)) (ru_Protocol r ++ ru_Protocol (rules_of vs))%list.
Proof.
  revert r. induction vs as [|v vs IH]; intros r; simpl; [rewrite !(right_id_L [] app); by destruct r|].
  rewrite IH. unfold add_rule, rules_of. simpl. rewrite !filter_cons.
  destruct (HasPrefix v "protocol:") eqn:E; simpl.
  - rewrite decide_False, decide_True by (unfold is_protocol; congruence). simpl.
    by rewrite <-(assoc_L app).
  - rewrite decide_True, decide_False by (unfold is_protocol; congruence). simpl.
    by rewrite <-(assoc_L app).
Qed.

Lemma add_route_spec i rt rules dns :
  match add_route i rt (rules, dns) with
  | Some (rules', _) => readable rt ∧ rules' = foldl add_rule rules (blocked rt)
  | None => ¬ readable rt
  end.
Proof.
  unfold add_route, readable, blocked.
  destruct (route_matches (rt_Match rt)) as [[|m0 rest]|] eqn:E; simpl; [..|tauto].
  - destruct (decide (rt_Action rt = "block")) as [->|]; [done|].
    destruct (decide (rt_Action rt = "dns")); [by intros []|done].
  - destruct (decide (rt_Action rt = "block")); [done|].
    destruct (decide (rt_Action rt = "dns")); [|done]. by destruct (decide (m0 = "main")).
Qed.


