(* ===== verification/Hy2.v ===== *)
(** core/hy2: users, traffic accounting and the connection callbacks of the
    hysteria2 core.

    This is the core as the node controllers see it; Hy2Core.v has the one with its servers
    and sockets, and that it refines this one.  The server itself is a library; [server_err] is
    the error, if any, of making and starting one for a node and [close_err] the error of
    closing it. *)
From S2P Require Import Prelude GoStrings Netutil PanelTypes Conf ConnLimiter OnlineRegistry.
From S2P Require Import Limiter TrafficCounter CoreApi.
#[local] Open Scope string_scope.
#[local] Open Scope Z_scope.

(** [HookServer]: the counters of the nodes it was used for; the key is its tag. *)
Record HookServer := MkHookServer { hs_Tag : string; hs_Counter : gmap string TrafficCounter }.
Record Hysteria2 := MkHysteria2 {
  Hy2nodes : gmap string HookServer;
  usersMap : gmap string Z
}.

Definition set_node (tag : string) (n : HookServer) (h : Hysteria2) : Hysteria2 :=
  MkHysteria2 (<[tag := n]> (Hy2nodes h)) (usersMap h).

(** * hook.go *)

Definition LogTraffic (h : HookServer) (id : string) (tx rx : Z) (lims : Limiters)
    : bool * HookServer * Limiters :=
  match GetLimiter (hs_Tag h) lims with
  | Err _ => (false, h, lims)
  | Ok p =>
      match objs lims !! p with
      | None => (false, h, lims)
      | Some l =>
          let '(over, l) := ConsumeOverLimit (UserTag (hs_Tag h) id) l in
          let lims := MkLimiters (reg lims) (<[p := l]> (objs lims)) in
          if over : bool then (false, h, lims)
          else
            let c := default NewTrafficCounter (hs_Counter h !! hs_Tag h) in
            let c := Tx id (wrap64 tx) (Rx id (wrap64 rx) c) in
            (true, MkHookServer (hs_Tag h) (<[hs_Tag h := c]> (hs_Counter h)), lims)
      end
  end.

(** * user.go *)

Definition Authenticate (h : Hysteria2) (auth : string) : bool * string :=
  match usersMap h !! auth with Some _ => (true, auth) | None => (false, "") end.

Definition hy_AddUsers (users : list UserInfo) (h : Hysteria2) : result Z * Hysteria2 :=
  (Ok (Z.of_nat (length users)),
   MkHysteria2 (Hy2nodes h) (foldl (λ m u, <[ui_Uuid u := ui_Id u]> m) (usersMap h) users)).
Definition hy_DelUsers (users : list UserInfo) (h : Hysteria2) : option string * Hysteria2 :=
  (None, MkHysteria2 (Hy2nodes h) (foldl (λ m u, delete (ui_Uuid u) m) (usersMap h) users)).

Definition hy_GetUserTraffic (tag uuid : string) (reset : bool) (h : Hysteria2)
    : Z * Z * Hysteria2 :=
  match Hy2nodes h !! tag with
  | None => (0, 0, h)
  | Some node =>
      match hs_Counter node !! tag with
      | None => (0, 0, h)
      | Some c =>
          let up := GetUpCount c uuid in
          let down := GetDownCount c uuid in
          if reset then
            (up, down, set_node tag (MkHookServer (hs_Tag node)
                         (<[tag := Reset uuid c]> (hs_Counter node))) h)
          else (up, down, h)
      end
  end.
Definition hy_RestoreUserTraffic (tag uuid : string) (up down : Z) (h : Hysteria2) : Hysteria2 :=
  match Hy2nodes h !! tag with
  | None => h
  | Some node =>
      match hs_Counter node !! tag with
      | None => h
      | Some c => set_node tag (MkHookServer (hs_Tag node)
                    (<[tag := Restore uuid up down c]> (hs_Counter node))) h
      end
  end.

(** * node.go *)

Section nodes.
(** Building and starting the server, and closing it; [None] is success. *)
Context (server_err close_err : string → option string).

Definition hy_AddNode (tag : string) (h : Hysteria2) : option string * Hysteria2 :=
  match server_err tag with
  | Some e => (Some e, h)
  | None => (None, set_node tag (MkHookServer tag ∅) h)
  end.
Definition hy_DelNode (tag : string) (h : Hysteria2) : option string * Hysteria2 :=
  match Hy2nodes h !! tag with
  | None => (Some ("node " ++ tag ++ " not found"), h)
  | Some _ =>
      match close_err tag with
      | Some e => (Some e, h)
      | None => (None, MkHysteria2 (delete tag (Hy2nodes h)) (usersMap h))
      end
  end.

#[local] Instance hy_traffic : CoreTraffic Hysteria2 := {
  GetUserTraffic := hy_GetUserTraffic;
  RestoreUserTraffic := hy_RestoreUserTraffic
}.
#[local] Instance hy_core : Core Hysteria2 := {
  AddNode tag _ o h := let '(e, h) := hy_AddNode tag h in (e, o, h);
  DelNode := hy_DelNode;
  AddUsers _ users _ := hy_AddUsers users;
  DelUsers users _ _ := hy_DelUsers users
}.
End nodes.
#[local] Existing Instance hy_traffic.

(** * logger.go

    [tcp] is [addr.Network() == "tcp"] and [ip] the address of [addr] printed.  A
    missing limiter panics. *)
Definition on_limiter {A} (tag : string) (f : Limiter → option (A * Limiter)) (lims : Limiters)
    : option (A * Limiters) :=
  match GetLimiter tag lims with
  | Err _ => panic
  | Ok p =>
      match objs lims !! p with
      | None => panic
      | Some l => '(a, l) ← f l; Some (a, MkLimiters (reg lims) (<[p := l]> (objs lims)))
      end
  end.
(** The common part of [Connect], [TCPRequest] and [UDPRequest]. *)
Definition check_request (taguuid ip : string) (tcp : bool) (now : Z) (l : Limiter)
    : option (bool * Limiter) :=
  '(_, r, l) ← CheckLimit taguuid ip tcp true now l;
  Some (r, SetOverLimit taguuid r l).
Definition Connect (tag uuid ip : string) (tcp : bool) (now : Z) : Limiters → option (bool * Limiters) :=
  on_limiter tag (λ l,
    let taguuid := UserTag tag uuid in
    '(r, l) ← check_request taguuid ip tcp now l;
    Some (r, if r : bool then l
             else set_Online (or_Add (lm_Online l) taguuid ip (UserID l taguuid) now) l)).
Definition TCPRequest (tag uuid ip : string) (tcp : bool) (now : Z)
    : Limiters → option (bool * Limiters) :=
  on_limiter tag (check_request (UserTag tag uuid) ip tcp now).
Definition UDPRequest (tag uuid ip : string) (tcp : bool) (now : Z)
    : Limiters → option (bool * Limiters) :=
  on_limiter tag (check_request (UserTag tag uuid) ip tcp now).
Definition Disconnect (tag uuid ip : string) (now : Z) (lims : Limiters) : Limiters :=
  match GetLimiter tag lims with
  | Err _ => lims
  | Ok p => MkLimiters (reg lims)
      (alter (λ l, set_Online (or_Del (lm_Online l) (UserTag tag uuid) ip now) l) p (objs lims))
  end.

(** * The traffic laws *)

(** The counter of a node, and replacing it. *)
Definition hy_look (h : Hysteria2) (tag : string) : option TrafficCounter :=
  n ← Hy2nodes h !! tag; hs_Counter n !! tag.
Definition hy_upd (tag : string) (c : TrafficCounter) (h : Hysteria2) : Hysteria2 :=
  match Hy2nodes h !! tag with
  | None => h
  | Some node => set_node tag (MkHookServer (hs_Tag node) (<[tag := c]> (hs_Counter node))) h
  end.

Lemma hy_look_upd h tag c tag' :
  is_Some (hy_look h tag) →
  hy_look (hy_upd tag c h) tag' = if decide (tag = tag') then Some c else hy_look h tag'.
Proof.
  unfold hy_look, hy_upd. destruct (Hy2nodes h !! tag) as [n|] eqn:E; [|by intros [? ?]].
  intros _. simpl. destruct (decide (tag = tag')) as [<-|].
  - rewrite lookup_insert_eq. simpl. apply lookup_insert_eq.
  - by rewrite lookup_insert_ne.
Qed.

Lemma hy_get_eq tag uuid (r : bool) h : GetUserTraffic tag uuid r h =
  match hy_look h tag with
  | None => (0, 0, h)
  | Some c => (GetUpCount c uuid, GetDownCount c uuid, if r then hy_upd tag (Reset uuid c) h else h)
  end.
Proof.
  simpl. unfold hy_GetUserTraffic, hy_look, hy_upd. destruct (Hy2nodes h !! tag) as [n|]; [|done].
  simpl. by destruct (hs_Counter n !! tag), r.
Qed.
Lemma hy_restore_eq tag uuid u d h : RestoreUserTraffic tag uuid u d h =
  match hy_look h tag with None => h | Some c => hy_upd tag (Restore uuid u d c) h end.
Proof.
  simpl. unfold hy_RestoreUserTraffic, hy_look, hy_upd. destruct (Hy2nodes h !! tag) as [n|]; [|done].
  simpl. by destruct (hs_Counter n !! tag).
Qed.
(** The laws the controllers bill by hold of the hysteria2 core. *)
#[local] Instance hy_laws : TrafficLaws Hysteria2 :=
  counter_laws hy_look hy_upd hy_look_upd hy_get_eq hy_restore_eq.
#[local] Instance hy_local : TrafficLocal Hysteria2 :=
  counter_local hy_look hy_upd hy_look_upd hy_get_eq hy_restore_eq.

(** Traffic that the log of a node lets through is counted for its user, and for nobody else;
    the counter of the node is made when it is not there. *)
Lemma LogTraffic_counted tag id tx rx h n lims n' lims' :
  core_ok h → Hy2nodes h !! tag = Some n → hs_Tag n = tag → 0 ≤ tx → 0 ≤ rx →
  0 ≤ (pending h tag id).1 → 0 ≤ (pending h tag id).2 →
  (pending h tag id).1 + tx ≤ int64_max → (pending h tag id).2 + rx ≤ int64_max →
  LogTraffic n id tx rx lims = (true, n', lims') → counted_in tag id tx rx h (set_node tag n' h).
Proof.
  intros Hok Hn Ht Htx Hrx Hu Hd Hu' Hd' E. set (c := default NewTrafficCounter (hs_Counter n !! tag)).
  assert (hy_look h tag = hs_Counter n !! tag) as El by (unfold hy_look; by rewrite Hn).
  assert (tc_wf c) as Hw.
  { unfold c. destruct (hs_Counter n !! tag) as [c0|]; [by apply (Hok tag)|apply tc_wf_new]. }
  assert (∀ v, usage c v = cc_usage hy_look h tag v) as Hc.
  { intros v. unfold c, cc_usage. rewrite El. by destruct (hs_Counter n !! tag). }
  assert (pending h tag id = usage c id) as Hp by by rewrite Hc.
  rewrite Hp in *. clear Hp.
  assert (n' = MkHookServer tag (<[tag := Tx id tx (Rx id rx c)]> (hs_Counter n))) as ->.
  { unfold LogTraffic in E. rewrite Ht in E. destruct (GetLimiter tag lims) as [p|]; [|done].
    destruct (objs lims !! p) as [l|]; [|done]. destruct (ConsumeOverLimit _ l) as [[] l1]; [done|].
    injection E as <- _. unfold in_int64, int64_min, int64_max in *.
    by rewrite !wrap64_id by (unfold in_int64, int64_min, int64_max; lia). }
  apply (counter_grown hy_look hy_upd hy_look_upd hy_get_eq hy_restore_eq tag id tx rx (Tx id tx (Rx id rx c))).
  - done.
  - unfold hy_look. cbn [Hy2nodes set_node]. rewrite lookup_insert_eq. cbn. apply lookup_insert_eq.
  - intros t Hne. unfold hy_look. cbn [Hy2nodes set_node]. by rewrite lookup_insert_ne.
  - by auto using tc_wf_Tx, tc_wf_Rx.
  - rewrite usage_Tx by by apply tc_wf_Rx. rewrite usage_Rx by done. cbn [fst snd]. rewrite <-!Hc.
    by rewrite !wrap64_id by (unfold in_int64, int64_min, int64_max in *; lia).
  - intros v Hne. unfold Tx, Rx. rewrite !usage_add by (done || by apply tc_wf_Rx).
    by rewrite !decide_False by congruence.
Qed.

(** * Users of another node *)

Lemma CheckLimit_unknown taguuid ip tcp n now l :
  lm_inv l → lm_UserLimitInfo l !! taguuid = None →
  ∃ c, CheckLimit taguuid ip tcp n now l = Some (None, true, set_ConnLimiter c l).
Proof.
  intros Hl Hu. unfold CheckLimit, checkLimit.
  destruct (cl_inv_AddConnCount (lm_ConnLimiter l) taguuid (NormalizeIP ip) tcp now (lmi_conn l Hl))
    as (full & c & -> & _). exists c. simpl.
  destruct full; [done|]. unfold check_user. simpl. by rewrite Hu.
Qed.

(** The hysteria2 core keeps one user list for all its nodes, so a user that was
    added for one node is authenticated by every other, whose limiter does not know it.
    The limit check turns the user away, but the mark it leaves for the traffic log is
    put on the entry the user does not have: the log lets the traffic through, and counts
    it for a user the node never reports. *)
Theorem hy2_foreign_user_passes (tag uuid ip : string) (tcp : bool) (now id : Z) (h : Hysteria2)
    (lims : Limiters) (p : nat) (l : Limiter) :
  usersMap h !! uuid = Some id →
  GetLimiter tag lims = Ok p → objs lims !! p = Some l → lm_inv l →
  lm_UserLimitInfo l !! UserTag tag uuid = None →
  Authenticate h uuid = (true, uuid) ∧
  ∃ lims', Connect tag uuid ip tcp now lims = Some (true, lims') ∧
    ∀ node tx rx, hs_Tag node = tag → (LogTraffic node uuid tx rx lims').1.1 = true.
Proof.
  intros Hauth Hreg Hobj Hl Hu. split; [unfold Authenticate; by rewrite Hauth|].
  destruct (CheckLimit_unknown (UserTag tag uuid) ip tcp true now l Hl Hu) as (c & E).
  exists (MkLimiters (reg lims) (<[p := set_ConnLimiter c l]> (objs lims))). split.
  - unfold Connect, on_limiter, check_request. rewrite Hreg, Hobj. simpl. rewrite E. simpl.
    unfold SetOverLimit, updateUserLimit. simpl. by rewrite Hu.
  - intros node tx rx Ht. unfold LogTraffic. rewrite Ht.
    unfold GetLimiter in *. simpl. destruct (reg lims !! tag); [|done].
    injection Hreg as ->. rewrite lookup_insert_eq. unfold ConsumeOverLimit. simpl.
    by rewrite Hu.
Qed.

Lemma hy2_foreign_user_passes_witness :
  let lims := (AddLimiter "b" LimitConfig_zero [] ∅ (MkLimiters ∅ ∅)).2 in
  let h := (hy_AddUsers [MkUserInfo 7 "u" 0 0] (MkHysteria2 ∅ ∅)).2 in
  Authenticate h "u" = (true, "u") ∧
  ∃ lims', Connect "b" "u" "1.1.1.1" false 0 lims = Some (true, lims') ∧
    ∀ node tx rx, hs_Tag node = "b" → (LogTraffic node "u" tx rx lims').1.1 = true.
Proof.
  cbv zeta. eapply (hy2_foreign_user_passes "b" "u" "1.1.1.1" false 0 7);
    [reflexivity|reflexivity|reflexivity|apply newLimiter_inv|reflexivity].
Defined.
