(* ===== verification/Hy2Config.v ===== *)
(** core/hy2/config.go, serverConfig.go and AddNode of node.go: the configuration of a
    hysteria2 server.

    The hysteria library, the operating system and viper are parameters.  What is built of
    the library is a value that says how it was built. *)
From S2P Require Import Prelude GoStrings PanelTypes Conf.
#[local] Open Scope string_scope.
#[local] Open Scope Z_scope.

(** * serverConfig.go *)

Record serverConfigQUIC := MkServerConfigQUIC {
  q_InitStreamReceiveWindow : Z; q_MaxStreamReceiveWindow : Z; q_InitConnectionReceiveWindow : Z;
  q_MaxConnectionReceiveWindow : Z; q_MaxIdleTimeout : Z; q_MaxIncomingStreams : Z;
  q_DisablePathMTUDiscovery : bool
}.
Record serverConfigResolverAddr := MkServerConfigResolverAddr {
  ra_Addr : string; ra_Timeout : Z; ra_SNI : string; ra_Insecure : bool
}.
(** The plain resolvers have no SNI and Insecure. *)
Record serverConfigResolver := MkServerConfigResolver {
  rs_Type : string; rs_TCP : serverConfigResolverAddr; rs_UDP : serverConfigResolverAddr;
  rs_TLS : serverConfigResolverAddr; rs_HTTPS : serverConfigResolverAddr
}.
Record serverConfigSniff := MkServerConfigSniff {
  sf_Enable : bool; sf_Timeout : Z; sf_RewriteDomain : bool; sf_TCPPorts : string; sf_UDPPorts : string
}.
Record serverConfigACL := MkServerConfigACL {
  acl_File : string; acl_Inline : list string; acl_GeoIP : string; acl_GeoSite : string; acl_GeoUpdateInterval : Z
}.
Record serverConfigOutboundDirect := MkServerConfigOutboundDirect {
  od_Mode : string; od_BindIPv4 : string; od_BindIPv6 : string; od_BindDevice : string
}.
Record serverConfigOutboundSOCKS5 := MkServerConfigOutboundSOCKS5 {
  os_Addr : string; os_Username : string; os_Password : string
}.
Record serverConfigOutboundHTTP := MkServerConfigOutboundHTTP { oh_URL : string; oh_Insecure : bool }.
Record serverConfigOutboundEntry := MkServerConfigOutboundEntry {
  oe_Name : string; oe_Type : string; oe_Direct : serverConfigOutboundDirect;
  oe_SOCKS5 : serverConfigOutboundSOCKS5; oe_HTTP : serverConfigOutboundHTTP
}.
Record serverConfigMasqueradeString := MkServerConfigMasqueradeString {
  ms_Content : string; ms_Headers : gmap string string; ms_StatusCode : Z
}.
Record serverConfigMasquerade := MkServerConfigMasquerade {
  mq_Type : string; mq_Dir : string; mq_ProxyURL : string; mq_RewriteHost : bool;
  mq_String : serverConfigMasqueradeString; mq_ListenHTTP : string; mq_ListenHTTPS : string; mq_ForceHTTPS : bool
}.
(** The sections the program reads; the others (listen, obfs, tls, acme, bandwidth, auth, trafficStats,
    ignoreClientBandwidth and speedTest) are decoded and not used. *)
Record serverConfig := MkServerConfig {
  sc_QUIC : serverConfigQUIC; sc_DisableUDP : bool; sc_UDPIdleTimeout : Z;
  sc_Resolver : serverConfigResolver; sc_Sniff : serverConfigSniff; sc_ACL : serverConfigACL;
  sc_Outbounds : list serverConfigOutboundEntry; sc_Masquerade : serverConfigMasquerade
}.

(** ** Outbounds: how they are built. *)

Inductive DirectOutboundMode := ModeAuto | Mode64 | Mode46 | Mode6 | Mode4.
Inductive outbound :=
| DirectSimple (mode : DirectOutboundMode)
| DirectBindToIPs (mode : DirectOutboundMode) (ip4 ip6 : string)
| DirectBindToDevice (mode : DirectOutboundMode) (device : string)
| SOCKS5 (addr user password : string)
| HTTP (url : string) (insecure : bool)
| ACLFromFile (file : string) (obs : list (string * outbound))
| ACLFromString (rules : string) (obs : list (string * outbound))
| SystemResolver (next : outbound)
| StandardResolverTCP (addr : string) (timeout : Z) (next : outbound)
| StandardResolverUDP (addr : string) (timeout : Z) (next : outbound)
| StandardResolverTLS (addr : string) (timeout : Z) (sni : string) (insecure : bool) (next : outbound)
| DoHResolver (addr : string) (timeout : Z) (sni : string) (insecure : bool) (next : outbound).

(** [build_error]: whether the library accepts a description of an outbound. *)
Class HyLibs := {
  build_error : outbound → option string;
  is_ip : string → bool;
  is_port_union : string → bool;
  proxy_url : string → result (string * string);
  load_key_pair : string → string → option string;
  resolve_udp : string → result string;
  listen_udp : string → option string;
  salamander_error : string → option string;
  new_server : string → option string
}.

Section config.
Context {H : HyLibs}.

Definition accepted (o : outbound) : result outbound :=
  match build_error o with Some e => Err e | None => Ok o end.

Definition direct_mode (mode : string) : option DirectOutboundMode :=
  let m := ToLower mode in
  if decide (m = "" ∨ m = "auto") then Some ModeAuto
  else if decide (m = "64") then Some Mode64
  else if decide (m = "46") then Some Mode46
  else if decide (m = "6") then Some Mode6
  else if decide (m = "4") then Some Mode4
  else None.
Definition serverConfigOutboundDirectToOutbound (c : serverConfigOutboundDirect) : result outbound :=
  match direct_mode (od_Mode c) with
  | None => Err "outbounds.direct.mode unsupported mode"
  | Some mode =>
      let bindIP := bool_decide (od_BindIPv4 c ≠ "" ∨ od_BindIPv6 c ≠ "") in
      let bindDevice := bool_decide (od_BindDevice c ≠ "") in
      if bindIP && bindDevice then Err "outbounds.direct cannot bind both IP and device"
      else if bindIP then
        if bool_decide (od_BindIPv4 c ≠ "") && negb (is_ip (od_BindIPv4 c))
        then Err "outbounds.direct.bindIPv4 invalid IPv4 address"
        else if bool_decide (od_BindIPv6 c ≠ "") && negb (is_ip (od_BindIPv6 c))
        then Err "outbounds.direct.bindIPv6 invalid IPv6 address"
        else accepted (DirectBindToIPs mode (od_BindIPv4 c) (od_BindIPv6 c))
      else if bindDevice then accepted (DirectBindToDevice mode (od_BindDevice c))
      else Ok (DirectSimple mode)
  end.
Definition serverConfigOutboundSOCKS5ToOutbound (c : serverConfigOutboundSOCKS5) : result outbound :=
  if decide (os_Addr c = "") then Err "outbounds.socks5.addr empty socks5 address"
  else Ok (SOCKS5 (os_Addr c) (os_Username c) (os_Password c)).
Definition serverConfigOutboundHTTPToOutbound (c : serverConfigOutboundHTTP) : result outbound :=
  if decide (oh_URL c = "") then Err "outbounds.http.url empty http address"
  else accepted (HTTP (oh_URL c) (oh_Insecure c)).

Definition outbound_entry (e : serverConfigOutboundEntry) : result (string * outbound) :=
  if decide (oe_Name e = "") then Err "empty outbound name"
  else
    ob ← (let t := ToLower (oe_Type e) in
          if decide (t = "direct") then serverConfigOutboundDirectToOutbound (oe_Direct e)
          else if decide (t = "socks5") then serverConfigOutboundSOCKS5ToOutbound (oe_SOCKS5 e)
          else if decide (t = "http") then serverConfigOutboundHTTPToOutbound (oe_HTTP e)
          else Err "outbounds.type unsupported outbound type");
    Ok (oe_Name e, ob).
Fixpoint outbound_entries (l : list serverConfigOutboundEntry) : result (list (string * outbound)) :=
  match l with
  | [] => Ok []
  | e :: l => o ← outbound_entry e; os ← outbound_entries l; Ok (o :: os)
  end.

(** ** config.go *)

Definition with_acl (c : serverConfigACL) (obs : list (string * outbound)) (first : outbound)
    : result (bool * outbound) :=
  if bool_decide (acl_File c ≠ "") && bool_decide (acl_Inline c ≠ []) then
    Err "cannot set both acl.file and acl.inline"
  else if bool_decide (acl_File c ≠ "") then acl ← accepted (ACLFromFile (acl_File c) obs); Ok (true, acl)
  else if bool_decide (acl_Inline c ≠ []) then
    acl ← accepted (ACLFromString (Join (acl_Inline c) (of_bytes [byte 10])) obs); Ok (true, acl)
  else Ok (false, first).
Definition with_resolver (c : serverConfigResolver) (hasACL : bool) (ob : outbound) : result outbound :=
  let t := ToLower (rs_Type c) in
  let addressed (a : serverConfigResolverAddr) (o : outbound) :=
    if decide (ra_Addr a = "") then Err "empty resolver address" else Ok o in
  if decide (t = "" ∨ t = "system") then Ok (if hasACL then SystemResolver ob else ob)
  else if decide (t = "tcp") then
    addressed (rs_TCP c) (StandardResolverTCP (ra_Addr (rs_TCP c)) (ra_Timeout (rs_TCP c)) ob)
  else if decide (t = "udp") then
    addressed (rs_UDP c) (StandardResolverUDP (ra_Addr (rs_UDP c)) (ra_Timeout (rs_UDP c)) ob)
  else if decide (t = "tls" ∨ t = "tcp-tls") then
    addressed (rs_TLS c) (StandardResolverTLS (ra_Addr (rs_TLS c)) (ra_Timeout (rs_TLS c)) (ra_SNI (rs_TLS c)) (ra_Insecure (rs_TLS c)) ob)
  else if decide (t = "https" ∨ t = "http") then
    addressed (rs_HTTPS c) (DoHResolver (ra_Addr (rs_HTTPS c)) (ra_Timeout (rs_HTTPS c)) (ra_SNI (rs_HTTPS c)) (ra_Insecure (rs_HTTPS c)) ob)
  else Err "unsupported resolver type".
Definition getOutboundConfig (c : serverConfig) : result outbound :=
  obs ← match sc_Outbounds c with
        | [] => Ok [("default", DirectSimple ModeAuto)]
        | l => outbound_entries l
        end;
  '(hasACL, ob) ← with_acl (sc_ACL c) obs (match obs with (_, o) :: _ => o | [] => DirectSimple ModeAuto end);
  with_resolver (sc_Resolver c) hasACL ob.

Record QUICConfig := MkQUICConfig {
  qc_InitialStreamReceiveWindow : Z; qc_MaxStreamReceiveWindow : Z; qc_InitialConnectionReceiveWindow : Z;
  qc_MaxConnectionReceiveWindow : Z; qc_MaxIdleTimeout : Z; qc_MaxIncomingStreams : Z;
  qc_DisablePathMTUDiscovery : bool
}.
Definition defaultStreamReceiveWindow : Z := 8388608.
Definition defaultConnReceiveWindow : Z := defaultStreamReceiveWindow * 5 / 2.
Definition defaultMaxIdleTimeout : Z := 30 * Second.
Definition defaultMaxIncomingStreams : Z := 4096.

(** The default for zero, an error below the minimum. *)
Definition window (v dflt : Z) (what : string) : result Z :=
  if bool_decide (v = 0) then Ok dflt
  else if bool_decide (v < 16384) then Err ("QUICConfig." +:+ what +:+ " must be at least 16384")
  else Ok v.
(** The first window: in the third case the value is written to the field of the connection,
    which is written again below; the field of the stream keeps its zero. *)
Definition init_window (v : Z) : result Z :=
  if bool_decide (v = 0) then Ok defaultStreamReceiveWindow
  else if bool_decide (v < 16384) then Err "QUICConfig.InitialStreamReceiveWindowf must be at least 16384"
  else Ok 0.
Definition idle_timeout (v : Z) : result Z :=
  if bool_decide (v = 0) then Ok defaultMaxIdleTimeout
  else if bool_decide (v < 4 * Second) || bool_decide (v > 120 * Second)
  then Err "QUICConfig.MaxIdleTimeoutf must be between 4s and 120s"
  else Ok v.
Definition incoming_streams (v : Z) : result Z :=
  if bool_decide (v = 0) then Ok defaultMaxIncomingStreams
  else if bool_decide (v < 8) then Err "QUICConfig.MaxIncomingStreamsf must be at least 8"
  else Ok v.
Definition getQUICConfig (config : serverConfig) : result QUICConfig :=
  let q := sc_QUIC config in
  initStream ← init_window (q_InitStreamReceiveWindow q);
  maxStream ← window (q_MaxStreamReceiveWindow q) defaultStreamReceiveWindow "MaxStreamReceiveWindowf";
  initConn ← window (q_InitConnectionReceiveWindow q) defaultConnReceiveWindow "InitialConnectionReceiveWindowf";
  maxConn ← window (q_MaxConnectionReceiveWindow q) defaultConnReceiveWindow "MaxConnectionReceiveWindowf";
  idle ← idle_timeout (q_MaxIdleTimeout q);
  streams ← incoming_streams (q_MaxIncomingStreams q);
  Ok (MkQUICConfig initStream maxStream initConn maxConn idle streams false).

Definition formatAddress (ip : string) (port : Z) : string :=
  if contains_byte ":" ip then "[" +:+ ip +:+ "]:" +:+ Itoa port else ip +:+ ":" +:+ Itoa port.
Definition extractPortFromAddr (addr : string) : Z :=
  match SplitHostPort addr with
  | None => 0
  | Some (_, portStr) => default 0 (Atoi portStr)
  end.

Definition getTLSConfig (config : Options) : result CertConfig :=
  match op_CertConfig config with
  | None => Err "the CertConfig is not vail"
  | Some c =>
      if decide (cc_CertMode c = "none" ∨ cc_CertMode c = "") then Err "the CertMode cannot be none"
      else match load_key_pair (cc_CertFile c) (cc_KeyFile c) with Some e => Err e | None => Ok c end
  end.

Definition Megabyte : Z := 1000000.
(** [int] arithmetic, then the conversion to uint64: MaxTx and MaxRx. *)
Definition bandwidth (mbps : Z) : Z :=
  if bool_decide (mbps = 0) then 0 else wrapu64 (Z.quot (wrap64 (mbps * Megabyte)) 8).
Definition getBandwidthConfig (n : Hysteria2Node) : Z * Z := (bandwidth (h2_UpMbps n), bandwidth (h2_DownMbps n)).

(** The sniffer, if it is enabled: timeout, rewriting, and the two port unions. *)
Record Sniffer := MkSniffer { sn_Timeout : Z; sn_RewriteDomain : bool; sn_TCP : option string; sn_UDP : option string }.
Definition port_union (what ports : string) : result (option string) :=
  if decide (ports = "") then Ok None
  else if is_port_union ports then Ok (Some ports)
  else Err ("sniff." +:+ what +:+ ": invalid port union").
Definition getRequestHook (c : serverConfig) : result (option Sniffer) :=
  let s := sc_Sniff c in
  if sf_Enable s then
    tcp ← port_union "tcpPorts" (sf_TCPPorts s);
    udp ← port_union "udpPorts" (sf_UDPPorts s);
    Ok (Some (MkSniffer (sf_Timeout s) (sf_RewriteDomain s) tcp udp))
  else Ok None.

(** ** The masquerade *)

Inductive masquerade :=
| NotFound
| FileServer (dir : string)
| ReverseProxy (scheme host : string) (rewriteHost : bool)
| StringHandler (s : serverConfigMasqueradeString).
Definition masq_handler (c : serverConfigMasquerade) : result masquerade :=
  let t := ToLower (mq_Type c) in
  if decide (t = "" ∨ t = "404") then Ok NotFound
  else if decide (t = "file") then
    if decide (mq_Dir c = "") then Err "masquerade.file.dir empty file directory" else Ok (FileServer (mq_Dir c))
  else if decide (t = "proxy") then
    if decide (mq_ProxyURL c = "") then Err "masquerade.proxy.url empty proxy url"
    else match proxy_url (mq_ProxyURL c) with
         | Err e => Err ("masquerade.proxy.url " +:+ e)
         | Ok (scheme, host) => Ok (ReverseProxy scheme host (mq_RewriteHost c))
         end
  else if decide (t = "string") then
    let s := mq_String c in
    if decide (ms_Content s = "") then Err "masquerade.string.content empty string content"
    else if negb (bool_decide (ms_StatusCode s = 0)) &&
            (bool_decide (ms_StatusCode s < 200) || bool_decide (ms_StatusCode s > 599) || bool_decide (ms_StatusCode s = 233))
    then Err "masquerade.string.statusCode invalid status code (must be 200-599, except 233)"
    else Ok (StringHandler s)
  else Err "masquerade.type unsupported masquerade type".
(** The TCP server of the masquerade: the QUIC port, the HTTPS port, the two addresses. *)
Record MasqTCPServer := MkMasqTCPServer {
  mt_QUICPort : Z; mt_HTTPSPort : Z; mt_ForceHTTPS : bool; mt_HTTP : string; mt_HTTPS : string
}.
Definition getMasqHandler (local : string) (c : serverConfig) : result (masquerade * option MasqTCPServer) :=
  let m := sc_Masquerade c in
  handler ← masq_handler m;
  if bool_decide (mq_ListenHTTP m ≠ "") || bool_decide (mq_ListenHTTPS m ≠ "") then
    if decide (mq_ListenHTTP m ≠ "" ∧ mq_ListenHTTPS m = "") then
      Err "masquerade.listenHTTPS having only HTTP server without HTTPS is not supported"
    else Ok (handler, Some (MkMasqTCPServer (extractPortFromAddr local) (extractPortFromAddr (mq_ListenHTTPS m))
               (mq_ForceHTTPS m) (mq_ListenHTTP m) (mq_ListenHTTPS m)))
  else Ok (handler, None).

(** What the text handler answers: the headers set, the status and the body. *)
Definition string_response (s : serverConfigMasqueradeString) : gmap string string * Z * string :=
  (ms_Headers s, if bool_decide (ms_StatusCode s = 0) then 200 else ms_StatusCode s, ms_Content s).
(** The request a reverse proxy sends on: scheme, host of the URL, host header, X-Forwarded-For. *)
Record proxied := MkProxied { px_Scheme : string; px_URLHost : string; px_Host : string; px_XFF : option string }.
Definition Director (scheme host : string) (rewriteHost : bool) (reqHost remoteAddr : string) (xff : option string) : proxied :=
  MkProxied scheme host (if rewriteHost then host else reqHost)
    (match SplitHostPort remoteAddr with
     | Some (clientIP, _) =>
         let old := default "" xff in
         Some (if decide (old ≠ "") then old +:+ ", " +:+ clientIP else clientIP)
     | None => xff
     end).

(** ** The node *)

(** The addresses of the UDP sockets the process holds. *)
Abbreviation sockets := (gset string).
(** [None] is the panic of a nil pointer. *)
Definition getConn (info : NodeInfo) (config : Options) (s : sockets) : option (result string * sockets) :=
  common ← ni_Common info;
  match resolve_udp (formatAddress (op_ListenIP config) (cn_ServerPort common)) with
  | Err e => Some (Err e, s)
  | Ok addr =>
      if decide (addr ∈ s) then Some (Err "address already in use", s)
      else
        match listen_udp addr with
        | Some e => Some (Err e, s)
        | None =>
            n ← ni_Hysteria2 info;
            let s := {[addr]} ∪ s in
            let t := ToLower (h2_ObfsType n) in
            Some (if decide (t = "" ∨ t = "plain") then (Ok addr, s)
              else if decide (t = "salamander") then
                match salamander_error (h2_ObfsPassword n) with Some e => (Err e, s) | None => (Ok addr, s) end
              else (Err "unsupported obfuscation type", s))
        end
  end.

Record Config := MkConfig {
  hc_TLS : CertConfig; hc_QUIC : QUICConfig; hc_Conn : string; hc_Sniff : option Sniffer;
  hc_Outbound : outbound; hc_Bandwidth : Z * Z; hc_IgnoreClientBandwidth : bool; hc_DisableUDP : bool;
  hc_UDPIdleTimeout : Z; hc_Masq : masquerade; hc_MasqServer : option MasqTCPServer
}.
Definition getHyConfig (info : NodeInfo) (config : Options) (c : serverConfig) (s : sockets)
    : option (result Config * sockets) :=
  match getTLSConfig config with
  | Err e => Some (Err e, s)
  | Ok tls =>
      match getQUICConfig c with
      | Err e => Some (Err e, s)
      | Ok quic =>
          '(conn, s) ← getConn info config s;
          match conn with
          | Err e => Some (Err e, s)
          | Ok conn =>
              n ← ni_Hysteria2 info;
              Some (sniff ← getRequestHook c;
                outbound ← getOutboundConfig c;
                '(masq, server) ← getMasqHandler conn c;
                Ok (MkConfig tls quic conn sniff outbound (getBandwidthConfig n) (h2_Ignore_Client_Bandwidth n)
                      (sc_DisableUDP c) (sc_UDPIdleTimeout c) masq server), s)
          end
      end
  end.

(** AddNode up to the registration of the node; [read] decodes the file of the node, if
    it has one. *)
Definition zero_addr : serverConfigResolverAddr := MkServerConfigResolverAddr "" 0 "" false.
Definition zero_config : serverConfig :=
  MkServerConfig (MkServerConfigQUIC 0 0 0 0 0 0 false) false 0
    (MkServerConfigResolver "" zero_addr zero_addr zero_addr zero_addr) (MkServerConfigSniff false 0 false "" "")
    (MkServerConfigACL "" [] "" "" 0) []
    (MkServerConfigMasquerade "" "" "" false (MkServerConfigMasqueradeString "" ∅ 0) "" "" false).
Definition hy_config (read : string → result serverConfig) (info : NodeInfo) (config : Options) (s : sockets)
    : option (result Config * sockets) :=
  match (if decide (op_Hysteria2ConfigPath config = "") then Ok zero_config else read (op_Hysteria2ConfigPath config)) with
  | Err e => Some (Err ("failed to read hysteria2 server config: " +:+ e), s)
  | Ok c => getHyConfig info config c s
  end.
Definition hy2_AddNode_config (read : string → result serverConfig) (info : NodeInfo) (config : Options) (s : sockets)
    : option (result Config * sockets) :=
  '(r, s) ← hy_config read info config s;
  Some (match r with
        | Err e => (Err e, s)
        | Ok cfg => match new_server (hc_Conn cfg) with Some e => (Err e, s) | None => (Ok cfg, s) end
        end).

(** * Theorems *)

(** A value of the file: absent, or within its bounds. *)
Definition allowed (v lo : Z) : Prop := v = 0 ∨ lo ≤ v.
Lemma window_spec v d what w : window v d what = Ok w ↔ allowed v 16384 ∧ w = if bool_decide (v = 0) then d else v.
Proof. unfold window, allowed. repeat case_bool_decide; naive_solver lia. Qed.
Lemma init_window_spec v w : init_window v = Ok w ↔
  allowed v 16384 ∧ w = if bool_decide (v = 0) then defaultStreamReceiveWindow else 0.
Proof. unfold init_window, allowed. repeat case_bool_decide; naive_solver lia. Qed.
Lemma idle_timeout_spec v w : idle_timeout v = Ok w ↔
  (allowed v (4 * Second) ∧ v ≤ 120 * Second) ∧ w = if bool_decide (v = 0) then defaultMaxIdleTimeout else v.
Proof. unfold idle_timeout, allowed, Second. repeat case_bool_decide; cbn; naive_solver lia. Qed.
Lemma incoming_streams_spec v w : incoming_streams v = Ok w ↔
  allowed v 8 ∧ w = if bool_decide (v = 0) then defaultMaxIncomingStreams else v.
Proof. unfold incoming_streams, allowed. repeat case_bool_decide; naive_solver lia. Qed.

(** The QUIC settings of a node.  They are accepted exactly when every value of the file is absent
    or within its bounds; each setting is then the value of the file or else the default,
    except the initial window of a stream: a value of the file is checked and then left out, so
    that it is zero in place of the value. *)
Theorem quic_config_exact (c : serverConfig) (r : QUICConfig) :
  let q := sc_QUIC c in
  let pick v d := if bool_decide (v = 0) then d else v in
  getQUICConfig c = Ok r ↔
  (allowed (q_InitStreamReceiveWindow q) 16384 ∧ allowed (q_MaxStreamReceiveWindow q) 16384 ∧
   allowed (q_InitConnectionReceiveWindow q) 16384 ∧ allowed (q_MaxConnectionReceiveWindow q) 16384 ∧
   allowed (q_MaxIdleTimeout q) (4 * Second) ∧ q_MaxIdleTimeout q ≤ 120 * Second ∧
   allowed (q_MaxIncomingStreams q) 8) ∧
  r = MkQUICConfig (if bool_decide (q_InitStreamReceiveWindow q = 0) then defaultStreamReceiveWindow else 0)
        (pick (q_MaxStreamReceiveWindow q) defaultStreamReceiveWindow)
        (pick (q_InitConnectionReceiveWindow q) defaultConnReceiveWindow)
        (pick (q_MaxConnectionReceiveWindow q) defaultConnReceiveWindow)
        (pick (q_MaxIdleTimeout q) defaultMaxIdleTimeout)
        (pick (q_MaxIncomingStreams q) defaultMaxIncomingStreams) false.
Proof.
  cbv zeta. unfold getQUICConfig. cbv zeta. rewrite result_bind_Ok. setoid_rewrite init_window_spec.
  repeat setoid_rewrite result_bind_Ok. setoid_rewrite window_spec.
  setoid_rewrite idle_timeout_spec. setoid_rewrite incoming_streams_spec. split.
  - intros (? & [? ->] & ? & [? ->] & ? & [? ->] & ? & [? ->] & ? & [[? ?] ->] & ? & [? ->] & [= <-]). done.
  - intros [(? & ? & ? & ? & ? & ? & ?) ->]. do 6 (eexists; split; [by split; [|reflexivity]|]). done.
Qed.

(** ** A failed node keeps its port *)

Lemma getConn_sockets info config s r s' : getConn info config s = Some (r, s') →
  ∃ common, ni_Common info = Some common ∧
    match resolve_udp (formatAddress (op_ListenIP config) (cn_ServerPort common)) with
    | Err _ => s' = s ∧ ∃ e, r = Err e
    | Ok addr => (s' = s ∧ (∃ e, r = Err e) ∨ s' = {[addr]} ∪ s) ∧ (addr ∈ s → s' = s ∧ ∃ e, r = Err e)
    end.
Proof.
  unfold getConn. destruct (ni_Common info) as [common|]; [|done]. cbn. intros Hc. exists common. split; [done|].
  destruct (resolve_udp _) as [addr|e]; [|injection Hc as <- <-; split; [done|by eexists]].
  destruct (decide (addr ∈ s)) as [Hin|Hin].
  { injection Hc as <- <-. split; [left|intros _]; (split; [done|by eexists]). }
  split; [|done]. destruct (listen_udp addr); [injection Hc as <- <-; left; split; [done|by eexists]|].
  destruct (ni_Hysteria2 info); [|done]. cbn in Hc. right.
  destruct (decide _); [by injection Hc|]. destruct (decide _); [destruct (salamander_error _)|]; by injection Hc.
Qed.

(** The socket of a node.  The UDP socket is opened before the rest of the configuration is
    looked at, and no error closes it again: every outcome of adding a node leaves the
    sockets as they were or with the one of the node.  With an obfuscation the program does not
    know, for one, the node is refused and its socket stays.  From then on no node can be
    added on that address, a corrected one neither, as long as the process runs. *)
Theorem failed_node_keeps_port (read : string → result serverConfig) (info : NodeInfo) (config : Options)
    (s : sockets) (common : CommonNode) (addr : string) :
  ni_Common info = Some common →
  resolve_udp (formatAddress (op_ListenIP config) (cn_ServerPort common)) = Ok addr →
  (∀ r s', hy2_AddNode_config read info config s = Some (r, s') → s' = s ∨ s' = {[addr]} ∪ s) ∧
  (∀ c tls quic n, read (op_Hysteria2ConfigPath config) = Ok c → op_Hysteria2ConfigPath config ≠ "" →
     getTLSConfig config = Ok tls → getQUICConfig c = Ok quic →
     addr ∉ s → listen_udp addr = None → ni_Hysteria2 info = Some n →
     ToLower (h2_ObfsType n) ∉ [""; "plain"; "salamander"] →
     hy2_AddNode_config read info config s = Some (Err "unsupported obfuscation type", {[addr]} ∪ s)) ∧
  (addr ∈ s → ∃ e, hy2_AddNode_config read info config s = Some (Err e, s)).
Proof.
  intros Hcommon Haddr. unfold hy2_AddNode_config, hy_config, getHyConfig.
  set (file := if decide (op_Hysteria2ConfigPath config = "") then Ok zero_config else read _).
  assert (∀ r s', getConn info config s = Some (r, s') →
    (s' = s ∧ (∃ e, r = Err e) ∨ s' = {[addr]} ∪ s) ∧ (addr ∈ s → s' = s ∧ ∃ e, r = Err e)) as Hconn.
  { intros r s' Hc. apply getConn_sockets in Hc as (common' & Hc' & Hr).
    assert (common' = common) as -> by congruence. by rewrite Haddr in Hr. }
  split; [|split].
  - intros r s' H1. destruct file as [c|e]; [|left; by injection H1].
    destruct (getTLSConfig config) as [tls|e]; [|left; by injection H1].
    destruct (getQUICConfig c) as [quic|e]; [|left; by injection H1]. cbn in H1.
    destruct (getConn info config s) as [[rc s1]|]; [|done]. destruct (Hconn rc s1 eq_refl) as [Hs _]. cbn in H1.
    enough (s' = s1) as -> by tauto. destruct rc as [conn|e]; [|by injection H1].
    destruct (ni_Hysteria2 info); [|done]. cbn in H1. injection H1 as H1.
    destruct (_ ≫= _) as [cfg|]; [destruct (new_server _)|]; by injection H1.
  - intros c tls quic n Hread Hne Htls Hquic Hin Hlisten Hn Hobfs. subst file.
    rewrite decide_False by done. rewrite Hread, Htls, Hquic. cbn. unfold getConn. rewrite Hcommon. cbn.
    rewrite Haddr, decide_False by done. rewrite Hlisten, Hn. cbn.
    rewrite (decide_False (P := _ ∨ _)) by set_solver. rewrite decide_False by set_solver. done.
  - intros Hin. destruct file as [c|e]; [|by eexists].
    destruct (getTLSConfig config) as [tls|e]; [|by eexists]. destruct (getQUICConfig c) as [quic|e]; [|by eexists].
    cbn. unfold getConn. rewrite Hcommon. cbn. rewrite Haddr, decide_True by done. cbn. by eexists.
Qed.

(** ** Outbounds *)

(** A resolver stands in front of an access list, whatever the file says; without a list the
    first outbound is used, and there is always one. *)
Definition resolver_first (o : outbound) : bool :=
  match o with
  | SystemResolver _ | StandardResolverTCP _ _ _ | StandardResolverUDP _ _ _
  | StandardResolverTLS _ _ _ _ _ | DoHResolver _ _ _ _ _ => true
  | _ => false
  end.
Lemma acl_behind_resolver (c : serverConfig) (o : outbound) :
  getOutboundConfig c = Ok o → (acl_File (sc_ACL c) ≠ "" ∨ acl_Inline (sc_ACL c) ≠ []) → resolver_first o = true.
Proof.
  unfold getOutboundConfig. intros H1 Hacl.
  apply result_bind_Ok in H1 as (obs & _ & H1). apply result_bind_Ok in H1 as ([hasACL ob] & Ha & Hr).
  assert (hasACL = true) as ->.
  { unfold with_acl in Ha. destruct (bool_decide_reflect (acl_File (sc_ACL c) ≠ "")),
      (bool_decide_reflect (acl_Inline (sc_ACL c) ≠ [])); cbn in Ha; try done; [..|tauto];
      by apply result_bind_Ok in Ha as (? & _ & [= <- _]). }
  unfold with_resolver in Hr. cbv zeta in Hr.
  repeat match type of Hr with (if decide ?P then _ else _) = _ => destruct (decide P) end;
    try discriminate Hr; by injection Hr as <-.
Qed.
End config.

(** ** Addresses *)

Lemma split_host_port_address ip p : "["%char ∉ to_bytes ip → "]"%char ∉ to_bytes ip → Forall is_digit (to_bytes p) →
  SplitHostPort (if contains_byte ":" ip then "[" +:+ ip +:+ "]:" +:+ p else ip +:+ ":" +:+ p) = Some (ip, p).
Proof.
  intros Hl Hr Hp. assert (∀ c, ¬ is_digit c → c ∉ to_bytes p) as Hfree.
  { intros c Hc Hin. rewrite Forall_forall in Hp. by apply Hc, Hp. }
  assert (":"%char ∉ to_bytes p ∧ "["%char ∉ to_bytes p ∧ "]"%char ∉ to_bytes p) as (Hc & Ho & Hb).
  { split_and!; apply Hfree; by apply (bool_decide_unpack _). }
  unfold SplitHostPort. destruct (contains_byte ":" ip) eqn:Ec.
  - apply bool_decide_eq_true in Ec. rewrite !to_bytes_app. set (l := to_bytes ip) in *. cbn [to_bytes list_ascii_of_string app].
    assert (split_last ":"%char ("["%char :: l ++ "]"%char :: ":"%char :: to_bytes p)%list =
      Some (("["%char :: l ++ ["]"%char])%list, to_bytes p)) as Hs.
    { apply split_last_Some. split; [|done]. cbn. by rewrite <-(assoc_L (++)%list). }
    unfold split_host_port.
    rewrite Hs. cbn [mbind option_bind].
    assert (index_byte "]"%char ("["%char :: l ++ "]"%char :: ":"%char :: to_bytes p)%list = Some (S (length l))) as Hi.
    { unfold index_byte. cbn [list_find]. rewrite decide_False by done.
      assert (∀ k, list_find (eq "]"%char) (l ++ "]"%char :: k)%list = Some (length l, "]"%char)) as Hf.
      { intros k. clear -Hr. induction l as [|c l IH]; cbn [app list_find]; [by rewrite decide_True|].
        rewrite decide_False by set_solver. rewrite IH by set_solver. done. }
      by rewrite Hf. }
    rewrite Hi. cbn. rewrite length_app. cbn. rewrite decide_True by lia.
    rewrite drop_0, decide_False by set_solver. rewrite decide_False.
    + cbn. rewrite Nat.sub_0_r, take_app_le, take_ge by lia. unfold l. by rewrite !of_to_bytes.
    + rewrite drop_app_ge by lia. replace (S (length l) - length l)%nat with 1%nat by lia. cbn. set_solver.
  - apply bool_decide_eq_false in Ec. rewrite !to_bytes_app. set (l := to_bytes ip) in *. cbn [to_bytes list_ascii_of_string app].
    unfold split_host_port. rewrite (proj2 (split_last_Some ":"%char _ l (to_bytes p))) by done.
    cbn [mbind option_bind].
    assert (("["%char ∉ l ++ ":"%char :: to_bytes p)%list ∧ ("]"%char ∉ l ++ ":"%char :: to_bytes p)%list) as [H1 H2] by set_solver.
    assert (match (l ++ ":"%char :: to_bytes p)%list with "["%char :: _ => False | _ => True end) as Hhd.
    { destruct (l ++ ":"%char :: to_bytes p)%list as [|c k]; [done|].
      destruct (decide (c = "["%char)) as [->|?]; [set_solver|by repeat (case_match; try done)]. }
    rewrite (decide_False (P := ":"%char ∈ l)) by done. rewrite !(decide_False (P := _ ∈ (l ++ _)%list)) by done.
    unfold l in *. repeat (case_match; try done); cbn [mbind option_bind]; by rewrite !of_to_bytes.
Qed.

(** The port of an address is read back from its text, for IPv4 and IPv6 addresses alike. *)
Theorem address_round_trip (ip : string) (port : Z) :
  "["%char ∉ to_bytes ip → "]"%char ∉ to_bytes ip → 0 ≤ port → in_int64 port →
  extractPortFromAddr (formatAddress ip port) = port ∧ SplitHostPort (formatAddress ip port) = Some (ip, Itoa port).
Proof.
  intros Hl Hr Hp Hi. unfold extractPortFromAddr, formatAddress.
  rewrite split_host_port_address by (by try apply Itoa_digits). by rewrite Atoi_Itoa.
Qed.
Lemma address_round_trip_witness : extractPortFromAddr (formatAddress "2001:db8::1" 443) = 443.
Proof.
  apply address_round_trip; [by apply (bool_decide_unpack _)|by apply (bool_decide_unpack _)|lia|].
  unfold in_int64, int64_min, int64_max. lia.
Defined.

(** ** A node with an unknown obfuscation *)
#[local] Instance toy_hy : HyLibs := {|
  build_error _ := None; is_ip _ := true; is_port_union _ := true; proxy_url _ := Err ""; load_key_pair _ _ := None;
  resolve_udp := Ok; listen_udp _ := None; salamander_error _ := None; new_server _ := None
|}.
Definition obfs_node (obfs : string) : NodeInfo :=
  let common := MkCommonNode "h" 443 "" [] None in
  MkNodeInfo 1 "hysteria2" "" SecTls 0 0 (MkRawDNS ∅ "") (MkRules [] []) "" None None None None None None None
    (Some (MkHysteria2Node common false 0 0 obfs "")) (Some common) None.
Definition hy_options : Options :=
  MkOptions "n" "hysteria2" "" "0.0.0.0" "" 0 LimitConfig_zero "" None None "hy.yaml"
    (Some (MkCertConfig "file" false "" "c" "k" "" "" ∅)).
Lemma failed_node_keeps_port_witness :
  hy2_AddNode_config (λ _, Ok zero_config) (obfs_node "xplus") hy_options ∅ =
    Some (Err "unsupported obfuscation type", {["0.0.0.0:443"]} ∪ ∅) ∧
  ∃ e, hy2_AddNode_config (λ _, Ok zero_config) (obfs_node "") hy_options ({["0.0.0.0:443"]} ∪ ∅) =
    Some (Err e, {["0.0.0.0:443"]} ∪ ∅).
Proof.
  split.
  - eapply (failed_node_keeps_port (λ _, Ok zero_config) (obfs_node "xplus") hy_options ∅ _ "0.0.0.0:443");
      try reflexivity; [discriminate|set_solver|by apply (bool_decide_unpack _)].
  - eapply (failed_node_keeps_port (λ _, Ok zero_config) (obfs_node "") hy_options ({["0.0.0.0:443"]} ∪ ∅) _ "0.0.0.0:443");
      [reflexivity|reflexivity|set_solver].
Defined.
