(* ===== verification/Hy2Core.v ===== *)
(** core/hy2: the hysteria2 core as a whole (hy2.go, node.go, logger.go).

    Hy2.v has what the node controllers see of the core, Hy2Config.v how the server of a node is
    configured.  Here a node is added with its server, its socket and the listeners of its
    masquerade, and the core is shown to refine the one of Hy2.v.  The locks make every method
    of the map of nodes one step.  [None] is a panic. *)
From S2P Require Import Prelude GoStrings Netutil PanelTypes Conf ConnLimiter OnlineRegistry.
From S2P Require Import Limiter TrafficCounter CoreApi Hy2 Hy2Config.
#[local] Open Scope string_scope.
#[local] Open Scope Z_scope.

(** * logger.go *)

Inductive Level := DebugLevel | InfoLevel | WarnLevel | ErrorLevel.
Definition logLevelMap : gmap string Level :=
  {["debug" := DebugLevel; "info" := InfoLevel; "warn" := WarnLevel; "error" := ErrorLevel]}.
Inductive LevelEncoder := CapitalColorLevelEncoder | LowercaseLevelEncoder.
Inductive TimeEncoder := RFC3339TimeEncoder | EpochMillisTimeEncoder.
(** The line ending and the encoder of durations are the same everywhere. *)
Record EncoderConfig := MkEncoderConfig {
  ec_TimeKey : string; ec_LevelKey : string; ec_NameKey : string; ec_MessageKey : string;
  ec_EncodeLevel : LevelEncoder; ec_EncodeTime : TimeEncoder
}.
Definition logFormatMap : gmap string EncoderConfig :=
  {["console" := MkEncoderConfig "time" "level" "logger" "msg" CapitalColorLevelEncoder RFC3339TimeEncoder;
    "json" := MkEncoderConfig "time" "level" "logger" "msg" LowercaseLevelEncoder EpochMillisTimeEncoder]}.
Record ZapConfig := MkZapConfig {
  zc_Level : Level; zc_DisableCaller : bool; zc_DisableStacktrace : bool; zc_Encoding : string;
  zc_EncoderConfig : EncoderConfig; zc_OutputPaths : list string; zc_ErrorOutputPaths : list string
}.

(** The address of a client; an IP is known by its text. *)
Inductive Addr := TCPAddr (ip : string) (port : Z) | UDPAddr (ip : string) (port : Z) | IPAddr (ip : string)
| OtherAddr (network : string).
Definition Network (a : Addr) : string :=
  match a with TCPAddr _ _ => "tcp" | UDPAddr _ _ => "udp" | IPAddr _ => "ip" | OtherAddr n => n end.
Definition extractIPFromAddr (a : Addr) : string :=
  match a with TCPAddr ip _ => ip | UDPAddr ip _ => ip | IPAddr ip => ip | OtherAddr _ => "" end.

Record log_line := MkLogLine { ln_Level : Level; ln_Message : string; ln_Fields : list (string * string) }.
(** [zap.Error]: nothing for nil. *)
Definition zap_Error (err : option string) : list (string * string) :=
  match err with Some e => [("error", e)] | None => [] end.

Section logger.
(** [zap.Config.Build]; [addr.String()]. *)
Context (Build : ZapConfig → option string) (addr_String : Addr → string).

Definition initLogger (logLevel logFormat : string) : result ZapConfig :=
  match logLevelMap !! ToLower logLevel with
  | None => Err ("unsupported log level: " +:+ logLevel)
  | Some level =>
      match logFormatMap !! ToLower logFormat with
      | None => Err ("unsupported log format: " +:+ logFormat)
      | Some enc =>
          let c := MkZapConfig level true true (ToLower logFormat) enc ["stderr"] ["stderr"] in
          match Build c with
          | Some e => Err ("failed to initialize logger: " +:+ e)
          | None => Ok c
          end
      end
  end.

(** The callbacks of the server: what becomes of the limiters, and the line that is written.
    [logger.Panic] panics. *)
Definition about (addr : Addr) (uuid : string) : list (string * string) :=
  [("addr", addr_String addr); ("uuid", uuid)].
Definition serverLogger_Connect (tag : string) (addr : Addr) (uuid : string) (tx now : Z) (lims : Limiters)
    : option (log_line * Limiters) :=
  '(_, lims) ← Connect tag uuid (extractIPFromAddr addr) (bool_decide (Network addr = "tcp")) now lims;
  Some (MkLogLine InfoLevel "client connected" (about addr uuid ++ [("tx", Itoa tx)])%list, lims).
Definition serverLogger_Disconnect (tag : string) (addr : Addr) (uuid : string) (err : option string)
    (now : Z) (lims : Limiters) : log_line * Limiters :=
  (MkLogLine InfoLevel "client disconnected" (about addr uuid ++ zap_Error err)%list,
   Disconnect tag uuid (extractIPFromAddr addr) now lims).
Definition serverLogger_TCPRequest (tag : string) (addr : Addr) (uuid reqAddr : string) (now : Z)
    (lims : Limiters) : option (log_line * Limiters) :=
  '(_, lims) ← TCPRequest tag uuid (extractIPFromAddr addr) (bool_decide (Network addr = "tcp")) now lims;
  Some (MkLogLine DebugLevel "TCP request" (about addr uuid ++ [("reqAddr", reqAddr)])%list, lims).
Definition TCPError (addr : Addr) (uuid reqAddr : string) (err : option string) : log_line :=
  let fields := (about addr uuid ++ [("reqAddr", reqAddr)])%list in
  match err with
  | None => MkLogLine DebugLevel "TCP closed" fields
  | Some _ => MkLogLine DebugLevel "TCP error" (fields ++ zap_Error err)%list
  end.
Definition serverLogger_UDPRequest (tag : string) (addr : Addr) (uuid : string) (sessionId : Z) (reqAddr : string)
    (now : Z) (lims : Limiters) : option (log_line * Limiters) :=
  '(_, lims) ← UDPRequest tag uuid (extractIPFromAddr addr) (bool_decide (Network addr = "tcp")) now lims;
  Some (MkLogLine DebugLevel "UDP request"
          (about addr uuid ++ [("sessionId", Itoa sessionId); ("reqAddr", reqAddr)])%list, lims).
Definition UDPError (addr : Addr) (uuid : string) (sessionId : Z) (err : option string) : log_line :=
  let fields := (about addr uuid ++ [("sessionId", Itoa sessionId)])%list in
  match err with
  | None => MkLogLine DebugLevel "UDP closed" fields
  | Some _ => MkLogLine DebugLevel "UDP error" (fields ++ zap_Error err)%list
  end.
End logger.

(** * The core *)

Definition hy2_protocols : list string := ["hysteria2"].
Definition hy2_Type : string := "hysteria2".

(** A node: its traffic log, and what its server was made of; the server is known by its
    socket. *)
Record Hysteria2node := MkHysteria2node { nd_TrafficLogger : HookServer; nd_Config : Config }.
Definition nd_server (n : Hysteria2node) : string := hc_Conn (nd_Config n).
Record Hy2Core := MkHy2Core {
  hy_nodes : gmap string Hysteria2node;
  hy_Auth : gmap string Z;
  hy_Logger : ZapConfig
}.
Definition hy_getNode (tag : string) (h : Hy2Core) : option Hysteria2node := hy_nodes h !! tag.
Definition hy_setNode (tag : string) (n : Hysteria2node) (h : Hy2Core) : Hy2Core :=
  MkHy2Core (<[tag := n]> (hy_nodes h)) (hy_Auth h) (hy_Logger h).
Definition hy_deleteNode (tag : string) (h : Hy2Core) : Hy2Core :=
  MkHy2Core (delete tag (hy_nodes h)) (hy_Auth h) (hy_Logger h).
(** The order of a map is not fixed. *)
Definition hy_nodesSnapshot (h : Hy2Core) (l : list Hysteria2node) : Prop :=
  l ≡ₚ map snd (map_to_list (hy_nodes h)).

(** What the core holds of the operating system: its UDP sockets, and who answers at the TCP
    addresses of the masquerades. *)
Record System := MkSystem { os_udp : gset string; os_masq : gmap string (masquerade * MasqTCPServer) }.

Section core.
Context {H : HyLibs}.
(** The file of a node; listening on a TCP address; closing a server, and the sockets then. *)
Context (Build : ZapConfig → option string) (read : string → result serverConfig)
  (listen_tcp : string → bool) (close_server : string → gset string → option string * gset string).

Definition hy_New (c : CoreConfig) : option (result Hy2Core) :=
  config ← co_Hysteria2Config c;
  let level := hl_Level (hc_LogConfig config) in
  let loglever := if decide (level = "") then "error" else level in
  Some (log ← initLogger Build loglever "console"; Ok (MkHy2Core ∅ ∅ log)).
Definition hy_Start (h : Hy2Core) : option string := None.

(** [runMasqTCPServer]: an address that cannot be listened on is logged, and that is all. *)
Definition masq_listen (addr : string) (m : masquerade * MasqTCPServer)
    (t : gmap string (masquerade * MasqTCPServer)) : gmap string (masquerade * MasqTCPServer) :=
  if decide (addr = "") then t
  else match t !! addr with
       | Some _ => t
       | None => if listen_tcp addr then <[addr := m]> t else t
       end.
Definition runMasqTCPServer (cfg : Config) (o : System) : System :=
  match hc_MasqServer cfg with
  | None => o
  | Some s =>
      let m := (hc_Masq cfg, s) in
      MkSystem (os_udp o) (masq_listen (mt_HTTPS s) m (masq_listen (mt_HTTP s) m (os_masq o)))
  end.

Definition hy_core_AddNode (tag : string) (info : NodeInfo) (config : Options) (h : Hy2Core) (o : System)
    : option (option string * Hy2Core * System) :=
  '(r, udp) ← hy_config read info config (os_udp o);
  let o := MkSystem udp (os_masq o) in
  Some (match r with
        | Err e => (Some e, h, o)
        | Ok cfg =>
            let o := runMasqTCPServer cfg o in
            match new_server (hc_Conn cfg) with
            | Some e => (Some e, h, o)
            | None => (None, hy_setNode tag (MkHysteria2node (MkHookServer tag ∅) cfg) h, o)
            end
        end).
Definition server_Close (n : Hysteria2node) (o : System) : option string * System :=
  let '(e, udp) := close_server (nd_server n) (os_udp o) in (e, MkSystem udp (os_masq o)).
Definition hy_core_DelNode (tag : string) (h : Hy2Core) (o : System) : option string * Hy2Core * System :=
  match hy_getNode tag h with
  | None => (Some ("node " ++ tag ++ " not found"), h, o)
  | Some n =>
      match server_Close n o with
      | (Some e, o) => (Some e, h, o)
      | (None, o) => (None, hy_deleteNode tag h, o)
      end
  end.
(** [Close] goes through a snapshot and stops at the first error. *)
Fixpoint hy_Close (l : list Hysteria2node) (o : System) : option string * System :=
  match l with
  | [] => (None, o)
  | n :: l => match server_Close n o with (Some e, o) => (Some e, o) | (None, o) => hy_Close l o end
  end.
Definition hy_core_LogTraffic (tag id : string) (tx rx : Z) (h : Hy2Core) (lims : Limiters)
    : bool * Hy2Core * Limiters :=
  match hy_getNode tag h with
  | None => (false, h, lims)
  | Some n =>
      let '(ok, hook, lims) := LogTraffic (nd_TrafficLogger n) id tx rx lims in
      (ok, hy_setNode tag (MkHysteria2node hook (nd_Config n)) h, lims)
  end.

(** ** What the controllers see *)

Definition hy_view (h : Hy2Core) : Hysteria2 := MkHysteria2 (nd_TrafficLogger <$> hy_nodes h) (hy_Auth h).
End core.

(** * The sockets of the nodes *)

Section sockets.
Context {H : HyLibs}.
Context (read : string → result serverConfig)
  (listen_tcp : string → bool) (close_server : string → gset string → option string * gset string).
#[local] Abbreviation AddNode := (hy_core_AddNode read listen_tcp).
#[local] Abbreviation DelNode := (hy_core_DelNode close_server).
#[local] Abbreviation state := (Hy2Core * System)%type.

(** What happens to a core between [New] and [Close]. *)
Inductive hy2_op :=
| OpAdd (tag : string) (info : NodeInfo) (config : Options)
| OpDel (tag : string)
| OpTraffic (tag id : string) (tx rx : Z) (lims : Limiters)
| OpUsers (f : gmap string Z → gmap string Z).
Definition hy2_step (op : hy2_op) (s : state) : option state :=
  let '(h, o) := s in
  match op with
  | OpAdd tag info config => '(_, h, o) ← AddNode tag info config h o; Some (h, o)
  | OpDel tag => let '(_, h, o) := DelNode tag h o in Some (h, o)
  | OpTraffic tag id tx rx lims => let '(_, h, _) := hy_core_LogTraffic tag id tx rx h lims in Some (h, o)
  | OpUsers f => Some (MkHy2Core (hy_nodes h) (f (hy_Auth h)) (hy_Logger h), o)
  end.
Fixpoint hy2_run (ops : list hy2_op) (s : state) : option state :=
  match ops with [] => Some s | op :: ops => s ← hy2_step op s; hy2_run ops s end.

(** Every node has the tag it is registered under and an open socket of its own. *)
Record owns (h : Hy2Core) (o : System) : Prop := {
  own_node tag n : hy_nodes h !! tag = Some n →
    hs_Tag (nd_TrafficLogger n) = tag ∧ nd_server n ∈ os_udp o;
  own_distinct t1 n1 t2 n2 : hy_nodes h !! t1 = Some n1 → hy_nodes h !! t2 = Some n2 →
    nd_server n1 = nd_server n2 → t1 = t2
}.

Lemma getConn_Ok info config s addr s' :
  getConn info config s = Some (Ok addr, s') → addr ∉ s ∧ s' = {[addr]} ∪ s.
Proof.
  unfold getConn. destruct (ni_Common info) as [common|]; [|done]. cbn.
  destruct (resolve_udp _) as [a|e]; [|done]. destruct (decide (a ∈ s)) as [|Hin]; [done|].
  destruct (listen_udp a); [done|]. destruct (ni_Hysteria2 info); [|done]. cbn.
  destruct (decide _); [by intros [= <- <-]|]. destruct (decide _); [|done].
  destruct (salamander_error _); [done|]. by intros [= <- <-].
Qed.
Lemma getConn_grows info config s r s' : getConn info config s = Some (r, s') → s ⊆ s'.
Proof.
  intros Hc. destruct (getConn_sockets info config s r s' Hc) as (common & _ & Hr).
  destruct (resolve_udp _); [|by destruct Hr as [-> _]]. destruct Hr as [[[-> _]| ->] _]; set_solver.
Qed.
Lemma hy_config_spec info config s r s' :
  hy_config read info config s = Some (r, s') →
  s ⊆ s' ∧ ∀ cfg, r = Ok cfg → hc_Conn cfg ∉ s ∧ s' = {[hc_Conn cfg]} ∪ s.
Proof.
  unfold hy_config. destruct (if decide _ then _ else _) as [c|e]; [|by intros [= <- <-]].
  unfold getHyConfig. destruct (getTLSConfig config); [|by intros [= <- <-]].
  destruct (getQUICConfig c); [|by intros [= <- <-]].
  destruct (getConn info config s) as [[rc s1]|] eqn:Ec; [|done]. cbn [mbind option_bind].
  pose proof (getConn_grows _ _ _ _ _ Ec) as Hg. destruct rc as [conn|e]; [|by intros [= <- <-]].
  destruct (ni_Hysteria2 info); [|done]. cbn [mbind option_bind]. intros [= <- <-]. split; [done|].
  intros cfg E. apply result_bind_Ok in E as (sn & _ & E). apply result_bind_Ok in E as (ob & _ & E).
  apply result_bind_Ok in E as ([m sv] & _ & [= <-]). cbn [hc_Conn]. by apply getConn_Ok in Ec.
Qed.

Lemma owns_empty l : owns (MkHy2Core ∅ ∅ l) (MkSystem ∅ ∅).
Proof. by split. Qed.
Lemma owns_nodes h o h' o' : hy_nodes h' = hy_nodes h → os_udp o ⊆ os_udp o' → owns h o → owns h' o'.
Proof.
  intros En Hs [H1 H2]. split; rewrite En; [|done]. intros tag n Hn. destruct (H1 tag n Hn). split; [done|set_solver].
Qed.
Lemma runMasq_udp cfg o : os_udp (runMasqTCPServer listen_tcp cfg o) = os_udp o.
Proof. unfold runMasqTCPServer. by destruct (hc_MasqServer cfg). Qed.
Lemma owns_AddNode tag info config h o e h' o' :
  owns h o → AddNode tag info config h o = Some (e, h', o') → owns h' o'.
Proof.
  intros Ho. unfold hy_core_AddNode. destruct (hy_config _ _ _ _) as [[r udp]|] eqn:Ec; [|done].
  cbn [mbind option_bind]. destruct (hy_config_spec _ _ _ _ _ Ec) as [Hg Hok].
  destruct r as [cfg|e1]; [|by intros [= _ <- <-]; eapply owns_nodes].
  destruct (Hok cfg eq_refl) as [Hnew ->].
  destruct (new_server (hc_Conn cfg)); intros [= _ <- <-].
  { eapply owns_nodes; [done| |done]. by rewrite runMasq_udp. }
  destruct Ho as [H1 H2]. split; rewrite ?runMasq_udp; cbn [os_udp hy_nodes hy_setNode].
  - intros t n. rewrite lookup_insert. case_decide as Ht; [intros [= <-]; cbn; set_solver|].
    intros Hn. destruct (H1 t n Hn). split; [done|set_solver].
  - assert (∀ t n, hy_nodes h !! t = Some n → nd_server n ≠ hc_Conn cfg) as Hne.
    { intros t n Hn E. destruct (H1 t n Hn) as [_ Hin]. by rewrite E in Hin. }
    intros t1 n1 t2 n2. rewrite !lookup_insert. repeat case_decide; intros E1 E2 E; simplify_eq/=; [done| | |by eauto].
    + by destruct (Hne _ _ E2).
    + by destruct (Hne _ _ E1).
Qed.
(** What a server promises: it closes, and gives up its own socket. *)
Definition closes : Prop := ∀ a s, close_server a s = (None, s ∖ {[a]}).
(** Closing a node gives its socket back and nobody else's. *)
Lemma DelNode_frees tag h o h' o' n :
  closes → owns h o → hy_nodes h !! tag = Some n → DelNode tag h o = (None, h', o') →
  owns h' o' ∧ hy_nodes h' = delete tag (hy_nodes h) ∧ os_udp o' = os_udp o ∖ {[nd_server n]}.
Proof.
  intros Hc [H1 H2] Hn. unfold hy_core_DelNode, hy_getNode, server_Close. rewrite Hn, Hc.
  intros [= <- <-]. split; [|done].
  split; cbn [hy_nodes hy_deleteNode os_udp].
  - intros t m. rewrite lookup_delete_Some. intros [Ht Hm]. destruct (H1 t m Hm). split; [done|].
    apply elem_of_difference. split; [done|]. rewrite elem_of_singleton. intros E. apply Ht. by eapply H2.
  - intros t1 n1 t2 n2. rewrite !lookup_delete_Some. intros [_ E1] [_ E2]. by eapply H2.
Qed.
Lemma owns_DelNode tag h o e h' o' : closes → owns h o → DelNode tag h o = (e, h', o') → owns h' o'.
Proof.
  intros Hc Ho. destruct (hy_nodes h !! tag) as [n|] eqn:Hn.
  - destruct e as [e|]; [|intros E; by apply (DelNode_frees tag h o h' o' n) in E as [? _]].
    unfold hy_core_DelNode, hy_getNode, server_Close. by rewrite Hn, Hc.
  - unfold hy_core_DelNode, hy_getNode. rewrite Hn. by intros [= _ <- <-].
Qed.
Lemma LogTraffic_Tag n id tx rx lims : hs_Tag (LogTraffic n id tx rx lims).1.2 = hs_Tag n.
Proof.
  unfold LogTraffic. destruct (GetLimiter _ _); [|done]. destruct (objs lims !! _); [|done].
  by destruct (ConsumeOverLimit _ _) as [[] ?].
Qed.
Lemma owns_step op h o h' o' : closes → owns h o → hy2_step op (h, o) = Some (h', o') → owns h' o'.
Proof.
  intros Hc Ho. destruct op as [tag info config|tag|tag id tx rx lims|f]; cbn [hy2_step].
  - destruct (AddNode tag info config h o) as [[[e h1] o1]|] eqn:E; [|done]. intros [= <- <-].
    by eapply owns_AddNode.
  - destruct (DelNode tag h o) as [[e h1] o1] eqn:E. intros [= <- <-]. by eapply owns_DelNode.
  - unfold hy_core_LogTraffic, hy_getNode. destruct (hy_nodes h !! tag) as [n|] eqn:Hn; [|by intros [= <- <-]].
    pose proof (LogTraffic_Tag (nd_TrafficLogger n) id tx rx lims) as Ht.
    destruct (LogTraffic _ _ _ _ _) as [[ok hook] lims']. intros [= <- <-]. cbn in Ht.
    destruct Ho as [H1 H2]. split; cbn [hy_nodes hy_setNode].
    + intros t m. rewrite lookup_insert. case_decide as E; [subst t; intros [= <-]|by apply H1].
      cbn. rewrite Ht. by apply (H1 tag n).
    + intros t1 n1 t2 n2. rewrite !lookup_insert.
      repeat case_decide; intros E1 E2 E; simplify_eq/=; [done|..];
        eapply (H2 t1 _ t2 _); first [exact E|eassumption].
  - intros [= <- <-]. by apply (owns_nodes h o).
Qed.
Lemma owns_run ops h o h' o' : closes → owns h o → hy2_run ops (h, o) = Some (h', o') → owns h' o'.
Proof.
  intros Hc. revert h o. induction ops as [|op ops IH]; intros h o Ho; cbn [hy2_run]; [by intros [= <- <-]|].
  destruct (hy2_step op (h, o)) as [[h1 o1]|] eqn:E; [|done]. apply IH. by eapply owns_step.
Qed.

(** (C18) A node of the hysteria2 core owns its socket.  Whatever nodes were added and deleted
    before, with or without success, every node that is registered has an open socket that no
    other node has, and deleting it gives that socket back and no other: the node is gone, its
    address can be listened on again, and the other nodes are as they were.  Assumed is that a
    server closes when it is told to, and its socket with it. *)
Theorem hy2_sockets_owned (ops : list hy2_op) (log : ZapConfig) (h : Hy2Core) (o : System)
    (tag : string) (n : Hysteria2node) :
  closes → hy2_run ops (MkHy2Core ∅ ∅ log, MkSystem ∅ ∅) = Some (h, o) → hy_nodes h !! tag = Some n →
  nd_server n ∈ os_udp o ∧ hs_Tag (nd_TrafficLogger n) = tag ∧
  ∃ h' o', DelNode tag h o = (None, h', o') ∧
    hy_nodes h' !! tag = None ∧ nd_server n ∉ os_udp o' ∧
    ∀ tag' n', tag' ≠ tag → hy_nodes h !! tag' = Some n' →
      hy_nodes h' !! tag' = Some n' ∧ nd_server n' ∈ os_udp o'.
Proof.
  intros Hc Hrun Hn. pose proof (owns_run _ _ _ _ _ Hc (owns_empty log) Hrun) as Ho.
  destruct (own_node h o Ho tag n Hn) as [Ht Hin]. split; [done|]. split; [done|].
  destruct (DelNode tag h o) as [[e h'] o'] eqn:E.
  assert (e = None) as ->.
  { unfold hy_core_DelNode, hy_getNode, server_Close in E. rewrite Hn, Hc in E. by injection E. }
  destruct (DelNode_frees tag h o h' o' n Hc Ho Hn E) as (Ho' & En & Es). exists h', o'. split; [done|].
  rewrite En, Es. split; [by rewrite lookup_delete_eq|]. split; [set_solver|].
  intros tag' n' Hne Hn'. split; [by rewrite lookup_delete_ne|].
  rewrite <-Es. apply (own_node h' o' Ho' tag' n'). by rewrite En, lookup_delete_ne.
Qed.

(** ** Closing the core *)

(** The sockets once some nodes were closed without an error. *)
Definition closed (l : list Hysteria2node) (s : gset string) : gset string :=
  foldl (λ s n, (close_server (nd_server n) s).2) s l.
(** The nodes before the first that fails are closed, those after it are not, in whatever order
    they come. *)
Lemma hy_Close_spec l n rest o e :
  (∀ m s, m ∈ l → (close_server (nd_server m) s).1 = None) → (∀ s, (close_server (nd_server n) s).1 = Some e) →
  hy_Close close_server (l ++ n :: rest)%list o = (Some e, MkSystem (closed (l ++ [n])%list (os_udp o)) (os_masq o)).
Proof.
  revert o. induction l as [|m l IH]; intros o Hl Hn; cbn [app hy_Close]; unfold server_Close.
  - specialize (Hn (os_udp o)). cbn. destruct (close_server (nd_server n) (os_udp o)). cbn in *. by subst.
  - pose proof (Hl m (os_udp o) (list_elem_of_here _ _)) as Hm. unfold closed. cbn [foldl].
    destruct (close_server (nd_server m) (os_udp o)) as [e1 s1]. cbn in Hm. subst e1.
    rewrite IH; [done| |done]. intros m' s ?. apply Hl. by right.
Qed.
Lemma hy_Close_all l o : closes →
  hy_Close close_server l o = (None, MkSystem (os_udp o ∖ list_to_set (map nd_server l)) (os_masq o)).
Proof.
  intros Hc. revert o. induction l as [|m l IH]; intros o; cbn [hy_Close].
  - destruct o. cbn. by rewrite difference_empty_L.
  - unfold server_Close. rewrite Hc, IH. do 2 f_equal. cbn. set_solver.
Qed.

(** ** The masquerade *)

Lemma masq_listen_keeps addr m t a x :
  t !! a = Some x → masq_listen listen_tcp addr m t !! a = Some x.
Proof.
  intros Ha. unfold masq_listen. case_decide; [done|]. destruct (t !! addr) eqn:E; [done|].
  destruct (listen_tcp addr); [|done]. rewrite lookup_insert_ne; [done|]. congruence.
Qed.
Lemma runMasq_keeps cfg o a x :
  os_masq o !! a = Some x → os_masq (runMasqTCPServer listen_tcp cfg o) !! a = Some x.
Proof.
  intros Ha. unfold runMasqTCPServer. destruct (hc_MasqServer cfg); [|done]. by do 2 apply masq_listen_keeps.
Qed.
Lemma masq_step op h o h' o' a x :
  hy2_step op (h, o) = Some (h', o') → os_masq o !! a = Some x → os_masq o' !! a = Some x.
Proof.
  intros Hs Ha. destruct op as [tag info config|tag|tag id tx rx lims|f]; cbn [hy2_step] in Hs.
  - unfold hy_core_AddNode in Hs. destruct (hy_config _ _ _ _) as [[r udp]|]; [|done].
    cbn [mbind option_bind] in Hs. destruct r as [cfg|e]; [|by injection Hs as <- <-].
    destruct (new_server (hc_Conn cfg)); injection Hs as <- <-; by apply runMasq_keeps.
  - unfold hy_core_DelNode, server_Close in Hs. destruct (hy_getNode tag h); [|by injection Hs as <- <-].
    destruct (close_server _ _) as [[e|] udp]; by injection Hs as <- <-.
  - by destruct (hy_core_LogTraffic _ _ _ _ _ _) as [[? ?] ?]; injection Hs as <- <-.
  - by injection Hs as <- <-.
Qed.

(** (C35) The masquerade of a node outlives it.  Once the configuration of a node has made the
    program listen on a TCP address for its masquerade, that address answers with the handler
    of this configuration for as long as the process runs: deleting the node does not end it,
    and adding the node again with a changed masquerade on the same address succeeds and
    changes nothing there. *)
Theorem masquerade_outlives_node (tag : string) (info : NodeInfo) (config : Options) (h h1 : Hy2Core)
    (o o1 : System) (n : Hysteria2node) (s : MasqTCPServer) (ops : list hy2_op) (h2 : Hy2Core) (o2 : System) :
  AddNode tag info config h o = Some (None, h1, o1) → hy_nodes h1 !! tag = Some n →
  hc_MasqServer (nd_Config n) = Some s → mt_HTTPS s ≠ "" → mt_HTTP s ≠ mt_HTTPS s →
  os_masq o !! mt_HTTPS s = None → listen_tcp (mt_HTTPS s) = true →
  hy2_run ops (h1, o1) = Some (h2, o2) →
  os_masq o2 !! mt_HTTPS s = Some (hc_Masq (nd_Config n), s).
Proof.
  intros Ha Hn Hs Hne Hd Hfree Hl Hrun.
  assert (os_masq o1 !! mt_HTTPS s = Some (hc_Masq (nd_Config n), s)) as H1.
  { unfold hy_core_AddNode in Ha. destruct (hy_config _ _ _ _) as [[r udp]|]; [|done].
    cbn [mbind option_bind] in Ha. destruct r as [cfg|]; [|done].
    destruct (new_server (hc_Conn cfg)); [done|]. injection Ha as <- <-.
    cbn [hy_nodes hy_setNode] in Hn. rewrite lookup_insert_eq in Hn. injection Hn as <-. cbn [nd_Config] in *.
    unfold runMasqTCPServer. rewrite Hs. cbn [os_masq]. unfold masq_listen at 1. rewrite decide_False by done.
    assert (masq_listen listen_tcp (mt_HTTP s) (hc_Masq cfg, s) (os_masq o) !! mt_HTTPS s = None) as E.
    { unfold masq_listen. case_decide; [done|]. destruct (os_masq o !! mt_HTTP s); [done|].
      destruct (listen_tcp (mt_HTTP s)); [by rewrite lookup_insert_ne|done]. }
    rewrite E, Hl. apply lookup_insert_eq. }
  clear Ha Hn Hfree. revert h1 o1 Hrun H1. induction ops as [|op ops IH]; intros h1 o1 Hrun H1; cbn [hy2_run] in Hrun.
  - by injection Hrun as <- <-.
  - destruct (hy2_step op (h1, o1)) as [[h3 o3]|] eqn:E; [|done]. eapply IH; [exact Hrun|]. by eapply masq_step.
Qed.
End sockets.

(** * The core of the controllers *)

Section refinement.
Context {H : HyLibs}.
Context (read : string → result serverConfig) (listen_tcp : string → bool)
  (close_server : string → gset string → option string * gset string).

(** What the node controllers see of the core.  Adding and deleting a node, counting
    traffic and changing the users do to the view of the core what the operations of the
    abstract core do, with the errors the configuration, the system and the library give. *)
Theorem hy2_core_refines (tag : string) (h : Hy2Core) (o : System) :
  (∀ info config e h' o', hy_core_AddNode read listen_tcp tag info config h o = Some (e, h', o') →
     hy_AddNode (λ _, e) tag (hy_view h) = (e, hy_view h')) ∧
  (∀ e h' o', hy_core_DelNode close_server tag h o = (e, h', o') →
     hy_DelNode (λ _, n ← hy_nodes h !! tag; (close_server (nd_server n) (os_udp o)).1) tag (hy_view h) = (e, hy_view h')) ∧
  (∀ n id tx rx lims ok h' lims', hy_nodes h !! tag = Some n →
     hy_core_LogTraffic tag id tx rx h lims = (ok, h', lims') →
     Hy2nodes (hy_view h) !! tag = Some (nd_TrafficLogger n) ∧
     ∃ hook, LogTraffic (nd_TrafficLogger n) id tx rx lims = (ok, hook, lims') ∧
       hy_view h' = set_node tag hook (hy_view h)).
Proof.
  split_and!.
  - intros info config e h' o'. unfold hy_core_AddNode. destruct (hy_config _ _ _ _) as [[r udp]|]; [|done].
    cbn [mbind option_bind]. unfold hy_AddNode. destruct r as [cfg|e1]; [|by intros [= <- <- _]].
    destruct (new_server (hc_Conn cfg)); intros [= <- <- _]; [done|].
    f_equal. unfold hy_view, set_node, hy_setNode. cbn. by rewrite fmap_insert.
  - intros e h' o'. unfold hy_core_DelNode, hy_DelNode, hy_getNode, server_Close, hy_view.
    cbn [Hy2nodes usersMap]. rewrite lookup_fmap. destruct (hy_nodes h !! tag) as [n|]; cbn; [|by intros [= <- <- _]].
    destruct (close_server (nd_server n) _) as [[e1|] udp]; intros [= <- <- _]; [done|]. cbn. by rewrite fmap_delete.
  - intros n id tx rx lims ok h' lims' Hn Hlog. unfold hy_core_LogTraffic, hy_getNode in Hlog. unfold hy_view.
    cbn [Hy2nodes]. rewrite lookup_fmap. rewrite Hn in *. split; [done|].
    destruct (LogTraffic _ _ _ _ _) as [[ok1 hook] lims1]. injection Hlog as <- <- <-. exists hook. split; [done|].
    unfold set_node, hy_setNode. cbn. by rewrite fmap_insert.
Qed.
End refinement.

(** * A core with one node *)
#[local] Existing Instance toy_hy.
(** Two files whose masquerades listen on an address. *)
Definition masq_config (text : string) : serverConfig :=
  MkServerConfig (sc_QUIC zero_config) false 0 (sc_Resolver zero_config) (sc_Sniff zero_config) (sc_ACL zero_config) []
    (MkServerConfigMasquerade "string" "" "" false (MkServerConfigMasqueradeString text ∅ 0) "" ":8443" false).
Definition masq_files (path : string) : result serverConfig :=
  Ok (masq_config (if decide (path = "hy.yaml") then "hello" else "goodbye")).
Definition changed_options : Options :=
  MkOptions "n" "hysteria2" "" "0.0.0.0" "" 0 LimitConfig_zero "" None None "other.yaml" (op_CertConfig hy_options).
Definition plain_log : ZapConfig := MkZapConfig ErrorLevel true true "console"
  (MkEncoderConfig "time" "level" "logger" "msg" CapitalColorLevelEncoder RFC3339TimeEncoder) ["stderr"] ["stderr"].
Definition empty_core : Hy2Core := MkHy2Core ∅ ∅ plain_log.
Definition masq_server : MasqTCPServer := MkMasqTCPServer 443 8443 false "" ":8443".
Definition added_node : Hysteria2node := MkHysteria2node (MkHookServer "n" ∅)
  (MkConfig (MkCertConfig "file" false "" "c" "k" "" "" ∅)
     (MkQUICConfig 8388608 8388608 20971520 20971520 (30 * Second) 4096 false) "0.0.0.0:443" None (DirectSimple ModeAuto)
     (0, 0) false false 0 (StringHandler (MkServerConfigMasqueradeString "hello" ∅ 0)) (Some masq_server)).
Lemma added_core : hy_core_AddNode masq_files (λ _, true) "n" (obfs_node "") hy_options empty_core (MkSystem ∅ ∅) =
  Some (None, hy_setNode "n" added_node empty_core,
        MkSystem {["0.0.0.0:443"]} {[":8443" := (hc_Masq (nd_Config added_node), masq_server)]}).
Proof. vm_compute. reflexivity. Qed.

Definition close_it (a : string) (s : gset string) : option string * gset string := (None, s ∖ {[a]}).
(** The address of the node can be used again after it was deleted. *)
Lemma hy2_sockets_owned_witness :
  ∃ h' o', hy_core_DelNode close_it "n" (hy_setNode "n" added_node empty_core)
      (MkSystem {["0.0.0.0:443"]} {[":8443" := (hc_Masq (nd_Config added_node), masq_server)]}) = (None, h', o') ∧
    "0.0.0.0:443" ∉ os_udp o'.
Proof.
  destruct (hy2_sockets_owned masq_files (λ _, true) close_it [OpAdd "n" (obfs_node "") hy_options] plain_log
    (hy_setNode "n" added_node empty_core)
    (MkSystem {["0.0.0.0:443"]} {[":8443" := (hc_Masq (nd_Config added_node), masq_server)]}) "n" added_node)
    as (_ & _ & h' & o' & Ed & _ & Hout & _).
  - by intros a s.
  - cbn [hy2_run hy2_step]. change (MkHy2Core ∅ ∅ plain_log) with empty_core. by rewrite added_core.
  - apply lookup_insert_eq.
  - exists h', o'. split; [exact Ed|exact Hout].
Defined.

(** The node is deleted and added again with another text. *)
Lemma masquerade_outlives_node_witness :
  ∃ h2 o2, hy2_run masq_files (λ _, true) close_it [OpDel "n"; OpAdd "n" (obfs_node "") changed_options]
      (hy_setNode "n" added_node empty_core,
       MkSystem {["0.0.0.0:443"]} {[":8443" := (hc_Masq (nd_Config added_node), masq_server)]}) = Some (h2, o2) ∧
    os_masq o2 !! ":8443" = Some (StringHandler (MkServerConfigMasqueradeString "hello" ∅ 0), masq_server).
Proof.
  destruct (hy2_run masq_files (λ _, true) close_it [OpDel "n"; OpAdd "n" (obfs_node "") changed_options]
    (hy_setNode "n" added_node empty_core,
     MkSystem {["0.0.0.0:443"]} {[":8443" := (hc_Masq (nd_Config added_node), masq_server)]}))
    as [[h2 o2]|] eqn:E; [|by vm_compute in E].
  exists h2, o2. split; [done|].
  apply (masquerade_outlives_node masq_files (λ _, true) close_it "n" (obfs_node "") hy_options empty_core _
    (MkSystem ∅ ∅) _ added_node masq_server
    [OpDel "n"; OpAdd "n" (obfs_node "") changed_options] h2 o2 added_core);
    [apply lookup_insert_eq|reflexivity|discriminate|discriminate|reflexivity|reflexivity|exact E].
Defined.

(** Adding that node, as the controllers see it. *)
Lemma hy2_core_refines_witness :
  hy_AddNode (λ _, None) "n" (hy_view empty_core) = (None, hy_view (hy_setNode "n" added_node empty_core)).
Proof.
  exact (proj1 (hy2_core_refines masq_files (λ _, true) close_it "n" empty_core (MkSystem ∅ ∅))
    _ _ _ _ _ added_core).
Defined.
