(* ===== verification/Sing.v ===== *)
(** core/sing: the connection hook of the sing-box core, traffic accounting and how
    panel users become inbound users (hook.go, user.go).

    The inbounds are a library: [sing_users] is the list of users an inbound is given. *)
From S2P Require Import Prelude GoStrings Netutil PanelTypes Conf ConnLimiter OnlineRegistry.
From S2P Require Import Limiter Slots TrafficCounter CoreApi.
#[local] Open Scope string_scope.
#[local] Open Scope Z_scope.

(** The counters by tag. *)
Record HookServer := MkHookServer { sh_counter : gmap string TrafficCounter }.
Definition NewHookServer : HookServer := MkHookServer ∅.

(** * hook.go *)

Section hook.
Context (matches : string → string → bool).

(** What becomes of a connection: it is returned as it is, closed, or returned
    with its bucket, counted in a storage and tracked. *)
Inductive routed :=
| Untracked
| Closed
| Tracked (bucket : option Bucket) (storage : nat).

(** The counter of the user, made if it is not there. *)
Definition hook_counter (tag user : string) (h : HookServer) : nat * HookServer :=
  let t := default NewTrafficCounter (sh_counter h !! tag) in
  let '(p, t) := GetCounter user t in
  (p, MkHookServer (<[tag := t]> (sh_counter h))).

(** The rules, in the order of the code; true closes the connection. *)
Definition hook_rules (destStr protocol : string) (l : Limiter) : bool :=
  if CheckDomainRule matches destStr l then true
  else if bool_decide (String.length protocol ≠ 0%nat) then CheckProtocolRule protocol l
  else false.

(** The part after the limiter was found; [tcp] is the third and [count] the fourth
    argument of [CheckLimit]. *)
Definition hook_limited (tcp count : bool) (tag user ip destStr protocol : string) (now : Z)
    (h : HookServer) (l : Limiter) : option (routed * HookServer * Limiter) :=
  let taguuid := UserTag tag user in
  '(b, r, l) ← CheckLimit taguuid ip tcp count now l;
  if r : bool then Some (Closed, h, l)
  else if hook_rules destStr protocol l then Some (Closed, h, l)
  else
    let '(p, h) := hook_counter tag user h in
    let l := set_Online (or_Add (lm_Online l) taguuid ip (UserID l taguuid) now) l in
    Some (Tracked (if tcp then b else None) p, h, l).

Definition routed_with (tcp count : bool) (tag user ip destStr protocol : string) (now : Z)
    (h : HookServer) (lims : Limiters) : option (routed * HookServer * Limiters) :=
  match GetLimiter tag lims with
  | Err _ => Some (Untracked, h, lims)
  | Ok p =>
      match objs lims !! p with
      | None => panic
      | Some l =>
          '(r, h, l) ← hook_limited tcp count tag user ip destStr protocol now h l;
          Some (r, h, MkLimiters (reg lims) (<[p := l]> (objs lims)))
      end
  end.
Definition RoutedConnection := routed_with true true.
Definition RoutedPacketConnection := routed_with false false.
End hook.

(** [onClose] of a tracked connection, on the limiter the connection was accepted
    by, and [Close], which runs it once. *)
Definition onClose (taguuid ip : string) (now : Z) (l : Limiter) : option Limiter :=
  let l := set_Online (or_Del (lm_Online l) taguuid ip now) l in
  c ← DelConnCount (lm_ConnLimiter l) taguuid ip;
  Some (set_ConnLimiter c l).
Definition onClosePacket (taguuid ip : string) (now : Z) (l : Limiter) : Limiter :=
  set_Online (or_Del (lm_Online l) taguuid ip now) l.
Definition trackedConn_Close (once : bool) (taguuid ip : string) (now : Z) (l : Limiter)
    : option (bool * Limiter) :=
  if once then Some (true, l) else l ← onClose taguuid ip now l; Some (true, l).
Definition trackedPacketConn_Close (once : bool) (taguuid ip : string) (now : Z) (l : Limiter)
    : bool * Limiter :=
  if once then (true, l) else (true, onClosePacket taguuid ip now l).

(** * user.go *)

Definition sing_GetUserTraffic (tag uuid : string) (reset : bool) (h : HookServer)
    : Z * Z * HookServer :=
  match sh_counter h !! tag with
  | None => (0, 0, h)
  | Some c =>
      (GetUpCount c uuid, GetDownCount c uuid,
       if reset then MkHookServer (<[tag := Reset uuid c]> (sh_counter h)) else h)
  end.
Definition sing_RestoreUserTraffic (tag uuid : string) (up down : Z) (h : HookServer) : HookServer :=
  match sh_counter h !! tag with
  | None => h
  | Some c => MkHookServer (<[tag := Restore uuid up down c]> (sh_counter h))
  end.

(** The user records of the inbounds: name and credentials. *)
Inductive inbound_users :=
| VLESSUsers (l : list (string * string * string))     (* Name, Flow, UUID *)
| VMessUsers (l : list (string * string))              (* Name, UUID *)
| ShadowsocksUsers (l : list (string * string))        (* Name, Password *)
| TrojanUsers (l : list (string * string))
| TUICUsers (l : list (string * string * string)) (id : list Z)  (* Name, UUID, Password *)
| AnyTLSUsers (l : list (string * string)) (id : list Z)
| HysteriaUsers (l : list (string * string))           (* Name, AuthString *)
| Hysteria2Users (l : list (string * string)) (id : list Z)
| NoUsers.

Section users.
Context (base64 : string → string).

(** [password[:n]] panics when the password is shorter. *)
Definition go_prefix (n : nat) (s : string) : option string :=
  if bool_decide (n ≤ String.length s)%nat then Some (String.substring 0 n s) else panic.
Definition ss_password (cipher uuid : string) : option string :=
  if decide (cipher = "2022-blake3-aes-128-gcm") then p ← go_prefix 16 uuid; Some (base64 p)
  else if decide (cipher = "2022-blake3-aes-256-gcm") then p ← go_prefix 32 uuid; Some (base64 p)
  else Some uuid.

(** A nil pointer is dereferenced where the node lacks its section. *)
Definition sing_users (info : NodeInfo) (users : list UserInfo) : option inbound_users :=
  let uuids := map ui_Uuid users in
  let typ := ni_Type info in
  if decide (typ = "vless") then
    match users with
    | [] => Some (VLESSUsers [])
    | _ => v ← ni_VAllss info; Some (VLESSUsers (map (λ u, (u, va_Flow v, u)) uuids))
    end
  else if decide (typ = "vmess") then Some (VMessUsers (map (λ u, (u, u)) uuids))
  else if decide (typ = "shadowsocks") then
    match users with
    | [] => Some (ShadowsocksUsers [])
    | _ =>
        s ← ni_Shadowsocks info;
        l ← mapM (λ u, p ← ss_password (sn_Cipher s) u; Some (u, p)) uuids;
        Some (ShadowsocksUsers l)
    end
  else if decide (typ = "trojan") then Some (TrojanUsers (map (λ u, (u, u)) uuids))
  else if decide (typ = "tuic") then
    Some (TUICUsers (map (λ u, (u, u, u)) uuids) (map ui_Id users))
  else if decide (typ = "anytls") then
    Some (AnyTLSUsers (map (λ u, (u, u)) uuids) (map (λ _, 0) users))
  else if decide (typ = "hysteria") then Some (HysteriaUsers (map (λ u, (u, u)) uuids))
  else if decide (typ = "hysteria2") then
    Some (Hysteria2Users (map (λ u, (u, u)) uuids) (map ui_Id users))
  else Some NoUsers.
End users.

(** * The traffic laws *)

#[export] Instance sing_traffic : CoreTraffic HookServer := {
  GetUserTraffic := sing_GetUserTraffic;
  RestoreUserTraffic := sing_RestoreUserTraffic
}.
Definition sing_look (h : HookServer) (tag : string) : option TrafficCounter := sh_counter h !! tag.
Definition sing_upd (tag : string) (c : TrafficCounter) (h : HookServer) : HookServer :=
  MkHookServer (<[tag := c]> (sh_counter h)).

Lemma sing_look_upd h tag c tag' : is_Some (sing_look h tag) →
  sing_look (sing_upd tag c h) tag' = if decide (tag = tag') then Some c else sing_look h tag'.
Proof.
  intros _. unfold sing_look, sing_upd. simpl.
  destruct (decide (tag = tag')) as [<-|]; [apply lookup_insert_eq|by apply lookup_insert_ne].
Qed.
Lemma sing_get_eq tag uuid (r : bool) h : GetUserTraffic tag uuid r h =
  match sing_look h tag with
  | None => (0, 0, h)
  | Some c => (GetUpCount c uuid, GetDownCount c uuid, if r then sing_upd tag (Reset uuid c) h else h)
  end.
Proof. simpl. unfold sing_GetUserTraffic, sing_look. by destruct (sh_counter h !! tag). Qed.
Lemma sing_restore_eq tag uuid u d h : RestoreUserTraffic tag uuid u d h =
  match sing_look h tag with None => h | Some c => sing_upd tag (Restore uuid u d c) h end.
Proof. simpl. unfold sing_RestoreUserTraffic, sing_look. by destruct (sh_counter h !! tag). Qed.
#[export] Instance sing_laws : TrafficLaws HookServer :=
  counter_laws sing_look sing_upd sing_look_upd sing_get_eq sing_restore_eq.
#[export] Instance sing_local : TrafficLocal HookServer :=
  counter_local sing_look sing_upd sing_look_upd sing_get_eq sing_restore_eq.

(** * Slots *)

Lemma onClose_slot taguuid ip now l :
  lm_inv l → 0 < cl_connLimit (lm_ConnLimiter l) → 1 ≤ open_slots l taguuid →
  ∃ l', onClose taguuid ip now l = Some l' ∧ open_slots l' taguuid = open_slots l taguuid - 1.
Proof.
  intros Hl Hlim Hs. unfold onClose. simpl.
  destruct (DelConnCount_slot taguuid ip l (lmi_conn l Hl) Hlim Hs) as (c & -> & Hc). by eexists.
Qed.

(** A sing TCP connection that is tracked holds one connection slot of its user from
    its acceptance on, and closing it, however often, gives that one slot back.  A
    connection that a domain or protocol rule closes took its slot before the rules were
    asked and nothing gives it back: it is closed without being tracked. *)
Theorem sing_connection_slots (matches : string → string → bool) (tag user ip dest protocol : string)
    (now : Z) (h : HookServer) (l : Limiter) (b : option Bucket) (l0 : Limiter) :
  lm_inv l → 0 < cl_connLimit (lm_ConnLimiter l) → 0 ≤ open_slots l (UserTag tag user) →
  CheckLimit (UserTag tag user) ip true true now l = Some (b, false, l0) →
  ∃ r h' l', hook_limited matches true true tag user ip dest protocol now h l = Some (r, h', l') ∧
    open_slots l' (UserTag tag user) = open_slots l (UserTag tag user) + 1 ∧
    if hook_rules matches dest protocol l0 then r = Closed
    else ∃ p, r = Tracked b p ∧ ∀ t1 t2, ∃ l1,
      trackedConn_Close false (UserTag tag user) ip t1 l' = Some (true, l1) ∧
      open_slots l1 (UserTag tag user) = open_slots l (UserTag tag user) ∧
      trackedConn_Close true (UserTag tag user) ip t2 l1 = Some (true, l1).
Proof.
  intros Hl Hlim H0 E.
  destruct (CheckLimit_accepted_slot _ _ _ _ _ _ _ Hl Hlim E) as (Hl0 & Elim & Es & _).
  unfold hook_limited. rewrite E. simpl.
  destruct (hook_rules matches dest protocol l0).
  - by eexists _, _, _.
  - destruct (hook_counter tag user h) as [p h']. eexists _, _, _. split; [done|].
    split; [done|]. exists p. split; [done|]. intros t1 t2.
    set (l' := set_Online _ l0).
    assert (lm_inv l') as Hl' by by apply lm_inv_add_online.
    destruct (onClose_slot (UserTag tag user) ip t1 l' Hl') as (l1 & E1 & Es1).
    { simpl. lia. }
    { change (open_slots l') with (open_slots l0). lia. }
    exists l1. unfold trackedConn_Close. rewrite E1. simpl. split; [done|]. split; [|done].
    rewrite Es1. change (open_slots l') with (open_slots l0). lia.
Qed.

Definition rule_limiter : Limiter :=
  set_rules ["ads"] []
    (newLimiter "n" (MkLimitConfig true 0 0 2 0 false None false None) [MkUserInfo 1 "a" 0 0] ∅).

(** A connection the rule closes keeps its slot; one it does not close gives it back. *)
Lemma sing_connection_slots_witness :
  (∃ r h' l', hook_limited (λ r d, bool_decide (r = d)) true true "n" "a" "1.1.1.1" "ads" "tcp" 0
      NewHookServer rule_limiter = Some (r, h', l') ∧ r = Closed ∧
      open_slots l' (UserTag "n" "a") = 0 + 1).
Proof.
  edestruct (sing_connection_slots (λ r d, bool_decide (r = d)) "n" "a" "1.1.1.1" "ads" "tcp" 0
    NewHookServer rule_limiter) as (r & h' & l' & E & Es & Hr).
  - apply (lm_inv_same (newLimiter "n" (MkLimitConfig true 0 0 2 0 false None false None)
      [MkUserInfo 1 "a" 0 0] ∅)); [apply newLimiter_inv|done..].
  - done.
  - done.
  - vm_compute. reflexivity.
  - exists r, h', l'. split; [exact E|]. split; [exact Hr|exact Es].
Defined.
