(* ===== verification/Geo.v ===== *)
(** core/hy2/geoloader.go: the GeoIP and GeoSite databases are loaded on demand, and
    downloaded when no file is configured.

    The databases (v2geo), the answers of the web and the errors of the operating system are
    parameters.  The two loaders are the same code over another type, [load_geo]. *)
From S2P Require Import Prelude GoStrings Disk.
#[local] Open Scope string_scope.
#[local] Open Scope Z_scope.

Definition geoipFilename : string := "geoip.dat".
Definition geoipURL : string := "https://cdn.jsdelivr.net/gh/Loyalsoldier/v2ray-rules-dat@release/geoip.dat".
Definition geositeFilename : string := "geosite.dat".
Definition geositeURL : string := "https://cdn.jsdelivr.net/gh/Loyalsoldier/v2ray-rules-dat@release/geosite.dat".
Definition geoDefaultUpdateInterval : Z := 7 * 24 * Hour.

(** The files by content, and when each was written. *)
Record GeoWorld := MkGeoWorld { gw_files : disk; gw_times : gmap string Z }.

(** The web and the operating system during one download: the answer to the request (the
    body, and an error that cut it short), the name of the temporary file, and the error of
    renaming it. *)
Record Download := MkDownload {
  dl_Get : result (string * option string);
  dl_Temp : result string;
  dl_Rename : option string
}.

Section loader.
Context {M : Type} {E : OSErrors}.
(** The database a text is, and whether [os.Stat] fails though there may be a file. *)
Context (parse : string → result M) (stat_err : string → bool).

(** One of the two databases of a [GeoLoader]: the configured file, the interval, and the
    database once it is loaded. *)
Record GeoLoader := MkGeoLoader {
  gl_Filename : string;
  gl_UpdateInterval : Z;
  gl_map : option M
}.
Definition keep (m : M) (l : GeoLoader) : GeoLoader :=
  MkGeoLoader (gl_Filename l) (gl_UpdateInterval l) (Some m).

(** [v2geo.LoadGeoIP] and [v2geo.LoadGeoSite]. *)
Definition load_file (filename : string) (w : GeoWorld) : result M :=
  match ReadFile filename (gw_files w) with
  | None => Err ("open " +:+ filename +:+ ": no such file or directory")
  | Some data => text ← data; parse text
  end.

(** [None] is a panic: [os.Stat] fails otherwise than because there is no file, and its
    answer is used. *)
Definition shouldDownload (now : Z) (l : GeoLoader) (filename : string) (w : GeoWorld) : option bool :=
  if stat_err filename then panic
  else
    match gw_files w !! filename with
    | None => Some true
    | Some content =>
        if decide (content = "") then Some true
        else
          let dt := now - default 0 (gw_times w !! filename) in
          Some (bool_decide ((if decide (gl_UpdateInterval l = 0) then geoDefaultUpdateInterval
                              else gl_UpdateInterval l) < dt))
    end.

(** The temporary file is removed on every way out. *)
Definition downloadAndCheck (now : Z) (filename : string) (dl : Download) (w : GeoWorld)
    : option string * GeoWorld :=
  match dl_Get dl with
  | Err e => (Some e, w)
  | Ok (body, cut) =>
      match dl_Temp dl with
      | Err e => (Some e, w)
      | Ok temp =>
          let w := MkGeoWorld (<[temp := body]> (gw_files w)) (<[temp := now]> (gw_times w)) in
          let removed := MkGeoWorld (delete temp (gw_files w)) (delete temp (gw_times w)) in
          match cut with
          | Some e => (Some e, removed)
          | None =>
              match load_file temp w with
              | Err e => (Some e, removed)
              | Ok _ =>
                  match dl_Rename dl with
                  | Some e => (Some e, removed)
                  | None =>
                      (None, MkGeoWorld (<[filename := body]> (delete temp (gw_files w)))
                               (<[filename := now]> (delete temp (gw_times w))))
                  end
              end
          end
      end
  end.

Definition load_and_keep (filename : string) (l : GeoLoader) (w : GeoWorld) : result M * GeoLoader :=
  match load_file filename w with
  | Err e => (Err e, l)
  | Ok m => (Ok m, keep m l)
  end.
Definition load_geo (default_name : string) (now : Z) (dl : Download) (l : GeoLoader) (w : GeoWorld)
    : option (result M * GeoLoader * GeoWorld) :=
  match gl_map l with
  | Some m => Some (Ok m, l, w)
  | None =>
      if decide (gl_Filename l = "") then
        download ← shouldDownload now l default_name w;
        match (if download : bool then None else match load_file default_name w with Ok m => Some m | Err _ => None end) with
        | Some m => Some (Ok m, keep m l, w)
        | None =>
            let '(err, w) := downloadAndCheck now default_name dl w in
            match err with
            | Some e =>
                if negb (stat_err default_name) && negb (exists_file default_name (gw_files w)) then
                  Some (Err e, l, w)
                else Some (load_and_keep default_name l w, w)
            | None => Some (load_and_keep default_name l w, w)
            end
        end
      else Some (load_and_keep (gl_Filename l) l w, w)
  end.
Definition LoadGeoIP := load_geo geoipFilename.
Definition LoadGeoSite := load_geo geositeFilename.

(** The temporary file is new. *)
Definition fresh_temp (dl : Download) (w : GeoWorld) (name : string) : Prop :=
  ∀ t, dl_Temp dl = Ok t → gw_files w !! t = None ∧ gw_times w !! t = None ∧ t ≠ name.

(** A download leaves the files as they were, or replaces the one file by a text that is a
    database. *)
Lemma download_spec now name dl w e w' : fresh_temp dl w name →
  downloadAndCheck now name dl w = (e, w') →
  (∃ err, e = Some err ∧ w' = w) ∨
  (∃ body m, e = None ∧ parse body = Ok m ∧
    w' = MkGeoWorld (<[name := body]> (gw_files w)) (<[name := now]> (gw_times w))).
Proof.
  intros Hf. unfold downloadAndCheck. destruct (dl_Get dl) as [[body cut]|err]; cycle 1.
  { intros [= <- <-]. left. by eexists. }
  unfold fresh_temp in Hf. destruct (dl_Temp dl) as [temp|err]; cycle 1.
  { intros [= <- <-]. left. by eexists. }
  destruct (Hf temp eq_refl) as (H1 & H2 & H3). cbn [gw_files gw_times].
  rewrite !delete_insert_id by done.
  assert (MkGeoWorld (gw_files w) (gw_times w) = w) as Hw by by destruct w.
  destruct cut as [err|]; [intros [= <- <-]; left; eexists; by rewrite Hw|].
  destruct (load_file temp _) as [m|err] eqn:El; [|intros [= <- <-]; left; eexists; by rewrite Hw].
  destruct (dl_Rename dl) as [err|]; intros [= <- <-]; [left; eexists; by rewrite Hw|].
  right. exists body, m. split; [done|]. split; [|done]. revert El. unfold load_file, ReadFile. cbn [gw_files].
  destruct (open_err temp); [done|]. by rewrite lookup_insert_eq.
Qed.

Lemma load_and_keep_spec file l w : let '(r, l') := load_and_keep file l w in
  r = load_file file w ∧ ∀ m, r = Ok m → l' = keep m l.
Proof.
  unfold load_and_keep. destruct (load_file file w); [|done]. split; [done|]. by intros ? [= <-].
Qed.
(** A file that holds a database can be loaded, and still after it was replaced by another. *)
Lemma load_survives name w w1 text m :
  w1 = w ∨ (∃ body m, parse body = Ok m ∧ gw_files w1 = <[name := body]> (gw_files w)) →
  open_err name = None → gw_files w !! name = Some text → parse text = Ok m →
  is_ok (load_file name w1) = true.
Proof.
  intros Hw Ho Ht Hp. unfold load_file, ReadFile. rewrite Ho.
  destruct Hw as [->|(body & m' & Hb & ->)]; [rewrite Ht|rewrite lookup_insert_eq]; cbn; by rewrite ?Hp, ?Hb.
Qed.
End loader.
Arguments GeoLoader : clear implicits. Arguments MkGeoLoader {M}.

(** Loading a database never destroys one.  The only file that can change is the one that is
    downloaded by default, and only into a text that is a database; a configured file is never
    written.  While there is a database under the default name that reads and parses, loading
    succeeds whatever the web answers, unless the file cannot be examined, when the process
    ends.  What is returned is kept, and is the database the file on the disk then holds; from
    then on it is returned without looking at the disk or the web. *)
Theorem databases_survive (M : Type) (E : OSErrors) (parse : string → result M) (stat_err : string → bool)
    (name : string) (now : Z) (dl : Download) (l : GeoLoader M) (w : GeoWorld) :
  fresh_temp dl w name →
  match load_geo parse stat_err name now dl l w with
  | None => gl_map l = None ∧ gl_Filename l = "" ∧ stat_err name = true
  | Some (r, l', w') =>
      (w' = w ∨ gl_Filename l = "" ∧ ∃ body m, parse body = Ok m ∧
        gw_files w' = <[name := body]> (gw_files w)) ∧
      (gl_map l = None → gl_Filename l = "" → open_err name = None →
       (∃ text m, gw_files w !! name = Some text ∧ parse text = Ok m) → is_ok r = true) ∧
      ∀ m, r = Ok m →
        (gl_map l = None → load_file parse (if decide (gl_Filename l = "") then name else gl_Filename l) w' = Ok m) ∧
        ∀ now' dl' w2, load_geo parse stat_err name now' dl' l' w2 = Some (Ok m, l', w2)
  end.
Proof.
  intros Hf. unfold load_geo. destruct (gl_map l) as [m|] eqn:El.
  { split_and!; [by left|done|]. intros m' [= <-]. split; [done|]. intros. by rewrite El. }
  pose proof (λ file, load_and_keep_spec parse file l) as Hkeep.
  destruct (decide (gl_Filename l = "")) as [Hn|Hn]; cycle 1.
  { specialize (Hkeep (gl_Filename l) w). destruct (load_and_keep parse _ l w) as [r l'].
    destruct Hkeep as [-> Hl]. split_and!; [by left|done|]. intros m Hm. split; [done|]. rewrite (Hl m Hm). done. }
  destruct (shouldDownload stat_err now l name w) as [download|] eqn:Es; cbn [mbind option_bind]; cycle 1.
  { split_and!; [done..|]. revert Es. unfold shouldDownload. destruct (stat_err name); [done|].
    destruct (gw_files w !! name); [|done]. by destruct (decide _). }
  destruct (if download then None else _) as [m|] eqn:Ed.
  { assert (load_file parse name w = Ok m) as Hm.
    { destruct download; [done|]. destruct (load_file parse name w); by simplify_eq. }
    split_and!; [by left|done|]. intros m' [= <-]. by split. }
  destruct (downloadAndCheck parse now name dl w) as [e w1] eqn:Edl.
  apply download_spec in Edl; [|done].
  assert (w1 = w ∨ (∃ body m, parse body = Ok m ∧ gw_files w1 = <[name := body]> (gw_files w))) as Hw.
  { destruct Edl as [(err & _ & ->)|(body & m & _ & Hp & ->)]; [by left|right; by exists body, m]. }
  assert (let '(r, l', w') := (load_and_keep parse name l w1, w1) in
    (w' = w ∨ gl_Filename l = "" ∧ ∃ body m, parse body = Ok m ∧ gw_files w' = <[name := body]> (gw_files w)) ∧
    (gl_map l = None → gl_Filename l = "" → open_err name = None →
       (∃ text m, gw_files w !! name = Some text ∧ parse text = Ok m) → is_ok r = true) ∧
    ∀ m, r = Ok m → (gl_map l = None → load_file parse name w' = Ok m) ∧
        ∀ now' dl' w2, load_geo parse stat_err name now' dl' l' w2 = Some (Ok m, l', w2)) as Hfin.
  { specialize (Hkeep name w1). destruct (load_and_keep parse name l w1) as [r l']. destruct Hkeep as [-> Hl].
    split_and!; [destruct Hw; [by left|by right]|by intros _ _ Ho (text & m & Ht & Hp); eapply load_survives|].
    intros m Hm. split; [done|]. by rewrite (Hl m Hm). }
  rewrite El in Hfin.
  destruct e as [e|]; [|by destruct (load_and_keep parse name l w1)].
  destruct (negb (stat_err name) && negb (exists_file name (gw_files w1))) eqn:Ex;
    [|by destruct (load_and_keep parse name l w1)].
  destruct Edl as [(err & _ & ->)|(? & ? & ? & _)]; [|done].
  split_and!; [by left| |done]. intros _ _ _ (text & m & Ht & _). exfalso.
  apply andb_true_iff in Ex as [_ Ex]. unfold exists_file in Ex.
  rewrite bool_decide_eq_true_2 in Ex; [done|by eexists].
Qed.

#[local] Instance toy_os : OSErrors :=
  {| open_err _ := None; mkdir_err _ := None; create_err _ := None; write_err _ := None |}.
Definition toy_parse (text : string) : result string := if HasPrefix text "geo" then Ok text else Err "broken".
Definition toy_files : GeoWorld := MkGeoWorld {["geoip.dat" := "geo1"]} {["geoip.dat" := 0]}.

(** An old database and an answer that is none: the old one is loaded and stays. *)
Lemma databases_survive_witness :
  match LoadGeoIP toy_parse (λ _, false) (Hour * 1000) (MkDownload (Ok ("<html>", None)) (Ok "tmp") None)
      (MkGeoLoader "" 0 None) toy_files with
  | Some (r, _, w') => is_ok r = true ∧ w' = toy_files
  | None => False
  end.
Proof.
  pose proof (databases_survive string toy_os toy_parse (λ _, false) geoipFilename (Hour * 1000)
    (MkDownload (Ok ("<html>", None)) (Ok "tmp") None) (MkGeoLoader "" 0 None) toy_files) as H.
  fold (LoadGeoIP toy_parse (λ _, false) (Hour * 1000) (MkDownload (Ok ("<html>", None)) (Ok "tmp") None)
    (MkGeoLoader "" 0 None) toy_files) in H.
  match type of H with _ → match ?x with _ => _ end => destruct x as [[[r l'] w']|] eqn:Er end.
  2: { destruct H as (_ & _ & [=]). intros t [= <-]. by split_and!. }
  split; [|by vm_compute in Er; injection Er as <- <- <-].
  apply H; [|done..|exists "geo1", "geo1"; by split]. intros t [= <-]. by split_and!.
Defined.
