(* ===== verification/SingNode.v ===== *)
(** core/sing/node.go, utils.go, naive.go and the user operations of user.go: the inbound of a
    node of the sing-box core, and the naive nodes, whose inbound is made anew for every
    change of their users.

    The options are the structs of sing-box the code fills in.  The decoders of the JSON library,
    the parsers of addresses, URLs and durations and the inbound manager of sing-box are
    parameters.  [None] is a panic. *)
From S2P Require Import Prelude GoStrings Base64 PanelTypes Conf Sing.
#[local] Open Scope string_scope.
#[local] Open Scope Z_scope.

Definition uint8 (z : Z) : Z := z mod 2 ^ 8.
Definition uint16 (z : Z) : Z := z mod 2 ^ 16.
Definition uint32 (z : Z) : Z := z mod 2 ^ 32.
(** * The structs the networks decode *)

Record HttpNetworkConfig := MkHttpNetworkConfig {
  hn_Type : string; hn_Request : option string; hn_Response : option string
}.
Record HttpRequest := MkHttpRequest {
  hr_Version : string; hr_Method : string; hr_Path : list string; hr_Host : list string
}.
Record WsNetworkConfig := MkWsNetworkConfig { wn_Path : string; wn_Headers : gmap string string }.
Record GrpcNetworkConfig := MkGrpcNetworkConfig { gn_ServiceName : string }.
Record HttpupgradeNetworkConfig := MkHttpupgradeNetworkConfig { un_Path : string; un_Host : string }.

(** * The options of sing-box *)

Record ListenOptions := MkListenOptions {
  lo_Listen : string; lo_ListenPort : Z; lo_TCPFastOpen : bool;
  lo_SniffEnabled : bool; lo_SniffOverrideDestination : bool; lo_DomainStrategy : Z
}.
Record ServerOptions := MkServerOptions { sv_Server : string; sv_ServerPort : Z }.
Record InboundRealityOptions := MkInboundRealityOptions {
  ir_ShortID : list string; ir_PrivateKey : string; ir_Xver : Z; ir_Handshake : ServerOptions;
  ir_MaxTimeDifference : Z
}.
Record InboundTLSOptions := MkInboundTLSOptions {
  it_Enabled : bool; it_ServerName : string; it_CertificatePath : string; it_KeyPath : string;
  it_ALPN : list string; it_Reality : option InboundRealityOptions
}.
Definition no_tls : InboundTLSOptions := MkInboundTLSOptions false "" "" "" [] None.
Inductive transport_kind :=
| TrNone
| TrHTTP (host : list string) (path method : string)
| TrWebsocket (path header : string) (maxEarlyData : Z) (headers : gmap string string)
| TrGRPC (serviceName : string)
| TrHTTPUpgrade (path host : string).
Record V2RayTransportOptions := MkTransport { tr_Type : string; tr_Kind : transport_kind }.
Record Hysteria2Obfs := MkHysteria2Obfs { ho_Type : string; ho_Password : string }.
Inductive inbound_options :=
| VLESSInbound (listen : ListenOptions) (tls : InboundTLSOptions) (t : V2RayTransportOptions) (m : option MultiplexConfig)
| VMessInbound (listen : ListenOptions) (tls : InboundTLSOptions) (t : V2RayTransportOptions) (m : option MultiplexConfig)
| ShadowsocksInbound (listen : ListenOptions) (method : string) (m : option MultiplexConfig) (password : string) (users : list string)
| TrojanInbound (listen : ListenOptions) (tls : InboundTLSOptions) (t : V2RayTransportOptions) (m : option MultiplexConfig)
    (fallback : option ServerOptions) (forALPN : option (gmap string ServerOptions))
| TUICInbound (listen : ListenOptions) (tls : InboundTLSOptions) (congestion : string) (zeroRTT : bool)
| AnyTLSInbound (listen : ListenOptions) (tls : InboundTLSOptions) (padding : list string)
| NaiveInbound (listen : ListenOptions) (tls : InboundTLSOptions) (users : list (string * string)) (network : string)
| HysteriaInbound (listen : ListenOptions) (tls : InboundTLSOptions) (up down : Z) (obfs : string)
| Hysteria2Inbound (listen : ListenOptions) (tls : InboundTLSOptions) (up down : Z) (ignore : bool) (obfs : option Hysteria2Obfs)
| NoInbound.
Record Inbound := MkInbound { in_Tag : string; in_Type : string; in_Options : inbound_options }.

Class SingLibs := {
  dec_http : string → result HttpNetworkConfig;
  dec_request : string → result HttpRequest;
  dec_ws : string → result WsNetworkConfig;
  dec_grpc : string → result GrpcNetworkConfig;
  dec_httpupgrade : string → result HttpupgradeNetworkConfig;
  dec_strings : string → result (list string);
  (** netip.ParseAddr: the address as it is printed; url.Parse: the path and the parameter "ed". *)
  ParseAddr : string → result string;
  url_Parse : string → result (string * string);
  parse_duration : string → Z;
  (** The bytes [rand.Read] fills in. *)
  random : nat → list ascii
}.

Section inbound.
Context {L : SingLibs}.

(** A step that may fail, and whose nil pointers panic. *)
Abbreviation failing A := (option (result A)).
Definition fail {A} (e : string) : failing A := Some (Err e).

(** ** Security *)

Definition reality_options (ts : TlsSettings) (rc : RealityConfig) : InboundTLSOptions :=
  let dest := if decide (ts_Dest ts ≠ "") then ts_Dest ts else ts_ServerName ts in
  MkInboundTLSOptions true (ts_ServerName ts) "" "" []
    (Some (MkInboundRealityOptions [ts_ShortId ts] (ts_PrivateKey ts) (uint8 (ts_Xver ts))
      (MkServerOptions dest (uint16 (Atoi_saturated (ts_ServerPort ts)))) (parse_duration (rc_MaxTimeDiff rc)))).
(** The settings reality takes its options from. *)
Definition reality_of (info : NodeInfo) : option InboundTLSOptions :=
  if decide (ni_Type info = "anytls") then
    v ← ni_AnyTLS info; Some (reality_options (an_TlsSettings v) (an_RealityConfig v))
  else v ← ni_VAllss info; Some (reality_options (va_TlsSettings v) (va_RealityConfig v)).
Definition security (info : NodeInfo) (c : Options) : failing InboundTLSOptions :=
  if decide (ni_Security info = SecTls) then
    match op_CertConfig c with
    | None => fail "the CertConfig is not vail"
    | Some cert =>
        if decide (cc_CertMode cert = "none" ∨ cc_CertMode cert = "") then Some (Ok no_tls)
        else Some (Ok (MkInboundTLSOptions true "" (cc_CertFile cert) (cc_KeyFile cert) [] None))
    end
  else if decide (ni_Security info = SecReality) then tls ← reality_of info; Some (Ok tls)
  else Some (Ok no_tls).

(** ** Transport *)

Definition dec_error {A} (r : result A) : failing A :=
  Some (match r with Ok a => Ok a | Err e => Err ("decode NetworkSettings error: " +:+ e) end).
Definition tcp_transport (settings : string) : failing V2RayTransportOptions :=
  if decide (settings = "") then Some (Ok (MkTransport "" TrNone))
  else
    match dec_http settings with
    | Err e => fail ("decode NetworkSettings error: " +:+ e)
    | Ok network =>
        if decide (hn_Type network = "http") then
          match hn_Request network with
          | None => Some (Ok (MkTransport "http" (TrHTTP [] "" "")))
          | Some raw =>
              match dec_request raw with
              | Err e => fail ("decode HttpRequest error: " +:+ e)
              | Ok request =>
                  path ← head (hr_Path request);
                  Some (Ok (MkTransport "http" (TrHTTP (hr_Host request) path (hr_Method request))))
              end
          end
        else Some (Ok (MkTransport "" TrNone))
    end.
Definition ws_transport (settings : string) : failing V2RayTransportOptions :=
  let ws path ed headers := MkTransport "ws" (TrWebsocket path "Sec-WebSocket-Protocol" (uint32 ed) headers) in
  if decide (settings = "") then Some (Ok (ws "" 0 ∅))
  else
    match dec_ws settings with
    | Err e => fail ("decode NetworkSettings error: " +:+ e)
    | Ok network =>
        match url_Parse (wn_Path network) with
        | Err e => fail ("parse path error: " +:+ e)
        | Ok (path, ed) => Some (Ok (ws path (Atoi_saturated ed) (wn_Headers network)))
        end
    end.
Definition grpc_transport (settings : string) : failing V2RayTransportOptions :=
  if decide (settings = "") then Some (Ok (MkTransport "grpc" (TrGRPC "")))
  else
    match dec_grpc settings with
    | Err e => fail ("decode NetworkSettings error: " +:+ e)
    | Ok network => Some (Ok (MkTransport "grpc" (TrGRPC (gn_ServiceName network))))
    end.
Definition httpupgrade_transport (settings : string) : failing V2RayTransportOptions :=
  if decide (settings = "") then Some (Ok (MkTransport "httpupgrade" (TrHTTPUpgrade "" "")))
  else
    match dec_httpupgrade settings with
    | Err e => fail ("decode NetworkSettings error: " +:+ e)
    | Ok network => Some (Ok (MkTransport "httpupgrade" (TrHTTPUpgrade (un_Path network) (un_Host network))))
    end.
(** The network of vmess and vless, and of trojan. *)
Definition vallss_transport (n : VAllssNode) : failing V2RayTransportOptions :=
  let s := va_NetworkSettings n in
  if decide (va_Network n = "tcp") then tcp_transport s
  else if decide (va_Network n = "ws") then ws_transport s
  else if decide (va_Network n = "grpc") then grpc_transport s
  else if decide (va_Network n = "httpupgrade") then httpupgrade_transport s
  else Some (Ok (MkTransport (va_Network n) TrNone)).
Definition trojan_transport (n : TrojanNode) : failing V2RayTransportOptions :=
  let s := tn_NetworkSettings n in
  if decide (tn_Network n = "ws") then ws_transport s
  else if decide (tn_Network n = "grpc") then grpc_transport s
  else Some (Ok (MkTransport "" TrNone)).

(** ** The fallbacks of trojan *)

(** processFallback on the entries in the order of the iteration: the first port that is
    no number ends it with an error. *)
Fixpoint processFallback (l : list (string * FallBack)) (m : gmap string ServerOptions)
    : result (gmap string ServerOptions) :=
  match l with
  | [] => Ok m
  | (k, v) :: l =>
      match Atoi (fb_ServerPort v) with
      | None => Err "unable to parse fallbackForALPN server port error"
      | Some p => processFallback l (<[k := MkServerOptions (fb_Server v) (uint16 p)]> m)
      end
  end.
Definition trojan_fallbacks (s : SingOptions) : option ServerOptions * option (gmap string ServerOptions) :=
  match so_FallBackConfigs s with
  | None => (None, None)
  | Some f =>
      ((λ p, MkServerOptions (fb_Server (fs_FallBack f)) (uint16 p)) <$> Atoi (fb_ServerPort (fs_FallBack f)),
       match processFallback (map_to_list (fs_FallBackForALPN f)) ∅ with Ok m => Some m | Err _ => None end)
  end.

(** ** The inbound *)

Definition ss_key_length (cipher : string) : nat :=
  if decide (cipher = "2022-blake3-aes-128-gcm") then 16
  else if decide (cipher = "2022-blake3-aes-256-gcm" ∨ cipher = "2022-blake3-chacha20-poly1305") then 32
  else 16.
Definition ss_inbound (listen : ListenOptions) (m : option MultiplexConfig) (n : ShadowsocksNode) : inbound_options :=
  let p := random (ss_key_length (sn_Cipher n)) in
  if contains_bytes (to_bytes "2022") (to_bytes (sn_Cipher n))
  then ShadowsocksInbound listen (sn_Cipher n) m (sn_ServerKey n) [StdEncoding_EncodeToString p]
  else ShadowsocksInbound listen (sn_Cipher n) m "" [of_bytes p].
Definition hy2_obfs (n : Hysteria2Node) : option Hysteria2Obfs :=
  if decide (h2_ObfsType n ≠ "" ∧ h2_ObfsPassword n ≠ "") then Some (MkHysteria2Obfs (h2_ObfsType n) (h2_ObfsPassword n))
  else if decide (h2_ObfsType n ≠ "") then Some (MkHysteria2Obfs "salamander" (h2_ObfsType n))
  else None.
Definition padding_scheme (raw : string) : list string :=
  if decide (raw = "") then [] else match dec_strings raw with Ok l => l | Err _ => [] end.
Definition listen_options (addr : string) (common : CommonNode) (s : SingOptions) : ListenOptions :=
  MkListenOptions addr (uint16 (cn_ServerPort common)) (so_TCPFastOpen s) (so_SniffEnabled s)
    (so_SniffOverrideDestination s) (if so_EnableDNS s then so_DomainStrategy s else 0).

(** The type and options by the type of the node; an unknown type leaves both empty. *)
Definition kind_of (info : NodeInfo) (s : SingOptions) (listen : ListenOptions) (tls : InboundTLSOptions)
    (naiveUsers : list (string * string)) : failing (string * inbound_options) :=
  let typ := ni_Type info in
  let m := so_Multiplex s in
  if decide (typ = "vmess" ∨ typ = "vless") then
    n ← ni_VAllss info;
    r ← vallss_transport n;
    match r with
    | Err e => fail e
    | Ok t => Some (Ok (typ, if decide (typ = "vless") then VLESSInbound listen tls t m else VMessInbound listen tls t m))
    end
  else if decide (typ = "shadowsocks") then n ← ni_Shadowsocks info; Some (Ok (typ, ss_inbound listen m n))
  else if decide (typ = "trojan") then
    n ← ni_Trojan info;
    r ← trojan_transport n;
    match r with
    | Err e => fail e
    | Ok t => let '(f, fs) := trojan_fallbacks s in Some (Ok (typ, TrojanInbound listen tls t m f fs))
    end
  else if decide (typ = "tuic") then
    n ← ni_Tuic info;
    let tls := MkInboundTLSOptions (it_Enabled tls) (it_ServerName tls) (it_CertificatePath tls) (it_KeyPath tls)
                 (it_ALPN tls ++ ["h3"])%list (it_Reality tls) in
    Some (Ok (typ, TUICInbound listen tls (tu_CongestionControl n) (tu_ZeroRTTHandshake n)))
  else if decide (typ = "anytls") then
    n ← ni_AnyTLS info; Some (Ok (typ, AnyTLSInbound listen tls (padding_scheme (an_PaddingScheme n))))
  else if decide (typ = "naive") then
    match ni_Naive info with
    | None => fail "missing naive node config"
    | Some n =>
        if decide (naiveUsers = []) then fail "naive inbound requires at least one user"
        else Some (Ok (typ, NaiveInbound listen tls naiveUsers (nn_Network n)))
    end
  else if decide (typ = "hysteria") then
    n ← ni_Hysteria info; Some (Ok (typ, HysteriaInbound listen tls (hy_UpMbps n) (hy_DownMbps n) (hy_Obfs n)))
  else if decide (typ = "hysteria2") then
    n ← ni_Hysteria2 info;
    Some (Ok (typ, Hysteria2Inbound listen tls (h2_UpMbps n) (h2_DownMbps n) (h2_Ignore_Client_Bandwidth n) (hy2_obfs n)))
  else Some (Ok ("", NoInbound)).

Definition getInboundOptions (tag : string) (info : NodeInfo) (c : Options) (naiveUsers : list (string * string))
    : failing Inbound :=
  match ParseAddr (op_ListenIP c) with
  | Err _ => fail "the listen ip not vail"
  | Ok addr =>
      s ← op_SingOptions c;
      common ← ni_Common info;
      let listen := listen_options addr common s in
      r ← security info c;
      match r with
      | Err e => fail e
      | Ok tls =>
          r ← kind_of info s listen tls naiveUsers;
          match r with
          | Err e => fail e
          | Ok (typ, o) => Some (Ok (MkInbound tag typ o))
          end
      end
  end.
End inbound.

(** * The inbounds of the core and their users *)

(** What was called on an inbound for its users. *)
Inductive user_call :=
| CallAdd (users : inbound_users)
| CallDel (uuids : list string).
Record running_inbound := MkRunning { ri_Inbound : Inbound; ri_Calls : list user_call }.
Record naiveInboundState := MkNaive {
  ns_info : NodeInfo; ns_config : Options; ns_users : gmap string UserInfo
}.
Record Sing_ := MkSing { sg_box : gmap string running_inbound; sg_naive : gmap string naiveInboundState }.

(** The answers of the library: making, removing and changing the users of an inbound.
    Making an inbound under a tag that is taken replaces it. *)
Class SingBox := {
  create_error : Inbound → option string;
  remove_error : string → option string;
  call_error : string → user_call → option string
}.

(** base64.StdEncoding of the bytes of a text. *)
Definition StdEncoding_of_string (s : string) : string := StdEncoding_EncodeToString (to_bytes s).

Section nodes.
Context {L : SingLibs} {B : SingBox}.

Definition set_box (b : gmap string running_inbound) (s : Sing_) : Sing_ := MkSing b (sg_naive s).
Definition set_naive (n : gmap string naiveInboundState) (s : Sing_) : Sing_ := MkSing (sg_box s) n.

Definition Create (i : Inbound) (s : Sing_) : option string * Sing_ :=
  match create_error i with
  | Some e => (Some ("add inbound error: " +:+ e), s)
  | None => (None, set_box (<[in_Tag i := MkRunning i []]> (sg_box s)) s)
  end.
Definition Remove (tag : string) (s : Sing_) : option string * Sing_ :=
  match sg_box s !! tag with
  | None => (Some "delete inbound error: invalid argument", s)
  | Some _ =>
      match remove_error tag with
      | Some e => (Some ("delete inbound error: " +:+ e), s)
      | None => (None, set_box (delete tag (sg_box s)) s)
      end
  end.

(** ** Naive nodes *)

Definition buildNaiveAuthUsers (users : gmap string UserInfo) : list (string * string) :=
  map (λ u, (u, u)) (sort_Strings (map fst (map_to_list users))).
Definition addNaiveNode (tag : string) (info : NodeInfo) (config : Options) (s : Sing_) : Sing_ :=
  set_naive (<[tag := MkNaive info config ∅]> (sg_naive s)) s.
Definition applyNaiveInboundLocked (tag : string) (state : naiveInboundState) (s : Sing_)
    : option (option string * Sing_) :=
  if decide (ns_users state = ∅) then
    match sg_box s !! tag with
    | Some _ => Some (Remove tag s)
    | None => Some (None, s)
    end
  else
    r ← getInboundOptions tag (ns_info state) (ns_config state) (buildNaiveAuthUsers (ns_users state));
    match r with
    | Err e => Some (Some e, s)
    | Ok i =>
        match sg_box s !! tag with
        | None => Some (Create i s)
        | Some _ =>
            match Remove tag s with
            | (Some e, s) => Some (Some e, s)
            | (None, s) => Some (Create i s)
            end
        end
    end.
Definition naive_missing : string := "the naive inbound state not found".
(** The change of the users is kept whether or not the inbound can follow it. *)
Definition naive_change (tag : string) (f : naiveInboundState → naiveInboundState) (s : Sing_)
    : option (option string * Sing_) :=
  match sg_naive s !! tag with
  | None => Some (Some naive_missing, s)
  | Some state =>
      let state := f state in
      applyNaiveInboundLocked tag state (set_naive (<[tag := state]> (sg_naive s)) s)
  end.
Definition addNaiveUsers (tag : string) (users : list UserInfo) (info : NodeInfo) (s : Sing_)
    : option (result Z * Sing_) :=
  '(e, s) ← naive_change tag (λ st, MkNaive info (ns_config st)
      (foldl (λ m u, <[ui_Uuid u := u]> m) (ns_users st) users)) s;
  Some (match e with Some e => Err e | None => Ok (Z.of_nat (length users)) end, s).
Definition delNaiveUsers (users : list UserInfo) (tag : string) (s : Sing_) : option (option string * Sing_) :=
  naive_change tag (λ st, MkNaive (ns_info st) (ns_config st) (foldl (λ m u, delete (ui_Uuid u) m) (ns_users st) users)) s.

(** ** The operations of the core *)

Definition sing_AddNode (tag : string) (info : NodeInfo) (config : Options) (s : Sing_)
    : option (option string * Sing_) :=
  if decide (ni_Type info = "naive") then Some (None, addNaiveNode tag info config s)
  else
    r ← getInboundOptions tag info config [];
    match r with
    | Err e => Some (Some e, s)
    | Ok i => Some (Create i s)
    end.
Definition sing_DelNode (tag : string) (s : Sing_) : option string * Sing_ :=
  match sg_naive s !! tag with
  | None => Remove tag s
  | Some _ =>
      let s := set_naive (delete tag (sg_naive s)) s in
      match sg_box s !! tag with
      | None => (None, s)
      | Some _ => Remove tag s
      end
  end.

(** A call on an inbound; the type assertion panics when the inbound is of another type. *)
Definition call_inbound (tag typ : string) (c : user_call) (s : Sing_) : option (option string * Sing_) :=
  match sg_box s !! tag with
  | None => Some (Some "the inbound not found", s)
  | Some r =>
      if decide (in_Type (ri_Inbound r) = typ) then
        Some (match call_error tag c with
              | Some e => (Some e, s)
              | None => (None, set_box (<[tag := MkRunning (ri_Inbound r) (ri_Calls r ++ [c])%list]> (sg_box s)) s)
              end)
      else panic
  end.
(** The protocols with users of their own. *)
Definition user_protocols : list string :=
  ["vmess"; "vless"; "shadowsocks"; "trojan"; "tuic"; "anytls"; "hysteria"; "hysteria2"].
Definition sing_AddUsers (tag : string) (users : list UserInfo) (info : NodeInfo) (s : Sing_)
    : option (result Z * Sing_) :=
  if decide (ni_Type info = "naive") then addNaiveUsers tag users info s
  else if decide (is_Some (sg_box s !! tag)) then
    us ← sing_users StdEncoding_of_string info users;
    if decide (ni_Type info ∈ user_protocols) then
      '(e, s) ← call_inbound tag (ni_Type info) (CallAdd us) s;
      Some (match e with Some e => Err e | None => Ok (Z.of_nat (length users)) end, s)
    else Some (Ok (Z.of_nat (length users)), s)
  else Some (Err "the inbound not found", s).
(** For another type of node the interface is nil and calling it panics. *)
Definition sing_DelUsers (users : list UserInfo) (tag : string) (info : NodeInfo) (s : Sing_)
    : option (option string * Sing_) :=
  if decide (ni_Type info = "naive") then delNaiveUsers users tag s
  else if decide (is_Some (sg_box s !! tag)) then
    if decide (ni_Type info ∈ user_protocols) then
      call_inbound tag (ni_Type info) (CallDel (map ui_Uuid users)) s
    else panic
  else Some (Some "the inbound not found", s).
End nodes.

(** * What the inbound of a node is *)

Section exact.
Context {L : SingLibs}.

(** The node has the section of its type. *)
Definition has_section (info : NodeInfo) : Prop :=
  let typ := ni_Type info in
  (typ ∈ ["vmess"; "vless"] → is_Some (ni_VAllss info)) ∧
  (typ = "shadowsocks" → is_Some (ni_Shadowsocks info)) ∧ (typ = "trojan" → is_Some (ni_Trojan info)) ∧
  (typ = "tuic" → is_Some (ni_Tuic info)) ∧ (typ = "anytls" → is_Some (ni_AnyTLS info)) ∧
  (typ = "hysteria" → is_Some (ni_Hysteria info)) ∧ (typ = "hysteria2" → is_Some (ni_Hysteria2 info)).
Definition sing_types : list string := "naive" :: user_protocols.

Definition listen_of (o : inbound_options) : option ListenOptions :=
  match o with
  | VLESSInbound l _ _ _ | VMessInbound l _ _ _ | ShadowsocksInbound l _ _ _ _ | TrojanInbound l _ _ _ _ _
  | TUICInbound l _ _ _ | AnyTLSInbound l _ _ | NaiveInbound l _ _ _ | HysteriaInbound l _ _ _ _
  | Hysteria2Inbound l _ _ _ _ _ => Some l
  | NoInbound => None
  end.
(** Its security, apart from the protocols tuic adds. *)
Definition tls_of (o : inbound_options) : option InboundTLSOptions :=
  match o with
  | VLESSInbound _ t _ _ | VMessInbound _ t _ _ | TrojanInbound _ t _ _ _ _ | AnyTLSInbound _ t _
  | NaiveInbound _ t _ _ | HysteriaInbound _ t _ _ _ | Hysteria2Inbound _ t _ _ _ _ => Some t
  | TUICInbound _ t _ _ => Some (MkInboundTLSOptions (it_Enabled t) (it_ServerName t) (it_CertificatePath t)
      (it_KeyPath t) (removelast (it_ALPN t)) (it_Reality t))
  | ShadowsocksInbound _ _ _ _ _ | NoInbound => None
  end.

(** The one transport that panics: a request over http without a path. *)
Definition pathless (n : VAllssNode) : Prop :=
  va_Network n = "tcp" ∧ va_NetworkSettings n ≠ "" ∧
  ∃ network raw request, dec_http (va_NetworkSettings n) = Ok network ∧ hn_Type network = "http" ∧
    hn_Request network = Some raw ∧ dec_request raw = Ok request ∧ hr_Path request = [].
Lemma vallss_transport_None n : vallss_transport n = None ↔ pathless n.
Proof.
  unfold vallss_transport, pathless. split.
  - case_decide as Hn.
    + unfold tcp_transport. case_decide as Hs; [done|]. destruct (dec_http _) as [network|] eqn:E; [|done].
      case_decide as Ht; [|done]. destruct (hn_Request network) as [raw|] eqn:Er; [|done].
      destruct (dec_request raw) as [request|] eqn:Eq; [|done].
      destruct (hr_Path request) eqn:Ep; [|done]. intros _. split; [done|]. split; [done|].
      by exists network, raw, request.
    + unfold ws_transport, grpc_transport, httpupgrade_transport. repeat case_match; done.
  - intros (-> & Hs & network & raw & request & E & Ht & Er & Eq & Ep). rewrite decide_True by done.
    unfold tcp_transport. rewrite decide_False by done. rewrite E, Ht, decide_True by done. by rewrite Er, Eq, Ep.
Qed.
Lemma trojan_transport_Some n : is_Some (trojan_transport n).
Proof. unfold trojan_transport, ws_transport, grpc_transport. repeat case_match; by eexists. Qed.

(** The kind of an inbound, once its security is known. *)
Lemma kind_of_None info s listen tls users : has_section info →
  kind_of info s listen tls users = None ↔
  ni_Type info ∈ ["vmess"; "vless"] ∧ ∃ n, ni_VAllss info = Some n ∧ pathless n.
Proof.
  intros (H1 & H2 & H3 & H4 & H5 & H6 & H7). unfold kind_of. cbv zeta.
  destruct (decide (ni_Type info = "vmess" ∨ ni_Type info = "vless")) as [Hv|Hv].
  { assert (ni_Type info ∈ ["vmess"; "vless"]) as Hin by set_solver. destruct (H1 Hin) as [n En]. rewrite En. cbn.
    pose proof (vallss_transport_None n). destruct (vallss_transport n) as [[t|e]|]; cbn; naive_solver. }
  split; [|intros [? _]; set_solver]. intros H. exfalso. revert H.
  destruct (decide (_ = "shadowsocks")) as [E|_]; [by destruct (H2 E) as [n ->]|].
  destruct (decide (_ = "trojan")) as [E|_].
  { destruct (H3 E) as [n ->]. cbn. destruct (trojan_transport_Some n) as [[t|e] ->]; [|done]. cbn.
    by destruct (trojan_fallbacks s). }
  destruct (decide (_ = "tuic")) as [E|_]; [by destruct (H4 E) as [n ->]|].
  destruct (decide (_ = "anytls")) as [E|_]; [by destruct (H5 E) as [n ->]|].
  destruct (decide (_ = "naive")) as [E|_]; [destruct (ni_Naive info); [by destruct (decide _)|done]|].
  destruct (decide (_ = "hysteria")) as [E|_]; [by destruct (H6 E) as [n ->]|].
  destruct (decide (_ = "hysteria2")) as [E|_]; [by destruct (H7 E) as [n ->]|]. done.
Qed.

Lemma kind_of_Ok info s listen tls users typ o :
  kind_of info s listen tls users = Some (Ok (typ, o)) → ni_Type info ∈ sing_types →
  typ = ni_Type info ∧ listen_of o = Some listen ∧ (ni_Type info ≠ "shadowsocks" → tls_of o = Some tls) ∧
  (ni_Type info = "naive" → ∃ n, o = NaiveInbound listen tls users n ∧ users ≠ []).
Proof.
  unfold kind_of. cbv zeta. intros H Hin.
  destruct (decide (ni_Type info = "vmess" ∨ ni_Type info = "vless")) as [Hv|Hv].
  { destruct (ni_VAllss info) as [nd|]; [|done]. cbn in H. destruct (vallss_transport nd) as [[t|e]|]; [|done..].
    cbn in H. injection H as <- <-. split; [done|]. by destruct Hv as [-> | ->]. }
  destruct (decide (_ = "shadowsocks")) as [E|N0].
  { destruct (ni_Shadowsocks info); [|done]. cbn in H. injection H as <- <-. unfold ss_inbound. rewrite E.
    by destruct (contains_bytes _ _). }
  destruct (decide (_ = "trojan")) as [E|N1].
  { destruct (ni_Trojan info) as [nd|]; [|done]. cbn in H. destruct (trojan_transport nd) as [[t|e]|]; [|done..].
    cbn in H. destruct (trojan_fallbacks s). injection H as <- <-. by rewrite E. }
  destruct (decide (_ = "tuic")) as [E|N2].
  { destruct (ni_Tuic info) as [nd|]; [|done]. cbn in H. injection H as <- <-. rewrite E.
    split; [done|]. split; [done|]. split; [|done]. intros _. cbn. rewrite removelast_last. by destruct tls. }
  destruct (decide (_ = "anytls")) as [E|N3].
  { destruct (ni_AnyTLS info); [|done]. cbn in H. injection H as <- <-. by rewrite E. }
  destruct (decide (_ = "naive")) as [E|N4].
  { destruct (ni_Naive info) as [nd|]; [|done]. destruct (decide (users = [])); [done|].
    injection H as <- <-. rewrite E. split_and!; [done|done|done|]. intros _. by eexists. }
  destruct (decide (_ = "hysteria")) as [E|N5].
  { destruct (ni_Hysteria info); [|done]. cbn in H. injection H as <- <-. by rewrite E. }
  destruct (decide (_ = "hysteria2")) as [E|N6].
  { destruct (ni_Hysteria2 info); [|done]. cbn in H. injection H as <- <-. by rewrite E. }
  exfalso. unfold sing_types, user_protocols in Hin. set_unfold in Hin. tauto.
Qed.

Lemma security_None info c : security info c = None ↔ ni_Security info = SecReality ∧ reality_of info = None.
Proof.
  unfold security. destruct (decide (ni_Security info = SecTls)) as [E|E].
  { rewrite E. split; [|by intros [? _]]. destruct (op_CertConfig c); [by destruct (decide _)|done]. }
  destruct (decide (ni_Security info = SecReality)) as [E'|E']; [|by split; [|intros [? _]]].
  rewrite E'. destruct (reality_of info); cbn; naive_solver.
Qed.

(** (C30) The inbound sing-box is given for a node that has the section of its type.  It carries the
    tag, is of the type of the node, listens on the port of the node reduced to 16 bits, and has the
    security the node asks for: none with a certificate mode that is empty or "none".  The
    construction panics in two cases only: the security is reality and the settings it reads are
    missing (they are those of vless unless the node is anytls, so for every other type), or a
    vmess or vless node over tcp disguises as http with a request without a path. *)
Theorem sing_inbound_exact (tag : string) (info : NodeInfo) (c : Options) (users : list (string * string))
    (s : SingOptions) (common : CommonNode) (addr : string) :
  ParseAddr (op_ListenIP c) = Ok addr → op_SingOptions c = Some s → ni_Common info = Some common →
  has_section info → ni_Type info ∈ sing_types →
  (getInboundOptions tag info c users = None ↔
     ni_Security info = SecReality ∧ reality_of info = None ∨
     (∃ tls, security info c = Some (Ok tls)) ∧ ni_Type info ∈ ["vmess"; "vless"] ∧
       ∃ n, ni_VAllss info = Some n ∧ pathless n) ∧
  (∀ i, getInboundOptions tag info c users = Some (Ok i) →
     in_Tag i = tag ∧ in_Type i = ni_Type info ∧
     listen_of (in_Options i) = Some (listen_options addr common s) ∧
     0 ≤ lo_ListenPort (listen_options addr common s) < 2 ^ 16 ∧
     (ni_Type info ≠ "shadowsocks" → (λ tls, Ok tls) <$> tls_of (in_Options i) = security info c)).
Proof.
  intros Ha Hs Hc Hsec Htyp. unfold getInboundOptions. rewrite Ha, Hs, Hc. cbn.
  pose proof (security_None info c) as Hnone.
  destruct (security info c) as [[tls|e]|] eqn:Es; cbn.
  - pose proof (kind_of_None info s (listen_options addr common s) tls users Hsec) as Hk.
    destruct (kind_of info s (listen_options addr common s) tls users) as [[[typ o]|e]|] eqn:Ek; cbn.
    + split; [split; [done|]; naive_solver|]. intros i [= <-].
      destruct (kind_of_Ok _ _ _ _ _ _ _ Ek Htyp) as (-> & H1 & H2 & _).
      split_and!; [done|done|done| | |].
      * by apply Z.mod_pos_bound.
      * by apply Z.mod_pos_bound.
      * intros Hne. cbn. by rewrite (H2 Hne).
    + split; [naive_solver|done].
    + split; [|done]. split; [|done]. intros _. right. split; [by eexists|]. by apply Hk.
  - split; [naive_solver|done].
  - split; [|done]. split; [|done]. intros _. left. by apply Hnone.
Qed.
End exact.

(** * Naive nodes *)

Section naive.
Context {L : SingLibs} {B : SingBox}.

Lemma getInboundOptions_tag tag info c users i :
  getInboundOptions tag info c users = Some (Ok i) → in_Tag i = tag.
Proof.
  unfold getInboundOptions. destruct (ParseAddr _); [|done]. destruct (op_SingOptions c); [|done].
  destruct (ni_Common info); [|done]. cbn. destruct (security info c) as [[tls|]|]; [|done..]. cbn.
  destruct (kind_of _ _ _ _ _) as [[[typ o]|]|]; [|done..]. by intros [= <-].
Qed.

(** The inbound of a naive node has exactly the users of its state, and there is one only if
    there are users. *)
Definition mirrors (tag : string) (state : naiveInboundState) (s : Sing_) : Prop :=
  if decide (ns_users state = ∅) then sg_box s !! tag = None
  else ∃ i, sg_box s !! tag = Some (MkRunning i []) ∧
    getInboundOptions tag (ns_info state) (ns_config state) (buildNaiveAuthUsers (ns_users state)) = Some (Ok i).

Lemma Remove_spec tag s e s' : Remove tag s = (e, s') → is_Some (sg_box s !! tag) →
  sg_naive s' = sg_naive s ∧
  match e with Some _ => s' = s | None => sg_box s' = delete tag (sg_box s) end.
Proof.
  unfold Remove. intros H [r Hr]. rewrite Hr in H. destruct (remove_error tag); by injection H as <- <-.
Qed.

Lemma naive_apply_spec tag state s e s' : applyNaiveInboundLocked tag state s = Some (e, s') →
  sg_naive s' = sg_naive s ∧ (∀ t, t ≠ tag → sg_box s' !! t = sg_box s !! t) ∧
  match e with
  | None => mirrors tag state s'
  | Some _ => sg_box s' !! tag = sg_box s !! tag ∨ sg_box s' !! tag = None
  end.
Proof.
  unfold applyNaiveInboundLocked, mirrors. destruct (decide (ns_users state = ∅)) as [Hu|Hu].
  { destruct (sg_box s !! tag) as [r|] eqn:Er; intros H; [|injection H as <- <-; by rewrite Er].
    injection H as H. apply Remove_spec in H as [Hn H]; [|by eexists]. split; [done|].
    destruct e; [subst s'; split; [done|by left]|]. rewrite H. split; [|apply lookup_delete_eq].
    intros t Ht. by apply lookup_delete_ne. }
  destruct (getInboundOptions _ _ _ _) as [[i|er]|] eqn:Ei; [| |done]; cbn.
  2: { intros [= <- <-]. by split_and!; [| |left]. }
  pose proof (getInboundOptions_tag _ _ _ _ _ Ei) as Htag.
  assert (∀ s1, sg_naive s1 = sg_naive s → (∀ t, t ≠ tag → sg_box s1 !! t = sg_box s !! t) →
    sg_box s1 !! tag = None → Create i s1 = (e, s') →
    sg_naive s' = sg_naive s ∧ (∀ t, t ≠ tag → sg_box s' !! t = sg_box s !! t) ∧
    match e with
    | None => ∃ i', sg_box s' !! tag = Some (MkRunning i' []) ∧ Some (Ok i) = Some (Ok i')
    | Some _ => sg_box s' !! tag = sg_box s !! tag ∨ sg_box s' !! tag = None
    end) as Hcreate.
  { intros s1 Hn Ho Hb H. unfold Create in H. destruct (create_error i); injection H as <- <-.
    - split_and!; [done|done|by right].
    - cbn. split; [done|]. rewrite Htag. split; [|exists i; split; [apply lookup_insert_eq|done]].
      intros t Ht. rewrite lookup_insert_ne by done. by apply Ho. }
  destruct (sg_box s !! tag) as [r|] eqn:Er.
  - destruct (Remove tag s) as [[er|] s1] eqn:Erm; apply Remove_spec in Erm as [Hn Hrm]; try (by eexists).
    + intros [= <- <-]. subst s1. split_and!; [done|done|left; by rewrite Er].
    + intros [= H]. apply (Hcreate s1); [done| | |done]; rewrite Hrm; [intros t Ht; by apply lookup_delete_ne|].
      apply lookup_delete_eq.
  - intros [= H]. by apply (Hcreate s).
Qed.

Lemma naive_change_spec tag f s e s' st : sg_naive s !! tag = Some st →
  naive_change tag f s = Some (e, s') →
  sg_naive s' !! tag = Some (f st) ∧ (∀ t, t ≠ tag → sg_box s' !! t = sg_box s !! t) ∧
  match e with
  | None => mirrors tag (f st) s'
  | Some _ => sg_box s' !! tag = sg_box s !! tag ∨ sg_box s' !! tag = None
  end.
Proof.
  intros Hst H. unfold naive_change in H. rewrite Hst in H. apply naive_apply_spec in H as (Hn & Ho & He).
  rewrite Hn. cbn. rewrite lookup_insert_eq. by split_and!.
Qed.

(** The users of a naive node.  Adding and removing users change the state of the node by
    exactly these users whatever happens; when it succeeds, the inbound of the node has the
    users of the state, in order, and exists only if there are any; when it fails, the inbound
    is the one from before, with its users, or is gone.  No other inbound is touched. *)
Theorem naive_inbound_follows_users (tag : string) (users : list UserInfo) (info : NodeInfo) (s s' : Sing_)
    (st : naiveInboundState) :
  sg_naive s !! tag = Some st →
  let outcome st' (failed : Prop) :=
    sg_naive s' !! tag = Some st' ∧ (∀ t, t ≠ tag → sg_box s' !! t = sg_box s !! t) ∧
    (¬ failed → mirrors tag st' s') ∧
    (failed → sg_box s' !! tag = sg_box s !! tag ∨ sg_box s' !! tag = None) in
  (∀ r, addNaiveUsers tag users info s = Some (r, s') →
     outcome (MkNaive info (ns_config st) (foldl (λ m u, <[ui_Uuid u := u]> m) (ns_users st) users))
       (is_ok r = false)) ∧
  (∀ e, delNaiveUsers users tag s = Some (e, s') →
     outcome (MkNaive (ns_info st) (ns_config st) (foldl (λ m u, delete (ui_Uuid u) m) (ns_users st) users))
       (is_Some e)).
Proof.
  intros Hst. cbv zeta. split.
  - intros r H. unfold addNaiveUsers in H.
    destruct (naive_change tag _ s) as [[e s1]|] eqn:E; [|done]. injection H as <- <-.
    apply (naive_change_spec _ _ _ _ _ st) in E as (H1 & H2 & H3); [|done].
    split; [done|]. split; [done|]. by destruct e.
  - intros e E. apply (naive_change_spec _ _ _ _ _ st) in E as (H1 & H2 & H3); [|done].
    split; [done|]. split; [done|]. destruct e; [|by split; [|intros []]].
    split; [|done]. intros Hn. exfalso. apply Hn. by eexists.
Qed.
End naive.

(** ** Small nodes *)
#[local] Instance toy_libs : SingLibs := {|
  dec_http _ := Err ""; dec_request _ := Err ""; dec_ws _ := Err ""; dec_grpc _ := Err "";
  dec_httpupgrade _ := Err ""; dec_strings _ := Err ""; ParseAddr := Ok; url_Parse s := Ok (s, "");
  parse_duration _ := 0; random _ := []
|}.
#[local] Instance toy_box : SingBox := {|
  create_error _ := None; remove_error _ := None; call_error _ _ := None
|}.
Definition toy_common : CommonNode := MkCommonNode "h" 443 "" [] None.
Definition toy_settings : TlsSettings := MkTlsSettings "a.b" "" "443" "" "" 0 ECHSettings_zero.
Definition naive_node (security : Z) : NodeInfo :=
  MkNodeInfo 1 "naive" "" security 0 0 (MkRawDNS ∅ "") (MkRules [] []) "" None None None None None
    (Some (MkNaiveNode toy_common "tcp" "" "" security toy_settings None)) None None (Some toy_common) None.
Definition naive_options : Options :=
  MkOptions "n" "sing" "" "0.0.0.0" "" 0 LimitConfig_zero "" None (Some NewSingOptions) "" (Some NewCertConfig).

(** A naive node with reality panics. *)
Lemma sing_inbound_exact_witness :
  getInboundOptions "n" (naive_node SecReality) naive_options [("u", "u")] = None.
Proof.
  apply (sing_inbound_exact "n" (naive_node SecReality) naive_options [("u", "u")] NewSingOptions toy_common "0.0.0.0");
    [reflexivity|reflexivity|reflexivity| | |left; split; reflexivity].
  - unfold has_section. cbn. split_and!; intros H; exfalso; revert H; try discriminate.
    by intros H%(bool_decide_pack _).
  - by apply (bool_decide_unpack _).
Defined.

Definition toy_user (u : string) : UserInfo := MkUserInfo 1 u 0 0.
Definition naive_core : Sing_ := addNaiveNode "n" (naive_node SecTls) naive_options (MkSing ∅ ∅).
Lemma naive_inbound_follows_users_witness :
  ∃ s', addNaiveUsers "n" [toy_user "b"; toy_user "a"] (naive_node SecTls) naive_core = Some (Ok 2, s') ∧
    mirrors "n" (MkNaive (naive_node SecTls) naive_options {["b" := toy_user "b"; "a" := toy_user "a"]}) s' ∧
    buildNaiveAuthUsers {["b" := toy_user "b"; "a" := toy_user "a"]} = [("a", "a"); ("b", "b")].
Proof.
  destruct (addNaiveUsers "n" [toy_user "b"; toy_user "a"] (naive_node SecTls) naive_core) as [[r s']|] eqn:E;
    [|by vm_compute in E].
  assert (r = Ok 2) as -> by (vm_compute in E; by injection E as <- _).
  exists s'. split; [reflexivity|]. split; [|vm_compute; reflexivity].
  destruct (naive_inbound_follows_users "n" [toy_user "b"; toy_user "a"] (naive_node SecTls) naive_core s'
    (MkNaive (naive_node SecTls) naive_options ∅) eq_refl) as [H _].
  destruct (H _ E) as (_ & _ & Hm & _). apply (Hm ltac:(discriminate)).
Defined.
