(* ===== verification/SingTyped.v ===== *)
(** The dynamic types of the sing core (core/sing/node.go, user.go and naive.go).

    The inbounds of the box are of many types behind one interface, and changing the users of a
    node asserts the type of its inbound.  A typing of the core gives the tags of its nodes the
    types and options they were added with; a call that respects the typing does not panic and
    keeps the core typed. *)
From S2P Require Import Prelude GoStrings PanelTypes Conf Base64 Sing SingNode.
#[local] Open Scope string_scope.
#[local] Open Scope Z_scope.

Section typed.
Context {L : SingLibs} {B : SingBox}.

(** The type of a node and the options it was added with. *)
#[local] Abbreviation typing := (gmap string (string * Options)).
(** The construction of its inbound does not panic ([sing_inbound_exact] says when it does). *)
Definition buildable (tag : string) (info : NodeInfo) (config : Options) : Prop :=
  ∀ users, getInboundOptions tag info config users ≠ None.

Record well_typed (Γ : typing) (s : Sing_) : Prop := {
  wt_types tag typ c : Γ !! tag = Some (typ, c) → typ ∈ sing_types;
  wt_box tag r : sg_box s !! tag = Some r → ∃ c, Γ !! tag = Some (in_Type (ri_Inbound r), c);
  wt_naive tag st : sg_naive s !! tag = Some st →
    Γ !! tag = Some ("naive", ns_config st) ∧ ni_Type (ns_info st) = "naive" ∧
    buildable tag (ns_info st) (ns_config st)
}.

Inductive sing_op :=
| SAddNode (tag : string) (info : NodeInfo) (config : Options)
| SDelNode (tag : string)
| SAddUsers (tag : string) (users : list UserInfo) (info : NodeInfo)
| SDelUsers (users : list UserInfo) (tag : string) (info : NodeInfo).
(** Whether the call succeeded. *)
Definition sing_exec (op : sing_op) (s : Sing_) : option (bool * Sing_) :=
  match op with
  | SAddNode tag info config => '(e, s) ← sing_AddNode tag info config s; Some (bool_decide (e = None), s)
  | SDelNode tag => let '(e, s) := sing_DelNode tag s in Some (bool_decide (e = None), s)
  | SAddUsers tag users info => '(r, s) ← sing_AddUsers tag users info s; Some (is_ok r, s)
  | SDelUsers users tag info => '(e, s) ← sing_DelUsers users tag info s; Some (bool_decide (e = None), s)
  end.

(** [op_typed Γ op Γ']: the call respects the typing, and the typing after it when it succeeds:
    a tag is given to one node at a time, and the users of a node are changed with the type it
    has.  The uuids are long enough for the cipher. *)
Inductive op_typed (Γ : typing) : sing_op → typing → Prop :=
| ot_AddNode tag info config :
    Γ !! tag = None → ni_Type info ∈ sing_types → buildable tag info config →
    op_typed Γ (SAddNode tag info config) (<[tag := (ni_Type info, config)]> Γ)
| ot_DelNode tag : op_typed Γ (SDelNode tag) (delete tag Γ)
| ot_AddUsers tag users info config :
    Γ !! tag = Some (ni_Type info, config) → buildable tag info config →
    (ni_Type info ≠ "naive" → is_Some (sing_users StdEncoding_of_string info users)) →
    op_typed Γ (SAddUsers tag users info) Γ
| ot_DelUsers users tag info config :
    Γ !! tag = Some (ni_Type info, config) → op_typed Γ (SDelUsers users tag info) Γ.

(** ** Preservation *)

Lemma well_typed_empty : well_typed ∅ (MkSing ∅ ∅).
Proof. by split. Qed.
(** Only the inbound and the state of one tag changed, and they have its type. *)
Lemma well_typed_change Γ s s' tag typ c :
  well_typed Γ s → typ ∈ sing_types →
  (∀ t, t ≠ tag → sg_box s' !! t = sg_box s !! t) → (∀ t, t ≠ tag → sg_naive s' !! t = sg_naive s !! t) →
  (∀ r, sg_box s' !! tag = Some r → in_Type (ri_Inbound r) = typ) →
  (∀ st, sg_naive s' !! tag = Some st → typ = "naive" ∧ ns_config st = c ∧
     ni_Type (ns_info st) = "naive" ∧ buildable tag (ns_info st) (ns_config st)) →
  well_typed (<[tag := (typ, c)]> Γ) s'.
Proof.
  intros [W1 W2 W3] Htyp Hb Hn Hr Hst. split.
  - intros t ty c'. rewrite lookup_insert. case_decide; [by intros [= <- _]|apply W1].
  - intros t r E. destruct (decide (t = tag)) as [->|Ht].
    + exists c. by rewrite lookup_insert_eq, (Hr r E).
    + rewrite Hb in E by done. rewrite lookup_insert_ne by done. by apply W2.
  - intros t st. rewrite lookup_insert. case_decide as Ht; [subst t; by intros (-> & -> & ? & ?)%Hst|].
    rewrite Hn by done. apply W3.
Qed.
Lemma insert_same (Γ : typing) tag x : Γ !! tag = Some x → <[tag := x]> Γ = Γ.
Proof. apply insert_id. Qed.
Lemma well_typed_delete Γ s tag : well_typed Γ s → sg_box s !! tag = None → sg_naive s !! tag = None →
  well_typed (delete tag Γ) s.
Proof.
  intros [W1 W2 W3] Hb Hn. split.
  - intros t ty c. rewrite lookup_delete_Some. intros [_ E]. by eapply W1.
  - intros t r Hr. rewrite lookup_delete_ne by congruence. by apply W2.
  - intros t st Hst. rewrite lookup_delete_ne by congruence. by apply W3.
Qed.

Lemma in_Type_getInboundOptions tag info c users i :
  getInboundOptions tag info c users = Some (Ok i) → ni_Type info ∈ sing_types → in_Type i = ni_Type info.
Proof.
  intros H Hin. unfold getInboundOptions in H. destruct (ParseAddr _); [|done]. destruct (op_SingOptions c); [|done].
  destruct (ni_Common info); [|done]. cbn in H. destruct (security info c) as [[tls|]|]; [|done..]. cbn in H.
  destruct (kind_of _ _ _ _ _) as [[[typ o]|]|] eqn:E; [|done..]. injection H as <-.
  by apply kind_of_Ok in E as [-> _].
Qed.

(** ** The calls *)

Lemma AddNode_typed Γ s tag info config :
  well_typed Γ s → Γ !! tag = None → ni_Type info ∈ sing_types → buildable tag info config →
  ∃ e s', sing_AddNode tag info config s = Some (e, s') ∧
    well_typed (if bool_decide (e = None) then <[tag := (ni_Type info, config)]> Γ else Γ) s'.
Proof.
  intros W Hfree Hin Hbuild. unfold sing_AddNode. destruct (decide (ni_Type info = "naive")) as [E|E].
  - eexists _, _. split; [done|]. rewrite E in *. apply (well_typed_change Γ s); [done|done|done| | |].
    + intros t Ht. cbn. by rewrite lookup_insert_ne.
    + cbn. intros r Hr. destruct (wt_box Γ s W tag r Hr). congruence.
    + cbn. rewrite lookup_insert_eq. by intros st [= <-].
  - destruct (getInboundOptions tag info config []) as [[i|e]|] eqn:Ei; [| |by destruct (Hbuild [])]; cbn.
    + pose proof (getInboundOptions_tag _ _ _ _ _ Ei) as Htag.
      pose proof (in_Type_getInboundOptions _ _ _ _ _ Ei Hin) as Htyp.
      unfold Create. destruct (create_error i); eexists _, _; (split; [done|]); [done|].
      cbn. apply (well_typed_change Γ s); [done|done| |done| |].
      * intros t Ht. cbn. by rewrite lookup_insert_ne by congruence.
      * cbn. rewrite Htag, lookup_insert_eq. by intros r [= <-].
      * cbn. intros st Hst. destruct (wt_naive Γ s W tag st Hst). congruence.
    + by eexists _, _.
Qed.
Lemma DelNode_typed Γ s tag e s' :
  well_typed Γ s → sing_DelNode tag s = (e, s') →
  well_typed (if bool_decide (e = None) then delete tag Γ else Γ) s'.
Proof.
  intros W. unfold sing_DelNode.
  set (s1 := match sg_naive s !! tag with None => s | Some _ => set_naive (delete tag (sg_naive s)) s end).
  assert (well_typed Γ s1 ∧ sg_naive s1 !! tag = None ∧ sg_box s1 = sg_box s) as (W1 & Hn & Hb).
  { subst s1. destruct (sg_naive s !! tag) eqn:En; [|done]. split; [|split; [apply lookup_delete_eq|done]].
    destruct W as [A1 A2 A3]. split; [done|done|]. intros t st. cbn. rewrite lookup_delete_Some. intros [_ ?]. auto. }
  assert (∀ e s', Remove tag s1 = (e, s') →
    well_typed (if bool_decide (e = None) then delete tag Γ else Γ) s') as Hrm.
  { intros e1 s2 H. destruct (sg_box s1 !! tag) as [r|] eqn:Er.
    - apply Remove_spec in H as [Hn2 H]; [|by eexists]. destruct e1; cbn; [by subst s2|].
      apply well_typed_delete; [|by rewrite H, lookup_delete_eq|by rewrite Hn2].
      destruct W1 as [A1 A2 A3]. split; [done| |by rewrite Hn2].
      intros t r2. rewrite H, lookup_delete_Some. intros [_ ?]. auto.
    - unfold Remove in H. rewrite Er in H. by injection H as <- <-. }
  subst s1. destruct (sg_naive s !! tag); [|apply Hrm].
  rewrite Hb. destruct (sg_box s !! tag) eqn:Er; [apply Hrm|]. intros [= <- <-].
  by apply well_typed_delete; [|rewrite Hb|].
Qed.
Lemma apply_typed Γ s tag state :
  well_typed Γ s → Γ !! tag = Some ("naive", ns_config state) → sg_naive s !! tag = Some state →
  ni_Type (ns_info state) = "naive" → buildable tag (ns_info state) (ns_config state) →
  ∃ e s', applyNaiveInboundLocked tag state s = Some (e, s') ∧ well_typed Γ s'.
Proof.
  intros W Ht Hst Hty Hbuild.
  destruct (applyNaiveInboundLocked tag state s) as [[e s']|] eqn:E.
  - exists e, s'. split; [done|]. apply naive_apply_spec in E as (Hn & Ho & He).
    rewrite <-(insert_same Γ tag _ Ht). apply (well_typed_change Γ s); [done|set_solver|done|by rewrite Hn| |].
    + intros r Hr. assert (sg_box s !! tag = Some r → in_Type (ri_Inbound r) = "naive") as Hold.
      { intros H. destruct (wt_box Γ s W tag r H). congruence. }
      destruct e; [destruct He as [He|He]; rewrite He in Hr; [by apply Hold|done]|].
      unfold mirrors in He. destruct (decide _); [congruence|]. destruct He as (i & Hi & Hopt).
      rewrite Hi in Hr. injection Hr as <-. cbn.
      apply in_Type_getInboundOptions in Hopt; [by rewrite Hopt|rewrite Hty; set_solver].
    + intros st. rewrite Hn, Hst. by intros [= <-].
  - exfalso. unfold applyNaiveInboundLocked in E. destruct (decide _); [by destruct (sg_box s !! tag)|].
    specialize (Hbuild (buildNaiveAuthUsers (ns_users state))).
    destruct (getInboundOptions _ _ _ _) as [[i|]|]; [|done..]. cbn in E.
    destruct (sg_box s !! tag); [|done]. by destruct (Remove tag s) as [[] ?].
Qed.
Lemma naive_change_typed Γ s tag f config :
  well_typed Γ s → Γ !! tag = Some ("naive", config) →
  (∀ st, sg_naive s !! tag = Some st → ns_config (f st) = ns_config st ∧ ni_Type (ns_info (f st)) = "naive" ∧
     buildable tag (ns_info (f st)) (ns_config st)) →
  ∃ e s', naive_change tag f s = Some (e, s') ∧ well_typed Γ s'.
Proof.
  intros W Ht Hf. unfold naive_change. destruct (sg_naive s !! tag) as [st|] eqn:Hst; [|by eexists _, _].
  destruct (Hf st eq_refl) as (Hc & Hty & Hbuild). destruct (wt_naive Γ s W tag st Hst) as (Ht' & _ & _).
  apply apply_typed; [|by rewrite Hc|apply lookup_insert_eq|done|by rewrite Hc].
  rewrite <-(insert_same Γ tag _ Ht'). apply (well_typed_change Γ s); [done|set_solver|done| | |].
  - intros t Hne. cbn. by rewrite lookup_insert_ne.
  - cbn. intros r Hr. destruct (wt_box Γ s W tag r Hr). congruence.
  - cbn. rewrite lookup_insert_eq. intros st' [= <-]. by rewrite Hc.
Qed.
Lemma call_typed Γ s tag typ c config :
  well_typed Γ s → Γ !! tag = Some (typ, config) →
  ∃ e s', call_inbound tag typ c s = Some (e, s') ∧ well_typed Γ s'.
Proof.
  intros W Ht. unfold call_inbound. destruct (sg_box s !! tag) as [r|] eqn:Er; [|by eexists _, _].
  destruct (wt_box Γ s W tag r Er) as [c' Hr]. rewrite Ht in Hr. injection Hr as Hr _. rewrite decide_True by done.
  destruct (call_error tag c); eexists _, _; (split; [done|]); [done|].
  rewrite <-(insert_same Γ tag _ Ht). apply (well_typed_change Γ s); [done|by eapply W| |done| |].
  - intros t Hne. cbn. by rewrite lookup_insert_ne.
  - cbn. rewrite lookup_insert_eq. by intros r' [= <-].
  - cbn. intros st Hst. destruct (wt_naive Γ s W tag st Hst) as (Hn & ? & ?). rewrite Ht in Hn.
    by injection Hn as -> ->.
Qed.
Lemma not_naive typ : typ ∈ sing_types → typ ≠ "naive" → typ ∈ user_protocols.
Proof. unfold sing_types. rewrite elem_of_cons. naive_solver. Qed.
Lemma AddUsers_typed Γ s tag users info config :
  well_typed Γ s → Γ !! tag = Some (ni_Type info, config) → buildable tag info config →
  (ni_Type info ≠ "naive" → is_Some (sing_users StdEncoding_of_string info users)) →
  ∃ r s', sing_AddUsers tag users info s = Some (r, s') ∧ well_typed Γ s'.
Proof.
  intros W Ht Hbuild Hus. unfold sing_AddUsers. destruct (decide (ni_Type info = "naive")) as [E|E].
  - unfold addNaiveUsers. rewrite E in Ht.
    destruct (naive_change_typed Γ s tag (λ st, MkNaive info (ns_config st)
      (foldl (λ m u, <[ui_Uuid u := u]> m) (ns_users st) users)) config W Ht) as (e & s' & -> & W').
    + intros st Hst. destruct (wt_naive Γ s W tag st Hst) as (Hc & _). rewrite Ht in Hc. injection Hc as ->. done.
    + cbn. by eexists _, _.
  - destruct (decide _); [|by eexists _, _]. destruct (Hus E) as [us ->]. cbn.
    rewrite decide_True by by apply not_naive; [eapply W|].
    destruct (call_typed Γ s tag _ (CallAdd us) config W Ht) as (e & s' & -> & W'). cbn. by eexists _, _.
Qed.
Lemma DelUsers_typed Γ s users tag info config :
  well_typed Γ s → Γ !! tag = Some (ni_Type info, config) →
  ∃ e s', sing_DelUsers users tag info s = Some (e, s') ∧ well_typed Γ s'.
Proof.
  intros W Ht. unfold sing_DelUsers. destruct (decide (ni_Type info = "naive")) as [E|E].
  - unfold delNaiveUsers. rewrite E in Ht. apply (naive_change_typed Γ s tag _ config W Ht).
    intros st Hst. by destruct (wt_naive Γ s W tag st Hst) as (_ & ? & ?).
  - destruct (decide _); [|by eexists _, _]. rewrite decide_True by by apply not_naive; [eapply W|].
    by apply (call_typed Γ s tag _ _ config).
Qed.

End typed.

#[local] Existing Instances toy_libs toy_box.
