(* ===== verification/Selector.v ===== *)
(** core/core.go and core/selector.go: the registered core types, and the core that
    passes the calls of the controllers on to the core that serves a node.

    A core type is a parameter: how its state is made, started and closed, and what it
    does with the calls of [Core].  [nodes] and the entries share pointers to cores, so
    the cores are in a heap.  The mutex makes [Start], [Close] and the first part of
    [AddNode] atomic. *)
From S2P Require Import Prelude GoStrings PanelTypes Conf TrafficCounter CoreApi Hy2.
#[local] Open Scope string_scope.
#[local] Open Scope Z_scope.

(** What a core offers besides [Core]. *)
Class CoreLife (C : Type) := {
  core_Start : C → option string * C;
  core_Close : C → option string * C;
  core_Type : C → string
}.

Record coreEntry := MkCoreEntry {
  ce_key : string;
  ce_typ : string;
  ce_config : CoreConfig;
  ce_core : option nat
}.
Record Selector (C : Type) := MkSelector {
  entries : list coreEntry;
  nodes : gmap string nat;
  heap : gmap nat C
}.
Arguments MkSelector {C}.
Arguments entries {C}.
Arguments nodes {C}.
Arguments heap {C}.

(** [cores]: what [RegisterCore] has registered. *)
Record registration (C : Type) := MkRegistration {
  rg_new : CoreConfig → result C;
  rg_protocols : list string
}.
Arguments MkRegistration {C}.
Arguments rg_new {C}.
Arguments rg_protocols {C}.

Definition RegisterCore {C} (t : string) (new : CoreConfig → result C) (protocols : list string)
    (cores : gmap string (registration C)) : gmap string (registration C) :=
  <[t := MkRegistration new protocols]> cores.
Definition RegisteredCore {C} (cores : gmap string (registration C)) : list string :=
  map fst (map_to_list cores).

Definition set_core (o : option nat) (e : coreEntry) : coreEntry :=
  MkCoreEntry (ce_key e) (ce_typ e) (ce_config e) o.

Definition ownsInbounds (c : CoreConfig) : bool :=
  match co_XrayConfig c, co_SingConfig c with
  | Some x, Some s => negb (bool_decide (xr_InboundConfigPath x = "")) || negb (bool_decide (sg_OriginalPath s = ""))
  | Some x, None => negb (bool_decide (xr_InboundConfigPath x = ""))
  | None, Some s => negb (bool_decide (sg_OriginalPath s = ""))
  | None, None => false
  end.

Definition isSupported (protocol : string) (protocols : list string) : bool :=
  bool_decide (protocol ∈ protocols).

Section selector.
Context {C : Type} `{!Core C} `{!CoreLife C} `{!Unmarshal Options} `{!Unmarshal XrayOptions} `{!Unmarshal SingOptions}.
Context (cores : gmap string (registration C)).

Definition new_entry (t : CoreConfig) : result coreEntry :=
  let typ := ToLower (co_Type t) in
  match cores !! typ with
  | None => Err ("unknown core type: " ++ co_Type t)
  | Some _ => Ok (MkCoreEntry (if decide (co_Name t = "") then co_Type t else co_Name t) typ t None)
  end.
Fixpoint new_entries (c : list CoreConfig) : result (list coreEntry) :=
  match c with
  | [] => Ok []
  | t :: c => e ← new_entry t; es ← new_entries c; Ok (e :: es)
  end.
Definition NewSelector (c : list CoreConfig) : result (Selector C) :=
  match c with
  | [] => Err "no core is configured"
  | _ => es ← new_entries c; Ok (MkSelector es ∅ ∅)
  end.
Definition NewCore (c : list CoreConfig) : result (Selector C) := NewSelector c.

(** The entry is given by its index.  A type that is not registered would be a nil
    function: [NewSelector] has refused it. *)
Definition startLocked (i : nat) (s : Selector C) : option string * Selector C :=
  match entries s !! i with
  | None => (None, s)
  | Some e =>
      match ce_core e with
      | Some _ => (None, s)
      | None =>
          match cores !! ce_typ e with
          | None => (None, s)
          | Some r =>
              match rg_new r (ce_config e) with
              | Err err => (Some ("create core " ++ ce_key e ++ " error: " ++ err), s)
              | Ok c =>
                  match core_Start c with
                  | (Some err, _) => (Some ("start core " ++ ce_key e ++ " error: " ++ err), s)
                  | (None, c) =>
                      let p := fresh (dom (heap s)) in
                      (None, MkSelector (<[i := set_core (Some p) e]> (entries s)) (nodes s)
                               (<[p := c]> (heap s)))
                  end
              end
          end
      end
  end.

(** [Start]: the entries whose configuration has inbounds of its own. *)
Fixpoint start_owners (l : list nat) (s : Selector C) : option string * Selector C :=
  match l with
  | [] => (None, s)
  | i :: l =>
      match entries s !! i with
      | Some e =>
          if ownsInbounds (ce_config e) then
            match startLocked i s with
            | (Some err, s) => (Some err, s)
            | (None, s) => start_owners l s
            end
          else start_owners l s
      | None => start_owners l s
      end
  end.
Definition selector_Start (s : Selector C) : option string * Selector C :=
  start_owners (seq 0 (length (entries s))) s.

(** The errors of the cores, and the entries without their cores. *)
Definition close_entry (st : list string * gmap nat C) (e : coreEntry) : list string * gmap nat C :=
  match ce_core e with
  | None => st
  | Some p =>
      match st.2 !! p with
      | None => st
      | Some c =>
          let '(err, c) := core_Close c in
          (match err with Some err => st.1 ++ [err] | None => st.1 end, <[p := c]> st.2)%list
      end
  end.
Definition selector_Close (s : Selector C) : list string * Selector C :=
  let '(errs, h) := foldl close_entry ([], heap s) (entries s) in
  (errs, MkSelector (map (set_core None) (entries s)) (nodes s) h).

(** The candidates of a node that does not name its core. *)
Definition candidate (info : NodeInfo) (option_ : Options) (e : coreEntry) : bool :=
  if decide (op_Core option_ = "") then
    match cores !! ce_typ e with
    | Some r => isSupported (ni_Type info) (rg_protocols r)
    | None => false
    end
  else bool_decide (op_Core option_ = ce_typ e).
(** The second loop; the entries from index [i], and the first candidate so far. *)
Fixpoint pick_loop (info : NodeInfo) (option_ : Options) (i : nat) (es : list coreEntry) (first : option nat)
    : option nat :=
  match es with
  | [] => first
  | e :: es =>
      if candidate info option_ e then
        match ce_core e with
        | Some _ => Some i
        | None => pick_loop info option_ (S i) es (match first with Some _ => first | None => Some i end)
        end
      else pick_loop info option_ (S i) es first
  end.
Definition pickLocked (info : NodeInfo) (option_ : Options) (s : Selector C) : option nat :=
  if decide (op_CoreName option_ = "") then pick_loop info option_ 0 (entries s) None
  else fst <$> list_find (λ e, ce_key e = op_CoreName option_) (entries s).

(** [option.Core = core.Type()] and the decoding of what the options of a node said. *)
Definition fill_options (typ : string) (o : Options) : result Options * Options :=
  let o := Options_with o typ (op_RawOptions o) (op_XrayOptions o) (op_SingOptions o) in
  match Options_UnmarshalJSON (op_RawOptions o) o with
  | Err e => (Err ("unmarshal option error: " ++ e), o)
  | Ok o => let o := Options_with o (op_Core o) "" (op_XrayOptions o) (op_SingOptions o) in (Ok o, o)
  end.

(** After [startLocked] the entry has a core ([startLocked_spec] below); the two
    answers "no core" stand for what cannot happen. *)
Definition selector_AddNode (tag : string) (info : NodeInfo) (option_ : Options) (s : Selector C)
    : option string * Options * Selector C :=
  match pickLocked info option_ s with
  | None => (Some "the node type is not support", option_, s)
  | Some i =>
      match startLocked i s with
      | (Some e, s) => (Some e, option_, s)
      | (None, s) =>
          match entries s !! i ≫= ce_core with
          | None => (Some "no core", option_, s)
          | Some p =>
          match heap s !! p with
          | None => (Some "no core", option_, s)
          | Some c =>
              let '(r, option_) :=
                if decide (op_Core option_ = "") then fill_options (core_Type c) option_
                else (Ok option_, option_) in
              match r with
              | Err e => (Some e, option_, s)
              | Ok _ =>
                  let '(err, option_, c) := AddNode tag info option_ c in
                  let h := <[p := c]> (heap s) in
                  match err with
                  | Some e => (Some e, option_, MkSelector (entries s) (nodes s) h)
                  | None => (None, option_, MkSelector (entries s) (<[tag := p]> (nodes s)) h)
                  end
              end
          end end
      end
  end.

(** The core of a node, and a call on it. *)
Definition node_core (s : Selector C) (tag : string) : option C := nodes s !! tag ≫= λ p, heap s !! p.
Definition on_node {A} (tag : string) (missing : A) (f : C → A * C) (s : Selector C) : A * Selector C :=
  match nodes s !! tag with
  | None => (missing, s)
  | Some p =>
      match heap s !! p with
      | None => (missing, s)
      | Some c => let '(a, c) := f c in (a, MkSelector (entries s) (nodes s) (<[p := c]> (heap s)))
      end
  end.

Definition not_here : string := "the node is not have".
Definition selector_DelNode (tag : string) (s : Selector C) : option string * Selector C :=
  match nodes s !! tag with
  | None => (Some not_here, s)
  | Some _ =>
      match on_node tag (Some not_here) (DelNode tag) s with
      | (Some e, s) => (Some e, s)
      | (None, s) => (None, MkSelector (entries s) (delete tag (nodes s)) (heap s))
      end
  end.
Definition selector_AddUsers (tag : string) (users : list UserInfo) (info : NodeInfo)
    : Selector C → result Z * Selector C := on_node tag (Err not_here) (AddUsers tag users info).
Definition selector_DelUsers (users : list UserInfo) (tag : string) (info : NodeInfo)
    : Selector C → option string * Selector C := on_node tag (Some not_here) (DelUsers users tag info).
Definition selector_GetUserTraffic (tag uuid : string) (reset : bool)
    : Selector C → Z * Z * Selector C := on_node tag (0, 0) (GetUserTraffic tag uuid reset).
Definition selector_RestoreUserTraffic (tag uuid : string) (up down : Z) (s : Selector C) : Selector C :=
  (on_node tag tt (λ c, (tt, RestoreUserTraffic tag uuid up down c)) s).2.

Definition selector_Protocols (s : Selector C) : list string :=
  concat (map (λ e, match cores !! ce_typ e with Some r => rg_protocols r | None => [] end) (entries s)).
Definition selector_Type (s : Selector C) : string :=
  "Selector(" ++ Join (map ce_key (entries s)) " " ++ ")".

#[export] Instance selector_traffic : CoreTraffic (Selector C) := {
  GetUserTraffic := selector_GetUserTraffic;
  RestoreUserTraffic := selector_RestoreUserTraffic
}.
Definition selector_core : Core (Selector C) := {|
  AddNode := selector_AddNode;
  DelNode := selector_DelNode;
  AddUsers := selector_AddUsers;
  DelUsers := selector_DelUsers
|}.
End selector.

(** * The traffic laws

    A selector of cores that keep the laws keeps them. *)
Section laws.
Context {C : Type} `{!Core C} `{!TrafficLaws C}.

Lemma on_node_result {A} tag (missing : A) f (s : Selector C) :
  (on_node tag missing f s).1 = match node_core s tag with Some c => (f c).1 | None => missing end.
Proof.
  unfold node_core, on_node. destruct (nodes s !! tag) as [p|]; [|done]. simpl.
  destruct (heap s !! p) as [c|]; [|done]. by destruct (f c).
Qed.
Lemma on_node_core {A} tag (missing : A) f (s : Selector C) :
  node_core (on_node tag missing f s).2 tag = (λ c, (f c).2) <$> node_core s tag.
Proof.
  unfold node_core, on_node. destruct (nodes s !! tag) as [p|] eqn:E; simpl; [|by rewrite E].
  destruct (heap s !! p) as [c|] eqn:Ec; simpl; [|rewrite E; simpl; by rewrite Ec].
  destruct (f c) as [a c'] eqn:Ef. simpl. rewrite E. simpl. by rewrite lookup_insert_eq.
Qed.
Definition sel_ok (s : Selector C) : Prop := ∀ p c, heap s !! p = Some c → core_ok c.
Lemma on_node_ok {A} tag (missing : A) f (s : Selector C) :
  (∀ c, core_ok c → core_ok (f c).2) → sel_ok s → sel_ok (on_node tag missing f s).2.
Proof.
  intros Hf Hs. unfold on_node. destruct (nodes s !! tag) as [p|]; [|done].
  destruct (heap s !! p) as [c|] eqn:Ec; [|done]. specialize (Hf c).
  destruct (f c) as [a c']. intros q d. simpl. intros [[<- <-]|[_ Hq]]%lookup_insert_Some; [|by eapply Hs].
  by eapply Hf, Hs.
Qed.
Lemma node_core_ok (s : Selector C) tag c : sel_ok s → node_core s tag = Some c → core_ok c.
Proof. intros Hs. unfold node_core. destruct (nodes s !! tag) as [p|]; [|done]. apply Hs. Qed.

Definition sel_pending (s : Selector C) (tag uuid : string) : Z * Z :=
  match node_core s tag with Some c => pending c tag uuid | None => (0, 0) end.
Definition sel_counting_up (s : Selector C) (tag uuid : string) : Prop :=
  match node_core s tag with Some c => counting_up c tag uuid | None => False end.
Definition sel_counting_down (s : Selector C) (tag uuid : string) : Prop :=
  match node_core s tag with Some c => counting_down c tag uuid | None => False end.

Program Definition selector_laws : TrafficLaws (Selector C) := {|
  pending := sel_pending; counting_up := sel_counting_up; counting_down := sel_counting_down;
  core_ok := sel_ok
|}.
Next Obligation. intros tag uuid r s Hs. apply on_node_ok; [|done]. intros c. apply get_ok. Qed.
Next Obligation. intros tag uuid u d s Hs. apply on_node_ok; [|done]. intros c. apply restore_ok. Qed.
Next Obligation.
  intros tag uuid r s Hs. etrans; [apply on_node_result|]. unfold sel_pending.
  destruct (node_core s tag) as [c|] eqn:E; [|done]. by eapply get_value, node_core_ok.
Qed.
Next Obligation.
  intros tag uuid s Hs. simpl. unfold selector_GetUserTraffic, on_node.
  destruct (nodes s !! tag) as [p|]; [|done]. destruct (heap s !! p) as [c|] eqn:Ec; [|done].
  pose proof (get_keep tag uuid c (Hs p c Ec)) as Hk. destruct (GetUserTraffic tag uuid false c) as [[u d] c'].
  simpl in *. subst c'. rewrite insert_id by done. by destruct s.
Qed.
Next Obligation.
  intros tag uuid v s Hs. unfold sel_pending. simpl. unfold selector_GetUserTraffic. rewrite on_node_core.
  destruct (node_core s tag) as [c|] eqn:E; simpl; [|by case_decide].
  by eapply get_reset, node_core_ok.
Qed.
Next Obligation.
  intros tag uuid u d s Hs. unfold sel_pending, sel_counting_up, sel_counting_down. simpl.
  unfold selector_RestoreUserTraffic. rewrite on_node_core.
  destruct (node_core s tag) as [c|] eqn:E; simpl; [by eapply restore_pending, node_core_ok|].
  intros Hu Hd. unfold add_pos. rewrite !bool_decide_eq_false_2; [done|tauto..].
Qed.
Next Obligation.
  intros tag uuid u d v s Hs Hne. unfold sel_pending. simpl. unfold selector_RestoreUserTraffic.
  rewrite on_node_core. destruct (node_core s tag) as [c|] eqn:E; simpl; [|done].
  by eapply restore_other; [eapply node_core_ok|].
Qed.
Next Obligation.
  intros tag uuid s. unfold sel_pending, sel_counting_up.
  destruct (node_core s tag) as [c|]; [apply pending_up|done].
Qed.
Next Obligation.
  intros tag uuid s. unfold sel_pending, sel_counting_down.
  destruct (node_core s tag) as [c|]; [apply pending_down|done].
Qed.
Next Obligation.
  intros tag uuid r v s Hs. unfold sel_counting_up, sel_counting_down. simpl.
  unfold selector_GetUserTraffic. rewrite on_node_core.
  destruct (node_core s tag) as [c|] eqn:E; simpl; [|done]. by eapply get_counting, node_core_ok.
Qed.
Next Obligation.
  intros tag uuid u d v s Hs. unfold sel_counting_up, sel_counting_down. simpl.
  unfold selector_RestoreUserTraffic. rewrite on_node_core.
  destruct (node_core s tag) as [c|] eqn:E; simpl; [|done]. by eapply restore_counting, node_core_ok.
Qed.

(** A call for one node and the traffic of another, which may be on the same core. *)
Lemma on_node_elsewhere {A} tag (missing : A) f (s : Selector C) tag' v :
  sel_ok s →
  (∀ c, core_ok c → pending (f c).2 tag' v = pending c tag' v) →
  sel_pending (on_node tag missing f s).2 tag' v = sel_pending s tag' v.
Proof.
  intros Hs Hf. unfold sel_pending, node_core, on_node.
  destruct (nodes s !! tag) as [p|]; [|done]. destruct (heap s !! p) as [c|] eqn:Ec; [|done].
  specialize (Hf c (Hs p c Ec)). destruct (f c) as [a c']. cbn [snd nodes heap] in *.
  destruct (nodes s !! tag') as [q|]; [|done]. simpl. destruct (decide (p = q)) as [<-|Hne].
  - by rewrite lookup_insert_eq, Ec.
  - by rewrite lookup_insert_ne.
Qed.
#[local] Existing Instance selector_laws.
Lemma selector_local `{!TrafficLocal C} : TrafficLocal (Selector C).
Proof.
  split; intros; apply on_node_elsewhere; try done; intros c Hc; cbn [snd].
  - by apply get_elsewhere.
  - by apply restore_elsewhere.
Qed.
End laws.

(** * Choosing and starting a core *)

Section choice.
Context {C : Type} `{!Core C} `{!CoreLife C} `{!Unmarshal Options} `{!Unmarshal XrayOptions} `{!Unmarshal SingOptions}.
Context (cores : gmap string (registration C)).

#[local] Open Scope list_scope.

(** Whether the entry has a running core. *)
Definition running_entry (e : coreEntry) : bool := bool_decide (is_Some (ce_core e)).

(** The first candidate, and a running one if there is any. *)
Definition best (info : NodeInfo) (o : Options) (es : list coreEntry) (i : nat) : Prop :=
  ∃ e, es !! i = Some e ∧ candidate cores info o e = true ∧
    ∀ j e', es !! j = Some e' → candidate cores info o e' = true →
      (running_entry e' = true → running_entry e = true) ∧
      (running_entry e = running_entry e' → (i ≤ j)%nat).
(** The entry of a node: the first with the name it gives, or the best candidate. *)
Definition chosen (info : NodeInfo) (o : Options) (es : list coreEntry) (i : nat) : Prop :=
  if decide (op_CoreName o = "") then best info o es i
  else ∃ e, es !! i = Some e ∧ ce_key e = op_CoreName o ∧
    ∀ j e', es !! j = Some e' → ce_key e' = op_CoreName o → (i ≤ j)%nat.

(** The loop has gone through [seen], no candidate of which runs. *)
Definition seen_first (info : NodeInfo) (o : Options) (seen : list coreEntry) (first : option nat) : Prop :=
  (∀ j e, seen !! j = Some e → candidate cores info o e = true → ce_core e = None) ∧
  match first with
  | Some i => (∃ e, seen !! i = Some e ∧ candidate cores info o e = true) ∧
      ∀ j e, seen !! j = Some e → candidate cores info o e = true → (i ≤ j)%nat
  | None => ∀ j e, seen !! j = Some e → candidate cores info o e = false
  end.

Lemma seen_first_snoc info o seen first e :
  seen_first info o seen first → ce_core e = None →
  seen_first info o (seen ++ [e])
    (if candidate cores info o e then match first with Some _ => first | None => Some (length seen) end
     else first).
Proof.
  intros [H1 H2] He. split.
  - intros j e' [Hj|[Hj [_ <-]%list_lookup_singleton_Some]]%lookup_app_Some Hc; [by eapply H1|done].
  - destruct first as [i|]; [|destruct (candidate cores info o e) eqn:Ec].
    + assert ((∃ e0, (seen ++ [e]) !! i = Some e0 ∧ candidate cores info o e0 = true) ∧
        ∀ j e0, (seen ++ [e]) !! j = Some e0 → candidate cores info o e0 = true → (i ≤ j)%nat)
        as H; [|by destruct (candidate _ _ _ _)].
      destruct H2 as [(e0 & He0 & Hc0) H2]. pose proof (lookup_lt_Some _ _ _ He0). split.
      * exists e0. by rewrite lookup_app_l.
      * intros j e' [Hj|[Hj _]]%lookup_app_Some Hc; [by eapply H2|lia].
    + split; [exists e; split; [|done]; by rewrite list_lookup_middle|].
      intros j e' [Hj|[Hj _]]%lookup_app_Some Hc; [by rewrite (H2 _ _ Hj) in Hc|done].
    + intros j e' [Hj|[Hj [_ <-]%list_lookup_singleton_Some]]%lookup_app_Some; [by eapply H2|done].
Qed.

Lemma pick_loop_spec info o es seen first :
  seen_first info o seen first →
  match pick_loop cores info o (length seen) es first with
  | Some i => best info o (seen ++ es) i
  | None => ∀ j e, (seen ++ es) !! j = Some e → candidate cores info o e = false
  end.
Proof.
  revert seen first. induction es as [|e es IH]; intros seen first Hs.
  - rewrite (right_id_L [] app). simpl. destruct Hs as [H1 H2]. destruct first as [i|]; [|done].
    destruct H2 as [(e & He & Hc) H2]. exists e. split; [done|]. split; [done|].
    intros j e' Hj Hc'. unfold running_entry. rewrite (H1 _ _ Hj Hc'). split; [done|].
    intros _. by eapply H2.
  - assert (seen ++ e :: es = (seen ++ [e]) ++ es) as E by by rewrite <-(assoc_L app).
    assert (length (seen ++ [e]) = S (length seen)) as El by (rewrite length_app; simpl; lia).
    cbn [pick_loop]. destruct (candidate cores info o e) eqn:Ec.
    + destruct (ce_core e) as [p|] eqn:Ep.
      * exists e. split; [by rewrite list_lookup_middle|]. split; [done|].
        assert (running_entry e = true) as Hr by (unfold running_entry; by rewrite Ep).
        intros j e' Hj Hc'. split; [done|]. rewrite Hr. intros Hr'.
        apply lookup_app_Some in Hj as [Hj|[Hj _]]; [|done].
        unfold running_entry in Hr'. by rewrite (proj1 Hs _ _ Hj Hc') in Hr'.
      * rewrite E, <-El. apply IH. pose proof (seen_first_snoc info o seen first e Hs Ep) as H.
        by rewrite Ec in H.
    + rewrite E, <-El. apply IH. destruct Hs as [H1 H2]. split.
      * intros j e' [Hj|[Hj [_ <-]%list_lookup_singleton_Some]]%lookup_app_Some Hc'; [by eapply H1|congruence].
      * destruct first as [i|].
        -- destruct H2 as [(e0 & He0 & Hc0) H2]. pose proof (lookup_lt_Some _ _ _ He0). split.
           ++ exists e0. by rewrite lookup_app_l.
           ++ intros j e' [Hj|[Hj _]]%lookup_app_Some Hc'; [by eapply H2|lia].
        -- intros j e' [Hj|[Hj [_ <-]%list_lookup_singleton_Some]]%lookup_app_Some; [by eapply H2|done].
Qed.

(** No entry can serve the node. *)
Definition nobody (info : NodeInfo) (o : Options) (es : list coreEntry) : Prop :=
  ∀ j e, es !! j = Some e →
    if decide (op_CoreName o = "") then candidate cores info o e = false else ce_key e ≠ op_CoreName o.
Lemma pickLocked_spec info o (s : Selector C) :
  match pickLocked cores info o s with
  | Some i => chosen info o (entries s) i
  | None => nobody info o (entries s)
  end.
Proof.
  unfold pickLocked, chosen, nobody. destruct (decide (op_CoreName o = "")) as [_|Hn].
  - pose proof (pick_loop_spec info o (entries s) [] None) as H. apply H. split; [done|]. by intros [].
  - destruct (list_find _ (entries s)) as [[i e]|] eqn:E; simpl.
    + apply list_find_Some in E as (He & Hk & Hlt). exists e. split; [done|]. split; [done|].
      intros j e' Hj Hk'. destruct (le_lt_dec i j) as [|Hji]; [done|]. by destruct (Hlt j e' Hj Hji).
    + apply list_find_None in E. rewrite Forall_forall in E. intros j e He.
      by eapply E, list_elem_of_lookup_2.
Qed.

(** Every entry is of a registered type, a core belongs to one entry, and every node
    is served by the core of an entry. *)
Record sel_wf (s : Selector C) : Prop := {
  wf_heap i e p : entries s !! i = Some e → ce_core e = Some p → is_Some (heap s !! p);
  wf_nodes tag p : nodes s !! tag = Some p → ∃ i e, entries s !! i = Some e ∧ ce_core e = Some p;
  wf_typ i e : entries s !! i = Some e → is_Some (cores !! ce_typ e);
  wf_own i j e e' p : entries s !! i = Some e → entries s !! j = Some e' →
    ce_core e = Some p → ce_core e' = Some p → i = j
}.
Lemma wf_put (s : Selector C) p c :
  sel_wf s → sel_wf (MkSelector (entries s) (nodes s) (<[p := c]> (heap s))).
Proof.
  intros [W1 W2 W3 W4]. split; [|done..]. intros i e q He Hq. simpl.
  destruct (decide (p = q)) as [->|Hne]; [rewrite lookup_insert_eq; by eexists|].
  rewrite lookup_insert_ne by done. by eapply W1.
Qed.
Lemma wf_node_core (s : Selector C) tag :
  sel_wf s → is_Some (nodes s !! tag) → is_Some (node_core s tag).
Proof.
  intros Hs [p Hp]. unfold node_core. rewrite Hp. simpl.
  destruct (wf_nodes s Hs tag p Hp) as (i & e & He & Hc). by eapply wf_heap.
Qed.
Lemma wf_on_node {A} tag (missing : A) f (s : Selector C) : sel_wf s → sel_wf (on_node tag missing f s).2.
Proof.
  intros Hs. unfold on_node. destruct (nodes s !! tag) as [p|]; [|done].
  destruct (heap s !! p) as [c|]; [|done]. destruct (f c) as [a c']. by apply wf_put.
Qed.
Lemma wf_DelNode tag (s : Selector C) : sel_wf s → sel_wf (selector_DelNode tag s).2.
Proof.
  intros Hs. unfold selector_DelNode. destruct (nodes s !! tag); [|done].
  pose proof (wf_on_node tag (Some not_here) (DelNode tag) s Hs) as Hs'.
  destruct (on_node tag (Some not_here) (DelNode tag) s) as [[e|] s']; [done|].
  destruct Hs' as [W1 W2 W3 W4]. split; try done. intros t p. simpl.
  intros [_ Hp]%lookup_delete_Some. by eapply W2.
Qed.

Lemma startLocked_spec i (s : Selector C) :
  sel_wf s → let '(err, s') := startLocked cores i s in
  sel_wf s' ∧ nodes s' = nodes s ∧ (∀ j, j ≠ i → entries s' !! j = entries s !! j) ∧
  (err ≠ None → s' = s) ∧
  (err = None → is_Some (entries s !! i) →
   ∃ e p c, entries s' !! i = Some e ∧ ce_core e = Some p ∧ heap s' !! p = Some c).
Proof.
  intros Hs. unfold startLocked. destruct (entries s !! i) as [e|] eqn:He; [|by split_and!; [..|intros ? []]].
  destruct (ce_core e) as [p|] eqn:Ep.
  { split_and!; [done..|]. intros _ _. destruct (wf_heap s Hs i e p He Ep) as [c Hc]. by exists e, p, c. }
  destruct (wf_typ s Hs i e He) as [r Er]. rewrite Er.
  destruct (rg_new r (ce_config e)) as [c|err]; [|by split_and!].
  destruct (core_Start c) as [[err|] c']; [by split_and!|].
  assert (heap s !! fresh (dom (heap s)) = None) as Hf by apply not_elem_of_dom, is_fresh.
  set (p := fresh (dom (heap s))) in *.
  pose proof (lookup_lt_Some _ _ _ He) as Hi. cbn [entries nodes heap].
  assert (∀ j e', <[i := set_core (Some p) e]> (entries s) !! j = Some e' →
    i = j ∧ e' = set_core (Some p) e ∨ i ≠ j ∧ entries s !! j = Some e') as Hl.
  { intros j e' H. destruct (decide (i = j)) as [<-|Hij].
    - rewrite list_lookup_insert_eq in H by done. injection H as <-. by left.
    - rewrite list_lookup_insert_ne in H by done. by right. }
  assert (∀ j e' q, entries s !! j = Some e' → ce_core e' = Some q → q ≠ p) as Hnew.
  { intros j e' q Hj Hq ->. destruct (wf_heap s Hs j e' p Hj Hq). congruence. }
  split; [|split; [done|split; [|split; [done|]]]].
  - split; cbn [entries nodes heap].
    + intros j e' q [[<- ->]|[Hij Hj]]%Hl Hq; [injection Hq as <-; rewrite lookup_insert_eq; by eexists|].
      rewrite lookup_insert_ne by (symmetry; by eapply Hnew). by eapply wf_heap.
    + intros tag q Hq. destruct (wf_nodes s Hs tag q Hq) as (j & e' & Hj & Hc). exists j, e'.
      split; [|done]. rewrite list_lookup_insert_ne; [done|]. intros <-. congruence.
    + intros j e' [[<- ->]|[_ Hj]]%Hl; [exact (wf_typ s Hs i e He)|exact (wf_typ s Hs j e' Hj)].
    + intros j k e1 e2 q [[<- ->]|[Hj1 Hj]]%Hl [[<- ->]|[Hk1 Hk]]%Hl H1 H2; [done|..|by eapply wf_own].
      * injection H1 as <-. by destruct (Hnew k e2 p Hk H2).
      * injection H2 as <-. by destruct (Hnew j e1 p Hj H1).
  - intros j Hj. by rewrite list_lookup_insert_ne.
  - intros _ _. exists (set_core (Some p) e), p, c'. split; [by rewrite list_lookup_insert_eq|].
    split; [done|apply lookup_insert_eq].
Qed.

Lemma wf_start_owners l (s : Selector C) : sel_wf s → sel_wf (start_owners cores l s).2.
Proof.
  revert s. induction l as [|i l IH]; intros s Hs; [done|]. cbn [start_owners].
  destruct (entries s !! i) as [e|]; [|by apply IH]. destruct (ownsInbounds _); [|by apply IH].
  pose proof (startLocked_spec i s Hs) as H. destruct (startLocked cores i s) as [[err|] s']; [apply H|].
  by apply IH, H.
Qed.

(** What [AddNode] does, in terms of the entries. *)
Lemma AddNode_spec tag info o (s : Selector C) :
  sel_wf s → let '(err, _, s') := selector_AddNode cores tag info o s in
  sel_wf s' ∧
  (nobody info o (entries s) ∧ s' = s ∧ is_Some err ∨
   ∃ i, chosen info o (entries s) i ∧ (∀ j, j ≠ i → entries s' !! j = entries s !! j) ∧
     match err with
     | Some _ => nodes s' = nodes s
     | None => ∃ e p, entries s' !! i = Some e ∧ ce_core e = Some p ∧ nodes s' = <[tag := p]> (nodes s)
     end).
Proof.
  intros Hs. unfold selector_AddNode. pose proof (pickLocked_spec info o s) as Hp.
  destruct (pickLocked cores info o s) as [i|]; [|split; [done|left; split_and!; [done|done|by eexists]]].
  assert (is_Some (entries s !! i)) as Hi.
  { unfold chosen, best in Hp. destruct (decide _); destruct Hp as (e0 & -> & _); by eexists. }
  pose proof (startLocked_spec i s Hs) as H. destruct (startLocked cores i s) as [[err|] s1].
  { destruct H as (H1 & H2 & H3 & _). split; [done|]. right. by exists i. }
  destruct H as (H1 & H2 & H3 & _ & H5). destruct (H5 eq_refl Hi) as (e0 & p & c & He & Hp1 & Hc).
  rewrite He. simpl. rewrite Hp1, Hc.
  destruct (if decide (op_Core o = "") then _ else _) as [r o1].
  destruct r as [o2|err].
  2: { split; [done|]. right. by exists i. }
  destruct (AddNode tag info o1 c) as [[[err|] o3] c1].
  - split; [by apply wf_put|]. right. by exists i.
  - split.
    + destruct (wf_put s1 p c1 H1) as [W1 W2 W3 W4]. split; try done.
      intros t q. simpl. intros [[<- <-]|[_ Hq]]%lookup_insert_Some; [by exists i, e0|by eapply W2].
    + right. exists i. split; [done|]. split; [done|]. exists e0, p. simpl. by rewrite H2.
Qed.

(** The calls on a selector between its creation and [Close]. *)
Inductive sel_step : Selector C → Selector C → Prop :=
| step_Start s : sel_step s (selector_Start cores s).2
| step_AddNode tag info o s : sel_step s (selector_AddNode cores tag info o s).2
| step_DelNode tag s : sel_step s (selector_DelNode tag s).2
| step_AddUsers tag users info s : sel_step s (selector_AddUsers tag users info s).2
| step_DelUsers users tag info s : sel_step s (selector_DelUsers users tag info s).2
| step_Get tag uuid r s : sel_step s (selector_GetUserTraffic tag uuid r s).2
| step_Restore tag uuid u d s : sel_step s (selector_RestoreUserTraffic tag uuid u d s).

Lemma wf_step s s' : sel_wf s → sel_step s s' → sel_wf s'.
Proof.
  intros Hs Hst. destruct Hst as [s|tag info o s|tag s|tag us info s|us tag info s|tag uuid r s|tag uuid u d s].
  - by apply wf_start_owners.
  - pose proof (AddNode_spec tag info o s Hs) as H.
    destruct (selector_AddNode cores tag info o s) as [[err o'] s']. apply H.
  - by apply wf_DelNode.
  - by apply wf_on_node.
  - by apply wf_on_node.
  - by apply wf_on_node.
  - by apply wf_on_node.
Qed.

Lemma wf_new c s : NewSelector cores c = Ok s → sel_wf s.
Proof.
  assert (∀ c es, new_entries cores c = Ok es →
    ∀ i e, es !! i = Some e → is_Some (cores !! ce_typ e) ∧ ce_core e = None) as Hnew.
  { clear c s. induction c as [|t c IH]; intros es; cbn [new_entries]; [intros [= <-]; by intros []|].
    unfold new_entry. destruct (cores !! ToLower (co_Type t)) as [r|] eqn:E; [|done]. simpl.
    destruct (new_entries cores c) as [es'|]; [|done]. simpl. intros [= <-] [|i] e; [|by apply (IH es')].
    intros [= <-]. simpl. rewrite E. split; [by eexists|done]. }
  unfold NewSelector. destruct c as [|t c]; [done|]. destruct (new_entries cores (t :: c)) as [es|] eqn:E; [|done].
  simpl. intros [= <-]. specialize (Hnew _ _ E). split; simpl.
  - intros i e p He Hp. destruct (Hnew i e He). congruence.
  - intros tag p. by rewrite lookup_empty.
  - intros i e He. by apply (Hnew i e).
  - intros i j e e' p He _ Hp. destruct (Hnew i e He). congruence.
Qed.

(** (C22) The selector.  At every moment each node is served by a running core that one
    configured entry owns.  Adding a node picks the entry with the name the node gives,
    or else, among the entries that can serve it, the first one that runs, or the first
    one if none does; it starts at most that core; and it registers the node with this
    core exactly when it reports success. *)
Theorem selector_chooses (c : list CoreConfig) (s0 s : Selector C) (tag : string) (info : NodeInfo) (o : Options) :
  NewSelector cores c = Ok s0 → steps sel_step s0 s →
  (∀ t, is_Some (nodes s !! t) → is_Some (node_core s t)) ∧
  let '(err, _, s') := selector_AddNode cores tag info o s in
  nobody info o (entries s) ∧ s' = s ∧ is_Some err ∨
  ∃ i, chosen info o (entries s) i ∧ (∀ j, j ≠ i → entries s' !! j = entries s !! j) ∧
    match err with
    | Some _ => nodes s' = nodes s
    | None => ∃ e p, entries s' !! i = Some e ∧ ce_core e = Some p ∧ nodes s' = <[tag := p]> (nodes s)
    end.
Proof.
  intros Hnew Hst. assert (sel_wf s) as Hs.
  { eapply steps_invariant; [exact wf_step|by eapply wf_new|exact Hst]. }
  split; [intros t; by apply wf_node_core|].
  pose proof (AddNode_spec tag info o s Hs) as H.
  destruct (selector_AddNode cores tag info o s) as [[err o'] s']. apply H.
Qed.

(** The options of a node that does not name its core.  [said] is what the text of the
    options gives for Core.  When it gives nothing, the selector fills in the type of the
    chosen core and the options of that core.  When it gives a name that is not a core
    type (another spelling of "xray", say), decoding it again forgets the type and leaves
    the options of the core nil. *)
Theorem options_filled (o : Options) (said : option string) (x : XrayOptions) :
  (∀ core xo so, unmarshal (op_RawOptions o) (Options_with o core (op_RawOptions o) xo so) =
     Ok (Options_with o (default core said) (op_RawOptions o) xo so)) →
  unmarshal (op_RawOptions o) NewXrayOptions = Ok x →
  (said = None → ∃ o', fill_options "xray" o = (Ok o', o') ∧ op_RawOptions o' = "" ∧
     op_Core o' = "xray" ∧ op_XrayOptions o' = Some x) ∧
  (∀ k, said = Some k → k ∉ ["xray"; "sing"; "hysteria2"] →
     ∃ o', fill_options "xray" o = (Ok o', o') ∧ op_Core o' = "" ∧ op_XrayOptions o' = op_XrayOptions o).
Proof.
  intros Hd Hx. unfold fill_options, Options_UnmarshalJSON. cbn [op_RawOptions Options_with].
  rewrite Hd. simpl. split.
  - intros ->. simpl. rewrite Hx. by eexists.
  - intros k -> Hk. simpl. rewrite !decide_False by set_solver. by eexists.
Qed.
End choice.

(** ** A small world: hysteria2 cores, and options that decode to themselves. *)
#[local] Instance hy_life : CoreLife Hysteria2 := {|
  core_Start h := (None, h); core_Close h := (None, h); core_Type _ := "hysteria2"
|}.
#[local] Instance keep_options : Unmarshal Options := λ _ o, Ok o.
#[local] Instance keep_xray : Unmarshal XrayOptions := λ _ o, Ok o.
#[local] Instance keep_sing : Unmarshal SingOptions := λ _ o, Ok o.
#[local] Instance hy_calls : Core Hysteria2 := hy_core (λ _, None) (λ _, None).
Definition hy_cores : gmap string (registration Hysteria2) :=
  RegisterCore "hysteria2" (λ _, Ok (MkHysteria2 ∅ ∅)) ["hysteria2"] ∅.
Definition hy_node : NodeInfo :=
  MkNodeInfo 1 "hysteria2" "" SecTls 0 0 (MkRawDNS ∅ "") (MkRules [] []) "" None None None None
    None None None None None None.
Definition plain_options : Options :=
  MkOptions "" "" "" "" "" 0 LimitConfig_zero "" None None "" None.
Definition hy_config (name : string) : CoreConfig := MkCoreConfig "hysteria2" name None None None.
Definition two_cores : Selector Hysteria2 :=
  match NewSelector hy_cores [hy_config "a"; hy_config "b"] with Ok s => s | Err _ => MkSelector [] ∅ ∅ end.

Lemma selector_chooses_witness :
  let '(err, _, s') := selector_AddNode hy_cores "t" hy_node plain_options two_cores in
  nobody hy_cores hy_node plain_options (entries two_cores) ∧ s' = two_cores ∧ is_Some err ∨
  ∃ i, chosen hy_cores hy_node plain_options (entries two_cores) i ∧
    (∀ j, j ≠ i → entries s' !! j = entries two_cores !! j) ∧
    match err with
    | Some _ => nodes s' = nodes two_cores
    | None => ∃ e p, entries s' !! i = Some e ∧ ce_core e = Some p ∧ nodes s' = <[ "t" := p ]> (nodes two_cores)
    end.
Proof.
  exact (proj2 (selector_chooses hy_cores [hy_config "a"; hy_config "b"] two_cores two_cores "t" hy_node
    plain_options eq_refl (steps_refl _ _))).
Defined.

Lemma options_filled_witness :
  ∃ o', fill_options "xray" plain_options = (Ok o', o') ∧ op_RawOptions o' = "" ∧
    op_Core o' = "xray" ∧ op_XrayOptions o' = Some NewXrayOptions.
Proof.
  exact (proj1 (options_filled plain_options None NewXrayOptions (λ core xo so, eq_refl) eq_refl) eq_refl).
Defined.
