(* ===== verification/Split.v ===== *)
(** cmd/split.go: one configuration file per node.

    The JSON library is a parameter: the values the command reads and writes stay raw
    texts.  The disk and the errors of the operating system are those of Disk.v. *)
From S2P Require Import Prelude GoStrings Paths Disk PanelTypes Conf TrafficCounter CoreApi Hy2 Selector.
#[local] Open Scope string_scope.
#[local] Open Scope Z_scope.

(** * Names *)

(** The length of the first rune of a text, 1 for a byte that starts none
    (utf8.DecodeRune). *)
Definition in_range (lo hi : N) (o : option ascii) : bool :=
  match o with Some c => bool_decide (lo ≤ N_of_ascii c ≤ hi)%N | None => false end.
Definition cont_byte : option ascii → bool := in_range 128 191.
Definition rune_len (l : list ascii) : nat :=
  match l with
  | [] => 0
  | c :: l =>
      let n := N_of_ascii c in
      if bool_decide (194 ≤ n ≤ 223)%N then if cont_byte (l !! 0%nat) then 2 else 1
      else if bool_decide (224 ≤ n ≤ 239)%N then
        if in_range (if decide (n = 224%N) then 160 else 128) (if decide (n = 237%N) then 159 else 191)
             (l !! 0%nat) && cont_byte (l !! 1%nat) then 3 else 1
      else if bool_decide (240 ≤ n ≤ 244)%N then
        if in_range (if decide (n = 240%N) then 144 else 128) (if decide (n = 244%N) then 143 else 191)
             (l !! 0%nat) && cont_byte (l !! 1%nat) && cont_byte (l !! 2%nat) then 4 else 1
      else 1
  end.
(** The characters a name keeps: letters, digits, '.', '_' and '-'. *)
Definition name_char (c : ascii) : Prop :=
  let n := N_of_ascii c in
  (97 ≤ n ≤ 122 ∨ 65 ≤ n ≤ 90 ∨ 48 ≤ n ≤ 57)%N ∨ c = "."%char ∨ c = "_"%char ∨ c = "-"%char.
#[export] Instance name_char_dec c : Decision (name_char c).
Proof. unfold name_char. apply _. Defined.

(** One byte for each rune; [skip] bytes of the current rune are left. *)
Fixpoint sanitize_runes (skip : nat) (l : list ascii) : list ascii :=
  match l with
  | [] => []
  | c :: l' =>
      match skip with
      | S skip => sanitize_runes skip l'
      | O => (if decide (name_char c) then c else "_"%char) :: sanitize_runes (pred (rune_len l)) l'
      end
  end.
Definition sanitizeSplitName (name : string) : string :=
  let out := Trim (of_bytes (sanitize_runes 0 (to_bytes name))) "._-" in
  if decide (out = "") then "node" else out.

Definition uniqueSplitName (used : gmap string Z) (name : string) : string * gmap string Z :=
  let n := default 0 (used !! name) + 1 in
  let used := <[name := n]> used in
  (if bool_decide (n > 1) then name +:+ "-" +:+ Itoa n else name, used).

Example sanitize_ex :
  map sanitizeSplitName ["[https://a.b]:1"; "节点 1"; "..."; ""] = ["https___a.b__1"; "1"; "node"; "node"].
Proof. reflexivity. Qed.

(** * The generated configurations *)

(** encoding and decoding: map[string]json.RawMessage, a slice of these, string, int. *)
Class SplitJSON := {
  dec_map : string → result (gmap string string);
  dec_maps : string → result (list (gmap string string));
  dec_string : string → result string;
  dec_int : string → result Z;
  enc_string : string → result string;
  enc_int : Z → result string;
  enc_map : gmap string string → result string;
  enc_maps : list (gmap string string) → result string;
  enc_indent : gmap string string → result string
}.

Record dnsCopy := MkdnsCopy { dc_Source : string; dc_Target : string }.
Record splitFile := MksplitFile {
  sf_Name : string;
  sf_Path : string;
  sf_Content : string;
  sf_Dns : list dnsCopy
}.

(** [if encoded, err := json.Marshal(v); err == nil { m[k] = encoded }] *)
Definition set_encoded (k : string) (encoded : result string) (m : gmap string string) : gmap string string :=
  match encoded with Ok v => <[k := v]> m | Err _ => m end.

Section build.
Context {J : SplitJSON}.

(** [_ = json.Unmarshal(m[k], &v)]: a missing key and an error leave the zero value. *)
Definition field_string (m : gmap string string) (k : string) : string :=
  match m !! k with
  | Some raw => match dec_string raw with Ok s => s | Err _ => "" end
  | None => ""
  end.
Definition field_int (m : gmap string string) (k : string) : Z :=
  match m !! k with
  | Some raw => match dec_int raw with Ok n => n | Err _ => 0 end
  | None => 0
  end.

Definition splitNodeName (node : gmap string string) : string :=
  let name := TrimSpace (field_string node "Name") in
  if decide (name ≠ "") then sanitizeSplitName name
  else
    let host := TrimPrefix (TrimPrefix (field_string node "ApiHost") "https://") "http://" in
    let host := TrimSuffix host "/" in
    let host := ReplaceAll host ":" "_" in
    sanitizeSplitName (host +:+ "-" +:+ field_string node "NodeType" +:+ "-" +:+ Itoa (field_int node "NodeID")).

Definition splitDnsFileName (name : string) (core : gmap string string) : string :=
  let base := "dns_" +:+ name in
  let coreName := field_string core "Name" in
  (if decide (coreName ≠ "") then base +:+ "_" +:+ sanitizeSplitName coreName else base) +:+ ".json".

Definition splitLogFileName (name path : string) : string :=
  let base := Base path in
  let ext := Ext base in
  TrimSuffix base ext +:+ "-" +:+ name +:+ ext.

Definition rewriteLogOutput (logRaw outDir name : string) : result string :=
  match dec_map logRaw with
  | Err e => Err ("decode Log error: " +:+ e)
  | Ok logConfig =>
      logConfig ←
        match logConfig !! "Output" with
        | None => Ok logConfig
        | Some current =>
            match dec_string current with
            | Err e => Err ("decode Log.Output error: " +:+ e)
            | Ok path =>
                if decide (path ≠ "") then
                  Ok (set_encoded "Output" (enc_string (Path_Join [outDir; "log"; splitLogFileName name path])) logConfig)
                else Ok logConfig
            end
        end;
      match enc_map logConfig with
      | Err e => Err ("encode Log error: " +:+ e)
      | Ok encoded => Ok encoded
      end
  end.

Definition core_picked (coreName coreType : string) (core : gmap string string) : bool :=
  let name := field_string core "Name" in
  let typ := field_string core "Type" in
  if decide (coreName ≠ "") then bool_decide ((if decide (name = "") then typ else name) = coreName)
  else if decide (coreType ≠ "") then EqualFold typ coreType
  else false.
(** The loop over the cores, from index [i]. *)
Fixpoint pick_cores (coreName coreType : string) (i : nat) (cores : list (gmap string string)) : list nat :=
  match cores with
  | [] => []
  | core :: cores =>
      if core_picked coreName coreType core then i :: pick_cores coreName coreType (S i) cores
      else pick_cores coreName coreType (S i) cores
  end.
(** Where a node has its options. *)
Definition node_fields (node : gmap string string) : gmap string string :=
  match node !! "Options" with
  | Some rawOptions => match dec_map rawOptions with Ok options => options | Err _ => node end
  | None => node
  end.
Definition splitNodeCores (node : gmap string string) (cores : list (gmap string string)) : list nat :=
  let all := seq 0 (length cores) in
  match node !! "Include" with
  | Some _ => all
  | None =>
      let fields := node_fields node in
      match pick_cores (field_string fields "CoreName") (field_string fields "Core") 0 cores with
      | [] => all
      | picked => picked
      end
  end.

(** The copies of the picked cores for one node, and the DNS files they need. *)
Definition copy_core (outDir name : string) (ci : nat) (core : gmap string string)
    : result (gmap string string * list dnsCopy) :=
  match core !! "DnsConfigPath" with
  | None => Ok (core, [])
  | Some current =>
      match dec_string current with
      | Err e => Err ("decode Cores[" +:+ Itoa (Z.of_nat ci) +:+ "].DnsConfigPath error: " +:+ e)
      | Ok path =>
          if decide (path ≠ "") then
            let target := Path_Join [outDir; "dns"; splitDnsFileName name core] in
            Ok (set_encoded "DnsConfigPath" (enc_string target) core, [MkdnsCopy path target])
          else Ok (core, [])
      end
  end.
Fixpoint copy_cores (outDir name : string) (cores : list (gmap string string)) (cis : list nat)
    : result (list (gmap string string) * list dnsCopy) :=
  match cis with
  | [] => Ok ([], [])
  | ci :: cis =>
      '(copied, c) ← copy_core outDir name ci (default ∅ (cores !! ci));
      '(perCores, cs) ← copy_cores outDir name cores cis;
      Ok (copied :: perCores, (c ++ cs)%list)
  end.

(** The configuration of node [i] under its unique name. *)
Definition build_node (doc : gmap string string) (count : Z) (cores : list (gmap string string))
    (outDir : string) (i : nat) (node : gmap string string) (name : string) : result splitFile :=
  '(perCores, copies) ← copy_cores outDir name cores (splitNodeCores node cores);
  let out := set_encoded "Instances" (enc_int count) ∅ in
  out ←
    match doc !! "Log" with
    | None => Ok out
    | Some logRaw => rewritten ← rewriteLogOutput logRaw outDir name; Ok (<["Log" := rewritten]> out)
    end;
  let out := set_encoded "Cores" (enc_maps perCores) out in
  let out := set_encoded "Nodes" (enc_maps [node]) out in
  match enc_indent out with
  | Err e => Err ("marshal node " +:+ Itoa (Z.of_nat i) +:+ " error: " +:+ e)
  | Ok content =>
      Ok (MksplitFile name (Path_Join [outDir; name +:+ ".json"]) (content +:+ of_bytes [byte 10]) copies)
  end.
Fixpoint build_nodes (doc : gmap string string) (count : Z) (cores : list (gmap string string))
    (outDir : string) (i : nat) (used : gmap string Z) (nodes : list (gmap string string))
    : result (list splitFile) :=
  match nodes with
  | [] => Ok []
  | node :: nodes =>
      let '(name, used) := uniqueSplitName used (splitNodeName node) in
      f ← build_node doc count cores outDir i node name;
      fs ← build_nodes doc count cores outDir (S i) used nodes;
      Ok (f :: fs)
  end.

(** [json.Unmarshal(doc[key], &v)] for the lists of the document. *)
Definition doc_list (doc : gmap string string) (key what : string) : result (list (gmap string string)) :=
  match doc !! key with
  | None => Ok []
  | Some raw => match dec_maps raw with Ok l => Ok l | Err e => Err ("decode " +:+ what +:+ " error: " +:+ e) end
  end.
Definition buildSplitConfigs (raw outDir : string) : result (list splitFile) :=
  match dec_map raw with
  | Err e => Err ("decode config error: " +:+ e)
  | Ok doc =>
      nodes ← doc_list doc "Nodes" "nodes";
      match nodes with
      | [] => Err "the config has no nodes"
      | _ =>
          cores ← doc_list doc "Cores" "cores";
          build_nodes doc (Z.of_nat (length nodes)) cores outDir 0 ∅ nodes
      end
  end.
End build.

(** * Writing the files *)

Definition default_dns : string :=
  let nl := of_bytes [byte 10] in let q := of_bytes [byte 34] in
  "{" +:+ nl +:+ "  " +:+ q +:+ "servers" +:+ q +:+ ": [" +:+ nl +:+
  "    " +:+ q +:+ "1.1.1.1" +:+ q +:+ "," +:+ nl +:+ "    " +:+ q +:+ "localhost" +:+ q +:+ nl +:+
  "  ]," +:+ nl +:+ "  " +:+ q +:+ "tag" +:+ q +:+ ": " +:+ q +:+ "dns_inbound" +:+ q +:+ nl +:+
  "}" +:+ nl.

Section run.
Context {J : SplitJSON} {E : OSErrors}.

Definition readSplitConfig (path : string) (d : disk) : result string :=
  match ReadFile path d with
  | None => Err ("open " +:+ path +:+ " error: no such file or directory")
  | Some (Err e) => Err ("open " +:+ path +:+ " error: " +:+ e)
  | Some (Ok body) => Ok (TrimNodeReader_ReadAll body)
  end.

Definition copySplitFile (source target : string) (force : bool) (d : disk) : option string * disk :=
  if negb force && exists_file target d then (None, d)
  else
    match ReadFile source d with
    | None => WriteFile target default_dns d
    | Some (Err e) => (Some e, d)
    | Some (Ok content) => WriteFile target content d
    end.

Definition source_path (configDir source : string) : string :=
  if IsAbs source then source else Path_Join [configDir; source].
Fixpoint copy_dns (configDir : string) (force : bool) (l : list dnsCopy) (d : disk) : option string * disk :=
  match l with
  | [] => (None, d)
  | c :: l =>
      match copySplitFile (source_path configDir (dc_Source c)) (dc_Target c) force d with
      | (Some e, d) => (Some ("copy DNS config error: " +:+ e), d)
      | (None, d) => copy_dns configDir force l d
      end
  end.
Fixpoint write_files (configDir : string) (force : bool) (files : list splitFile) (d : disk)
    : option string * disk :=
  match files with
  | [] => (None, d)
  | f :: files =>
      if negb force && exists_file (sf_Path f) d then (Some (sf_Path f +:+ " exists, use -f to overwrite"), d)
      else
        match copy_dns configDir force (sf_Dns f) d with
        | (Some e, d) => (Some e, d)
        | (None, d) =>
            match WriteFile (sf_Path f) (sf_Content f) d with
            | (Some e, d) => (Some ("write " +:+ sf_Path f +:+ " error: " +:+ e), d)
            | (None, d) => write_files configDir force files d
            end
        end
  end.
Fixpoint mkdirs (l : list string) : option string :=
  match l with
  | [] => None
  | p :: l => match mkdir_err p with Some e => Some ("create " +:+ p +:+ " error: " +:+ e) | None => mkdirs l end
  end.
Definition runSplit (configPath outDir : string) (force : bool) (d : disk) : result (list splitFile) * disk :=
  match readSplitConfig configPath d with
  | Err e => (Err e, d)
  | Ok raw =>
      match buildSplitConfigs raw outDir with
      | Err e => (Err ("split " +:+ configPath +:+ " error: " +:+ e), d)
      | Ok files =>
          match mkdirs [outDir; Path_Join [outDir; "log"]; Path_Join [outDir; "dns"]] with
          | Some e => (Err e, d)
          | None =>
              match write_files (Dir configPath) force files d with
              | (Some e, d) => (Err e, d)
              | (None, d) => (Ok files, d)
              end
          end
      end
  end.
End run.

(** * The names of the files *)

Lemma sanitize_runes_chars skip l : Forall name_char (sanitize_runes skip l).
Proof.
  revert skip. induction l as [|c l IH]; intros [|skip]; simpl; [done..|apply Forall_cons|done].
  split; [|done]. case_decide; [done|]. by apply (bool_decide_unpack _).
Qed.
Lemma sanitize_chars name : Forall name_char (to_bytes (sanitizeSplitName name)).
Proof.
  unfold sanitizeSplitName. cbv zeta. destruct (decide _); [by apply (bool_decide_unpack _)|].
  apply Trim_Forall. rewrite to_of_bytes. apply sanitize_runes_chars.
Qed.
Lemma sanitize_nonempty name : sanitizeSplitName name ≠ "".
Proof. unfold sanitizeSplitName. cbv zeta. by destruct (decide _). Qed.
Lemma splitNodeName_chars `{SplitJSON} node : Forall name_char (to_bytes (splitNodeName node)).
Proof. unfold splitNodeName. destruct (decide _); apply sanitize_chars. Qed.

(** The names of a list of nodes. *)
Fixpoint unique_names (used : gmap string Z) (names : list string) : list string :=
  match names with
  | [] => []
  | name :: names => let '(n, used) := uniqueSplitName used name in n :: unique_names used names
  end.

Lemma digit_name_char c : is_digit c → name_char c.
Proof. unfold is_digit, name_char. tauto. Qed.
Lemma unique_chars (used : gmap string Z) name :
  (∀ n, 0 ≤ default 0 (used !! n)) →
  Forall name_char (to_bytes name) → Forall name_char (to_bytes (uniqueSplitName used name).1).
Proof.
  intros Hu Hn. unfold uniqueSplitName. cbn [fst]. case_bool_decide; [|done].
  rewrite !to_bytes_app, !Forall_app. split; [done|]. split; [by apply (bool_decide_unpack _)|].
  eapply Forall_impl; [apply Itoa_digits; lia|]. apply digit_name_char.
Qed.

(** A name with its number gives both back. *)
Definition numbered (name : string) (n : Z) : string := name +:+ "-" +:+ Itoa n.
Lemma numbered_inj a b n m : 0 ≤ n → 0 ≤ m → numbered a n = numbered b m → a = b ∧ n = m.
Proof.
  unfold numbered. intros Hn Hm H. apply (f_equal to_bytes) in H. rewrite !to_bytes_app in H.
  assert (∀ z, 0 ≤ z → "-"%char ∉ to_bytes (Itoa z)) as Hd.
  { intros z Hz Hin. pose proof (Itoa_digits z Hz) as Hf. rewrite Forall_forall in Hf.
    apply Hf, is_digit_no in Hin. by apply Hin, (bool_decide_unpack _). }
  apply (cut_last "-"%char) in H as [Ha%(inj to_bytes) Hb%(inj to_bytes)]; [|by apply Hd..].
  by apply (inj Itoa) in Hb.
Qed.

(** The name the [n]th node called [name] gets. *)
Definition given (name : string) (n : Z) : string := if bool_decide (n > 1) then numbered name n else name.
Lemma unique_names_given (used : gmap string Z) names x :
  (∀ n, 0 ≤ default 0 (used !! n)) → x ∈ unique_names used names →
  ∃ name n, name ∈ names ∧ x = given name n ∧ n > default 0 (used !! name) ∧ 1 ≤ n.
Proof.
  revert used. induction names as [|name names IH]; intros used Hu; [by intros ?%elem_of_nil|].
  cbn [unique_names]. unfold uniqueSplitName. cbv zeta. set (n := default 0 (used !! name) + 1).
  pose proof (Hu name) as Hname.
  intros [->|Hx]%elem_of_cons.
  - exists name, n. split; [set_solver|]. split; [done|]. lia.
  - apply IH in Hx as (name' & m & Hin & -> & Hm & Hm1).
    + exists name', m. split; [set_solver|]. split; [done|]. split; [|done].
      destruct (decide (name = name')) as [<-|Hne]; [|by rewrite lookup_insert_ne in Hm].
      rewrite lookup_insert_eq in Hm. simpl in Hm. lia.
    + intros k. destruct (decide (name = k)) as [<-|Hne]; [rewrite lookup_insert_eq; simpl; lia|].
      by rewrite lookup_insert_ne.
Qed.
Lemma unique_names_NoDup (used : gmap string Z) names :
  (∀ n, 0 ≤ default 0 (used !! n)) →
  (∀ a b n, a ∈ names → b ∈ names → n > 1 → a ≠ numbered b n) →
  NoDup (unique_names used names).
Proof.
  revert used. induction names as [|name names IH]; intros used Hu Hn; [apply NoDup_nil_2|].
  cbn [unique_names]. unfold uniqueSplitName. cbv zeta. set (n := default 0 (used !! name) + 1).
  assert (∀ k, 0 ≤ default 0 (<[name := n]> used !! k)) as Hu'.
  { intros k. pose proof (Hu name).
    destruct (decide (name = k)) as [<-|Hne]; [rewrite lookup_insert_eq; simpl; lia|].
    by rewrite lookup_insert_ne. }
  apply NoDup_cons. split; [|apply IH; [done|]; intros a b k Ha Hb; apply Hn; set_solver].
  intros Hx. apply unique_names_given in Hx as (name' & m & Hin & E & Hm & Hm1); [|done].
  assert (name' ∈ name :: names) as Hin' by set_solver. assert (name ∈ name :: names) as Hin0 by set_solver.
  pose proof (Hu name). change (given name n = given name' m) in E. unfold given in E.
  do 2 case_bool_decide.
  - apply numbered_inj in E as [<- <-]; [|lia..]. rewrite lookup_insert_eq in Hm. simpl in Hm. lia.
  - by apply (Hn name' name n).
  - by apply (Hn name name' m).
  - subst name'. rewrite lookup_insert_eq in Hm. simpl in Hm. lia.
Qed.

Lemma unique_names_length used names : length (unique_names used names) = length names.
Proof. revert used. induction names as [|n l IH]; intros used; [done|]. cbn. by rewrite IH. Qed.

(** * The files of a configuration *)

Section files.
Context {J : SplitJSON}.

Lemma name_char_plain s ext : Forall name_char (to_bytes s) → Forall name_char (to_bytes ext) →
  (2 < length (to_bytes ext))%nat → plain_element (s +:+ ext).
Proof.
  intros Hs He Hl. pose proof (to_bytes_app s ext) as Hb.
  assert (2 < length (to_bytes (s +:+ ext)))%nat as Hlen by (rewrite Hb, length_app; lia).
  split_and!; try (intros E; rewrite E in Hlen; simpl in Hlen; lia).
  rewrite Hb. intros [Hin|Hin]%elem_of_app;
    [rewrite Forall_forall in Hs; apply Hs in Hin|rewrite Forall_forall in He; apply He in Hin];
    by apply (bool_decide_pack _) in Hin.
Qed.

Lemma dns_name_plain name core : Forall name_char (to_bytes name) →
  plain_element (splitDnsFileName name core).
Proof.
  intros Hn. unfold splitDnsFileName. cbv zeta.
  apply name_char_plain; [|by apply (bool_decide_unpack _)|simpl; lia].
  destruct (decide _); rewrite !to_bytes_app, !Forall_app; split_and!;
    first [done|apply sanitize_chars|by apply (bool_decide_unpack _)].
Qed.

(** Where the files of a node lie, below the directory [es]. *)
Definition file_ok (es : list string) (f : splitFile) : Prop :=
  plain_element (sf_Name f +:+ ".json") ∧
  sf_Path f = abs_path (es ++ [sf_Name f +:+ ".json"])%list ∧
  Forall (λ c, ∃ x, plain_element x ∧ dc_Target c = abs_path (es ++ ["dns"; x])%list) (sf_Dns f).

Lemma dns_plain : plain_element "dns".
Proof. by apply (bool_decide_unpack _). Qed.

Lemma copy_cores_targets es name cores cis r :
  Forall plain_element es → Forall name_char (to_bytes name) →
  copy_cores (abs_path es) name cores cis = Ok r →
  Forall (λ c, ∃ x, plain_element x ∧ dc_Target c = abs_path (es ++ ["dns"; x])%list) r.2.
Proof.
  intros Hes Hn. revert r. induction cis as [|ci cis IH]; intros r H; cbn [copy_cores] in H.
  { injection H as <-. constructor. }
  apply result_bind_Ok in H as ([copied c] & Ec & H). apply result_bind_Ok in H as ([perCores cs] & E' & H).
  injection H as <-. simpl.
  apply Forall_app. split; [|exact (IH _ E')].
  unfold copy_core in Ec. destruct (_ !! "DnsConfigPath"); [|by injection Ec as _ <-].
  destruct (dec_string _) as [path|]; [|done]. destruct (decide _); injection Ec as _ <-; [|constructor].
  repeat constructor. eexists. cbn [dc_Target].
  assert (plain_element (splitDnsFileName name (default ∅ (cores !! ci)))) as Hp by by apply dns_name_plain.
  split; [exact Hp|]. apply (Path_Join_abs es ["dns"; _]); [done|].
  apply Forall_cons; split; [apply dns_plain|]. by apply Forall_singleton.
Qed.

Lemma build_node_ok doc count cores es i node name f :
  Forall plain_element es → Forall name_char (to_bytes name) →
  build_node doc count cores (abs_path es) i node name = Ok f → sf_Name f = name ∧ file_ok es f.
Proof.
  intros Hes Hn H. unfold build_node in H. apply result_bind_Ok in H as ([perCores copies] & E & H).
  apply result_bind_Ok in H as (out & _ & H). cbv zeta in H. destruct (enc_indent _); [|done]. injection H as <-. split; [done|]. split; cbn [sf_Name sf_Path sf_Dns].
  - apply name_char_plain; [done|by apply (bool_decide_unpack _)|simpl; lia].
  - split; [|exact (copy_cores_targets _ _ _ _ _ Hes Hn E)].
    apply (Path_Join_abs es [_]); [done|]. apply Forall_singleton, name_char_plain;
      first [done|by apply (bool_decide_unpack _)|simpl; lia].
Qed.

Lemma build_nodes_ok doc count cores es i used nodes files :
  Forall plain_element es → (∀ n, 0 ≤ default 0 (used !! n)) →
  build_nodes doc count cores (abs_path es) i used nodes = Ok files →
  map sf_Name files = unique_names used (map splitNodeName nodes) ∧ Forall (file_ok es) files.
Proof.
  intros Hes. revert i used files. induction nodes as [|node nodes IH]; intros i used files Hu H.
  { cbn in H. injection H as <-. by split. }
  cbn [build_nodes map unique_names] in *.
  pose proof (unique_chars used (splitNodeName node) Hu (splitNodeName_chars node)) as Hc.
  assert (∀ n, 0 ≤ default 0 ((uniqueSplitName used (splitNodeName node)).2 !! n)) as Hu'.
  { intros n. pose proof (Hu (splitNodeName node)). unfold uniqueSplitName. simpl.
    destruct (decide (splitNodeName node = n)) as [<-|Hne]; [rewrite lookup_insert_eq; simpl; lia|].
    by rewrite lookup_insert_ne. }
  destruct (uniqueSplitName used (splitNodeName node)) as [name used'] eqn:Eu.
  apply result_bind_Ok in H as (f & E & H). apply result_bind_Ok in H as (fs & E0 & H). injection H as <-.
  apply build_node_ok in E as [En Ef]; [|done..]. destruct (IH _ _ _ Hu' E0) as [IH1 IH2].
  simpl. rewrite En, IH1. split; [done|by constructor].
Qed.

Lemma buildSplitConfigs_ok raw es files : Forall plain_element es →
  buildSplitConfigs raw (abs_path es) = Ok files →
  ∃ doc nodes, dec_map raw = Ok doc ∧ doc_list doc "Nodes" "nodes" = Ok nodes ∧ nodes ≠ [] ∧
    map sf_Name files = unique_names ∅ (map splitNodeName nodes) ∧ Forall (file_ok es) files.
Proof.
  intros Hes H. unfold buildSplitConfigs in H. destruct (dec_map raw) as [doc|] eqn:Ed; [|done].
  apply result_bind_Ok in H as ([|n l] & El & H); [done|]. apply result_bind_Ok in H as (cs & _ & H).
  exists doc, (n :: l). split; [done|]. split; [done|]. split; [done|].
  eapply build_nodes_ok; [done|intros k; by rewrite lookup_empty|exact H].
Qed.
End files.

(** * The disk *)

Section on_disk.
Context {J : SplitJSON} {E : OSErrors}.

Lemma copySplitFile_wrote source p force d d' : copySplitFile source p force d = (None, d') →
  is_Some (d' !! p) ∧ wrote [p] d d' ∧ (force = false → is_Some (d !! p) → d' = d).
Proof.
  unfold copySplitFile. destruct (negb force && exists_file p d) eqn:Ef.
  - intros [= <-]. apply andb_true_iff in Ef as [_ Ef]. apply bool_decide_eq_true in Ef.
    split; [done|]. split; [|done]. eapply wrote_weaken, wrote_nil. set_solver.
  - assert (∀ c, WriteFile p c d = (None, d') → is_Some (d' !! p) ∧ wrote [p] d d' ∧
      (force = false → is_Some (d !! p) → d' = d)) as H.
    { intros c [Hp Hw]%WriteFile_wrote. split; [by eexists|]. split; [done|]. intros -> Hs.
      unfold exists_file in Ef. by rewrite bool_decide_eq_true_2 in Ef. }
    destruct (ReadFile source d) as [[content|e]|]; [apply H|done|apply H].
Qed.
Lemma copy_dns_wrote dir force l d d' : copy_dns dir force l d = (None, d') →
  Forall (λ c, is_Some (d' !! dc_Target c)) l ∧ wrote (map dc_Target l) d d'.
Proof.
  revert d. induction l as [|c l IH]; intros d H; cbn [copy_dns] in H; [injection H as <-; split; [done|apply wrote_nil]|].
  destruct (copySplitFile _ (dc_Target c) force d) as [[e|] d1] eqn:Ec; [done|].
  apply copySplitFile_wrote in Ec as (H1 & H2 & _). destruct (IH _ H) as [H3 H4]. split.
  - constructor; [by apply H4|done].
  - exact (wrote_app _ _ _ _ _ H2 H4).
Qed.

(** The paths the command writes for a file. *)
Definition targets (f : splitFile) : list string := sf_Path f :: map dc_Target (sf_Dns f).
Lemma write_files_wrote dir force files d d' : write_files dir force files d = (None, d') →
  wrote (concat (map targets files)) d d' ∧
  (force = false → NoDup (map sf_Path files) ∧ Forall (λ f, d !! sf_Path f = None) files) ∧
  Forall (λ f, Forall (λ c, is_Some (d' !! dc_Target c)) (sf_Dns f)) files.
Proof.
  revert d. induction files as [|f files IH]; intros d H; cbn [write_files] in H.
  { injection H as <-. split; [apply wrote_nil|]. by split; [intros; split; [apply NoDup_nil_2|]|]. }
  destruct (negb force && exists_file (sf_Path f) d) eqn:Ef; [done|].
  destruct (copy_dns dir force (sf_Dns f) d) as [[e|] d1] eqn:Ec; [done|].
  destruct (WriteFile (sf_Path f) (sf_Content f) d1) as [[e|] d2] eqn:Ew; [done|].
  apply copy_dns_wrote in Ec as [Hc1 Hc2]. apply WriteFile_wrote in Ew as [Hw1 Hw2].
  destruct (IH _ H) as (IH1 & IH2 & IH3).
  assert (wrote (targets f) d d2) as Hf.
  { eapply wrote_weaken; [|exact (wrote_app _ _ _ _ _ Hc2 Hw2)]. unfold targets.
    intros p [Hp|Hp]%elem_of_app; apply elem_of_cons; [by right|left; by apply list_elem_of_singleton]. }
  split; [|split].
  - exact (wrote_app _ _ _ _ _ Hf IH1).
  - intros ->. destruct (IH2 eq_refl) as [Hnd Hall]. simpl. rewrite NoDup_cons, Forall_cons.
    rewrite Forall_forall in Hall. split_and!; [|done| |].
    + intros (g & Hg & Hin)%list_elem_of_fmap. apply Hall in Hin. congruence.
    + destruct (d !! sf_Path f) eqn:Ed; [|done]. unfold exists_file in Ef.
      rewrite bool_decide_eq_true_2 in Ef by (by eexists). done.
    + apply Forall_forall. intros g Hg. destruct (d !! sf_Path g) eqn:Ed; [|done].
      destruct (proj2 Hf (sf_Path g)) as [x Hx]; [by eexists|]. rewrite Hall in Hx; done.
  - constructor; [|done]. eapply Forall_impl; [exact Hc1|]. intros c Hs. by apply IH1, Hw2.
Qed.

(** The last file written under a path is the one that stays. *)
Lemma write_files_content dir force files d d' :
  write_files dir force files d = (None, d') → NoDup (map sf_Path files) →
  (∀ f g, f ∈ files → g ∈ files → sf_Path f ∉ map dc_Target (sf_Dns g)) →
  Forall (λ f, d' !! sf_Path f = Some (sf_Content f)) files.
Proof.
  revert d. induction files as [|f files IH]; intros d H Hnd Hsep; [done|]. cbn [write_files] in H.
  destruct (negb force && exists_file (sf_Path f) d); [done|].
  destruct (copy_dns dir force (sf_Dns f) d) as [[e|] d1]; [done|].
  destruct (WriteFile (sf_Path f) (sf_Content f) d1) as [[e|] d2] eqn:Ew; [done|].
  apply WriteFile_wrote in Ew as [Hw _]. apply NoDup_cons in Hnd as [Hn Hnd].
  constructor; [|eapply IH; [done|done|]; intros g h Hg Hh; apply Hsep; set_solver].
  apply write_files_wrote in H as [[Hfr _] _]. rewrite Hfr; [done|].
  intros (l & Hl & Hin)%list_elem_of_In%in_concat. apply list_elem_of_In in Hl, Hin.
  apply list_elem_of_fmap in Hl as (g & -> & Hg). unfold targets in Hin.
  apply elem_of_cons in Hin as [Hp|Hin]; [|by eapply Hsep; [| |exact Hin]; set_solver].
  apply Hn. rewrite Hp. apply list_elem_of_fmap. by exists g.
Qed.

Lemma file_ok_sep es f g : Forall plain_element es → file_ok es f → file_ok es g →
  sf_Path f ∉ map dc_Target (sf_Dns g).
Proof.
  intros Hes (Hf & -> & _) (_ & _ & Hg) (c & Hc & Hin)%list_elem_of_fmap.
  rewrite Forall_forall in Hg. destruct (Hg c Hin) as (x & Hx & E2). rewrite E2 in Hc.
  apply abs_path_inj in Hc.
  - apply (f_equal length) in Hc. rewrite !length_app in Hc. simpl in Hc. lia.
  - apply Forall_app. split; [done|]. by apply Forall_singleton.
  - apply Forall_app. split; [done|]. apply Forall_cons. split; [apply dns_plain|]. by apply Forall_singleton.
Qed.
Lemma file_ok_path es f g : Forall plain_element es → file_ok es f → file_ok es g →
  sf_Path f = sf_Path g ↔ sf_Name f = sf_Name g.
Proof.
  intros Hes (Hf & -> & _) (Hg & -> & _). split; [|by intros ->]. intros H.
  apply abs_path_inj in H; [|apply Forall_app; split; [done|by apply Forall_singleton]..].
  apply app_inv_head in H. injection H as H. apply (f_equal to_bytes) in H.
  rewrite !to_bytes_app in H. apply app_inv_tail in H. by apply (inj to_bytes).
Qed.
Lemma NoDup_paths es files : Forall plain_element es → Forall (file_ok es) files →
  NoDup (map sf_Path files) ↔ NoDup (map sf_Name files).
Proof.
  intros Hes. induction 1 as [|f files Hf Hfs IH]; [by split; intros; apply NoDup_nil_2|].
  simpl. rewrite !NoDup_cons, IH, !list_elem_of_fmap. rewrite Forall_forall in Hfs.
  split; intros [Hn ?]; (split; [|done]); intros (g & Hp & Hg); apply Hn; exists g; (split; [|done]);
    by apply (file_ok_path es f g Hes Hf (Hfs g Hg)).
Qed.
End on_disk.

(** The names of the generated files.  Each file has the name its node gets, made of the
    characters an instance name can carry whatever the configuration says.  The names are
    distinct unless a node has the name another one gets by its number: nodes "a", "a",
    "a-2" give two files of one name. *)
Theorem split_names (J : SplitJSON) (raw : string) (es : list string) (doc : gmap string string)
    (nodes : list (gmap string string)) (files : list splitFile) :
  Forall plain_element es → dec_map raw = Ok doc → doc_list doc "Nodes" "nodes" = Ok nodes →
  buildSplitConfigs raw (abs_path es) = Ok files →
  let names := map splitNodeName nodes in
  map sf_Name files = unique_names ∅ names ∧
  Forall (λ n, n ≠ "" ∧ Forall name_char (to_bytes n)) (map sf_Name files) ∧
  ((∀ a b n, a ∈ names → b ∈ names → n > 1 → a ≠ numbered b n) → NoDup (map sf_Name files)) ∧
  (names = ["a"; "a"; "a-2"] → map sf_Name files = ["a"; "a-2"; "a-2"]).
Proof.
  intros Hes Hdoc Hnodes H. cbv zeta.
  apply buildSplitConfigs_ok in H as (doc' & nodes' & Hd & Hn & _ & -> & _); [|done].
  assert (doc' = doc) as -> by congruence. assert (nodes' = nodes) as -> by congruence.
  assert (∀ n, 0 ≤ default 0 ((∅ : gmap string Z) !! n)) as He by (intros k; by rewrite lookup_empty).
  split; [done|]. split; [|split; [by apply unique_names_NoDup|by intros ->]].
  apply Forall_forall. intros x Hx. apply unique_names_given in Hx as (name & n & Hin & -> & _ & Hn1); [|done].
  apply list_elem_of_fmap in Hin as (node & -> & _). unfold given, numbered.
  assert (Forall name_char (to_bytes (splitNodeName node))) as Hc by apply splitNodeName_chars.
  assert (splitNodeName node ≠ "") as Hne by (unfold splitNodeName; destruct (decide _); apply sanitize_nonempty).
  case_bool_decide; [|done]. split; [by destruct (splitNodeName node)|].
  rewrite !to_bytes_app, !Forall_app. split; [done|]. split; [by apply (bool_decide_unpack _)|].
  eapply Forall_impl; [apply Itoa_digits; lia|]. apply digit_name_char.
Qed.

(** What a split that succeeds leaves on the disk.  Files other than the generated ones are as
    they were, the source configuration among them; every DNS file a generated configuration
    points to exists.  Without -f nothing that existed is overwritten and each node has
    its configuration under its own path; with -f this holds when the names are distinct
    (with two nodes of one name only the last one's configuration remains). *)
Theorem split_writes (J : SplitJSON) (E : OSErrors) (configPath : string) (es : list string) (force : bool)
    (files : list splitFile) (d d' : disk) :
  Forall plain_element es →
  runSplit configPath (abs_path es) force d = (Ok files, d') →
  files ≠ [] ∧
  (∀ p, p ∉ concat (map targets files) → d' !! p = d !! p) ∧
  Forall (λ f, Forall (λ c, is_Some (d' !! dc_Target c)) (sf_Dns f)) files ∧
  (force = false → NoDup (map sf_Name files) ∧ Forall (λ f, d !! sf_Path f = None) files) ∧
  (NoDup (map sf_Name files) → Forall (λ f, d' !! sf_Path f = Some (sf_Content f)) files).
Proof.
  intros Hes H. unfold runSplit in H.
  destruct (readSplitConfig configPath d) as [raw|]; [|done].
  destruct (buildSplitConfigs raw (abs_path es)) as [files'|] eqn:Eb; [|done].
  destruct (mkdirs _); [done|].
  destruct (write_files (Dir configPath) force files' d) as [[e|] d1] eqn:Ew; [done|].
  injection H as -> ->. apply buildSplitConfigs_ok in Eb as (doc & nodes & _ & _ & Hne & Hnames & Hok); [|done].
  pose proof (write_files_wrote _ _ _ _ _ Ew) as ([Hfr _] & Hforce & Hdns).
  pose proof (NoDup_paths es files Hes Hok) as Hnd. split_and!; [|done|done| |].
  - intros ->. symmetry in Hnames. apply (f_equal length) in Hnames.
    rewrite unique_names_length, length_map in Hnames. by destruct nodes.
  - intros Hf. destruct (Hforce Hf) as [H1 H2]. split; [by apply Hnd|done].
  - intros Hn. eapply write_files_content; [exact Ew|by apply Hnd|].
    rewrite Forall_forall in Hok. intros f g Hf Hg. eapply file_ok_sep; [exact Hes|by apply Hok..].
Qed.

(** * The cores of a node *)

Section same_core.
Context {J : SplitJSON} {C : Type} (cores : gmap string (registration C)).
#[local] Open Scope list_scope.

(** The decoder of the server reads of a core what the command reads. *)
Definition core_decoded (raw : gmap string string) (c : CoreConfig) : Prop :=
  field_string raw "Name" = co_Name c ∧ field_string raw "Type" = co_Type c.

Lemma pick_cores_filter coreName coreType (Q : CoreConfig → bool) raws cs pre :
  Forall2 (λ r c, core_picked coreName coreType r = Q c) raws cs →
  omap (λ i, (pre ++ cs) !! i) (pick_cores coreName coreType (length pre) raws) = filter Q cs.
Proof.
  intros H. revert pre. induction H as [|r c raws cs Hr _ IH]; intros pre; [done|].
  cbn [pick_cores]. specialize (IH (pre ++ [c])). rewrite length_app in IH. simpl in IH.
  replace (length pre + 1)%nat with (S (length pre)) in IH by lia. rewrite <-(assoc_L (++)) in IH. simpl in IH.
  rewrite Hr. destruct (Q c) eqn:EQ.
  - cbn [omap list_omap]. rewrite list_lookup_middle by done. rewrite filter_cons_True by (by rewrite EQ).
    f_equal. exact IH.
  - rewrite filter_cons_False by (rewrite EQ; by intros []). exact IH.
Qed.

Lemma pick_cores_none coreName coreType (Q : CoreConfig → bool) raws cs i :
  Forall2 (λ r c, core_picked coreName coreType r = Q c) raws cs → filter Q cs = [] →
  pick_cores coreName coreType i raws = [].
Proof.
  intros H. revert i. induction H as [|r c raws cs Hr _ IH]; intros i; [done|]. cbn [pick_cores].
  rewrite Hr. destruct (Q c) eqn:EQ; [by rewrite filter_cons_True by (by rewrite EQ)|].
  rewrite filter_cons_False by (rewrite EQ; by intros []). apply IH.
Qed.

(** The entries of the configurations that a test of the entries keeps. *)
Lemma new_entries_filter (Q : CoreConfig → bool) (Q' : coreEntry → bool) cs es :
  (∀ c e, new_entry cores c = Ok e → Q c = Q' e) →
  new_entries cores cs = Ok es → new_entries cores (filter Q cs) = Ok (filter Q' es).
Proof.
  intros HQ. revert es. induction cs as [|c cs IH]; intros es; cbn [new_entries]; [by intros [= <-]|].
  intros (e & He & H)%result_bind_Ok. apply result_bind_Ok in H as (es' & Hes & H). injection H as <-.
  destruct (Q c) eqn:EQ.
  - rewrite filter_cons_True by (by rewrite EQ). rewrite filter_cons_True by (by rewrite <-(HQ _ _ He), EQ).
    cbn [new_entries]. rewrite He. cbn. by rewrite (IH es').
  - rewrite filter_cons_False by (rewrite EQ; by intros []). rewrite filter_cons_False by (rewrite <-(HQ _ _ He), EQ; by intros []).
    by apply IH.
Qed.

Lemma new_entries_fresh cs es : new_entries cores cs = Ok es → Forall (λ e, ce_core e = None) es.
Proof.
  revert es. induction cs as [|c cs IH]; intros es; cbn [new_entries]; [by intros [= <-]|].
  intros (e & He & H)%result_bind_Ok. apply result_bind_Ok in H as (es' & Hes & H). injection H as <-.
  constructor; [|by apply IH]. unfold new_entry in He. destruct (cores !! _); [|done]. by injection He as <-.
Qed.

(** Before any core runs, the loop finds the first candidate. *)
Lemma pick_loop_fresh info o es i first : Forall (λ e, ce_core e = None) es →
  pick_loop cores info o i es first =
  match first with Some _ => first | None => (λ r, (r.1 + i)%nat) <$> list_find (λ e, candidate cores info o e = true) es end.
Proof.
  intros Hes. revert i first. induction Hes as [|e es He _ IH]; intros i first; [by destruct first|].
  cbn [pick_loop list_find]. destruct (candidate cores info o e) eqn:Ec; rewrite ?He, IH.
  - by destruct first.
  - destruct first; [done|]. rewrite decide_False by done.
    destruct (list_find _ es) as [[j e']|]; simpl; [f_equal; lia|done].
Qed.

(** The entry [pickLocked] chooses. *)
Definition picked_entry (info : NodeInfo) (o : Options) (s : Selector C) : option coreEntry :=
  pickLocked cores info o s ≫= λ i, entries s !! i.
Definition wants (info : NodeInfo) (o : Options) (e : coreEntry) : bool :=
  if decide (op_CoreName o = "") then candidate cores info o e else bool_decide (ce_key e = op_CoreName o).
Lemma picked_entry_fresh info o (s : Selector C) : Forall (λ e, ce_core e = None) (entries s) →
  picked_entry info o s = snd <$> list_find (λ e, wants info o e = true) (entries s).
Proof.
  intros Hs. unfold picked_entry, pickLocked.
  assert (∀ P `{∀ e, Decision (P e)}, (∀ e, P e ↔ wants info o e = true) →
    (fst <$> list_find P (entries s)) ≫= (λ i, entries s !! i) =
    snd <$> list_find (λ e, wants info o e = true) (entries s)) as H.
  { intros P HP Hiff. rewrite <-(list_find_ext P _ _ Hiff).
    destruct (list_find P (entries s)) as [[i e]|] eqn:E; [|done]. cbn.
    by apply list_find_Some in E as (-> & _). }
  unfold wants in *. destruct (decide (op_CoreName o = "")) as [Hn|Hn].
  - rewrite pick_loop_fresh by done. rewrite <-(H (λ e, candidate cores info o e = true) _) by done.
    f_equal. destruct (list_find _ _) as [[i e]|]; [|done]. simpl. f_equal. lia.
  - apply H. intros e. by rewrite bool_decide_eq_true.
Qed.

Lemma list_find_filter {A} (P Q : A → bool) (l : list A) : (∀ x, P x = true → Q x = true) →
  snd <$> list_find (λ x, P x = true) (filter Q l) = snd <$> list_find (λ x, P x = true) l.
Proof.
  intros HPQ. induction l as [|x l IH]; [done|]. destruct (Q x) eqn:EQ.
  - rewrite filter_cons_True by (by rewrite EQ). cbn [list_find]. destruct (decide (P x = true)); [done|].
    revert IH. destruct (list_find _ (filter Q l)) as [[]|], (list_find _ l) as [[]|]; cbn; congruence.
  - rewrite filter_cons_False by (rewrite EQ; by intros []). rewrite IH. cbn [list_find].
    rewrite decide_False by (intros H%HPQ; congruence). by destruct (list_find _ l) as [[]|].
Qed.
End same_core.

(** The core types the options of a node can name. *)
Definition known_cores : list string := ["xray"; "sing"; "hysteria2"].

(** (C27) A node gets the same core in the process of its own as it would get, first, in the
    shared one: the cores that the generated configuration keeps make the selector choose
    the same entry, or none as before.  This supposes that the node's Core is spelled as
    the server requires; "XRAY" counts as absent there, while the command keeps the xray
    cores only. *)
Theorem split_same_core (J : SplitJSON) (C : Type) (cores : gmap string (registration C))
    (node : gmap string string) (raws : list (gmap string string)) (cs : list CoreConfig)
    (info : NodeInfo) (o : Options) (s : Selector C) :
  Forall2 core_decoded raws cs →
  node !! "Include" = None →
  field_string (node_fields node) "CoreName" = op_CoreName o →
  field_string (node_fields node) "Core" = op_Core o → op_Core o ∈ "" :: known_cores →
  NewSelector cores cs = Ok s →
  ∃ s', NewSelector cores (omap (λ i, cs !! i) (splitNodeCores node raws)) = Ok s' ∧
    picked_entry cores info o s' = picked_entry cores info o s.
Proof.
  intros Hdec Hinc HCN HC Hknown Hs. unfold splitNodeCores. rewrite Hinc, HCN, HC.
  set (Q := λ c : CoreConfig, if decide (op_CoreName o ≠ "")
    then bool_decide ((if decide (co_Name c = "") then co_Type c else co_Name c) = op_CoreName o)
    else if decide (op_Core o ≠ "") then EqualFold (co_Type c) (op_Core o) else false).
  assert (Forall2 (λ r c, core_picked (op_CoreName o) (op_Core o) r = Q c) raws cs) as HQ.
  { eapply Forall2_impl; [exact Hdec|]. intros r c [H1 H2]. unfold core_picked, Q. by rewrite H1, H2. }
  pose proof (pick_cores_filter _ _ Q raws cs [] HQ) as Hp. simpl in Hp.
  assert (omap (λ i, cs !! i) (seq 0 (length raws)) = cs) as Hall.
  { rewrite (Forall2_length _ _ _ Hdec). clear. induction cs as [|c cs IH] using rev_ind; [done|].
    rewrite length_app. simpl. rewrite Nat.add_1_r, seq_S, omap_app. simpl.
    rewrite list_lookup_middle by done. f_equal. etrans; [|exact IH].
    assert (∀ n, (n ≤ length cs)%nat → omap (λ i, (cs ++ [c])%list !! i) (seq 0 n) =
      omap (λ i, cs !! i) (seq 0 n)) as H; [|by apply H].
    intros n. induction n as [|n IHn]; [done|]. intros Hn. rewrite seq_S, !omap_app, IHn by lia. simpl.
    by rewrite lookup_app_l by lia. }
  destruct (pick_cores _ _ 0 raws) as [|i l] eqn:Ep; [rewrite Hall; by exists s|].
  rewrite Hp. unfold NewSelector in *. destruct cs as [|c0 cs0]; [done|].
  apply result_bind_Ok in Hs as (es & Hes & Hs). injection Hs as <-.
  set (Q' := λ e, if decide (op_CoreName o ≠ "") then bool_decide (ce_key e = op_CoreName o)
    else if decide (op_Core o ≠ "") then bool_decide (ce_typ e = ToLower (op_Core o)) else false).
  assert (∀ c e, new_entry cores c = Ok e → Q c = Q' e) as Hqq.
  { intros c e He. unfold new_entry in He. destruct (cores !! _); [|done]. injection He as <-.
    unfold Q, Q'. cbn [ce_key ce_typ]. done. }
  pose proof (new_entries_filter cores Q Q' _ es Hqq Hes) as Hf.
  destruct (filter Q (c0 :: cs0)) as [|c1 cs1] eqn:Efl.
  { by rewrite (pick_cores_none _ _ Q _ _ 0 HQ Efl) in Ep. }
  rewrite Hf. eexists. split; [reflexivity|].
  rewrite !picked_entry_fresh; cbn [entries]; [|by eapply new_entries_fresh|].
  2: { eapply new_entries_fresh. exact Hf. }
  apply list_find_filter. intros e. unfold wants, Q', candidate.
  destruct (decide (op_CoreName o = "")) as [Hn|Hn]; [|by rewrite decide_True].
  rewrite (decide_False (P := op_CoreName o ≠ "")) by (by intros []).
  destruct (decide (op_Core o = "")) as [Hc|Hc].
  { exfalso. assert (∀ c, Q c = false) as HQf.
    { intros c. unfold Q. rewrite !decide_False; [done|by intros []..]. }
    assert (∀ l, filter Q l = []) as Hnil.
    { intros k. induction k as [|c k IHk]; [done|]. by rewrite filter_cons_False by (rewrite HQf; by intros []). }
    by rewrite Hnil in Efl. }
  rewrite decide_True by done. rewrite !bool_decide_eq_true. intros <-.
  clear -Hknown. set_unfold in Hknown. destruct_or!; by rewrite Hknown.
Qed.

(** ** Witnesses: raw texts that stand for what they decode to. *)
#[local] Instance toy_json : SplitJSON := {|
  dec_map raw := if decide (raw = "doc") then Ok {["Nodes" := "nodes"; "Cores" := "cores"]}
    else if decide (raw = "opts") then Ok {["Core" := "hysteria2"]} else Err "syntax";
  dec_maps raw := if decide (raw = "nodes") then Ok [{["Name" := "a"; "Options" := "opts"]}; {["Name" := "a"]}; {["Name" := "a-2"]}]
    else Ok [{["Type" := "xray"]}; {["Type" := "hysteria2"; "Name" := "h"; "DnsConfigPath" := "dns.json"]}];
  dec_string := Ok;
  dec_int _ := Ok 0;
  enc_string := Ok;
  enc_int n := Ok (Itoa n);
  enc_map _ := Ok "{}";
  enc_maps l := Ok (Itoa (Z.of_nat (length l)));
  enc_indent m := Ok (default "" (m !! "Cores"))
|}.
#[local] Instance no_errors : OSErrors := {|
  open_err _ := None; mkdir_err _ := None; create_err _ := None; write_err _ := None
|}.
Definition toy_node : gmap string string := {["Name" := "a"; "Options" := "opts"]}.
Definition toy_cores : list (gmap string string) :=
  [{["Type" := "xray"]}; {["Type" := "hysteria2"; "Name" := "h"; "DnsConfigPath" := "dns.json"]}].
Definition toy_files (force : bool) (d : disk) : result (list splitFile) * disk :=
  runSplit "/etc/c.json" (abs_path ["n"]) force d.
Definition toy_disk : disk := {["/etc/c.json" := "doc"]}.
(** With -f the third node replaces the second. *)
Example split_collision :
  map sf_Path (match (toy_files true toy_disk).1 with Ok l => l | Err _ => [] end) =
    ["/n/a.json"; "/n/a-2.json"; "/n/a-2.json"] ∧
  (toy_files false toy_disk).1 = Err "/n/a-2.json exists, use -f to overwrite".
Proof. split; vm_compute; reflexivity. Qed.

Lemma toy_run : ∃ files d', toy_files true toy_disk = (Ok files, d').
Proof.
  assert (is_ok (toy_files true toy_disk).1 = true) as H by (vm_compute; reflexivity).
  destruct (toy_files true toy_disk) as [[files|e] d']; [by exists files, d'|done].
Qed.

Lemma split_names_witness :
  map sf_Name (match buildSplitConfigs "doc" (abs_path ["n"]) with Ok l => l | Err _ => [] end) =
    ["a"; "a-2"; "a-2"].
Proof.
  destruct (buildSplitConfigs "doc" (abs_path ["n"])) as [files|e] eqn:H; [|by vm_compute in H].
  apply (split_names toy_json "doc" ["n"] {["Nodes" := "nodes"; "Cores" := "cores"]}
    [toy_node; {["Name" := "a"]}; {["Name" := "a-2"]}] files); [|reflexivity|reflexivity|exact H|reflexivity].
  apply Forall_singleton. by apply (bool_decide_unpack _).
Defined.

Lemma split_writes_witness :
  match toy_files true toy_disk with (Ok files, d') => files ≠ [] ∧ Forall (λ f, Forall (λ c, is_Some (d' !! dc_Target c)) (sf_Dns f)) files | _ => False end.
Proof.
  destruct toy_run as (files & d' & H). rewrite H.
  destruct (split_writes toy_json no_errors "/etc/c.json" ["n"] true files toy_disk d') as (H1 & _ & H2 & _);
    [|exact H|exact (conj H1 H2)].
  apply Forall_singleton. by apply (bool_decide_unpack _).
Defined.

Definition toy_configs : list CoreConfig :=
  [MkCoreConfig "xray" "" None None None; MkCoreConfig "hysteria2" "h" None None None].
Definition toy_registered : gmap string (registration unit) :=
  RegisterCore "xray" (λ _, Ok tt) ["vless"] (RegisterCore "hysteria2" (λ _, Ok tt) ["hysteria2"] ∅).
Definition hy_option : Options := MkOptions "" "hysteria2" "" "" "" 0 LimitConfig_zero "" None None "" None.
Definition toy_selector : Selector unit :=
  match NewSelector toy_registered toy_configs with Ok s => s | Err _ => MkSelector [] ∅ ∅ end.
Example split_drops_xray : splitNodeCores toy_node toy_cores = [1%nat].
Proof. vm_compute. reflexivity. Qed.

Lemma split_same_core_witness :
  ∃ s', NewSelector toy_registered (omap (λ i, toy_configs !! i) (splitNodeCores toy_node toy_cores)) = Ok s' ∧
    picked_entry toy_registered hy_node hy_option s' = picked_entry toy_registered hy_node hy_option toy_selector.
Proof.
  apply (split_same_core toy_json unit toy_registered toy_node toy_cores toy_configs hy_node hy_option toy_selector).
  - repeat constructor; vm_compute; reflexivity.
  - vm_compute. reflexivity.
  - vm_compute. reflexivity.
  - vm_compute. reflexivity.
  - by apply (bool_decide_unpack _).
  - vm_compute. reflexivity.
Defined.
