(* ===== verification/Server.v ===== *)
(** cmd/server.go: starting the server, and restarting its nodes when the configuration
    has changed.

    The core is the selector of Selector.v.  The list of controllers (node/node.go, Controller.v)
    is an interface here: starting it and closing it. *)
From S2P Require Import Prelude GoStrings PanelTypes Conf LogHook Machine TrafficCounter CoreApi Hy2 Selector.
#[local] Open Scope string_scope.
#[local] Open Scope Z_scope.
#[local] Open Scope list_scope.

(** What a list of controllers on the core [S] offers. *)
Class Nodes (S N : Type) := {
  nodes_New : N;
  nodes_Start : list NodeConfig → N * S → option string * (N * S);
  nodes_Close : N * S → N * S
}.

Section server.
Context {C : Type} `{!CoreLife C} (cores : gmap string (registration C)).
Context {N : Type} `{!Nodes (Selector C) N}.

(** * Restarting *)

(** [vc] is nil after a core could not be made.  Controllers that run hold on to a core of
    their own, so the nodes are empty then: closing them does nothing ([sv_ok] below). *)
Record server := MkServer { sv_vc : option (Selector C); sv_nodes : N }.

Definition no_error (errs : list string) : bool := bool_decide (errs = []).
(** The function given to [Watch]; [None] is the panic of calling a method of the nil core. *)
Definition reload (c : Conf) (s : server) : option server :=
  match sv_vc s with
  | None => None
  | Some vc =>
      let '(n, vc) := nodes_Close (sv_nodes s, vc) in
      let '(errs, vc) := selector_Close vc in
      if negb (no_error errs) then Some (MkServer (Some vc) n)
      else
        match NewCore cores (cf_CoresConfig c) with
        | Err _ => Some (MkServer None n)
        | Ok vc =>
            match selector_Start cores vc with
            | (Some _, vc) => Some (MkServer (Some vc) n)
            | (None, vc) =>
                let '(_, (n, vc)) := nodes_Start (cf_NodeConfig c) (n, vc) in
                Some (MkServer (Some vc) n)
            end
        end
  end.

(** A read of the changed file and the restart after it: [load] is the decoder on a new
    configuration. *)
Definition restart (load : string → Conf → option string * Conf) (file : string) (s : server) : option server :=
  reload (load file Conf.New).2 s.
Fixpoint restarts (load : string → Conf → option string * Conf) (files : list string) (s : server) : option server :=
  match files with
  | [] => Some s
  | f :: files => s ← restart load f s; restarts load files s
  end.

(** * Starting *)

(** What happens on the way, in order. *)
Inductive boot_event :=
| LogLevel (level : Z)
| MemoryLimit (limit : Z)
| LockTaken
| LockReleased
| CoreStarted
| NodesStarted
| Watching
| Signal
| CoreClosed.

Definition startLockWait : Z := 30 * Second.

(** [locked]: what [startlock.Acquire] answers; the budget and GOMEMLIMIT are the
    machine's.  [watch_error]: what [Watch] answers.  The deferred calls run in reverse order. *)
Definition runServer (loaded : result Conf) (gomemlimit : string) (mem : Z) (locked : bool)
    (watch : bool) (watch_error : option string) : list boot_event * option string :=
  match loaded with
  | Err e => ([], Some ("load config file failed: " +:+ e)%string)
  | Ok c =>
      let limits := match applyMemoryLimit gomemlimit mem (cf_Instances c) with Some l => [MemoryLimit l] | None => [] end in
      let took := bool_decide (cf_Instances c > 1) && locked in
      let lock := if took then [LockTaken] else [] in
      let release := if took then [LockReleased] else [] in
      let before := LogLevel (setLogLevel (log_Level (cf_LogConfig c))).1 :: limits ++ lock in
      match NewCore cores (cf_CoresConfig c) with
      | Err e => (before ++ release, Some ("new core failed: " +:+ e)%string)
      | Ok vc =>
          match selector_Start cores vc with
          | (Some e, _) => (before ++ release, Some ("start core failed: " +:+ e)%string)
          | (None, vc) =>
              match nodes_Start (cf_NodeConfig c) (nodes_New, vc) with
              | (Some e, _) => (before ++ CoreStarted :: CoreClosed :: release, Some ("run nodes failed: " +:+ e)%string)
              | (None, _) =>
                  let running := before ++ CoreStarted :: NodesStarted :: release in
                  if watch then
                    match watch_error with
                    | Some e => (running ++ [CoreClosed], Some ("start watch failed: " +:+ e)%string)
                    | None => (running ++ [Watching; Signal; CoreClosed], None)
                    end
                  else (running ++ [Signal; CoreClosed], None)
              end
          end
      end
  end.

(** The exit code of the process: serverHandle. *)
Definition serverHandle (r : list boot_event * option string) : Z := match r.2 with Some _ => 1 | None => 0 end.

(** * Theorems *)

Definition is_taken (e : boot_event) : bool := match e with LockTaken => true | _ => false end.
Definition is_released (e : boot_event) : bool := match e with LockReleased => true | _ => false end.
Definition is_signal (e : boot_event) : bool := match e with Signal => true | _ => false end.
Fixpoint count (p : boot_event → bool) (l : list boot_event) : nat :=
  match l with [] => 0 | e :: l => (if p e then 1 else 0) + count p l end.

(** The lock that keeps the other instances from starting.  It is taken only when the machine
    has several instances; in every outcome, an error at any stage included, it is given back
    as often as it was taken, at most once; and when the server goes on to wait for the
    signal that ends it, everything to do with the lock is over.  The server ends without an
    error exactly when it got there. *)
Theorem start_lock_released (loaded : result Conf) (gomemlimit : string) (mem : Z) (locked watch : bool)
    (watch_error : option string) :
  let '(trace, err) := runServer loaded gomemlimit mem locked watch watch_error in
  count is_taken trace = count is_released trace ∧ (count is_taken trace ≤ 1)%nat ∧
  (count is_taken trace ≠ 0%nat → ∃ c, loaded = Ok c ∧ cf_Instances c > 1 ∧ locked = true) ∧
  (err = None ↔ count is_signal trace = 1%nat) ∧
  (err = None → ∃ before, trace = before ++ [Signal; CoreClosed] ∧ count is_taken before = count is_released before).
Proof.
  unfold runServer. destruct loaded as [c|e]; [|cbn; split_and!; first [done|lia]].
  set (limits := match applyMemoryLimit _ _ _ with Some l => [MemoryLimit l] | None => [] end).
  assert (limits = [] ∨ ∃ l, limits = [MemoryLimit l]) as Hl.
  { subst limits. destruct (applyMemoryLimit _ _ _) as [l|]; [right; by exists l|by left]. }
  assert (bool_decide (cf_Instances c > 1) && locked = true →
    ∃ c', Ok c = Ok c' ∧ cf_Instances c' > 1 ∧ locked = true) as Hc.
  { intros [Et ?]%andb_true_iff. apply bool_decide_eq_true in Et. by exists c. }
  destruct (bool_decide (cf_Instances c > 1) && locked);
    (destruct (NewCore _ _) as [vc|e]; [destruct (selector_Start cores vc) as [[e|] vc'];
      [|destruct (nodes_Start _ _) as [[e|] ns]; [|destruct watch; [destruct watch_error as [e|]|]]]|]);
    destruct Hl as [-> | [l ->]]; cbn; split_and!; try done; try lia; try (by split; [intros [=]|lia]);
    intros _; first [exact (Hc eq_refl)
      |match goal with |- ∃ b, ?t = _ ∧ _ => exists (take (length t - 2) t) end; split; reflexivity].
Qed.

(** The server after the cores were closed and the new configuration taken. *)
Definition renewed (c : Conf) (vc : Selector C) (n : N) : server :=
  match selector_Start cores vc with
  | (Some _, vc) => MkServer (Some vc) n
  | (None, vc) => MkServer (Some (nodes_Start (cf_NodeConfig c) (n, vc)).2.2) (nodes_Start (cf_NodeConfig c) (n, vc)).2.1
  end.

End server.

(** ** A server without nodes, whose decoder refuses one text. *)
#[local] Instance no_nodes : Nodes (Selector Hysteria2) unit := {|
  nodes_New := tt; nodes_Start _ s := (None, s); nodes_Close s := s
|}.
#[local] Instance hy_life : CoreLife Hysteria2 := {|
  core_Start h := (None, h); core_Close h := (None, h); core_Type _ := "hysteria2"
|}.
Definition toy_load (file : string) (c : Conf) : option string * Conf :=
  if decide (file = "broken") then (Some "syntax error", c)
  else (None, MkConf (cf_LogConfig c) [hy_config "a"] [] 0).
(** The corrected text alone restarts the server. *)
Example corrected_alone : is_Some (restarts hy_cores toy_load ["corrected"] (MkServer (Some two_cores) tt)).
Proof. vm_compute. by eexists. Qed.
