(* ===== verification/XrayFormats.v ===== *)
(** core/xray: the texts of a node configuration that are rewritten before xray sees them:
    the keys of vless encryption (vless_encryption.go), the settings of xhttp and the lists
    and names of inbound.go, ss.go and outbound.go. *)
From S2P Require Import Prelude GoStrings Base64 PanelTypes PanelNode.
#[local] Open Scope string_scope.
#[local] Open Scope Z_scope.

(** * vless_encryption.go *)

Definition vlessEncryptionPrefix : string := "mlkem768x25519plus.".
Definition vlessEncryptionInboundMode : string := "mlkem768x25519plus.native.600s.".
Definition vlessEncryptionOutboundMode : string := "mlkem768x25519plus.native.0rtt.".
Definition vlessEncryptionX25519KeySize : Z := 32.
Definition vlessEncryptionMlkemSeedSize : Z := 64.
Definition vlessEncryptionMlkemCipherKeySize : Z := 1184.

Definition isStructuredVlessEncryptionValue (value : string) : bool :=
  HasPrefix value vlessEncryptionPrefix.

(** [v == nil]. *)
Definition is_nil {A} (v : option A) : bool := match v with None => true | Some _ => false end.
Definition isRawBase64URLKey (value : string) (expectedLens : list Z) : bool :=
  match RawURLEncoding_DecodeString value with
  | None => false
  | Some decoded => bool_decide (Z.of_nat (length decoded) ∈ expectedLens)
  end.
Definition resolveVlessInboundDecryption (v : option VAllssNode) : string :=
  if is_nil v || negb (HasVlessInboundDecryption v) then "none"
  else
    let decryption := NormalizedDecryption v in
    if decide (decryption = "") then "none"
    else if isStructuredVlessEncryptionValue decryption then decryption
    else if isRawBase64URLKey decryption [vlessEncryptionX25519KeySize; vlessEncryptionMlkemSeedSize]
    then vlessEncryptionInboundMode +:+ decryption
    else decryption.
Definition resolveVlessOutboundEncryption (v : option VAllssNode) : string :=
  if is_nil v || negb (HasVlessOutboundEncryption v) then ""
  else
    let encryption := NormalizedEncryption v in
    if decide (encryption = "") then ""
    else if isStructuredVlessEncryptionValue encryption then encryption
    else if isRawBase64URLKey encryption [vlessEncryptionX25519KeySize; vlessEncryptionMlkemCipherKeySize]
    then vlessEncryptionOutboundMode +:+ encryption
    else encryption.

(** * Small helpers of inbound.go, ss.go and outbound.go *)

Definition splitAndFilter (input : string) : list string :=
  if decide (input = "") then []
  else
    filter (λ p, p ≠ "")
      (map TrimSpace (FieldsFunc input (λ c, bool_decide (c ∈ [","; ";"; " "; "009"]%char)))).

Definition ss2022KeyLength (cipher : string) : nat :=
  if decide (cipher = "2022-blake3-aes-128-gcm") then 16 else 32.

Inductive CipherType := AES_128_GCM | AES_256_GCM | CHACHA20_POLY1305 | XCHACHA20_POLY1305 | CIPHER_UNKNOWN.
Definition getCipherFromString (c : string) : CipherType :=
  let c := ToLower c in
  if decide (c ∈ ["aes-128-gcm"; "aead_aes_128_gcm"]) then AES_128_GCM
  else if decide (c ∈ ["aes-256-gcm"; "aead_aes_256_gcm"]) then AES_256_GCM
  else if decide (c ∈ ["chacha20-poly1305"; "aead_chacha20_poly1305"; "chacha20-ietf-poly1305"])
  then CHACHA20_POLY1305
  else if decide (c ∈ ["xchacha20-poly1305"; "aead_xchacha20_poly1305"; "xchacha20-ietf-poly1305"])
  then XCHACHA20_POLY1305
  else CIPHER_UNKNOWN.

Definition normalizeDomainStrategy (input : string) : string :=
  let s := ToLower (TrimSpace input) in
  if decide (s ∈ [""; "useip"; "use_ip"]) then "UseIP"
  else if decide (s ∈ ["asis"; "as_is"; "as is"]) then "AsIs"
  else if decide (s ∈ ["ipv4_only"; "useipv4"; "use_ipv4"; "ipv4"]) then "UseIPv4"
  else if decide (s ∈ ["ipv6_only"; "useipv6"; "use_ipv6"; "ipv6"]) then "UseIPv6"
  else if decide (s ∈ ["prefer_ipv4"; "preferipv4"]) then "PreferIPv4"
  else if decide (s ∈ ["prefer_ipv6"; "preferipv6"]) then "PreferIPv6"
  else input.

Definition getInboundECHSettings (nodeInfo : NodeInfo) : ECHSettings :=
  if decide (ni_Type nodeInfo = "vmess" ∨ ni_Type nodeInfo = "vless") then
    match ni_VAllss nodeInfo with Some v => ts_ECH (va_TlsSettings v) | None => ECHSettings_zero end
  else if decide (ni_Type nodeInfo = "trojan") then
    match ni_Trojan nodeInfo with Some v => ts_ECH (tn_TlsSettings v) | None => ECHSettings_zero end
  else ECHSettings_zero.
Definition getInboundECHServerKeys (nodeInfo : NodeInfo) : string :=
  let ech := getInboundECHSettings nodeInfo in
  if negb (ech_Enabled ech) then ""
  else
    let serverKeys := TrimSpace (ech_ServerKeys ech) in
    if decide (serverKeys = "") then TrimSpace (ech_PrivateKey ech) else serverKeys.

(** ** The settings of xhttp

    An object is a list of its entries with distinct keys; the order in which Go ranges
    over them does not matter, because each entry is rewritten on its own. *)
Definition obj_get (k : string) (m : list (string * any)) : option any :=
  snd <$> (snd <$> list_find (λ e, e.1 = k) m).
Definition obj_delete (k : string) (m : list (string * any)) : list (string * any) :=
  filter (λ e, e.1 ≠ k) m.
Definition obj_set (k : string) (v : any) (m : list (string * any)) : list (string * any) :=
  match obj_get k m with
  | Some _ => map (λ e, if decide (e.1 = k) then (k, v) else e) m
  | None => m ++ [(k, v)]
  end%list.

Fixpoint pickHeaderString (m : list (string * any)) (keys : list string) : string :=
  match keys with
  | [] => ""
  | k :: keys =>
      match obj_get k m with
      | Some (AString s) => TrimSpace s
      | _ => pickHeaderString m keys
      end
  end.
Definition add_header (headers : list (string * any)) (item : any) : list (string * any) :=
  match item with
  | AMap h =>
      let k := pickHeaderString h ["name"; "key"; "header"] in
      if decide (k = "") then headers
      else obj_set k (AString (pickHeaderString h ["value"; "val"; "v"])) headers
  | AString h =>
      let '(k, val, ok) := Cut h ":" in
      if negb ok then headers
      else
        let k := TrimSpace k in
        if decide (k = "") then headers else obj_set k (AString (TrimSpace val)) headers
  | _ => headers
  end.
Definition headersArrayToMap (arr : list any) : list (string * any) := foldl add_header [] arr.

(** What becomes of the value under a key. *)
Definition settle_key (k : string) (child : any) : any :=
  let k := ToLower k in
  match child with
  | ASlice arr =>
      if decide (k = "headers") then AMap (headersArrayToMap arr)
      else if decide (k ∈ ["sockopt"; "tlssettings"; "xhttpsettings"; "downloadsettings"; "xmux"])
      then AMap [] else child
  | _ => child
  end.
Fixpoint normalizeXHTTPValue (v : any) : any :=
  match v with
  | AMap m => AMap (map (λ e, (e.1, settle_key e.1 (normalizeXHTTPValue e.2))) m)
  | ASlice l => ASlice (map normalizeXHTTPValue l)
  | _ => v
  end.
Definition normalizeXHTTPModeCompat (v : any) : any :=
  match v with
  | AMap obj =>
      let mode := match obj_get "mode" obj with Some (AString s) => s | _ => "" end in
      if EqualFold (TrimSpace mode) "stream-one" then
        let obj := obj_delete "downloadSettings" obj in
        match obj_get "extra" obj with
        | Some (AMap extra) => AMap (obj_set "extra" (AMap (obj_delete "downloadSettings" extra)) obj)
        | _ => AMap obj
        end
      else v
  | _ => v
  end.

Section xhttp.
(** [json.Unmarshal] into an [interface{}] and [json.Marshal] of one. *)
Context (decode_any : string → option any) (encode_any : any → option string).
Definition normalizeXHTTPSettings (raw : string) : string :=
  if decide (raw = "") then raw
  else match decode_any raw with
       | None => raw
       | Some payload =>
           default raw (encode_any (normalizeXHTTPModeCompat (normalizeXHTTPValue payload)))
       end.
End xhttp.

Example xhttp_ex :
  normalizeXHTTPModeCompat (normalizeXHTTPValue (AMap [("mode", AString "Stream-One");
    ("downloadSettings", ASlice []); ("headers", ASlice [AString "A: b"; AMap [("key", AString "C"); ("v", AString "d")]]);
    ("extra", AMap [("xmux", ASlice []); ("downloadSettings", AInt 1)])])) =
  AMap [("mode", AString "Stream-One"); ("headers", AMap [("A", AString "b"); ("C", AString "d")]);
    ("extra", AMap [("xmux", AMap [])])].
Proof. vm_compute. reflexivity. Qed.

(** * The keys of vless encryption *)

Lemma mapM_None_elem {A B} (f : A → option B) l x : x ∈ l → f x = None → mapM f l = None.
Proof.
  induction l as [|y l IH]; intros Hx Hf; [by apply elem_of_nil in Hx|].
  apply elem_of_cons in Hx as [->|Hx]; simpl; [by rewrite Hf|].
  destruct (f y); simpl; [by rewrite (IH Hx Hf)|done].
Qed.
(** The dot of the prefix is no digit of base64. *)
Lemma structured_not_base64 s : isStructuredVlessEncryptionValue s = true →
  RawURLEncoding_DecodeString s = None.
Proof.
  unfold isStructuredVlessEncryptionValue, RawURLEncoding_DecodeString, raw_decode, HasPrefix.
  destruct (strip_prefix _ _) as [k|] eqn:E; [|done]. intros _.
  apply strip_prefix_Some in E as ->. rewrite (mapM_None_elem _ _ "."%char); [done| |done].
  apply list_elem_of_filter. split; [done|]. apply elem_of_app. left.
  by apply (bool_decide_unpack _); vm_compute.
Qed.
Lemma encoded_not_structured key :
  isStructuredVlessEncryptionValue (RawURLEncoding_EncodeToString key) = false.
Proof.
  apply not_true_is_false. intros H%structured_not_base64. by rewrite RawURLEncoding_round_trip in H.
Qed.
Lemma isRaw_encoded key lens :
  isRawBase64URLKey (RawURLEncoding_EncodeToString key) lens =
    bool_decide (Z.of_nat (length key) ∈ lens).
Proof. unfold isRawBase64URLKey. by rewrite RawURLEncoding_round_trip, length_map. Qed.

(** The vless keys a panel may give.  The key of an inbound is 32 or 64 bytes and the key of
    an outbound 32 or 1184, written in the URL alphabet of base64 without padding: exactly
    those get the mode they are used with.  A value that already names its mode passes as it
    is, and a node without a value has no encryption. *)
Theorem vless_keys_get_mode (v : VAllssNode) (key : list ascii) :
  let d := NormalizedDecryption (Some v) in
  let e := NormalizedEncryption (Some v) in
  (d = "" → resolveVlessInboundDecryption (Some v) = "none") ∧
  (e = "" → resolveVlessOutboundEncryption (Some v) = "") ∧
  (isStructuredVlessEncryptionValue d = true → resolveVlessInboundDecryption (Some v) = d) ∧
  (isStructuredVlessEncryptionValue e = true → resolveVlessOutboundEncryption (Some v) = e) ∧
  (d = RawURLEncoding_EncodeToString key → key ≠ [] →
    resolveVlessInboundDecryption (Some v) =
      if decide (length key = 32 ∨ length key = 64)%nat
      then vlessEncryptionInboundMode +:+ RawURLEncoding_EncodeToString key
      else RawURLEncoding_EncodeToString key) ∧
  (e = RawURLEncoding_EncodeToString key → key ≠ [] →
    resolveVlessOutboundEncryption (Some v) =
      if decide (Z.of_nat (length key) = 32 ∨ Z.of_nat (length key) = 1184)
      then vlessEncryptionOutboundMode +:+ RawURLEncoding_EncodeToString key
      else RawURLEncoding_EncodeToString key).
Proof.
  intros d e. unfold resolveVlessInboundDecryption, resolveVlessOutboundEncryption,
    HasVlessInboundDecryption, HasVlessOutboundEncryption. fold d e. cbn [is_nil orb].
  assert (∀ s, isStructuredVlessEncryptionValue s = true → s ≠ "") as Hs by by intros ? ? ->.
  assert (key ≠ [] → RawURLEncoding_EncodeToString key ≠ "") as Hk.
  { intros Hne E. apply (f_equal RawURLEncoding_DecodeString) in E.
    rewrite RawURLEncoding_round_trip in E. by destruct key. }
  split_and!.
  - by intros ->.
  - by intros ->.
  - intros H. rewrite bool_decide_eq_false_2, decide_False, H by auto. done.
  - intros H. rewrite bool_decide_eq_false_2, decide_False, H by auto. done.
  - intros -> Hne. rewrite bool_decide_eq_false_2, decide_False by auto. cbn [negb].
    rewrite encoded_not_structured, isRaw_encoded.
    unfold vlessEncryptionX25519KeySize, vlessEncryptionMlkemSeedSize.
    case_decide as Hl; case_bool_decide as Hl'; [done| | |done]; rewrite !elem_of_cons, elem_of_nil in Hl';
      lia.
  - intros -> Hne. rewrite bool_decide_eq_false_2, decide_False by auto. cbn [negb].
    rewrite encoded_not_structured, isRaw_encoded.
    unfold vlessEncryptionX25519KeySize, vlessEncryptionMlkemCipherKeySize.
    case_decide as Hl; case_bool_decide as Hl'; [done| | |done]; rewrite !elem_of_cons, elem_of_nil in Hl';
      lia.
Qed.

Definition key_node (key : list ascii) : VAllssNode :=
  MkVAllssNode (MkCommonNode "" 0 "" [] None) 0 (MkTlsSettings "" "" "" "" "" 0 ECHSettings_zero)
    None ECHSettings_zero "tcp" "{}" "" "" "" (RawURLEncoding_EncodeToString key) ""
    (MkRealityConfig 0 "" "" "").
(** A key of 32 zero bytes. *)
Lemma vless_keys_get_mode_witness :
  resolveVlessInboundDecryption (Some (key_node (replicate 32 "000"%char))) =
    "mlkem768x25519plus.native.600s.AAAAAAAAAAAAAAAAAAAAAAAAAAAAAAAAAAAAAAAAAAA".
Proof.
  destruct (vless_keys_get_mode (key_node (replicate 32 "000"%char)) (replicate 32 "000"%char))
    as (_ & _ & _ & _ & H & _).
  rewrite H; [reflexivity|vm_compute; reflexivity|discriminate].
Defined.

(** * The settings of xhttp *)

Section any_ind.
Context (P : any → Prop) (Hatom : ∀ v, (∀ l, v ≠ ASlice l) → (∀ m, v ≠ AMap m) → P v).
Context (Hslice : ∀ l, Forall P l → P (ASlice l)) (Hmap : ∀ m, Forall (λ e, P e.2) m → P (AMap m)).
Fixpoint any_deep_ind (v : any) : P v :=
  match v with
  | ASlice l => Hslice l ((fix go l : Forall P l :=
      match l with [] => Forall_nil_2 P | x :: l => Forall_cons_2 P x l (any_deep_ind x) (go l) end) l)
  | AMap m => Hmap m ((fix go m : Forall (λ e, P e.2) m :=
      match m with
      | [] => Forall_nil_2 _
      | e :: m => Forall_cons_2 _ e m (any_deep_ind e.2) (go m)
      end) m)
  | v => Hatom v ltac:(done) ltac:(done)
  end.
End any_ind.

(** The keys of objects: under them xray accepts no list. *)
Definition structural (k : string) : Prop :=
  ToLower k ∈ ["headers"; "sockopt"; "tlssettings"; "xhttpsettings"; "downloadsettings"; "xmux"].
Definition is_slice (v : any) : bool := match v with ASlice _ => true | _ => false end.
(** No list under a structural key, at any depth. *)
Fixpoint settled (v : any) : bool :=
  match v with
  | AMap m => forallb (λ e, negb (bool_decide (structural e.1) && is_slice e.2) && settled e.2) m
  | ASlice l => forallb settled l
  | _ => true
  end.

Lemma settled_map m : settled (AMap m) = true ↔
  Forall (λ e, (structural e.1 → is_slice e.2 = false) ∧ settled e.2 = true) m.
Proof.
  rewrite <-Is_true_true. simpl. rewrite forallb_True. apply Forall_iff. intros [k v]. simpl.
  destruct (settled v), (is_slice v); rewrite ?andb_true_r, ?andb_false_r; simpl;
    try case_bool_decide; naive_solver.
Qed.
Lemma settled_slice l : settled (ASlice l) = true ↔ Forall (λ v, settled v = true) l.
Proof.
  rewrite <-Is_true_true. simpl. rewrite forallb_True. apply Forall_iff.
  intros v. by rewrite Is_true_true.
Qed.

Lemma settle_key_id k v : (structural k → is_slice v = false) → settle_key k v = v.
Proof.
  unfold settle_key, structural. destruct v; try done. intros H. simpl in H.
  case_decide as H1; [rewrite H1 in H; by discriminate H; set_solver|].
  case_decide as H2; [|done]. by discriminate H; set_solver.
Qed.
Lemma obj_set_Forall (Q : string * any → Prop) k v m :
  Q (k, v) → Forall Q m → Forall Q (obj_set k v m).
Proof.
  intros Hkv Hm. unfold obj_set. destruct (obj_get k m).
  - apply Forall_map. eapply Forall_impl; [exact Hm|]. intros e He. by case_decide.
  - apply Forall_app_2; [done|]. by constructor.
Qed.
Lemma headers_settled arr :
  Forall (λ e : string * any, ∃ s, e.2 = AString s) (headersArrayToMap arr).
Proof.
  unfold headersArrayToMap.
  enough (∀ m, Forall (λ e : string * any, ∃ s, e.2 = AString s) m →
    Forall (λ e : string * any, ∃ s, e.2 = AString s) (foldl add_header m arr)) by auto.
  induction arr as [|x arr IH]; intros m Hm; simpl; [done|]. apply IH.
  unfold add_header. destruct x as [| | | | | | | |h| | |h]; try done.
  - destruct (Cut h ":") as [[k v] ok]. destruct ok; cbn [negb]; [|done].
    cbv zeta. case_decide; [done|]. apply obj_set_Forall; [by eexists|done].
  - cbv zeta. case_decide; [done|]. apply obj_set_Forall; [by eexists|done].
Qed.
Lemma settle_key_settled k v : settled v = true →
  (structural k → is_slice (settle_key k v) = false) ∧ settled (settle_key k v) = true.
Proof.
  intros Hv. destruct v as [| | | | | | | | | |l|m]; try done. unfold settle_key, structural. simpl.
  case_decide as H1.
  { split; [done|]. apply settled_map. eapply Forall_impl; [apply headers_settled|].
    by intros [j w] [s ->]. }
  case_decide as H2; [done|]. split; [|done].
  rewrite elem_of_cons. by intros [?|?].
Qed.

Lemma normalize_settled v : settled (normalizeXHTTPValue v) = true.
Proof.
  induction v as [v Hs Hm|l IH|m IH] using any_deep_ind.
  - destruct v; try done; [by destruct (Hs l)|by destruct (Hm m)].
  - apply settled_slice, Forall_map. exact IH.
  - apply settled_map, Forall_map. eapply Forall_impl; [exact IH|].
    intros [k v] Hv. simpl in *. by apply settle_key_settled.
Qed.
Lemma settled_normalize v : settled v = true → normalizeXHTTPValue v = v.
Proof.
  induction v as [v Hs Hm|l IH|m IH] using any_deep_ind.
  - destruct v; try done; [by destruct (Hs l)|by destruct (Hm m)].
  - rewrite settled_slice. intros Hl. simpl. f_equal. rewrite <-(map_id l) at 2.
    apply map_ext_in. intros v Hv%list_elem_of_In. rewrite Forall_forall in IH, Hl. auto.
  - rewrite settled_map. intros Hm. simpl. f_equal. rewrite <-(map_id m) at 2.
    apply map_ext_in. intros [k v] Hv%list_elem_of_In. rewrite Forall_forall in IH, Hm.
    destruct (Hm _ Hv) as [Hk He]. specialize (IH _ Hv He). simpl in *.
    by rewrite IH, settle_key_id.
Qed.

(** ** Reading and changing objects *)

Lemma obj_get_cons k e m : obj_get k (e :: m) = if decide (e.1 = k) then Some e.2 else obj_get k m.
Proof.
  unfold obj_get. simpl. case_decide; simpl; [done|]. by destruct (list_find _ m) as [[? ?]|].
Qed.
Lemma obj_get_delete_eq k m : obj_get k (obj_delete k m) = None.
Proof.
  induction m as [|e m IH]; [done|]. unfold obj_delete. rewrite filter_cons.
  case_decide; [|done]. rewrite obj_get_cons, decide_False by done. exact IH.
Qed.
Lemma obj_get_delete_ne k j m : j ≠ k → obj_get k (obj_delete j m) = obj_get k m.
Proof.
  intros Hne. induction m as [|e m IH]; [done|]. unfold obj_delete in *.
  destruct (decide (e.1 = j)) as [He|He].
  - rewrite filter_cons_False by (intros H; by apply H). rewrite obj_get_cons, IH, decide_False; congruence.
  - rewrite filter_cons_True by done. by rewrite !obj_get_cons, IH.
Qed.
Lemma obj_delete_id k m : obj_get k m = None → obj_delete k m = m.
Proof.
  induction m as [|e m IH]; [done|]. rewrite obj_get_cons. case_decide; [done|]. intros Hm.
  unfold obj_delete. rewrite filter_cons_True by done. f_equal. by apply IH.
Qed.
Lemma obj_get_map k j v m :
  obj_get k (map (λ e, if decide (e.1 = j) then (j, v) else e) m) =
    if decide (j = k) then (λ _, v) <$> obj_get j m else obj_get k m.
Proof.
  induction m as [|e m IH]; [by case_decide|]. rewrite map_cons, !obj_get_cons, IH.
  destruct (decide (e.1 = j)) as [->|He]; cbn [fst snd].
  - by destruct (decide (j = k)).
  - destruct (decide (j = k)) as [<-|]; [by rewrite decide_False|done].
Qed.
Lemma obj_get_set k j v m : is_Some (obj_get j m) →
  obj_get k (obj_set j v m) = if decide (j = k) then Some v else obj_get k m.
Proof. unfold obj_set. intros [w E]. by rewrite E, obj_get_map, E. Qed.
Lemma obj_set_set k v m : is_Some (obj_get k m) → obj_set k v (obj_set k v m) = obj_set k v m.
Proof.
  intros Hk. assert (obj_get k (obj_set k v m) = Some v) as E by by rewrite obj_get_set, decide_True.
  unfold obj_set at 1. rewrite E. unfold obj_set. destruct Hk as [w ->]. rewrite map_map.
  apply map_ext. intros e. destruct (decide (e.1 = k)); cbn [fst]; [by rewrite decide_True|by destruct (decide (e.1 = k))].
Qed.

(** ** Modes *)

Definition stream_one (obj : list (string * any)) : bool :=
  EqualFold (TrimSpace (match obj_get "mode" obj with Some (AString s) => s | _ => "" end)) "stream-one".
(** In the mode stream-one there are no download settings. *)
Definition mode_ok (v : any) : Prop :=
  ∀ obj, v = AMap obj → stream_one obj = true →
    obj_get "downloadSettings" obj = None ∧
    ∀ extra, obj_get "extra" obj = Some (AMap extra) → obj_get "downloadSettings" extra = None.

Lemma mode_compat_map obj : stream_one obj = true →
  normalizeXHTTPModeCompat (AMap obj) =
    let obj := obj_delete "downloadSettings" obj in
    match obj_get "extra" obj with
    | Some (AMap extra) => AMap (obj_set "extra" (AMap (obj_delete "downloadSettings" extra)) obj)
    | _ => AMap obj
    end.
Proof. unfold normalizeXHTTPModeCompat. fold (stream_one obj). by intros ->. Qed.
Lemma mode_compat_other v : (∀ obj, v = AMap obj → stream_one obj = false) →
  normalizeXHTTPModeCompat v = v.
Proof.
  destruct v as [| | | | | | | | | | |obj]; try done. intros H. unfold normalizeXHTTPModeCompat.
  fold (stream_one obj). by rewrite H.
Qed.
Lemma stream_one_same obj obj' : obj_get "mode" obj' = obj_get "mode" obj → stream_one obj' = stream_one obj.
Proof. unfold stream_one. by intros ->. Qed.

(** What the compatibility step leaves is in order, and stays as it is. *)
Lemma mode_compat_spec v :
  mode_ok (normalizeXHTTPModeCompat v) ∧
  normalizeXHTTPModeCompat (normalizeXHTTPModeCompat v) = normalizeXHTTPModeCompat v.
Proof.
  destruct (match v with AMap obj => stream_one obj | _ => false end) eqn:Hv.
  2: { rewrite (mode_compat_other v) by (by intros obj ->). split; [|apply mode_compat_other; by intros obj ->].
       intros obj -> H. congruence. }
  destruct v as [| | | | | | | | | | |obj]; try done. rewrite (mode_compat_map obj Hv). cbv zeta.
  set (obj1 := obj_delete "downloadSettings" obj).
  assert (obj_get "downloadSettings" obj1 = None) as Hd by apply obj_get_delete_eq.
  assert (stream_one obj1 = true) as H1.
  { rewrite <-Hv. apply stream_one_same. by apply obj_get_delete_ne. }
  destruct (obj_get "extra" obj1) as [x|] eqn:E.
  2: { split; [by intros o [= <-] _; split; [|rewrite E]|].
       rewrite (mode_compat_map _ H1). cbv zeta. by rewrite obj_delete_id, E. }
  destruct (match x with AMap _ => true | _ => false end) eqn:Hx.
  2: { replace (match x with AMap extra => _ | _ => AMap obj1 end) with (AMap obj1) by by destruct x.
       split; [intros o [= <-] _; split; [done|]; rewrite E; by intros ? [= ->]|].
       rewrite (mode_compat_map _ H1). cbv zeta. rewrite obj_delete_id, E by done. by destruct x. }
  destruct x as [| | | | | | | | | | |ex]; try done.
  set (obj2 := obj_set "extra" (AMap (obj_delete "downloadSettings" ex)) obj1).
  assert (∀ k, obj_get k obj2 = if decide ("extra" = k) then Some (AMap (obj_delete "downloadSettings" ex))
                                else obj_get k obj1) as Hget.
  { intros k. apply obj_get_set. by rewrite E. }
  assert (stream_one obj2 = true) as H2. { rewrite <-H1. apply stream_one_same. apply Hget. }
  split.
  - intros o [= <-] _. rewrite !Hget. split; [done|]. intros ? [= <-]. apply obj_get_delete_eq.
  - rewrite (mode_compat_map _ H2). cbv zeta. rewrite (obj_delete_id _ obj2) by by rewrite Hget.
    rewrite Hget. simpl. rewrite (obj_delete_id _ (obj_delete _ ex)) by apply obj_get_delete_eq.
    f_equal. apply obj_set_set. by rewrite E.
Qed.

Lemma settled_delete k m : settled (AMap m) = true → settled (AMap (obj_delete k m)) = true.
Proof.
  rewrite !settled_map, !Forall_forall. intros H e [_ He]%list_elem_of_filter. auto.
Qed.
Lemma settled_get k m v : settled (AMap m) = true → obj_get k m = Some v → settled v = true.
Proof.
  rewrite settled_map. intros H. induction H as [|e m [_ He] _ IH]; [done|].
  rewrite obj_get_cons. case_decide; [by intros [= <-]|done].
Qed.
Lemma mode_compat_settled v : settled v = true → settled (normalizeXHTTPModeCompat v) = true.
Proof.
  intros Hv. destruct v as [| | | | | | | | | | |obj]; try done.
  destruct (stream_one obj) eqn:H1.
  2: { rewrite mode_compat_other; [done|]. by intros ? [= <-]. }
  rewrite (mode_compat_map _ H1). cbv zeta. apply (settled_delete "downloadSettings") in Hv.
  destruct (obj_get "extra" _) as [x|] eqn:E; [|done]. destruct x as [| | | | | | | | | | |ex]; try done.
  apply settled_map, obj_set_Forall; [|by apply settled_map].
  split; [done|]. apply settled_delete. by eapply settled_get.
Qed.

(** What [normalizeXHTTPSettings] does to the decoded settings. *)
Definition normal (v : any) : any := normalizeXHTTPModeCompat (normalizeXHTTPValue v).


(** A codec of two texts. *)
Definition toy_decode (s : string) : option any :=
  if decide (s = "a") then Some (AMap [("mode", AString "stream-one"); ("downloadSettings", AMap [])])
  else if decide (s = "b") then Some (AMap [("mode", AString "stream-one")]) else None.
Definition toy_encode (v : any) : option string :=
  match v with
  | AMap [(k, AString s)] => if decide (k = "mode" ∧ s = "stream-one") then Some "b" else None
  | _ => None
  end.
