(* ===== verification/XrayInbound.v ===== *)
(** core/xray/inbound.go: what the configuration of a node becomes as an inbound of xray.

    The configuration types of xray are a library.  The settings that only pass through
    (the decoded transport settings) are abstract types with their decoders; the rest is
    data, and [Build] is a parameter.  [None] is a panic: a nil pointer. *)
From S2P Require Import Prelude GoStrings Base64 PanelTypes Conf PanelNode XrayFormats.
#[local] Open Scope string_scope.
#[local] Open Scope Z_scope.

(** * The configuration of an inbound

    [TCPConfig], [WSConfig], … are the transport settings of xray; the code decodes them
    and sets one field of two of them, [AcceptProxyProtocol]. *)

(** What may go wrong: a panic ([None]) or an error. *)
Definition may {A} (r : result A) : option (result A) := Some r.
#[global] Arguments may {A} r /.
Definition bind_may {A B} (m : option (result A)) (f : A → option (result B)) : option (result B) :=
  match m with None => panic | Some (Err e) => Some (Err e) | Some (Ok a) => f a end.
Notation "x ←? m ; k" := (bind_may m (λ x, k))
  (at level 20, m at level 100, k at level 200, only parsing) : yabx_scope.
(** A nil pointer that is dereferenced. *)
Definition deref {A} (p : option A) : option (result A) := a ← p; Some (Ok a).
(** [fmt.Errorf("…: %s", err)]. *)
Definition annotate {A} (what : string) (r : result A) : result A :=
  match r with Ok a => Ok a | Err e => Err (what ++ ": " ++ e) end.
#[local] Open Scope yabx_scope.

Record SocketConfig := MkSocketConfig {
  sk_AcceptProxyProtocol : bool; sk_TFO : bool; sk_DomainStrategy : string
}.
Record TLSConfig := MkTLSConfig {
  tls_CertFile : string; tls_KeyFile : string; tls_OcspStapling : Z;
  tls_RejectUnknownSNI : bool; tls_ECHServerKeys : string
}.
Record REALITYConfig := MkREALITYConfig {
  re_Dest : string; re_Xver : Z; re_ServerNames : list string; re_PrivateKey : string;
  re_MinClientVer : string; re_MaxClientVer : string; re_MaxTimeDiff : Z; re_ShortIds : list string
}.
(** [VLessInboundFallback] and [TrojanInboundFallback] have the same fields. *)
Record InboundFallback := MkInboundFallback {
  fb_Name : string; fb_Alpn : string; fb_Path : string; fb_Dest : string; fb_Xver : Z
}.
Record VLessInboundConfig := MkVLessInboundConfig {
  vi_Decryption : string; vi_Fallbacks : list InboundFallback
}.
Record ShadowsocksUserConfig := MkShadowsocksUserConfig { su_Cipher : string; su_Password : string }.
Record ShadowsocksServerConfig := MkShadowsocksServerConfig {
  sc_Cipher : string; sc_Password : string; sc_Users : list ShadowsocksUserConfig;
  sc_NetworkList : list string
}.

(** The part of xray and of the JSON library the builders use: the transport settings with
    their zero values and [AcceptProxyProtocol = b], the decoders (into a nil pointer, which
    [null] leaves nil), [json.Marshal], [net.ParseAddress] and, from the standard library, the
    nanoseconds of [time.ParseDuration], 0 on an error. *)
Class XrayConf := {
  TCPConfig : Type; WSConfig : Type; GRPCConfig : Type; HTTPUpgradeConfig : Type;
  SplitHTTPConfig : Type; Address : Type;
  tcp_zero : TCPConfig; tcp_accept : bool → TCPConfig → TCPConfig;
  ws_zero : WSConfig; ws_accept : bool → WSConfig → WSConfig;
  decode_tcp : string → result (option TCPConfig);
  decode_ws : string → result (option WSConfig);
  decode_grpc : string → result (option GRPCConfig);
  decode_httpupgrade : string → result (option HTTPUpgradeConfig);
  decode_xhttp : string → result (option SplitHTTPConfig);
  decode_any : string → option any; encode_any : any → option string;
  marshal_string : string → result string;
  marshal_vless : VLessInboundConfig → result string;
  vmess_settings : result string;
  marshal_trojan : list InboundFallback → result string;
  marshal_ss : ShadowsocksServerConfig → result string;
  ParseAddress : string → Address;
  ParseDuration : string → Z
}.

Section inbound.
Context {conf : XrayConf} {IH : Type}.

Record StreamConfig := MkStreamConfig {
  st_Network : string;
  st_Security : string;
  st_TLSSettings : option TLSConfig;
  st_REALITYSettings : option REALITYConfig;
  st_TCPSettings : option TCPConfig;
  st_WSSettings : option WSConfig;
  st_GRPCSettings : option GRPCConfig;
  st_HTTPUPGRADESettings : option HTTPUpgradeConfig;
  st_SplitHTTPSettings : option SplitHTTPConfig;
  st_SocketSettings : option SocketConfig
}.
Definition new_stream (network : string) : StreamConfig :=
  MkStreamConfig network "" None None None None None None None None.
Definition stream_tcp (x : option TCPConfig) (s : StreamConfig) : StreamConfig :=
  MkStreamConfig (st_Network s) (st_Security s) (st_TLSSettings s) (st_REALITYSettings s) x
    (st_WSSettings s) (st_GRPCSettings s) (st_HTTPUPGRADESettings s) (st_SplitHTTPSettings s)
    (st_SocketSettings s).
Definition stream_ws (x : option WSConfig) (s : StreamConfig) : StreamConfig :=
  MkStreamConfig (st_Network s) (st_Security s) (st_TLSSettings s) (st_REALITYSettings s)
    (st_TCPSettings s) x (st_GRPCSettings s) (st_HTTPUPGRADESettings s) (st_SplitHTTPSettings s)
    (st_SocketSettings s).
Definition stream_grpc (x : option GRPCConfig) (s : StreamConfig) : StreamConfig :=
  MkStreamConfig (st_Network s) (st_Security s) (st_TLSSettings s) (st_REALITYSettings s)
    (st_TCPSettings s) (st_WSSettings s) x (st_HTTPUPGRADESettings s) (st_SplitHTTPSettings s)
    (st_SocketSettings s).
Definition stream_httpupgrade (x : option HTTPUpgradeConfig) (s : StreamConfig) : StreamConfig :=
  MkStreamConfig (st_Network s) (st_Security s) (st_TLSSettings s) (st_REALITYSettings s)
    (st_TCPSettings s) (st_WSSettings s) (st_GRPCSettings s) x (st_SplitHTTPSettings s)
    (st_SocketSettings s).
Definition stream_xhttp (x : option SplitHTTPConfig) (s : StreamConfig) : StreamConfig :=
  MkStreamConfig (st_Network s) (st_Security s) (st_TLSSettings s) (st_REALITYSettings s)
    (st_TCPSettings s) (st_WSSettings s) (st_GRPCSettings s) (st_HTTPUPGRADESettings s) x
    (st_SocketSettings s).
Definition stream_socket (x : SocketConfig) (s : StreamConfig) : StreamConfig :=
  MkStreamConfig (st_Network s) (st_Security s) (st_TLSSettings s) (st_REALITYSettings s)
    (st_TCPSettings s) (st_WSSettings s) (st_GRPCSettings s) (st_HTTPUPGRADESettings s)
    (st_SplitHTTPSettings s) (Some x).
Definition stream_security (sec : string) (t : option TLSConfig) (r : option REALITYConfig)
    (s : StreamConfig) : StreamConfig :=
  MkStreamConfig (st_Network s) sec t r
    (st_TCPSettings s) (st_WSSettings s) (st_GRPCSettings s) (st_HTTPUPGRADESettings s)
    (st_SplitHTTPSettings s) (st_SocketSettings s).

(** What the three builders fill in. *)
Record built := MkBuilt {
  in_Protocol : string;
  in_Settings : string;
  in_StreamSetting : option StreamConfig
}.
Record InboundDetourConfig := MkInboundDetourConfig {
  id_built : built;
  id_Stream : StreamConfig;
  id_PortFrom : Z;
  id_PortTo : Z;
  id_ListenOn : Address;
  id_SniffingEnabled : bool;
  id_DestOverride : list string;
  id_Tag : string
}.
(** [in.Build()]. *)
Context (Build : InboundDetourConfig → result IH).

(** ** Fallbacks *)

Fixpoint build_fallbacks (cs : list FallBackConfigForXray) : result (list InboundFallback) :=
  match cs with
  | [] => Ok []
  | c :: cs =>
      if decide (fx_Dest c = "") then Err "dest is required for fallback fialed"
      else
        dest ← annotate "marshal dest config fialed" (marshal_string (fx_Dest c));
        l ← build_fallbacks cs;
        Ok (MkInboundFallback (fx_SNI c) (fx_Alpn c) (fx_Path c) dest (fx_ProxyProtocolVer c) :: l)
  end.
Definition buildVlessFallbacks (cs : option (list FallBackConfigForXray)) : result (list InboundFallback) :=
  match cs with
  | None => Err "you must provide FallBackConfigs"
  | Some cs => build_fallbacks cs
  end.
Definition buildTrojanFallbacks (cs : option (list FallBackConfigForXray)) : result (list InboundFallback) :=
  match cs with
  | None => Err "you must provide FallBackConfigs"
  | Some cs => build_fallbacks cs
  end.

(** ** One builder per kind of node *)

Definition vless_settings (v : option VAllssNode) (x : XrayOptions) : result string :=
  let decryption := resolveVlessInboundDecryption v in
  let decryption := if decide (decryption = "") then "none" else decryption in
  if xo_EnableFallback x then
    fallbackConfigs ← buildVlessFallbacks (xo_FallBackConfigs x);
    annotate "marshal vless fallback config error"
      (marshal_vless (MkVLessInboundConfig decryption fallbackConfigs))
  else annotate "marshal vless config error" (marshal_vless (MkVLessInboundConfig decryption [])).

Definition vallss_stream (v : VAllssNode) : result (option StreamConfig) :=
  let raw := va_NetworkSettings v in
  if decide (raw = "") then Ok None
  else
    let s := new_stream (va_Network v) in
    if decide (va_Network v = "tcp") then
      t ← annotate "unmarshal tcp settings error" (decode_tcp raw); Ok (Some (stream_tcp t s))
    else if decide (va_Network v = "ws") then
      t ← annotate "unmarshal ws settings error" (decode_ws raw); Ok (Some (stream_ws t s))
    else if decide (va_Network v = "grpc") then
      t ← annotate "unmarshal grpc settings error" (decode_grpc raw); Ok (Some (stream_grpc t s))
    else if decide (va_Network v = "httpupgrade") then
      t ← annotate "unmarshal httpupgrade settings error" (decode_httpupgrade raw);
      Ok (Some (stream_httpupgrade t s))
    else if decide (va_Network v = "splithttp" ∨ va_Network v = "xhttp") then
      t ← annotate "unmarshal xhttp settings error"
            (decode_xhttp (normalizeXHTTPSettings decode_any encode_any raw));
      Ok (Some (stream_xhttp t s))
    else Err "the network type is not vail".

Definition buildV2ray (config : Options) (nodeInfo : NodeInfo) : option (result built) :=
  if decide (ni_Type nodeInfo = "vless") then
    x ←? deref (op_XrayOptions config);
    s ←? may (vless_settings (ni_VAllss nodeInfo) x);
    v ←? deref (ni_VAllss nodeInfo);
    t ←? may (vallss_stream v);
    may (Ok (MkBuilt "vless" s t))
  else
    s ←? may (annotate "marshal vmess settings error" vmess_settings);
    v ←? deref (ni_VAllss nodeInfo);
    t ←? may (vallss_stream v);
    may (Ok (MkBuilt "vmess" s t)).

Definition trojan_network (v : TrojanNode) : string :=
  if decide (tn_Network v = "") then "tcp" else tn_Network v.
Definition trojan_stream (v : TrojanNode) : result (option StreamConfig) :=
  let raw := tn_NetworkSettings v in
  let network := trojan_network v in
  let s := new_stream network in
  if decide (network = "tcp") then
    t ← annotate "unmarshal tcp settings error" (decode_tcp raw); Ok (Some (stream_tcp t s))
  else if decide (network = "ws") then
    t ← annotate "unmarshal ws settings error" (decode_ws raw); Ok (Some (stream_ws t s))
  else if decide (network = "grpc") then
    t ← annotate "unmarshal grpc settings error" (decode_grpc raw); Ok (Some (stream_grpc t s))
  else Err "the network type is not vail".
Definition buildTrojan (config : Options) (nodeInfo : NodeInfo) : option (result built) :=
  x ←? deref (op_XrayOptions config);
  s ←? may (if xo_EnableFallback x then
              fallbackConfigs ← buildTrojanFallbacks (xo_FallBackConfigs x);
              annotate "marshal trojan fallback config error" (marshal_trojan fallbackConfigs)
            else Ok "{}");
  v ←? deref (ni_Trojan nodeInfo);
  t ←? may (trojan_stream v);
  may (Ok (MkBuilt "trojan" s t)).

(** [random]: the 32 bytes of [rand.Read], or its error. *)
Definition buildShadowsocks (nodeInfo : NodeInfo) (random : result (list ascii)) : option (result built) :=
  s ←? deref (ni_Shadowsocks nodeInfo);
  p ←? may (annotate "generate random password error" random);
  let '(password, user) :=
    if decide (sn_ServerKey s = "")
    then ("", MkShadowsocksUserConfig (sn_Cipher s) (hex_encode p))
    else (sn_ServerKey s, MkShadowsocksUserConfig ""
            (StdEncoding_EncodeToString (take (ss2022KeyLength (sn_Cipher s)) p))) in
  sets ←? may (annotate "marshal shadowsocks settings error"
                (marshal_ss (MkShadowsocksServerConfig (sn_Cipher s) password [user] ["tcp"; "udp"])));
  may (Ok (MkBuilt "shadowsocks" sets (Some (new_stream "tcp")))).

(** ** buildInbound

    The network is read before the error of the builder is looked at. *)

Definition build_kind (option : Options) (nodeInfo : NodeInfo) (random : result (list ascii))
    : Datatypes.option (result (built * string)) :=
  let typ := ni_Type nodeInfo in
  if decide (typ = "vmess" ∨ typ = "vless") then
    v ←? deref (ni_VAllss nodeInfo);
    b ←? buildV2ray option nodeInfo;
    may (Ok (b, va_Network v))
  else if decide (typ = "trojan") then
    v ←? deref (ni_Trojan nodeInfo);
    b ←? buildTrojan option nodeInfo;
    may (Ok (b, trojan_network v))
  else if decide (typ = "shadowsocks") then
    b ←? buildShadowsocks nodeInfo random; may (Ok (b, "tcp"))
  else may (Err ("unsupported node type: " ++ typ ++ ", Only support: V2ray, Trojan, Shadowsocks")).

(** The proxy protocol, by network. *)
Definition proxy_protocol (x : XrayOptions) (network : string) (s : StreamConfig) : StreamConfig :=
  let accept := xo_EnableProxyProtocol x in
  if decide (network = "tcp") then
    stream_tcp (Some (tcp_accept accept (default tcp_zero (st_TCPSettings s)))) s
  else if decide (network = "ws") then
    stream_ws (Some (ws_accept accept (default ws_zero (st_WSSettings s)))) s
  else stream_socket (MkSocketConfig accept (xo_EnableTFO x) "") s.

(** A path, not an address. *)
Definition is_path (dest : string) : bool := HasPrefix dest "/" || HasPrefix dest "@".
Definition reality_dest (t : TlsSettings) : result string :=
  let dest := TrimSpace (ts_Dest t) in
  let serverPort := TrimSpace (ts_ServerPort t) in
  let serverPort := if decide (serverPort = "") then "443" else serverPort in
  let dest := if decide (dest = "") then TrimSpace (ts_ServerName t) else dest in
  if decide (dest = "") then Err "reality 配置缺少目标域名"
  else if is_path dest then Ok dest
  else match SplitHostPort dest with Some _ => Ok dest | None => Ok (JoinHostPort dest serverPort) end.
Definition reality_names (t : TlsSettings) (dest : string) : result (list string) :=
  let serverNames := splitAndFilter (TrimSpace (ts_ServerName t)) in
  let serverNames :=
    match serverNames with
    | [] => if is_path dest then []
            else match SplitHostPort dest with Some (host, _) => [host] | None => [] end
    | _ => serverNames
    end in
  match serverNames with [] => Err "reality 配置缺少 server_name" | _ => Ok serverNames end.
Definition reality (v : VAllssNode) : result REALITYConfig :=
  let t := va_TlsSettings v in
  let r := va_RealityConfig v in
  dest ← reality_dest t;
  d ← annotate "marshal reality dest error" (marshal_string dest);
  serverNames ← reality_names t dest;
  match splitAndFilter (ts_ShortId t) with
  | [] => Err "reality 配置缺少 short_id"
  | shortIDs =>
      Ok (MkREALITYConfig d (if decide (ts_Xver t = 0) then rc_Xver r else ts_Xver t) serverNames
            (ts_PrivateKey t) (rc_MinClientVer r) (rc_MaxClientVer r)
            (wrapu64 (Z.quot (ParseDuration (rc_MaxTimeDiff r)) 1000)) shortIDs)
  end.

Definition secure (option : Options) (nodeInfo : NodeInfo) (s : StreamConfig)
    : Datatypes.option (result StreamConfig) :=
  if decide (ni_Security nodeInfo = SecTls) then
    match op_CertConfig option with
    | None => may (Err "the CertConfig is not vail")
    | Some c =>
        if decide (cc_CertMode c = "none" ∨ cc_CertMode c = "") then may (Ok s)
        else may (Ok (stream_security "tls"
               (Some (MkTLSConfig (cc_CertFile c) (cc_KeyFile c) 3600 (cc_RejectUnknownSni c)
                        (getInboundECHServerKeys nodeInfo)))
               (st_REALITYSettings s) s))
    end
  else if decide (ni_Security nodeInfo = SecReality) then
    v ←? deref (ni_VAllss nodeInfo);
    r ←? may (reality v);
    may (Ok (stream_security "reality" (st_TLSSettings s) (Some r) s))
  else may (Ok s).

Definition buildInbound (option : Options) (nodeInfo : NodeInfo) (tag : string)
    (random : result (list ascii)) : Datatypes.option (result IH) :=
  kind ←? build_kind option nodeInfo random;
  let '(b, network) := kind in
  common ←? deref (ni_Common nodeInfo);
  x ←? deref (op_XrayOptions option);
  s ←? deref (in_StreamSetting b);
  s ←? secure option nodeInfo (proxy_protocol x network s);
  let port := Z.modulo (cn_ServerPort common) (2 ^ 32) in
  may (Build (MkInboundDetourConfig b s port port (ParseAddress (op_ListenIP option))
         (negb (xo_DisableSniffing x)) ["http"; "tls"] tag)).

(** ** What is built *)

Lemma bind_may_inv {A B} (m : option (result A)) (f : A → option (result B)) r :
  bind_may m f = Some r →
  (∃ e, m = Some (Err e) ∧ r = Err e) ∨ ∃ a, m = Some (Ok a) ∧ f a = Some r.
Proof. destruct m as [[a|e]|]; simpl; intros; simplify_eq; eauto. Qed.
Lemma bind_may_total {A B} (m : option (result A)) (f : A → option (result B)) :
  is_Some m → (∀ a, m = Some (Ok a) → is_Some (f a)) → is_Some (bind_may m f).
Proof. intros [[a|e] ->] H; simpl; eauto. Qed.
Lemma deref_total {A} (p : option A) : is_Some p → is_Some (deref p).
Proof. intros [a ->]. by eexists. Qed.
Lemma deref_Ok {A} (p : option A) a : deref p = Some (Ok a) → p = Some a.
Proof. destruct p; simpl; congruence. Qed.

(** The node has the sections the builders dereference. *)
Definition complete (o : Options) (n : NodeInfo) : Prop :=
  is_Some (ni_Common n) ∧ is_Some (op_XrayOptions o) ∧
  (ni_Type n = "vmess" ∨ ni_Type n = "vless" →
    ∃ v, ni_VAllss n = Some v ∧ va_NetworkSettings v ≠ "") ∧
  (ni_Type n = "trojan" → is_Some (ni_Trojan n)) ∧
  (ni_Type n = "shadowsocks" → is_Some (ni_Shadowsocks n)) ∧
  (ni_Security n = SecReality → is_Some (ni_VAllss n)).
(** The section of a vmess or vless node has settings; the others build their own. *)
Definition has_settings (n : NodeInfo) : Prop :=
  ∀ v, ni_VAllss n = Some v → ni_Type n = "vmess" ∨ ni_Type n = "vless" →
    va_NetworkSettings v ≠ "".

(** The stream a builder leaves: it is there, and without security. *)
Definition plain_stream (t : option StreamConfig) : Prop := ∀ s, t = Some s → st_Security s = "".
Lemma vallss_stream_spec v t : vallss_stream v = Ok t →
  (va_NetworkSettings v ≠ "" → is_Some t) ∧ plain_stream t.
Proof.
  unfold vallss_stream, plain_stream. intros H. case_decide; [by simplify_eq|].
  repeat case_decide; try done; (destruct (annotate _ _) as [?|?]; simpl in H; simplify_eq;
    split; [by eexists|]; by intros ? [= <-]).
Qed.
Lemma trojan_stream_spec v t : trojan_stream v = Ok t → is_Some t ∧ plain_stream t.
Proof.
  unfold trojan_stream, plain_stream. intros H.
  repeat case_decide; try done; (destruct (annotate _ _) as [?|?]; simpl in H; simplify_eq;
    split; [by eexists|]; by intros ? [= <-]).
Qed.

Lemma build_kind_sound o n random b network :
  build_kind o n random = Some (Ok (b, network)) →
  in_Protocol b = ni_Type n ∧ (has_settings n → is_Some (in_StreamSetting b)) ∧
  plain_stream (in_StreamSetting b).
Proof.
  unfold build_kind, has_settings.
  destruct (decide (ni_Type n = "vmess" ∨ ni_Type n = "vless")) as [Ht|Ht].
  - intros [(e & _ & [=])|(v & Hv%deref_Ok & H)]%bind_may_inv.
    apply bind_may_inv in H as [(e & _ & [=])|(b' & Hb & [= <- <-])].
    rewrite Hv in *. unfold buildV2ray in Hb. rewrite Hv in Hb.
    destruct (decide (ni_Type n = "vless")) as [E|E].
    + apply bind_may_inv in Hb as [(e & _ & [=])|(x & Hx & Hb)].
      apply bind_may_inv in Hb as [(e & _ & [=])|(st & Hst & Hb)]. simpl in Hb.
      destruct (vallss_stream v) as [t|] eqn:Es; simplify_eq/=. split; [by simpl; congruence|].
      destruct (vallss_stream_spec _ _ Es). split; [|done]. intros Hs. eauto.
    + apply bind_may_inv in Hb as [(e & _ & [=])|(st & Hst & Hb)]. simpl in Hb.
      destruct (vallss_stream v) as [t|] eqn:Es; simplify_eq/=. split; [by destruct Ht|].
      destruct (vallss_stream_spec _ _ Es). split; [|done]. intros Hs. eauto.
  - destruct (decide (ni_Type n = "trojan")) as [E|E].
    + intros [(e & _ & [=])|(v & Hv%deref_Ok & H)]%bind_may_inv.
      apply bind_may_inv in H as [(e & _ & [=])|(b' & Hb & [= <- <-])].
      unfold buildTrojan in Hb. rewrite Hv in Hb.
      apply bind_may_inv in Hb as [(e & _ & [=])|(x & Hx & Hb)].
      apply bind_may_inv in Hb as [(e & _ & [=])|(st & Hst & Hb)]. simpl in Hb.
      destruct (trojan_stream v) as [t|] eqn:Es; simplify_eq/=. split; [by simpl; congruence|].
      by destruct (trojan_stream_spec _ _ Es).
    + destruct (decide (ni_Type n = "shadowsocks")) as [E'|E']; [|done].
      intros [(e & _ & [=])|(b' & Hb & [= <- <-])]%bind_may_inv.
      unfold buildShadowsocks in Hb.
      apply bind_may_inv in Hb as [(e & _ & [=])|(s & Hs & Hb)].
      apply bind_may_inv in Hb as [(e & _ & [=])|(p & Hp & Hb)].
      destruct (if decide (sn_ServerKey s = "") then _ else _) as [pw u].
      apply bind_may_inv in Hb as [(e & _ & [=])|(sets & Hsets & [= <-])].
      split; [by simpl; congruence|]. split; [by eexists|]. by intros ? [= <-].
Qed.

Lemma build_kind_total o n random : complete o n → is_Some (build_kind o n random).
Proof.
  intros (_ & [x Hx] & Hva & Htr & Hss & _). unfold build_kind.
  destruct (decide (ni_Type n = "vmess" ∨ ni_Type n = "vless")) as [Ht|Ht].
  { destruct (Hva Ht) as (v & Hv & _). rewrite Hv. simpl.
    apply bind_may_total; [|by eexists]. unfold buildV2ray. rewrite Hv, Hx. simpl.
    destruct (decide (ni_Type n = "vless")).
    - destruct (vless_settings _ _); simpl; [|by eexists]. by destruct (vallss_stream v); eexists.
    - destruct (annotate _ _); simpl; [|by eexists]. by destruct (vallss_stream v); eexists. }
  destruct (decide (ni_Type n = "trojan")) as [E|E].
  { destruct (Htr E) as [v Hv]. rewrite Hv. simpl.
    apply bind_may_total; [|by eexists]. unfold buildTrojan. rewrite Hv, Hx. simpl.
    destruct (if xo_EnableFallback x then _ else _) as [s|]; simpl; [|by eexists].
    by destruct (trojan_stream v); eexists. }
  destruct (decide (ni_Type n = "shadowsocks")) as [E'|E']; [|by eexists].
  destruct (Hss E') as [s Hs]. apply bind_may_total; [|by eexists].
  unfold buildShadowsocks. rewrite Hs. simpl. destruct (annotate _ random); simpl; [|by eexists].
  destruct (if decide (sn_ServerKey s = "") then _ else _) as [pw u].
  by destruct (annotate _ _); simpl; eexists.
Qed.

(** What is asked of the transport security of a node. *)
Definition security_exact (o : Options) (n : NodeInfo) (s : StreamConfig) : Prop :=
  if decide (ni_Security n = SecTls) then
    ∃ c, op_CertConfig o = Some c ∧
      if decide (cc_CertMode c = "none" ∨ cc_CertMode c = "") then st_Security s = ""
      else st_Security s = "tls" ∧
           st_TLSSettings s = Some (MkTLSConfig (cc_CertFile c) (cc_KeyFile c) 3600
             (cc_RejectUnknownSni c) (getInboundECHServerKeys n))
  else if decide (ni_Security n = SecReality) then
    ∃ v r, ni_VAllss n = Some v ∧ st_Security s = "reality" ∧ st_REALITYSettings s = Some r ∧
      reality v = Ok r
  else st_Security s = "".

Lemma proxy_protocol_security x network s :
  st_Security (proxy_protocol x network s) = st_Security s.
Proof. unfold proxy_protocol. by repeat case_decide. Qed.
Lemma secure_sound o n s s' : st_Security s = "" → secure o n s = Some (Ok s') → security_exact o n s'.
Proof.
  unfold secure, security_exact. intros Hs. case_decide.
  - destruct (op_CertConfig o) as [c|]; [|done]. case_decide as Hc; intros [= <-]; exists c;
      (split; [done|]); [rewrite decide_True by done|rewrite decide_False by done]; done.
  - case_decide; [|by intros [= <-]].
    intros [(e & _ & [=])|(v & Hv%deref_Ok & H')]%bind_may_inv.
    apply bind_may_inv in H' as [(e & _ & [=])|(r & [= Hr] & [= <-])]. by exists v, r.
Qed.
Lemma secure_total o n s : (ni_Security n = SecReality → is_Some (ni_VAllss n)) → is_Some (secure o n s).
Proof.
  intros H. unfold secure. case_decide.
  - destruct (op_CertConfig o); [|by eexists]. case_decide; by eexists.
  - case_decide; [|by eexists]. destruct H as [v ->]; [done|]. simpl.
    by destruct (reality v); eexists.
Qed.

Lemma reality_lists v r : reality v = Ok r → re_ServerNames r ≠ [] ∧ re_ShortIds r ≠ [].
Proof.
  unfold reality, reality_names. destruct (reality_dest _) as [dest|]; [|done]. simpl.
  destruct (annotate _ _) as [d|]; [|done]. simpl.
  set (names := match splitAndFilter (TrimSpace _) with [] => _ | _ => _ end).
  destruct names as [|nm nms]; [done|]. simpl.
  destruct (splitAndFilter (ts_ShortId _)) as [|i ids]; [done|]. by intros [= <-].
Qed.

(** (C20) The inbound of a node is what the panel and the options ask for.  For a node with
    its sections there is no panic: either an error of a builder or of the security part
    is returned, or xray is given an inbound of the node's own protocol, tag and port, and
    its security is the one of the node: a certificate unless the mode is none, REALITY
    with at least one server name and one short id, and nothing else otherwise. *)
Theorem inbound_exact (o : Options) (n : NodeInfo) (tag : string) (random : result (list ascii)) :
  complete o n →
  ∃ r, buildInbound o n tag random = Some r ∧
  ((∃ e, r = Err e ∧ (build_kind o n random = Some (Err e) ∨ ∃ s, secure o n s = Some (Err e))) ∨
   ∃ c common, r = Build c ∧ ni_Common n = Some common ∧
     in_Protocol (id_built c) = ni_Type n ∧ id_Tag c = tag ∧
     id_PortFrom c = cn_ServerPort common mod 2 ^ 32 ∧ id_PortTo c = id_PortFrom c ∧
     security_exact o n (id_Stream c) ∧
     ∀ rc, ni_Security n = SecReality → st_REALITYSettings (id_Stream c) = Some rc →
       re_ServerNames rc ≠ [] ∧ re_ShortIds rc ≠ []).
Proof.
  intros Hc. destruct (build_kind_total o n random Hc) as [k Hk].
  destruct Hc as ([common Hcm] & [x Hx] & Hva & _ & _ & Hre). unfold buildInbound. rewrite Hk.
  destruct k as [[b network]|e]; simpl; [|by eauto 10]. rewrite Hcm, Hx. simpl.
  destruct (build_kind_sound _ _ _ _ _ Hk) as (Hp & Hs & Hplain).
  destruct Hs as [s Hs]. { intros v Hv Ht. destruct (Hva Ht) as (v' & Hv' & ?). congruence. }
  rewrite Hs. simpl. destruct (secure_total o n (proxy_protocol x network s) Hre) as [r Hr].
  rewrite Hr. destruct r as [s'|e]; simpl; [|by eauto 10].
  eexists. split; [done|]. right. eexists _, common. do 6 (split; [done|]). cbn [id_Stream].
  assert (security_exact o n s') as Hse.
  { eapply secure_sound; [|exact Hr]. rewrite proxy_protocol_security. by apply Hplain. }
  split; [done|]. intros rc Hn Hrc. unfold security_exact in Hse. rewrite Hn in Hse.
  destruct Hse as (v & r & _ & _ & Hr' & Hre'). apply reality_lists with (v := v). congruence.
Qed.

(** A vmess or vless node whose configuration has no network settings takes the whole
    process down: the builder returns without a stream, which is then dereferenced. *)
Theorem inbound_without_settings_panics (o : Options) (n : NodeInfo) (v : VAllssNode)
    (tag : string) (random : result (list ascii)) (s : string) :
  ni_VAllss n = Some v → va_NetworkSettings v = "" →
  ni_Type n = "vmess" ∧ vmess_settings = Ok s ∨
  ni_Type n = "vless" ∧ (∃ x, op_XrayOptions o = Some x ∧ vless_settings (Some v) x = Ok s) →
  buildInbound o n tag random = None.
Proof.
  intros Hv Hempty Hk.
  assert (vallss_stream v = Ok None) as Hst. { unfold vallss_stream. by rewrite decide_True. }
  assert (build_kind o n random =
    Some (Ok (MkBuilt (ni_Type n) s None, va_Network v))) as Hkind.
  { unfold build_kind, buildV2ray.
    destruct Hk as [[-> Hs]|[-> (x & Hx & Hs)]]; simpl; rewrite Hv; simpl.
    - rewrite Hs. simpl. by rewrite Hst.
    - rewrite Hx. simpl. rewrite Hs. simpl. by rewrite Hst. }
  unfold buildInbound. rewrite Hkind. simpl.
  destruct (ni_Common n); [|done]. simpl. by destruct (op_XrayOptions o).
Qed.
End inbound.

(** ** Concrete inbounds *)

(** A library that decodes everything and prints a fixed text. *)
#[local] Instance toy_conf : XrayConf := {|
  TCPConfig := bool; WSConfig := bool; GRPCConfig := unit; HTTPUpgradeConfig := unit;
  SplitHTTPConfig := unit; Address := string;
  tcp_zero := false; tcp_accept b _ := b; ws_zero := false; ws_accept b _ := b;
  decode_tcp _ := Ok None; decode_ws _ := Ok None; decode_grpc _ := Ok None;
  decode_httpupgrade _ := Ok None; decode_xhttp _ := Ok None;
  decode_any _ := None; encode_any _ := None;
  marshal_string := Ok; marshal_vless c := Ok (vi_Decryption c); vmess_settings := Ok "{}";
  marshal_trojan _ := Ok "{}"; marshal_ss _ := Ok "{}"; ParseAddress a := a; ParseDuration _ := 0
|}.
Definition toy_options : Options :=
  MkOptions "" "xray" "" "0.0.0.0" "0.0.0.0" 0 LimitConfig_zero "" (Some NewXrayOptions) None ""
    (Some NewCertConfig).
Definition toy_node (settings : string) : NodeInfo :=
  let common := MkCommonNode "" 443 "" [] None in
  let v := MkVAllssNode common 2
    (MkTlsSettings "a.example, b.example" "" "" "01;02" "key" 0 ECHSettings_zero)
    None ECHSettings_zero "tcp" settings "" "" "" "" "" (MkRealityConfig 1 "" "" "") in
  MkNodeInfo 1 "vless" "vless" SecReality 60 60 (MkRawDNS ∅ "") (MkRules [] []) ""
    (Some v) None None None None None None None (Some common) None.

Lemma toy_complete : complete toy_options (toy_node "{}").
Proof.
  split; [by eexists|]. split; [by eexists|].
  split; [intros _; eexists; split; [reflexivity|discriminate]|].
  split; [discriminate|]. split; [discriminate|]. intros _. by eexists.
Qed.
Lemma inbound_exact_witness :
  ∃ c, buildInbound Ok toy_options (toy_node "{}") "tag" (Ok []) = Some (Ok c) ∧
    id_Tag c = "tag" ∧ id_PortFrom c = 443 ∧
    (re_Dest <$> st_REALITYSettings (id_Stream c)) = Some "a.example, b.example:443" ∧
    (re_ShortIds <$> st_REALITYSettings (id_Stream c)) = Some ["01"; "02"].
Proof.
  destruct (inbound_exact Ok toy_options (toy_node "{}") "tag" (Ok []) toy_complete)
    as (r & Hr & [(e & -> & _)|(c & common & -> & Hc & _ & Ht & Hp & _)]); [discriminate Hr|].
  exists c. split; [exact Hr|]. split; [exact Ht|]. split; [injection Hc as <-; exact Hp|].
  injection Hr as <-. split; vm_compute; reflexivity.
Defined.
Lemma inbound_without_settings_panics_witness :
  buildInbound (λ _, Ok ()) toy_options (toy_node "") "tag" (Ok []) = None.
Proof.
  eapply (inbound_without_settings_panics (λ _, Ok ()) toy_options (toy_node "")).
  - reflexivity.
  - reflexivity.
  - right. split; [reflexivity|]. exists NewXrayOptions. split; reflexivity.
Defined.
