(* ===== verification/Xray.v ===== *)
(** core/xray: the users, the traffic and the nodes of the xray core, its DNS file and the check
    of its routes (user.go, ss.go, trojan.go, vmess.go, outbound.go, node.go, dns.go, xray.go).

    The running instance of xray is a library: [XrayInstance] has the operations of its
    managers on its state, and the laws a theorem needs of them are hypotheses of that
    theorem.  [None] is a panic. *)
From S2P Require Import Prelude GoStrings Base64 Netutil PanelTypes Conf PanelNode TrafficCounter CoreApi.
From S2P Require Import XrayFormats XrayInbound.
#[local] Open Scope string_scope.
#[local] Open Scope Z_scope.
#[local] Open Scope yabx_scope.

(** * ss.go, trojan.go and vmess.go: the users of an inbound *)

Inductive account :=
| VMessAccount (id security : string)
| VLESSAccount (id flow encryption : string)
| TrojanAccount (password : string)
| SSAccount (password : string) (cipher : CipherType)
| SS2022Account (key : string).
Record User := MkUser { xu_Level : Z; xu_Email : string; xu_Account : account }.

Definition buildVmessUser (tag : string) (u : UserInfo) : User :=
  MkUser 0 (UserTag tag (ui_Uuid u)) (VMessAccount (ui_Uuid u) "auto").
Definition buildVmessUsers (tag : string) (users : list UserInfo) : list User :=
  map (buildVmessUser tag) users.
Definition buildVlessUser (tag : string) (u : UserInfo) (flow encryption : string) : User :=
  MkUser 0 (UserTag tag (ui_Uuid u)) (VLESSAccount (ui_Uuid u) flow encryption).
Definition buildVlessUsers (tag : string) (users : list UserInfo) (flow encryption : string) : list User :=
  map (λ u, buildVlessUser tag u flow encryption) users.
Definition buildTrojanUser (tag : string) (u : UserInfo) : User :=
  MkUser 0 (UserTag tag (ui_Uuid u)) (TrojanAccount (ui_Uuid u)).
Definition buildTrojanUsers (tag : string) (users : list UserInfo) : list User :=
  map (buildTrojanUser tag) users.
(** [uuid[:n]] panics when the uuid is shorter. *)
Definition buildSSUser (tag : string) (u : UserInfo) (cypher serverKey : string) : option User :=
  if decide (serverKey = "") then
    Some (MkUser 0 (UserTag tag (ui_Uuid u)) (SSAccount (ui_Uuid u) (getCipherFromString cypher)))
  else
    let n := ss2022KeyLength cypher in
    if bool_decide (length (to_bytes (ui_Uuid u)) < n)%nat then panic
    else Some (MkUser 0 (UserTag tag (ui_Uuid u))
           (SS2022Account (StdEncoding_EncodeToString (take n (to_bytes (ui_Uuid u)))))).
Definition buildSSUsers (tag : string) (users : list UserInfo) (cypher serverKey : string)
    : option (list User) := mapM (λ u, buildSSUser tag u cypher serverKey) users.

(** The switch of [AddUsers]. *)
Definition build_users (tag : string) (info : NodeInfo) (users : list UserInfo)
    : option (result (list User)) :=
  if decide (ni_Type info = "vmess") then may (Ok (buildVmessUsers tag users))
  else if decide (ni_Type info = "vless") then
    let encryption := resolveVlessOutboundEncryption (ni_VAllss info) in
    v ←? deref (ni_VAllss info); may (Ok (buildVlessUsers tag users (va_Flow v) encryption))
  else if decide (ni_Type info = "trojan") then may (Ok (buildTrojanUsers tag users))
  else if decide (ni_Type info = "shadowsocks") then
    s ←? deref (ni_Shadowsocks info); deref (buildSSUsers tag users (sn_Cipher s) (sn_ServerKey s))
  else may (Err ("unsupported node type: " ++ ni_Type info)).

(** * outbound.go *)

Record OutboundDetourConfig := MkOutboundDetourConfig {
  od_Protocol : string;
  od_Tag : string;
  od_SendThrough : option string;
  od_SocketSettings : option SocketConfig;
  od_Settings : string
}.
(** [freedom] is the encoded [FreedomConfig]. *)
Definition buildOutbound {OH} (Build : OutboundDetourConfig → result OH) (freedom : result string)
    (config : Options) (tag : string) : option (result OH) :=
  x ←? deref (op_XrayOptions config);
  setting ←? may (annotate "marshal proxy config error" freedom);
  may (Build (MkOutboundDetourConfig "freedom" tag
    (if decide (op_SendIP config = "") then None else Some (op_SendIP config))
    (if xo_EnableDNS x
     then Some (MkSocketConfig false false (normalizeDomainStrategy (xo_DNSType x))) else None)
    setting)).

(** * dns.go *)

(** An entry of [Servers] after the address was cut. *)
Record DNSServer := MkDNSServer {
  ds_address : string; ds_port : option Z; ds_domains : list string
}.
Definition dns_server (d : DNSEntry) : result DNSServer :=
  let address := dns_address d in
  if contains_byte ":" address && negb (contains_byte "/" address) then
    match SplitHostPort address with
    | None => Err ("address " ++ address)
    | Some (host, port) => Ok (MkDNSServer host (Some (default 0 (ParseUint port 16))) (dns_domains d))
    end
  else Ok (MkDNSServer address None (dns_domains d)).
Fixpoint dns_servers (l : list DNSEntry) : result (list DNSServer) :=
  match l with
  | [] => Ok []
  | d :: l => s ← dns_server d; ss ← dns_servers l; Ok (s :: ss)
  end.

Section dns.
(** [json.Indent], [json.MarshalIndent] of the configuration with these servers after the
    two fixed ones, decoding and building a [DNSConfig] (whether they fail), and the errors of
    emptying and writing the file. *)
Context (Indent : string → result string) (marshal_dns : list DNSServer → result string).
Context (dns_decode_err dns_build_err : string → option string).
Context (truncate_err write_err : option string).

(** [file]: the content of the file XRAY_DNS_PATH names, if it can be read.  The errors of
    building, emptying and writing are in a variable of the inner block; only the first is
    returned. *)
Definition saveDnsConfig (dns : string) (file : option string) : option string * option string :=
  match file with
  | None => (Some "read", file)
  | Some current =>
      if decide (current = dns) then (None, file)
      else
        let err := dns_decode_err dns in
        match dns_build_err dns with
        | Some e => (Some e, file)
        | None =>
            let file := if truncate_err is Some _ then file else Some "" in
            (err, if write_err is Some _ then file else Some dns)
        end
  end.
(** In the branch of the map the error of [saveDnsConfig] goes into a variable of that
    branch and is lost. *)
Definition updateDNSConfig (node : NodeInfo) (file : option string) : option string * option string :=
  let raw := ni_RawDNS node in
  if decide (rd_DNSJson raw = "") then
    if decide (rd_DNSMap raw = ∅) then (None, file)
    else
      match dns_servers (map snd (map_to_list (rd_DNSMap raw))) with
      | Err e => (Some e, file)
      | Ok servers =>
          match marshal_dns servers with
          | Err e => (Some e, file)
          | Ok text => (None, (saveDnsConfig text file).2)
          end
      end
  else
    match Indent (rd_DNSJson raw) with
    | Err e => (Some e, file)
    | Ok pretty => saveDnsConfig pretty file
    end.
End dns.

(** * The managers of a running instance *)

Class XrayInstance (S : Type) := {
  InboundConfig : Type; OutboundConfig : Type; Object : Type;
  InHandler : Type; OutHandler : Type; Proxy : Type; Manager : Type; MemoryUser : Type;
  (** [core.CreateObject] and the assertions on its result. *)
  create_inbound : InboundConfig → S → result Object;
  create_outbound : OutboundConfig → S → result Object;
  as_inbound : Object → option InHandler;
  as_outbound : Object → option OutHandler;
  (** inbound.Manager and outbound.Manager. *)
  ihm_AddHandler : InHandler → S → option string * S;
  ihm_RemoveHandler : string → S → option string * S;
  ihm_GetHandler : string → S → result InHandler;
  ohm_AddHandler : OutHandler → S → option string * S;
  ohm_RemoveHandler : string → S → option string * S;
  (** proxy.GetInbound and proxy.UserManager. *)
  get_inbound : InHandler → option Proxy;
  user_manager : Proxy → option Manager;
  um_AddUser : Manager → MemoryUser → S → option string * S;
  um_RemoveUser : Manager → string → S → option string * S;
  ToMemoryUser : User → result MemoryUser;
  (** stats.Manager: the value of a counter that is there, writing it, and removing it. *)
  counter_value : S → string → option Z;
  counter_set : string → Z → S → S;
  UnregisterCounter : string → S → S
}.

(** ** user.go *)

Definition up_name (taguuid : string) : string := "user>>>" ++ taguuid ++ ">>>traffic>>>uplink".
Definition down_name (taguuid : string) : string := "user>>>" ++ taguuid ++ ">>>traffic>>>downlink".

Section user.
Context {S : Type} `{!XrayInstance S}.

Definition GetUserManager (tag : string) (s : S) : result Manager :=
  match ihm_GetHandler tag s with
  | Err e => Err ("no such inbound tag: " ++ e)
  | Ok handler =>
      match get_inbound handler with
      | None => Err ("handler " ++ tag ++ " is not implement proxy.GetInbound")
      | Some p =>
          match user_manager p with
          | None => Err ("handler " ++ tag ++ " is not implement proxy.UserManager")
          | Some m => Ok m
          end
      end
  end.

Fixpoint remove_users (m : Manager) (tag : string) (users : list UserInfo) (s : S)
    : option string * S :=
  match users with
  | [] => (None, s)
  | u :: users =>
      let user := UserTag tag (ui_Uuid u) in
      match um_RemoveUser m user s with
      | (Some e, s) => (Some e, s)
      | (None, s) =>
          remove_users m tag users (UnregisterCounter (down_name user) (UnregisterCounter (up_name user) s))
      end
  end.
Definition xray_DelUsers (users : list UserInfo) (tag : string) (s : S) : option string * S :=
  match GetUserManager tag s with
  | Err e => (Some ("get user manager error: " ++ e), s)
  | Ok m => remove_users m tag users s
  end.

(** The value of a counter, which is set to zero when [reset]. *)
Definition read_counter (name : string) (reset : bool) (s : S) : Z * S :=
  match counter_value s name with
  | None => (0, s)
  | Some v => (v, if reset then counter_set name 0 s else s)
  end.
Definition xray_GetUserTraffic (tag uuid : string) (reset : bool) (s : S) : Z * Z * S :=
  let taguuid := UserTag tag uuid in
  let '(up, s1) := read_counter (up_name taguuid) reset s in
  let '(down, s2) := read_counter (down_name taguuid) reset s1 in
  (up, down, s2).
Definition add_counter (name : string) (n : Z) (s : S) : S :=
  if bool_decide (0 < n) then
    match counter_value s name with
    | None => s
    | Some v => counter_set name (wrap64 (v + n)) s
    end
  else s.
Definition xray_RestoreUserTraffic (tag uuid : string) (up down : Z) (s : S) : S :=
  let taguuid := UserTag tag uuid in
  add_counter (down_name taguuid) down (add_counter (up_name taguuid) up s).

Fixpoint add_users (m : Manager) (users : list User) (s : S) : option string * S :=
  match users with
  | [] => (None, s)
  | u :: users =>
      match ToMemoryUser u with
      | Err e => (Some e, s)
      | Ok mUser =>
          match um_AddUser m mUser s with
          | (Some e, s) => (Some e, s)
          | (None, s) => add_users m users s
          end
      end
  end.
Definition xray_AddUsers (tag : string) (users : list UserInfo) (info : NodeInfo) (s : S)
    : option (result Z * S) :=
  r ← build_users tag info users;
  match r with
  | Err e => Some (Err e, s)
  | Ok us =>
      match GetUserManager tag s with
      | Err e => Some (Err ("get user manager error: " ++ e), s)
      | Ok man =>
          match add_users man us s with
          | (Some e, s) => Some (Err e, s)
          | (None, s) => Some (Ok (Z.of_nat (length us)), s)
          end
      end
  end.

(** ** node.go *)

Definition addInbound (config : InboundConfig) (s : S) : option string * S :=
  match create_inbound config s with
  | Err e => (Some e, s)
  | Ok raw =>
      match as_inbound raw with
      | None => (Some "not an InboundHandler: %!s(<nil>)", s)
      | Some handler => ihm_AddHandler handler s
      end
  end.
Definition addOutbound (config : OutboundConfig) (s : S) : option string * S :=
  match create_outbound config s with
  | Err e => (Some e, s)
  | Ok raw =>
      match as_outbound raw with
      | None => (Some "not an InboundHandler: %!s(<nil>)", s)
      | Some handler => ohm_AddHandler handler s
      end
  end.
Definition removeInbound (tag : string) : S → option string * S := ihm_RemoveHandler tag.
Definition removeOutbound (tag : string) : S → option string * S := ohm_RemoveHandler tag.

(** The two builders and [updateDNSConfig] of a node: its options, its configuration, its tag. *)
Context (build_in : Options → NodeInfo → string → option (result InboundConfig)).
Context (build_out : Options → string → option (result OutboundConfig)).
Context (update_dns : NodeInfo → option string → option string * option string).

(** The state is the instance and the DNS file. *)
Definition xray_AddNode (tag : string) (info : NodeInfo) (config : Options)
    (st : S * option string) : option (option string * (S * option string)) :=
  let '(s, file) := st in
  match update_dns info file with
  | (Some e, file) => Some (Some ("build dns error: " ++ e), (s, file))
  | (None, file) =>
      r ← build_in config info tag;
      match r with
      | Err e => Some (Some ("build inbound error: " ++ e), (s, file))
      | Ok inboundConfig =>
          match addInbound inboundConfig s with
          | (Some e, s) => Some (Some ("add inbound error: " ++ e), (s, file))
          | (None, s) =>
              r ← build_out config tag;
              match r with
              | Err e => Some (Some ("build outbound error: " ++ e), (s, file))
              | Ok outBoundConfig =>
                  match addOutbound outBoundConfig s with
                  | (Some e, s) => Some (Some ("add outbound error: " ++ e), (s, file))
                  | (None, s) => Some (None, (s, file))
                  end
              end
          end
      end
  end.
Definition xray_DelNode (tag : string) (s : S) : option string * S :=
  match removeInbound tag s with
  | (Some e, s) => (Some ("remove in error: " ++ e), s)
  | (None, s) =>
      match removeOutbound tag s with
      | (Some e, s) => (Some ("remove out error: " ++ e), s)
      | (None, s) => (None, s)
      end
  end.
End user.

(** * xray.go: the outbound tags the routes refer to *)

Definition collectConfiguredOutboundTags (outboundTags : list string) : gset string :=
  foldl (λ tags t, let tag := TrimSpace t in if decide (tag = "") then tags else {[tag]} ∪ tags)
    ∅ outboundTags.
(** [decode_tag]: the field outboundTag of a rule, if the rule decodes. *)
Definition collectMissingRouteOutboundTags (decode_tag : string → result string)
    (ruleList : list string) (definedTags : gset string) : gset string :=
  foldl (λ missing rawRule,
    match decode_tag rawRule with
    | Err _ => missing
    | Ok t =>
        let tag := TrimSpace t in
        if decide (tag = "") then missing
        else if decide (tag ∈ definedTags) then missing
        else {[tag]} ∪ missing
    end) ∅ ruleList.
(** The tags the warning names; [None] when there is no warning. *)
Definition validateRouteOutboundReferences (decode_tag : string → result string)
    (ruleList : list string) (outboundTags : list string) : option (list string) :=
  match ruleList with
  | [] => None
  | _ =>
      let definedTags := collectConfiguredOutboundTags outboundTags in
      let missingTags := collectMissingRouteOutboundTags decode_tag ruleList definedTags in
      if decide (missingTags = ∅) then None else Some (sort_Strings (elements missingTags))
  end.
(** The tags of the built rules, each once. *)
Fixpoint route_tags (seen : gset string) (rules : list string) : list string :=
  match rules with
  | [] => []
  | t :: rules =>
      let tag := TrimSpace t in
      if decide (tag = "") then route_tags seen rules
      else if decide (tag ∈ seen) then route_tags seen rules
      else tag :: route_tags ({[tag]} ∪ seen) rules
  end.
Definition collectRouteOutboundTags (rules : list string) : list string :=
  sort_Strings (route_tags ∅ rules).

(** A set that grows by what each element of a list contributes. *)
Lemma elem_of_foldl_add {A} (g : A → option string) (step : gset string → A → gset string) l :
  (∀ m a, step m a = match g a with Some t => {[t]} ∪ m | None => m end) →
  ∀ m t, t ∈ foldl step m l ↔ t ∈ m ∨ ∃ a, a ∈ l ∧ g a = Some t.
Proof.
  intros Hstep. induction l as [|a l IH]; intros m t; cbn [foldl].
  - split; [by left|]. intros [?|(a & []%elem_of_nil & _)]. done.
  - rewrite IH, Hstep. setoid_rewrite elem_of_cons. destruct (g a) as [u|] eqn:E; set_solver.
Qed.

Lemma configured_spec tags t :
  t ∈ collectConfiguredOutboundTags tags ↔ t ≠ "" ∧ ∃ raw, raw ∈ tags ∧ TrimSpace raw = t.
Proof.
  unfold collectConfiguredOutboundTags.
  rewrite (elem_of_foldl_add (λ r, if decide (TrimSpace r = "") then None else Some (TrimSpace r))).
  2: { intros m a. cbv zeta. by destruct (decide _). }
  rewrite elem_of_empty. split.
  - intros [[]|(a & Ha & E)]. destruct (decide _) in E; simplify_eq. eauto.
  - intros (Ht & raw & Hr & <-). right. exists raw. by rewrite decide_False.
Qed.
Lemma missing_spec decode_tag rules defined t :
  t ∈ collectMissingRouteOutboundTags decode_tag rules defined ↔
  t ≠ "" ∧ t ∉ defined ∧ ∃ rule raw, rule ∈ rules ∧ decode_tag rule = Ok raw ∧ TrimSpace raw = t.
Proof.
  unfold collectMissingRouteOutboundTags.
  rewrite (elem_of_foldl_add (λ r, match decode_tag r with
    | Err _ => None
    | Ok t => if decide (TrimSpace t = "") then None
              else if decide (TrimSpace t ∈ defined) then None else Some (TrimSpace t)
    end)).
  2: { intros m a. destruct (decode_tag a); [|done]. cbv zeta. by repeat destruct (decide _). }
  rewrite elem_of_empty. split.
  - intros [[]|(a & Ha & E)]. destruct (decode_tag a) as [raw|] eqn:Er; [|done].
    destruct (decide _) in E; [done|]. destruct (decide _) in E; simplify_eq. eauto 10.
  - intros (Ht & Hd & rule & raw & Hr & E & <-). right. exists rule. rewrite E.
    by rewrite !decide_False.
Qed.

(** The check of the routes warns about exactly the outbound tags that rules name and no
    outbound defines, once each and in order, and keeps quiet when there is none; blank tags
    count on neither side and rules that do not decode are passed over. *)
Theorem route_check_exact (decode_tag : string → result string) (rules outbounds : list string) :
  let missing t := t ≠ "" ∧ (∃ rule raw, rule ∈ rules ∧ decode_tag rule = Ok raw ∧ TrimSpace raw = t) ∧
    ¬ ∃ o, o ∈ outbounds ∧ TrimSpace o = t in
  match validateRouteOutboundReferences decode_tag rules outbounds with
  | None => ∀ t, ¬ missing t
  | Some l => l ≠ [] ∧ NoDup l ∧ StronglySorted String.le l ∧ ∀ t, t ∈ l ↔ missing t
  end.
Proof.
  intros missing. unfold validateRouteOutboundReferences.
  set (set_ := collectMissingRouteOutboundTags _ _ _).
  assert (∀ t, t ∈ set_ ↔ missing t) as Hset.
  { intros t. unfold set_, missing. rewrite missing_spec, configured_spec. naive_solver. }
  destruct rules as [|r rules].
  { intros t (_ & (rule & raw & []%elem_of_nil & _) & _). }
  destruct (decide (set_ = ∅)) as [E|E].
  - intros t Ht%Hset. rewrite E in Ht. by apply elem_of_empty in Ht.
  - split_and!.
    + intros Hl. apply E, leibniz_equiv, elements_empty_inv, Permutation_nil.
      by rewrite <-Hl, sort_Strings_Permutation.
    + rewrite sort_Strings_Permutation. apply NoDup_elements.
    + apply sort_Strings_sorted.
    + intros t. rewrite sort_Strings_Permutation, elem_of_elements. apply Hset.
Qed.

(** * The laws the controllers bill by *)

Class StatsLaws (S : Type) `{!XrayInstance S} :=
  counter_set_value name v s m : counter_value (counter_set name v s) m =
    if decide (name = m) then (λ _, v) <$> counter_value s m else counter_value s m.

Lemma up_name_inj : Inj (=) (=) up_name.
Proof.
  intros a b H. unfold up_name in H. apply (f_equal to_bytes) in H. rewrite !to_bytes_app in H.
  by apply app_inv_head, app_inv_tail, to_bytes_inj in H.
Qed.
Lemma down_name_inj : Inj (=) (=) down_name.
Proof.
  intros a b H. unfold down_name in H. apply (f_equal to_bytes) in H. rewrite !to_bytes_app in H.
  by apply app_inv_head, app_inv_tail, to_bytes_inj in H.
Qed.
Lemma up_down_name a b : up_name a ≠ down_name b.
Proof.
  intros H. unfold up_name, down_name in H. apply (f_equal (λ s, reverse (to_bytes s))) in H.
  rewrite !to_bytes_app, !reverse_app in H. discriminate H.
Qed.
#[export] Existing Instances up_name_inj down_name_inj.

Section laws.
Context {S : Type} `{!XrayInstance S} `{!StatsLaws S}.

#[export] Instance xray_traffic : CoreTraffic S := {
  GetUserTraffic := xray_GetUserTraffic;
  RestoreUserTraffic := xray_RestoreUserTraffic
}.

Lemma read_counter_spec name r s m : counter_value (read_counter name r s).2 m =
  if decide (r = true ∧ name = m) then (λ _, 0) <$> counter_value s m else counter_value s m.
Proof.
  unfold read_counter. destruct (counter_value s name) as [v|] eqn:E; cbn [snd].
  - destruct r; [rewrite counter_set_value|]; repeat case_decide; naive_solver.
  - case_decide as H; [|done]. destruct H as [_ <-]. by rewrite E.
Qed.
Lemma read_counter_value name r s : (read_counter name r s).1 = default 0 (counter_value s name).
Proof. unfold read_counter. by destruct (counter_value s name). Qed.
Lemma add_counter_spec name n s m : counter_value (add_counter name n s) m =
  if decide (name = m) then (λ v, add_pos v n) <$> counter_value s m else counter_value s m.
Proof.
  unfold add_counter, add_pos. case_bool_decide.
  - destruct (counter_value s name) as [v|] eqn:E.
    + rewrite counter_set_value. case_decide; [subst; by rewrite E|done].
    + case_decide; [subst; by rewrite E|done].
  - case_decide; [|done]. by destruct (counter_value s m).
Qed.

Definition xray_pending (s : S) (tag uuid : string) : Z * Z :=
  (default 0 (counter_value s (up_name (UserTag tag uuid))),
   default 0 (counter_value s (down_name (UserTag tag uuid)))).

Lemma xray_get tag uuid r s :
  (xray_GetUserTraffic tag uuid r s).1 = xray_pending s tag uuid ∧
  (∀ m, counter_value (xray_GetUserTraffic tag uuid r s).2 m =
    if decide (r = true ∧ (up_name (UserTag tag uuid) = m ∨ down_name (UserTag tag uuid) = m))
    then (λ _, 0) <$> counter_value s m else counter_value s m).
Proof.
  unfold xray_GetUserTraffic, xray_pending.
  pose proof (read_counter_value (up_name (UserTag tag uuid)) r s) as Hu.
  pose proof (read_counter_spec (up_name (UserTag tag uuid)) r s) as Hs1.
  destruct (read_counter (up_name _) r s) as [up s1]; simpl in *.
  pose proof (read_counter_value (down_name (UserTag tag uuid)) r s1) as Hd.
  pose proof (read_counter_spec (down_name (UserTag tag uuid)) r s1) as Hs2.
  destruct (read_counter (down_name _) r s1) as [down s2]; simpl in *. split.
  - rewrite Hu, Hd, Hs1, decide_False; [done|]. intros [_ H]. by apply up_down_name in H.
  - intros m. rewrite Hs2, Hs1.
    destruct r; [|by rewrite !decide_False by naive_solver].
    destruct (decide (true = true ∧ down_name _ = m)) as [[_ Hm]|],
      (decide (true = true ∧ up_name _ = m)) as [[_ Hm']|]; subst.
    + by apply up_down_name in Hm'.
    + by rewrite decide_True by auto.
    + by rewrite decide_True by auto.
    + by rewrite decide_False by naive_solver.
Qed.
Lemma xray_restore tag uuid u d s m :
  counter_value (xray_RestoreUserTraffic tag uuid u d s) m =
    if decide (up_name (UserTag tag uuid) = m) then (λ v, add_pos v u) <$> counter_value s m
    else if decide (down_name (UserTag tag uuid) = m) then (λ v, add_pos v d) <$> counter_value s m
    else counter_value s m.
Proof.
  unfold xray_RestoreUserTraffic. rewrite !add_counter_spec.
  destruct (decide (up_name _ = m)) as [<-|]; [|by case_decide].
  rewrite decide_False; [done|]. intros H. symmetry in H. by apply up_down_name in H.
Qed.

#[export] Program Instance xray_laws : TrafficLaws S := {|
  pending := xray_pending;
  counting_up s tag uuid := is_Some (counter_value s (up_name (UserTag tag uuid)));
  counting_down s tag uuid := is_Some (counter_value s (down_name (UserTag tag uuid)));
  core_ok _ := True
|}.
Next Obligation. done. Qed.
Next Obligation. done. Qed.
Next Obligation. intros. apply xray_get. Qed.
Next Obligation.
  intros tag uuid s _. simpl. unfold xray_GetUserTraffic, read_counter.
  destruct (counter_value s (up_name _)); by destruct (counter_value s (down_name _)).
Qed.
Next Obligation.
  intros tag uuid v s _. unfold xray_pending. destruct (xray_get tag uuid true s) as [_ H].
  rewrite !H. destruct (decide (uuid = v)) as [<-|Hne].
  - rewrite !decide_True by auto. by destruct (counter_value s _), (counter_value s _).
  - rewrite !decide_False; [done|..]; intros [_ [E|E]]; try (by apply up_down_name in E);
      try (symmetry in E; by apply up_down_name in E); by simplify_eq.
Qed.
Next Obligation.
  intros tag uuid u d s _ Hu Hd. unfold xray_pending. simpl. rewrite !xray_restore.
  rewrite decide_True by done. rewrite decide_False by apply up_down_name.
  rewrite decide_True by done. unfold add_pos in *.
  destruct (counter_value s (up_name _)), (counter_value s (down_name _)); simpl; f_equal;
    case_bool_decide as Hpos; try done;
    first [by destruct (Hu Hpos)|by destruct (Hd Hpos)].
Qed.
Next Obligation.
  intros tag uuid u d v s _ Hne. unfold xray_pending. simpl. rewrite !xray_restore.
  rewrite !decide_False; [done|..]; intros E; try (by apply up_down_name in E);
    try (symmetry in E; by apply up_down_name in E); by simplify_eq.
Qed.
Next Obligation.
  intros tag uuid s. unfold xray_pending. simpl. by destruct (counter_value s (up_name _)).
Qed.
Next Obligation.
  intros tag uuid s. unfold xray_pending. simpl. by destruct (counter_value s (down_name _)).
Qed.
Next Obligation.
  intros tag uuid r v s _. destruct (xray_get tag uuid r s) as [_ H]. simpl in *. rewrite !H.
  split; intros [x E]; rewrite E; destruct (decide (r = true ∧ _)); by eexists.
Qed.
Next Obligation.
  intros tag uuid u d v s _. simpl. rewrite !xray_restore.
  split; intros [x E]; rewrite E; repeat destruct (decide (_ = _)); by eexists.
Qed.
#[export] Instance xray_local : TrafficLocal S.
Proof.
  split.
  - intros tag uuid r s tag' v _ Hne. cbn [pending xray_laws]. unfold xray_pending.
    destruct (xray_get tag uuid r s) as [_ H]. rewrite !H.
    rewrite !decide_False; [done|..]; intros [_ [E|E]];
      first [by apply up_down_name in E|by symmetry in E; apply up_down_name in E|by simplify_eq].
  - intros tag uuid u d s tag' v _ Hne. cbn [pending xray_laws]. unfold xray_pending.
    simpl. rewrite !xray_restore.
    rewrite !decide_False; [done|..]; intros E;
      first [by apply up_down_name in E|by symmetry in E; apply up_down_name in E|by simplify_eq].
Qed.
End laws.

(** * The users of an inbound *)

Lemma buildSSUser_spec tag u cypher serverKey :
  match buildSSUser tag u cypher serverKey with
  | None => serverKey ≠ "" ∧ (length (to_bytes (ui_Uuid u)) < ss2022KeyLength cypher)%nat
  | Some x => xu_Email x = UserTag tag (ui_Uuid u) ∧
      (serverKey ≠ "" → xu_Account x = SS2022Account (StdEncoding_EncodeToString
        (take (ss2022KeyLength cypher) (to_bytes (ui_Uuid u)))))
  end.
Proof. unfold buildSSUser. case_decide; [done|]. cbv zeta. by case_bool_decide. Qed.
Lemma buildSSUsers_spec tag users cypher serverKey :
  match buildSSUsers tag users cypher serverKey with
  | None => serverKey ≠ "" ∧ ∃ u, u ∈ users ∧ (length (to_bytes (ui_Uuid u)) < ss2022KeyLength cypher)%nat
  | Some us => map xu_Email us = map (λ u, UserTag tag (ui_Uuid u)) users ∧
      (serverKey ≠ "" → map xu_Account us = map (λ u, SS2022Account (StdEncoding_EncodeToString
        (take (ss2022KeyLength cypher) (to_bytes (ui_Uuid u))))) users)
  end.
Proof.
  unfold buildSSUsers. induction users as [|u users IH]; [done|]. cbn [mapM].
  pose proof (buildSSUser_spec tag u cypher serverKey) as Hu.
  destruct (buildSSUser tag u cypher serverKey) as [x|]; cbn.
  - destruct (mapM _ users) as [us|]; cbn.
    + destruct Hu as [-> Ha], IH as [-> IH]. split; [done|]. intros Hk. by rewrite Ha, IH.
    + destruct IH as (? & w & Hw & Hl). split; [done|]. exists w. split; [by constructor|done].
  - destruct Hu as [? Hl]. split; [done|]. exists u. split; [by constructor|done].
Qed.

(** The users an inbound of xray is given: one for each user of the panel, in order, known
    by the key the limiter and the statistics use.  A shadowsocks node of the 2022 kind
    gives a user the first bytes of its uuid as key, and panics when a uuid is shorter than
    the key; the other panics are nodes without their section. *)
Theorem xray_users_exact (tag : string) (info : NodeInfo) (users : list UserInfo) :
  match build_users tag info users with
  | Some (Ok us) => map xu_Email us = map (λ u, UserTag tag (ui_Uuid u)) users ∧
      ∀ s, ni_Type info = "shadowsocks" → ni_Shadowsocks info = Some s → sn_ServerKey s ≠ "" →
        map xu_Account us = map (λ u, SS2022Account (StdEncoding_EncodeToString
          (take (ss2022KeyLength (sn_Cipher s)) (to_bytes (ui_Uuid u))))) users
  | Some (Err _) => ni_Type info ∉ ["vmess"; "vless"; "trojan"; "shadowsocks"]
  | None =>
      ni_Type info = "vless" ∧ ni_VAllss info = None ∨
      ni_Type info = "shadowsocks" ∧
        (ni_Shadowsocks info = None ∨
         ∃ s u, ni_Shadowsocks info = Some s ∧ sn_ServerKey s ≠ "" ∧ u ∈ users ∧
           (length (to_bytes (ui_Uuid u)) < ss2022KeyLength (sn_Cipher s))%nat)
  end.
Proof.
  unfold build_users.
  destruct (decide (ni_Type info = "vmess")) as [->|H1].
  { simpl. split; [|done]. unfold buildVmessUsers. by rewrite map_map. }
  destruct (decide (ni_Type info = "vless")) as [->|H2].
  { destruct (ni_VAllss info) as [v|]; simpl; [|by left]. split; [|done].
    unfold buildVlessUsers. by rewrite map_map. }
  destruct (decide (ni_Type info = "trojan")) as [->|H3].
  { simpl. split; [|done]. unfold buildTrojanUsers. by rewrite map_map. }
  destruct (decide (ni_Type info = "shadowsocks")) as [->|H4]; [|simpl; set_solver].
  destruct (ni_Shadowsocks info) as [s|]; simpl; [|by auto].
  pose proof (buildSSUsers_spec tag users (sn_Cipher s) (sn_ServerKey s)) as H.
  destruct (buildSSUsers _ _ _ _) as [us|]; simpl.
  - destruct H as [H H']. split; [done|]. by intros ? _ [= <-].
  - right. split; [done|]. right. destruct H as (Hk & u & Hu & Hl). by exists s, u.
Qed.

(** * The DNS file *)

Section dns_theorems.
Context (Indent : string → result string) (marshal_dns : list DNSServer → result string).
Context (dns_decode_err dns_build_err : string → option string).
Context (truncate_err write_err : option string).
#[local] Abbreviation save := (saveDnsConfig dns_decode_err dns_build_err truncate_err write_err).
#[local] Abbreviation update :=
  (updateDNSConfig Indent marshal_dns dns_decode_err dns_build_err truncate_err write_err).

Lemma dns_servers_err l d : d ∈ l → is_ok (dns_server d) = false → is_ok (dns_servers l) = false.
Proof.
  induction l as [|x l IH]; intros Hd Hbad; [by apply elem_of_nil in Hd|]. simpl.
  apply elem_of_cons in Hd as [->|Hd].
  - by destruct (dns_server x).
  - destruct (dns_server x); simpl; [|done]. specialize (IH Hd Hbad). by destruct (dns_servers l).
Qed.

(** What an operator does not learn about the DNS file.  A node whose routes give a DNS
    table is added whatever happens to the file: the error of saving it is assigned to a
    variable of the inner block.  A node whose routes give the whole configuration fails when
    the file cannot be read, but neither hears that the file could not be written, which by
    then is empty.  And one address of the table with a colon that is not of the form
    host:port, such as a plain IPv6 address, keeps the node from being added. *)
Theorem dns_save_errors_lost (node : NodeInfo) (file : option string) :
  (rd_DNSJson (ni_RawDNS node) = "" →
    (updateDNSConfig Indent marshal_dns dns_decode_err dns_build_err truncate_err write_err node file).1 =
      (update node None).1) ∧
  (rd_DNSJson (ni_RawDNS node) ≠ "" → (update node None).1 ≠ None) ∧
  (∀ dns current w, file = Some current → current ≠ dns → dns_decode_err dns = None →
    dns_build_err dns = None → truncate_err = None → write_err = Some w →
    save dns file = (None, Some "")) ∧
  (∀ k d, rd_DNSJson (ni_RawDNS node) = "" → rd_DNSMap (ni_RawDNS node) !! k = Some d →
    contains_byte ":" (dns_address d) = true → contains_byte "/" (dns_address d) = false →
    SplitHostPort (dns_address d) = None → ∃ e, update node file = (Some e, file)).
Proof.
  unfold updateDNSConfig. cbv zeta. split_and!.
  - intros E. rewrite !(decide_True _ _ E). case_decide; [done|].
    destruct (dns_servers _); [|done]. by destruct (marshal_dns _).
  - intros E. rewrite decide_False by done. by destruct (Indent _).
  - intros dns current w -> Hne Hd Hb Ht Hw. unfold saveDnsConfig.
    by rewrite decide_False, Hb, Hd, Ht, Hw.
  - intros k d E Hk Hc Hs Hp. rewrite decide_True by done. case_decide as Hempty.
    { by rewrite Hempty, lookup_empty in Hk. }
    assert (is_ok (dns_servers (map snd (map_to_list (rd_DNSMap (ni_RawDNS node))))) = false) as H.
    { apply (dns_servers_err _ d).
      - apply list_elem_of_fmap. exists (k, d). split; [done|]. by apply elem_of_map_to_list.
      - unfold dns_server. by rewrite Hc, Hs, Hp. }
    destruct (dns_servers _); [done|]. by eexists.
Qed.
End dns_theorems.

(** * A node whose outbound fails *)

Section half_added.
Context {S : Type} `{!XrayInstance S}.
(** An inbound manager keeps handlers by their tags and takes no second handler with a tag;
    the outbound manager has no part in that. *)
Context (handler_tag : InHandler → string) (registered : S → string → Prop).
Context (build_in : Options → NodeInfo → string → option (result InboundConfig)).
Context (build_out : Options → string → option (result OutboundConfig)).
Context (update_dns : NodeInfo → option string → option string * option string).

Record tag_laws : Prop := {
  tl_build o i t c s raw h : build_in o i t = Some (Ok c) → create_inbound c s = Ok raw →
    as_inbound raw = Some h → handler_tag h = t;
  tl_add h s s' : ihm_AddHandler h s = (None, s') → registered s' (handler_tag h);
  tl_twice h s : registered s (handler_tag h) → ∃ e, ihm_AddHandler h s = (Some e, s);
  tl_out h s t : registered s t → registered (ohm_AddHandler h s).2 t
}.
#[local] Abbreviation addNode := (xray_AddNode build_in build_out update_dns).

Lemma addOutbound_registered c s t : tag_laws → registered s t → registered (addOutbound c s).2 t.
Proof.
  intros L Hs. unfold addOutbound. destruct (create_outbound c s) as [raw|]; [|done].
  destruct (as_outbound raw); [|done]. by apply (tl_out L).
Qed.
(** While the inbound of a tag is there, no node is added under it. *)
Lemma addNode_registered tag info config s file r : tag_laws → registered s tag →
  addNode tag info config (s, file) = Some r → r.1 ≠ None ∧ r.2.1 = s.
Proof.
  intros L Hs. unfold xray_AddNode. destruct (update_dns info file) as [[e|] file1].
  { by intros [= <-]. }
  destruct (build_in config info tag) as [[c|e]|] eqn:Eb; [|by intros [= <-]|done]. simpl.
  assert (∃ e, addInbound c s = (Some e, s)) as [e ->]; [|by intros [= <-]].
  unfold addInbound. destruct (create_inbound c s) as [raw|] eqn:Ec; [|by eexists].
  destruct (as_inbound raw) as [h|] eqn:Eh; [|by eexists].
  apply (tl_twice L). by rewrite (tl_build L _ _ _ _ _ _ _ Eb Ec Eh).
Qed.

(** A node whose outbound cannot be made is half added: [AddNode] returns the error and
    leaves the inbound.  Its tag is taken from then on: every later [AddNode] under the tag
    fails too, with whatever configuration, and changes nothing. *)
Theorem half_added_node (tag : string) (info : NodeInfo) (config : Options) (s s1 : S)
    (file file1 : option string) (c : InboundConfig) :
  tag_laws →
  update_dns info file = (None, file1) → build_in config info tag = Some (Ok c) →
  addInbound c s = (None, s1) →
  ((∃ e, build_out config tag = Some (Err e)) ∨
   ∃ oc e, build_out config tag = Some (Ok oc) ∧ (addOutbound oc s1).1 = Some e) →
  ∃ e s', addNode tag info config (s, file) = Some (Some e, (s', file1)) ∧ registered s' tag ∧
    ∀ info' config' file' r, addNode tag info' config' (s', file') = Some r →
      r.1 ≠ None ∧ r.2.1 = s'.
Proof.
  intros L Hdns Hb Hin Hout.
  assert (registered s1 tag) as Hreg.
  { unfold addInbound in Hin. destruct (create_inbound c s) as [raw|] eqn:Ec; [|done].
    destruct (as_inbound raw) as [h|] eqn:Eh; [|done].
    rewrite <-(tl_build L _ _ _ _ _ _ _ Hb Ec Eh). by apply (tl_add L _ _ _ Hin). }
  unfold xray_AddNode at 1. rewrite Hdns, Hb. simpl. rewrite Hin.
  destruct Hout as [[e ->]|(oc & e & -> & He)]; simpl.
  - eexists _, s1. split; [done|]. split; [done|]. intros * H. by eapply addNode_registered.
  - pose proof (addOutbound_registered oc s1 tag L Hreg) as Hreg'.
    destruct (addOutbound oc s1) as [r s2]. simpl in *. subst r.
    eexists _, s2. split; [done|]. split; [done|]. intros * H. by eapply addNode_registered.
Qed.
End half_added.

(** ** A small instance *)

(** Handlers are tags, an inbound or outbound is known by its tag, and an outbound without
    a tag cannot be made. *)
Record toy := MkToy { toy_in : gset string; toy_out : gset string; toy_counters : gmap string Z }.
Definition toy_add (t : string) (m : gset string) : option string * gset string :=
  if decide (t ∈ m) then (Some "existing tag found", m) else (None, {[t]} ∪ m).
Definition toy_del (t : string) (m : gset string) : option string * gset string :=
  if decide (t ∈ m) then (None, m ∖ {[t]}) else (Some "not found", m).
#[local] Instance toy_instance : XrayInstance toy := {|
  InboundConfig := string; OutboundConfig := string; Object := string;
  InHandler := string; OutHandler := string; Proxy := string; Manager := string;
  MemoryUser := User;
  create_inbound c _ := Ok c;
  create_outbound c _ := if decide (c = "") then Err "no tag" else Ok c;
  as_inbound := Some; as_outbound := Some;
  ihm_AddHandler t s := let '(e, m) := toy_add t (toy_in s) in (e, MkToy m (toy_out s) (toy_counters s));
  ihm_RemoveHandler t s := let '(e, m) := toy_del t (toy_in s) in (e, MkToy m (toy_out s) (toy_counters s));
  ihm_GetHandler t s := if decide (t ∈ toy_in s) then Ok t else Err "not found";
  ohm_AddHandler t s := let '(e, m) := toy_add t (toy_out s) in (e, MkToy (toy_in s) m (toy_counters s));
  ohm_RemoveHandler t s := let '(e, m) := toy_del t (toy_out s) in (e, MkToy (toy_in s) m (toy_counters s));
  get_inbound := Some; user_manager := Some;
  um_AddUser _ _ s := (None, s); um_RemoveUser _ _ s := (None, s); ToMemoryUser := Ok;
  counter_value s n := toy_counters s !! n;
  counter_set n v s := MkToy (toy_in s) (toy_out s) (alter (λ _, v) n (toy_counters s));
  UnregisterCounter n s := MkToy (toy_in s) (toy_out s) (delete n (toy_counters s))
|}.
#[local] Instance toy_stats : StatsLaws toy.
Proof.
  intros n v s m. simpl. case_decide; subst; [by rewrite lookup_alter_eq|by rewrite lookup_alter_ne].
Qed.

Lemma toy_tag_laws :
  tag_laws (S := toy) (XrayInstance0 := toy_instance) (λ t : string, t) (λ s t, t ∈ toy_in s) (λ _ _ t, Some (Ok t)).
Proof.
  constructor; simpl.
  - intros; simplify_eq. congruence.
  - unfold toy_add. intros h s s'. case_decide; [done|]. intros [= <-]. simpl. set_solver.
  - unfold toy_add. intros h s Hs. rewrite decide_True by done. exists "existing tag found".
    by destruct s.
  - unfold toy_add. intros h s t Hs. by case_decide.
Qed.
Lemma half_added_node_witness :
  ∃ e s', xray_AddNode (λ _ _ t, Some (Ok t)) (λ _ _, Some (Ok "")) (λ _ f, (None, f)) "n"
      (toy_node "{}") toy_options (MkToy ∅ ∅ ∅, None) = Some (Some e, (s', None)) ∧ "n" ∈ toy_in s' ∧
    ∀ info' config' file' r, xray_AddNode (λ _ _ t, Some (Ok t)) (λ _ _, Some (Ok "")) (λ _ f, (None, f))
      "n" info' config' (s', file') = Some r → r.1 ≠ None ∧ r.2.1 = s'.
Proof.
  eapply (half_added_node (S := toy) (XrayInstance0 := toy_instance) (λ t : string, t) (λ s t, t ∈ toy_in s)).
  - apply toy_tag_laws.
  - reflexivity.
  - reflexivity.
  - reflexivity.
  - right. exists "", "no tag". split; reflexivity.
Defined.

Definition dns_node (address : string) : NodeInfo :=
  MkNodeInfo 1 "vless" "vless" 0 60 60 (MkRawDNS {["0" := MkDNSEntry address []]} "") (MkRules [] [])
    "" None None None None None None None None None None.
(** A plain IPv6 address. *)
Lemma dns_save_errors_lost_witness :
  ∃ e, updateDNSConfig Ok (λ _, Ok "{}") (λ _, None) (λ _, None) None None
    (dns_node "2001:4860:4860::8888") (Some "") = (Some e, Some "").
Proof.
  eapply (proj2 (proj2 (proj2 (dns_save_errors_lost Ok (λ _, Ok "{}") (λ _, None) (λ _, None) None None
    (dns_node "2001:4860:4860::8888") (Some "")))) "0" (MkDNSEntry "2001:4860:4860::8888" []));
    vm_compute; reflexivity.
Defined.
Lemma xray_users_exact_witness :
  build_users "n" (toy_node "{}") [MkUserInfo 1 "a" 0 0] =
    Some (Ok [MkUser 0 "n|a" (VLESSAccount "a" "" "")]) ∧
  map xu_Email [MkUser 0 "n|a" (VLESSAccount "a" "" "")] = ["n|a"].
Proof.
  split; [vm_compute; reflexivity|].
  exact (proj1 (xray_users_exact "n" (toy_node "{}") [MkUserInfo 1 "a" 0 0])).
Defined.
