(* ===== verification/XrayCore.v ===== *)
(** core/xray/xray.go: the instance of xray is made from its configuration and the files it
    names, started and closed.

    The configuration types of xray, their decoders and builders and [core.New] are a class;
    the files come through [ReadFile].  A call of [Panic] on the log is [None]. *)
From S2P Require Import Prelude GoStrings Paths Disk PanelTypes Conf Xray.
#[local] Open Scope string_scope.
#[local] Open Scope Z_scope.

Definition xray_protocols : list string := ["vmess"; "vless"; "shadowsocks"; "trojan"].
Definition xray_Type : string := "xray".

(** [coreConf.Policy] as the code fills it. *)
Record Policy := MkPolicy {
  po_StatsUserUplink : bool; po_StatsUserDownlink : bool;
  po_Handshake : Z; po_ConnectionIdle : Z; po_UplinkOnly : Z; po_DownlinkOnly : Z; po_BufferSize : Z
}.
Definition parseConnectionConfig (c : XrayConnectionConfig) : Policy :=
  MkPolicy true true (xc_Handshake c) (xc_ConnIdle c) (xc_UplinkOnly c) (xc_DownlinkOnly c) (xc_BufferSize c).

Class XrayConfs := {
  DNSConf : Type; DNSApp : Type; RouterConf : Type; RouterApp : Type;
  InboundConf : Type; InboundHandlerConf : Type; OutboundConf : Type; OutboundHandlerConf : Type;
  Instance_ : Type;
  DNSConf_zero : DNSConf;
  dns_decode : string → DNSConf → result DNSConf;
  dns_Build : DNSConf → result DNSApp;
  RouterConf_zero : RouterConf;
  route_decode : string → RouterConf → result RouterConf;
  RuleList : RouterConf → list string;
  route_Build : RouterConf → result RouterApp;
  inbounds_decode : string → result (list InboundConf);
  inbound_Build : InboundConf → result InboundHandlerConf;
  outbounds_decode : string → result (list OutboundConf);
  outbound_Tag : OutboundConf → string;
  outbound_Build : OutboundConf → result OutboundHandlerConf;
  (** the field outboundTag of a rule. *)
  rule_outboundTag : string → result string
}.

(** [core.Config]: the applications that are configured, in the order of the list, with the
    dispatcher, the statistics and the two managers between the log and the policy. *)
Record core_Config `{XrayConfs} := MkCoreConfigX {
  cfg_Log : XrayLogConfig;
  cfg_Policy : gmap Z Policy;
  cfg_DNS : DNSApp;
  cfg_Route : RouterApp;
  cfg_Inbound : list InboundHandlerConf;
  cfg_Outbound : list OutboundHandlerConf
}.

(** What is logged on the way. *)
Inductive notice :=
| DnsUnreadable (e : string)
| DnsUndecodable (e : string)
| OutboundsDetected (path : string)
| MissingOutbounds (routeSource : string) (tags : list string) (outboundSource : string).
#[export] Instance notice_eq_dec : EqDecision notice.
Proof. solve_decision. Defined.

Section core.
Context {X : XrayConfs} {E : OSErrors}.
Context (core_New : core_Config → result Instance_).
#[local] Open Scope list_scope.

Definition read_file (path : string) (d : disk) : result string :=
  match ReadFile path d with
  | None => Err ("open " +:+ path +:+ ": no such file or directory")
  | Some r => r
  end.
Definition must {T} (r : result T) : option T := match r with Ok x => Some x | Err _ => None end.
Fixpoint build_all {T U} (Build : T → result U) (l : list T) : option (list U) :=
  match l with
  | [] => Some []
  | x :: l => y ← must (Build x); ys ← build_all Build l; Some (y :: ys)
  end.

(** The DNS configuration; an empty one when the file cannot be used. *)
Definition load_dns (c : XrayConfig) (d : disk) : DNSConf * list notice :=
  if decide (xr_DnsConfigPath c = "") then (DNSConf_zero, [])
  else
    match read_file (xr_DnsConfigPath c) d with
    | Err e => (DNSConf_zero, [DnsUnreadable e])
    | Ok data =>
        match dns_decode data DNSConf_zero with
        | Err e => (DNSConf_zero, [DnsUndecodable e])
        | Ok dns => (dns, [])
        end
    end.
Definition load_routes (c : XrayConfig) (d : disk) : option RouterConf :=
  if decide (xr_RouteConfigPath c = "") then Some RouterConf_zero
  else data ← must (read_file (xr_RouteConfigPath c) d); must (route_decode data RouterConf_zero).
Definition load_inbounds (c : XrayConfig) (d : disk) : option (list InboundConf) :=
  if decide (xr_InboundConfigPath c = "") then Some []
  else data ← must (read_file (xr_InboundConfigPath c) d); must (inbounds_decode data).
Definition outbound_source (c : XrayConfig) (d : disk) : string * bool :=
  ResolveOutboundConfigPath (λ p, exists_file p d) (λ a b, Path_Join [a; b]) c.
Definition load_outbounds (c : XrayConfig) (d : disk) : option (list OutboundConf * list notice) :=
  let '(path, detected) := outbound_source c d in
  if decide (path = "") then Some ([], [])
  else
    data ← must (read_file path d);
    l ← must (outbounds_decode data);
    Some (l, if detected : bool then [OutboundsDetected path] else []).
Definition or_else (path default_ : string) : string :=
  if decide (TrimSpace path = "") then default_ else path.
Definition check_routes (c : XrayConfig) (d : disk) (r : RouterConf) (outs : list OutboundConf) : list notice :=
  match validateRouteOutboundReferences rule_outboundTag (RuleList r) (map outbound_Tag outs) with
  | None => []
  | Some tags =>
      [MissingOutbounds (or_else (xr_RouteConfigPath c) "RouteConfigPath") tags
         (or_else (outbound_source c d).1 "OutboundConfigPath, e.g. a custom_outbound.json next to AssetPath")]
  end.

(** [None] is a panic.  The environment gets the path of the assets and of the DNS file. *)
Definition getCore (c : XrayConfig) (d : disk) (env : gmap string string)
    : option (Instance_ * gmap string string * list notice) :=
  let env := <["XRAY_LOCATION_ASSET" := xr_AssetPath c]> env in
  log ← xr_LogConfig c;
  let '(dns, notes) := load_dns c d in
  let env := <["XRAY_DNS_PATH" := xr_DnsConfigPath c]> env in
  dnsConfig ← must (dns_Build dns);
  routes ← load_routes c d;
  routeConfig ← must (route_Build routes);
  ins ← load_inbounds c d;
  inBoundConfig ← build_all inbound_Build ins;
  '(outs, detected) ← load_outbounds c d;
  outBoundConfig ← build_all outbound_Build outs;
  connection ← xr_ConnectionConfig c;
  let config := MkCoreConfigX X log {[0 := parseConnectionConfig connection]} dnsConfig routeConfig
    inBoundConfig outBoundConfig in
  server ← must (core_New config);
  Some (server, env, notes ++ detected ++ check_routes c d routes outs).

(** [New] never returns an error. *)
Definition xray_New := getCore.
End core.

(** * Starting and closing *)

(** The server and the features the core keeps of it between [Start] and [Close]. *)
Record XrayCore (S F : Type) := MkXrayCore { xk_Server : S; xk_Features : option F }.
Arguments MkXrayCore {S F}. Arguments xk_Server {S F}. Arguments xk_Features {S F}.

Section life.
Context {S F : Type} (Server_Start Server_Close : S → option string * S).
(** The four features of a started server, with the types they are used at. *)
Context (get_features : S → option F).

Definition xray_Start (c : XrayCore S F) : option (option string * XrayCore S F) :=
  match Server_Start (xk_Server c) with
  | (Some e, s) => Some (Some e, MkXrayCore s (xk_Features c))
  | (None, s) => f ← get_features s; Some (None, MkXrayCore s (Some f))
  end.
Definition xray_Close (c : XrayCore S F) : option string * XrayCore S F :=
  let '(e, s) := Server_Close (xk_Server c) in (e, MkXrayCore s None).
(** A method that uses a feature; a nil feature panics. *)
Definition with_feature {A} (f : F → S → A * S) (c : XrayCore S F) : option (A * XrayCore S F) :=
  feat ← xk_Features c;
  let '(a, s) := f feat (xk_Server c) in Some (a, MkXrayCore s (xk_Features c)).
End life.

(** * What getCore depends on *)

Section theorems.
Context {X : XrayConfs} {E : OSErrors}.
Context (core_New : core_Config → result Instance_).

Definition no_dns_file (c : XrayConfig) : XrayConfig :=
  MkXrayConfig (xr_LogConfig c) (xr_AssetPath c) "" (xr_RouteConfigPath c) (xr_ConnectionConfig c)
    (xr_InboundConfigPath c) (xr_OutboundConfigPath c) (xr_outboundConfigPathSet c).
Definition made (r : option (Instance_ * gmap string string * list notice)) : option Instance_ :=
  (λ p, p.1.1) <$> r.
Lemma getCore_Ok (c : XrayConfig) d env s env' notes : getCore core_New c d env = Some (s, env', notes) →
  ∃ routes outs det, load_routes c d = Some routes ∧ load_outbounds c d = Some (outs, det) ∧
    notes = ((load_dns c d).2 ++ det ++ check_routes c d routes outs)%list.
Proof.
  unfold getCore. destruct (xr_LogConfig c); [|done]. destruct (load_dns c d) as [dns dns_notes]. cbn [mbind option_bind].
  destruct (must (dns_Build _)); [|done]. destruct (load_routes c d) as [routes|]; [|done]. cbn [mbind option_bind].
  destruct (must (route_Build _)); [|done]. destruct (load_inbounds c d); [|done]. cbn [mbind option_bind].
  destruct (build_all _ _); [|done]. destruct (load_outbounds c d) as [[outs det]|]; [|done]. cbn [mbind option_bind].
  destruct (build_all _ _); [|done]. destruct (xr_ConnectionConfig c); [|done]. cbn [mbind option_bind].
  destruct (must (core_New _)); [|done]. intros [= <- <- <-]. by exists routes, outs, det.
Qed.
Lemma dns_notices (c : XrayConfig) d n : n ∈ (load_dns c d).2 → ∃ e, n = DnsUnreadable e ∨ n = DnsUndecodable e.
Proof.
  unfold load_dns. destruct (decide _); [intros []%elem_of_nil|].
  destruct (read_file _ _); [destruct (dns_decode _ _)|]; cbn [snd]; set_solver.
Qed.
Lemma outbound_notices (c : XrayConfig) d outs det n : load_outbounds c d = Some (outs, det) → n ∈ det →
  ∃ p, n = OutboundsDetected p.
Proof.
  unfold load_outbounds. destruct (outbound_source c d) as [path b]. destruct (decide (path = "")).
  - intros [= <- <-]. by intros []%elem_of_nil.
  - destruct (must _); [|done]. cbn. destruct (must _); [|done]. cbn. intros [= <- <-].
    destruct b; set_solver.
Qed.
End theorems.

(** A DNS file that is missing, cannot be read or does not decode never keeps a core from
    being made: the instance is the one made without a DNS file, and one notice is logged
    more.  The path is exported all the same, so that the nodes will write their DNS rules
    there.  Any other file that is named and cannot be used ends the process. *)
Theorem broken_files (X : XrayConfs) (E : OSErrors) (core_New : core_Config → result Instance_)
    (c : XrayConfig) (d : disk) (env : gmap string string) :
  let unusable {T} (path : string) (decode : string → result T) :=
    path ≠ "" ∧ is_ok (data ← read_file path d; decode data) = false in
  (unusable (xr_DnsConfigPath c) (λ data, dns_decode data DNSConf_zero) →
   made (getCore core_New c d env) = made (getCore core_New (no_dns_file c) d env) ∧
   ∀ s env' notes, getCore core_New c d env = Some (s, env', notes) →
     env' !! "XRAY_DNS_PATH" = Some (xr_DnsConfigPath c) ∧ length notes ≠ 0%nat) ∧
  (unusable (xr_RouteConfigPath c) (λ data, route_decode data RouterConf_zero) ∨
   unusable (xr_InboundConfigPath c) inbounds_decode ∨
   unusable (outbound_source c d).1 outbounds_decode →
   getCore core_New c d env = None).
Proof.
  intros unusable.
  assert (∀ T (r : result string) (f : string → result T),
    is_ok (data ← r; f data) = false → (data ← must r; must (f data)) = None) as Hmust.
  { intros T [data|e] f; [|done]. cbn. by destruct (f data). }
  split.
  - intros [Hp Hu]. assert (∃ n, load_dns c d = (DNSConf_zero, [n])) as [n Hn].
    { unfold load_dns. rewrite decide_False by done. revert Hu. destruct (read_file _ d) as [data|e]; [|by eexists].
      cbn. destruct (dns_decode data DNSConf_zero); [done|by eexists]. }
    unfold getCore. rewrite Hn. change (load_dns (no_dns_file c) d) with (DNSConf_zero, @nil notice).
    change (xr_LogConfig (no_dns_file c)) with (xr_LogConfig c).
    change (load_routes (no_dns_file c) d) with (load_routes c d).
    change (load_inbounds (no_dns_file c) d) with (load_inbounds c d).
    change (load_outbounds (no_dns_file c) d) with (load_outbounds c d).
    change (xr_ConnectionConfig (no_dns_file c)) with (xr_ConnectionConfig c).
    destruct (xr_LogConfig c); [|done]. cbn [mbind option_bind].
    destruct (must (dns_Build _)); [|done]. destruct (load_routes c d); [|done]. cbn [mbind option_bind].
    destruct (must (route_Build _)); [|done]. destruct (load_inbounds c d); [|done]. cbn [mbind option_bind].
    destruct (build_all _ _); [|done]. destruct (load_outbounds c d) as [[outs det]|]; [|done]. cbn [mbind option_bind].
    destruct (build_all _ _); [|done]. destruct (xr_ConnectionConfig c); [|done]. cbn [mbind option_bind].
    destruct (must (core_New _)); [|done]. split; [done|]. intros s env' notes [= <- <- <-].
    split; [by rewrite lookup_insert_eq|done].
  - intros [[Hp Hu]|[[Hp Hu]|Hu]]; unfold getCore;
      (destruct (xr_LogConfig c); [|done]); destruct (load_dns c d) as [dns notes];
      cbn [mbind option_bind]; (destruct (must (dns_Build _)); [|done]).
    + unfold load_routes. rewrite decide_False by done. by rewrite Hmust.
    + cbn. destruct (load_routes c d); [|done]. cbn. destruct (must (route_Build _)); [|done]. cbn.
      unfold load_inbounds. rewrite decide_False by done. by rewrite Hmust.
    + cbn. destruct (load_routes c d); [|done]. cbn. destruct (must (route_Build _)); [|done]. cbn.
      destruct (load_inbounds c d); [|done]. cbn. destruct (build_all _ _); [|done]. cbn.
      unfold load_outbounds. revert Hu. destruct (outbound_source c d) as [path det]. intros [Hp Hu].
      rewrite decide_False by done. cbn in Hu. revert Hu. destruct (read_file path d) as [data|e]; [|done].
      cbn. by destruct (outbounds_decode data).
Qed.

(** A core that is made warns about exactly the outbound tags that rules of its routes name
    and no outbound it loaded defines.  When the configuration does not mention the path of the
    outbounds, the file next to the assets, if there is one, is where they come from, and this
    is logged: the tags it defines are not warned about. *)
Theorem outbounds_known (X : XrayConfs) (E : OSErrors) (core_New : core_Config → result Instance_)
    (c : XrayConfig) (d : disk) (env env' : gmap string string) (s : Instance_) (notes : list notice) :
  getCore core_New c d env = Some (s, env', notes) →
  ∃ routes outs det, load_routes c d = Some routes ∧ load_outbounds c d = Some (outs, det) ∧
    (∀ tag, (∃ rs tags os, MissingOutbounds rs tags os ∈ notes ∧ tag ∈ tags) ↔
      tag ≠ "" ∧ (∃ rule raw, rule ∈ RuleList routes ∧ rule_outboundTag rule = Ok raw ∧ TrimSpace raw = tag) ∧
      ¬ ∃ o, o ∈ outs ∧ TrimSpace (outbound_Tag o) = tag) ∧
    let sidecar := Path_Join [xr_AssetPath c; "custom_outbound.json"] in
    (xr_outboundConfigPathSet c = false → xr_AssetPath c ≠ "" → exists_file sidecar d = true →
     OutboundsDetected sidecar ∈ notes ∧ (data ← read_file sidecar d; outbounds_decode data) = Ok outs).
Proof.
  intros (routes & outs & det & Er & Eo & ->)%getCore_Ok.
  exists routes, outs, det. split; [done|]. split; [done|].
  split.
  - intros tag. pose proof (route_check_exact rule_outboundTag (RuleList routes) (map outbound_Tag outs)) as Hr.
    cbv zeta in Hr. unfold check_routes.
    assert ((∃ o, o ∈ map outbound_Tag outs ∧ TrimSpace o = tag) ↔ (∃ o, o ∈ outs ∧ TrimSpace (outbound_Tag o) = tag)) as Hmap.
    { split; [intros (o & (x & -> & Hx)%list_elem_of_fmap & <-); by exists x|].
      intros (x & Hx & <-). exists (outbound_Tag x). split; [|done]. by apply list_elem_of_fmap_2. }
    destruct (validateRouteOutboundReferences _ _ _) as [tags|].
    + destruct Hr as (_ & _ & _ & Hr). specialize (Hr tag). rewrite Hmap in Hr. rewrite <- Hr. split.
      * intros (rs & tags' & os & Hn & Ht). rewrite !elem_of_app in Hn.
        destruct Hn as [(? & [?|?])%dns_notices|[[? ?]%(outbound_notices _ _ _ _ _ Eo)|Hn]]; [done..|]. apply list_elem_of_singleton in Hn. by simplify_eq.
      * intros Ht. eexists _, tags, _. split; [|done]. rewrite !elem_of_app. right; right. by apply list_elem_of_singleton.
    + specialize (Hr tag). rewrite Hmap in Hr. split; [|by intros H; destruct (Hr H)].
      intros (rs & tags' & os & Hn & Ht). rewrite app_nil_r, elem_of_app in Hn.
      destruct Hn as [(? & [?|?])%dns_notices|[? ?]%(outbound_notices _ _ _ _ _ Eo)]; done.
  - intros sidecar Hset Ha Hf. revert Eo. unfold load_outbounds, outbound_source, ResolveOutboundConfigPath.
    rewrite Hset, decide_False by done. fold sidecar. rewrite Hf. rewrite decide_False.
    2: { unfold sidecar. cbn [Path_Join]. rewrite decide_False by done. apply Clean_nonempty. }
    destruct (read_file sidecar d) as [data|]; [|done]. cbn. destruct (outbounds_decode data) as [l|]; [|done].
    cbn. intros [= -> <-]. split; [set_solver|done].
Qed.

(** * Instances *)

(** Texts are their own configurations; a list of outbounds or rules is split at blanks. *)
#[local] Instance toy_confs : XrayConfs := {|
  DNSConf := string; DNSApp := string; RouterConf := list string; RouterApp := list string;
  InboundConf := string; InboundHandlerConf := string; OutboundConf := string; OutboundHandlerConf := string;
  Instance_ := list string;
  DNSConf_zero := ""; dns_decode data _ := if decide (data = "bad") then Err "json" else Ok data; dns_Build := Ok;
  RouterConf_zero := []; route_decode data _ := Ok (Split data " "); RuleList := id; route_Build := Ok;
  inbounds_decode data := Ok (Split data " "); inbound_Build := Ok;
  outbounds_decode data := Ok (Split data " "); outbound_Tag := id; outbound_Build := Ok;
  rule_outboundTag := Ok
|}.
#[local] Instance toy_os : OSErrors :=
  {| open_err _ := None; mkdir_err _ := None; create_err _ := None; write_err _ := None |}.
Definition toy_new (c : core_Config) : result (list string) := Ok (cfg_Outbound c).
Definition toy_config : XrayConfig :=
  MkXrayConfig (Some (MkXrayLogConfig "warning" "" "")) "/etc/V2bX/" "/etc/V2bX/dns.json" "/etc/V2bX/route.json"
    (Some (MkXrayConnectionConfig 4 30 2 4 64)) "" "" false.
Definition toy_disk : disk :=
  {["/etc/V2bX/route.json" := "block IPv4_out"; "/etc/V2bX/custom_outbound.json" := "block direct"]}.

Lemma outbounds_known_witness :
  match getCore toy_new toy_config toy_disk ∅ with
  | Some (s, _, notes) => s = ["block"; "direct"] ∧
      ∃ rs tags os, MissingOutbounds rs tags os ∈ notes ∧ "IPv4_out" ∈ tags
  | None => False
  end.
Proof.
  assert (match getCore toy_new toy_config toy_disk ∅ with
    Some (s, _, _) => s = ["block"; "direct"] | None => False end) as Hs by (vm_compute; reflexivity).
  destruct (getCore toy_new toy_config toy_disk ∅) as [[[s env'] notes]|] eqn:H; [|done]. split; [done|].
  destruct (outbounds_known toy_confs toy_os toy_new toy_config toy_disk ∅ env' s notes H)
    as (routes & outs & det & Hr & Ho & Hw & _).
  apply Hw. assert (routes = ["block"; "IPv4_out"]) as -> by (vm_compute in Hr; congruence).
  assert (outs = ["block"; "direct"]) as -> by (vm_compute in Ho; congruence). split_and!.
  - done.
  - exists "IPv4_out", "IPv4_out". split; [by apply (bool_decide_unpack _)|]. split; reflexivity.
  - intros (o & Ho' & Ht). rewrite !elem_of_cons, elem_of_nil in Ho'. destruct Ho' as [->|[->|[]]]; by vm_compute in Ht.
Defined.
