(* ===== verification/Cores.v ===== *)
(** The cores of the program: making the sing core (core/sing/sing.go), and the three cores
    with the protocols they are registered for (core/imports, and the init functions of
    core/xray, core/sing and core/hy2), under the selector and the types of nodes the panel
    client accepts.

    sing-box and its options are parameters; the options are a log, an NTP section and the
    rest.  [None] is a nil pointer. *)
From S2P Require Import Prelude GoStrings PanelTypes Conf TrafficCounter CoreApi PanelUser Hy2 Hy2Core Sing.
From S2P Require Import SingNode Selector XrayCore.
#[local] Open Scope string_scope.
#[local] Open Scope Z_scope.

(** * sing.go *)

Record LogOptions := MkLogOptions {
  lo_Disabled : bool; lo_Level : string; lo_Timestamp : bool; lo_Output : string
}.
Record NTPOptions := MkNTPOptions {
  no_Enabled : bool; no_WriteToSystem : bool; no_ServerOptions : ServerOptions
}.
Record box_options (R : Type) := MkBoxOptions {
  bo_Log : option LogOptions; bo_NTP : option NTPOptions; bo_rest : R
}.
Arguments MkBoxOptions {R}.
Arguments bo_Log {R}.
Arguments bo_NTP {R}.
Arguments bo_rest {R}.

Definition sing_protocols : list string :=
  ["vmess"; "vless"; "shadowsocks"; "trojan"; "tuic"; "anytls"; "naive"; "hysteria"; "hysteria2"].
Definition sing_Type : string := "sing".

(** The core: its box, the hook it tracks connections with, and the nodes. *)
Record Sing (B : Type) := MkSingCore { si_box : B; si_hookServer : Sing.HookServer; si_nodes : Sing_ }.
Arguments MkSingCore {B}.
Arguments si_box {B}.
Arguments si_hookServer {B}.
Arguments si_nodes {B}.

Section sing.
Context {R B : Type} (rest_zero : R).
(** [os.ReadFile]; decoding options; making, starting and closing a box. *)
Context (ReadFile : string → result string) (UnmarshalExtended : string → result (box_options R))
  (box_New : box_options R → result B) (box_Start box_Close : B → option string).

Definition original_options (c : SingConfig) : result (box_options R) :=
  if decide (sg_OriginalPath c = "") then Ok (MkBoxOptions None None rest_zero)
  else
    match ReadFile (sg_OriginalPath c) with
    | Err e => Err ("read original config error: " +:+ e)
    | Ok data =>
        match UnmarshalExtended data with
        | Err e => Err ("unmarshal original config error: " +:+ e)
        | Ok o => Ok o
        end
    end.
Definition sing_options (c : SingConfig) (o : box_options R) : box_options R :=
  let l := sg_LogConfig c in let n := sg_NtpConfig c in
  MkBoxOptions (Some (MkLogOptions (sl_Disabled l) (sl_Level l) (sl_Timestamp l) (sl_Output l)))
    (Some (MkNTPOptions (sntp_Enable n) true (MkServerOptions (sntp_Server n) (sntp_ServerPort n))))
    (bo_rest o).
(** The environment is changed before the box is made. *)
Definition sing_New (c : CoreConfig) (env : gmap string string)
    : option (result (Sing B) * gmap string string) :=
  config ← co_SingConfig c;
  Some (match original_options config with
        | Err e => (Err e, env)
        | Ok o =>
            (b ← box_New (sing_options config o);
             Ok (MkSingCore b NewHookServer (MkSing ∅ ∅)),
             <["SING_DNS_PATH" := ""]> env)
        end).
Definition sing_Start (s : Sing B) : option string := box_Start (si_box s).
Definition sing_Close (s : Sing B) : option string := box_Close (si_box s).

(** What the box of a sing core is made of.  The log and the clock are those of the program's
    configuration, whatever the original file says about them, and the clock of the system is
    written whenever the time is asked for; the rest is the original file's, or empty without
    one.  A core is made exactly when the file, if one is named, can be read and decoded and
    the library accepts these options; it then starts without nodes and counters. *)
Theorem sing_box_exact (c : CoreConfig) (config : SingConfig) (env : gmap string string) (s : Sing B)
    (env' : gmap string string) :
  co_SingConfig c = Some config →
  sing_New c env = Some (Ok s, env') ↔
  ∃ rest b, box_New (MkBoxOptions
      (Some (MkLogOptions (sl_Disabled (sg_LogConfig config)) (sl_Level (sg_LogConfig config))
               (sl_Timestamp (sg_LogConfig config)) (sl_Output (sg_LogConfig config))))
      (Some (MkNTPOptions (sntp_Enable (sg_NtpConfig config)) true
               (MkServerOptions (sntp_Server (sg_NtpConfig config)) (sntp_ServerPort (sg_NtpConfig config))))) rest) = Ok b ∧
    (sg_OriginalPath config = "" ∧ rest = rest_zero ∨
     sg_OriginalPath config ≠ "" ∧ ∃ data o, ReadFile (sg_OriginalPath config) = Ok data ∧
       UnmarshalExtended data = Ok o ∧ rest = bo_rest o) ∧
    s = MkSingCore b NewHookServer (MkSing ∅ ∅) ∧ env' = <["SING_DNS_PATH" := ""]> env.
Proof.
  intros Hc. unfold sing_New. rewrite Hc. cbn [mbind option_bind]. unfold original_options, sing_options. split.
  - case_decide as Hp.
    + destruct (box_New _) as [b|e] eqn:E; [|done]. intros [= <- <-]. exists rest_zero, b. split; [exact E|]. auto.
    + destruct (ReadFile _) as [data|] eqn:Er; [|done]. destruct (UnmarshalExtended data) as [o|] eqn:Eu; [|done].
      destruct (box_New _) as [b|e] eqn:E; [|done]. intros [= <- <-]. exists (bo_rest o), b.
      split; [exact E|]. split; [|done]. right. eauto 10.
  - intros (rest & b & E & Hrest & -> & ->). destruct Hrest as [[-> ->]|(Hp & data & o & Er & Eu & ->)].
    + rewrite decide_True by done. cbn [bo_rest]. by rewrite E.
    + rewrite decide_False, Er, Eu by done. by rewrite E.
Qed.
End sing.

(** * The three cores *)

Section cores.
Context {C : Type} `{!Core C} `{!CoreLife C}
  `{!Unmarshal Options} `{!Unmarshal XrayOptions} `{!Unmarshal SingOptions}.
(** How each core is made. *)
Context (xray_new sing_new hysteria2_new : CoreConfig → result C).

Definition all_cores : gmap string (registration C) :=
  RegisterCore "xray" xray_new xray_protocols
    (RegisterCore "sing" sing_new sing_protocols
      (RegisterCore "hysteria2" hysteria2_new hy2_protocols ∅)).

(** The types of nodes only sing serves. *)
Definition sing_only : list string := ["tuic"; "anytls"; "naive"; "hysteria"].

Lemma all_cores_types t : is_Some (all_cores !! t) ↔ t ∈ ["xray"; "sing"; "hysteria2"].
Proof.
  unfold all_cores, RegisterCore. rewrite !lookup_insert, lookup_empty, !elem_of_cons, elem_of_nil.
  repeat case_decide; subst; split; intros Hin; try naive_solver; by destruct Hin.
Qed.
Lemma all_cores_protocols t r : all_cores !! t = Some r →
  t = "xray" ∧ rg_protocols r = xray_protocols ∨ t = "sing" ∧ rg_protocols r = sing_protocols ∨
  t = "hysteria2" ∧ rg_protocols r = hy2_protocols.
Proof.
  unfold all_cores, RegisterCore. rewrite !lookup_insert, lookup_empty.
  repeat case_decide; intros [= <-]; subst; auto.
Qed.
Lemma candidate_unnamed info o e : op_Core o = "" →
  candidate all_cores info o e =
    match all_cores !! ce_typ e with Some r => isSupported (ni_Type info) (rg_protocols r) | None => false end.
Proof. intros Ho. unfold candidate. by rewrite decide_True. Qed.

(** (C23) Which nodes find a core.  Whatever type of node the panel client accepts, a node that
    names no core finds one if a sing core is configured; without one, the types only sing
    serves are refused.  Each other type is found by a core of its own kind: hysteria2 nodes by
    a hysteria2 core, the rest by an xray core. *)
Theorem every_type_served (ac : ApiConfig) (client : Client) (c1 c2 : panelClient) (info : NodeInfo) (o : Options)
    (s : Selector C) :
  PanelUser.New ac = Ok (client, c1, c2) → ni_Type info = pc_NodeType client → op_Core o = "" → op_CoreName o = "" →
  (∀ i e, entries s !! i = Some e → is_Some (all_cores !! ce_typ e)) →
  is_Some (pickLocked all_cores info o s) ↔
    (∃ i e, entries s !! i = Some e ∧
       (ce_typ e = "sing" ∨
        ni_Type info ∉ sing_only ∧ ce_typ e = if decide (ni_Type info = "hysteria2") then "hysteria2" else "xray")).
Proof.
  intros Hnew Ht Hcore Hname Hreg.
  assert (ni_Type info ∈ node_types) as Hin.
  { unfold PanelUser.New in Hnew. destruct (decide (_ ∈ node_types)) as [Hin|]; [|done]. injection Hnew as <- _ _.
    by rewrite Ht. }
  assert (∀ e, is_Some (all_cores !! ce_typ e) → candidate all_cores info o e = true ↔
    ce_typ e = "sing" ∨ ni_Type info ∉ sing_only ∧
      ce_typ e = if decide (ni_Type info = "hysteria2") then "hysteria2" else "xray") as Hcand.
  { intros e [r Hr]. rewrite candidate_unnamed, Hr by done.
    apply all_cores_protocols in Hr. unfold isSupported. rewrite bool_decide_eq_true.
    clear -Hin Hr. repeat (apply elem_of_cons in Hin as [->|Hin]); [..|by apply elem_of_nil in Hin];
      destruct Hr as [[-> ->]|[[-> ->]|[-> ->]]]; vm_compute decide; split; intros H1;
      try set_solver; destruct H1 as [H1|[H1 H2]]; set_solver. }
  pose proof (pickLocked_spec all_cores info o s) as Hpick. split.
  - intros [i Hi]. rewrite Hi in Hpick. unfold chosen in Hpick. rewrite decide_True in Hpick by done.
    destruct Hpick as (e & He & Hc & _). exists i, e. split; [done|]. by apply Hcand; [eapply Hreg|].
  - intros (i & e & He & Hcase). destruct (pickLocked all_cores info o s) as [j|]; [by eexists|].
    specialize (Hpick i e He). rewrite decide_True in Hpick by done.
    apply Hcand in Hcase; [congruence|by eapply Hreg].
Qed.
End cores.

(** A tuic node finds the sing core behind an xray core; without the sing core it finds none. *)
#[local] Existing Instances hy_calls hy_life keep_options keep_xray keep_sing.
Definition core_entry (typ : string) : coreEntry := MkCoreEntry typ typ (MkCoreConfig typ "" None None None) None.
Definition cores_of (types : list string) : Selector Hysteria2 := MkSelector (map core_entry types) ∅ ∅.
Definition tuic_node : NodeInfo :=
  MkNodeInfo 1 "tuic" "" SecTls 0 0 (MkRawDNS ∅ "") (MkRules [] []) "" None None None None None None None None None None.
Definition some_hy (_ : CoreConfig) : result Hysteria2 := Ok (MkHysteria2 ∅ ∅).
Lemma every_type_served_witness :
  is_Some (pickLocked (all_cores some_hy some_hy some_hy) tuic_node plain_options (cores_of ["xray"; "sing"])) ∧
  ¬ is_Some (pickLocked (all_cores some_hy some_hy some_hy) tuic_node plain_options (cores_of ["xray"; "hysteria2"])).
Proof.
  destruct (PanelUser.New (MkApiConfig "" "h" 1 "k" "TUIC" 0 "")) as [[[client c1] c2]|] eqn:E; [|by vm_compute in E].
  assert (ni_Type tuic_node = pc_NodeType client) as Ht by (vm_compute in E; by injection E as <- _ _).
  assert (∀ types, Forall (λ t, t ∈ ["xray"; "sing"; "hysteria2"]) types → ∀ i e,
    entries (cores_of types) !! i = Some e → is_Some (all_cores some_hy some_hy some_hy !! ce_typ e)) as Hreg.
  { intros types Hall i e He. apply all_cores_types. cbn in He. apply list_lookup_fmap_Some in He as (t & -> & Hi).
    rewrite Forall_forall in Hall. by eapply Hall, list_elem_of_lookup_2. }
  split.
  - apply (every_type_served some_hy some_hy some_hy _ client c1 c2 tuic_node plain_options (cores_of ["xray"; "sing"])
      E Ht eq_refl eq_refl).
    + apply Hreg. repeat constructor; set_solver.
    + exists 1%nat, (core_entry "sing"). split; [reflexivity|by left].
  - rewrite (every_type_served some_hy some_hy some_hy _ client c1 c2 tuic_node plain_options
      (cores_of ["xray"; "hysteria2"]) E Ht eq_refl eq_refl).
    + intros (i & e & He & [Hs|[Hn _]]); [|by apply Hn; set_solver].
      destruct i as [|[|i]]; [injection He as <-; discriminate Hs..|discriminate He].
    + apply Hreg. repeat constructor; set_solver.
Defined.
