(* ===== verification/Dispatcher.v ===== *)
(** core/xray/app/dispatcher: how the xray core takes a connection in: the limits and the
    accounting of its link (getLink, wrapLink), sniffing (sniffer.go, fakednssniffer.go, the
    cached reader), the rules, and the choice of the outbound (default.go).  Dispatch.v puts
    the parts together.

    xray itself, its pipes, statistics and sniffers are a library.  Pipes are numbered: 0
    carries what the client sends, 1 what it receives.  [None] is a panic. *)
From S2P Require Import Prelude GoStrings Netutil PanelTypes Conf ConnLimiter OnlineRegistry Limiter Rate.
From S2P Require Import Slots Xray.
#[local] Open Scope string_scope.
#[local] Open Scope Z_scope.

(** * The session of a connection *)

Record MemoryUser := MkMemoryUser { mu_Email : string; mu_Level : Z }.
(** The source address is known by its text: an IP, or what [String] prints. *)
Record Inbound := MkInbound {
  sb_Tag : string;
  sb_Source : string;
  sb_SourceTCP : bool;
  sb_User : option MemoryUser
}.
Definition sourceIPString (inbound : option Inbound) : string :=
  match inbound with None => "" | Some s => sb_Source s end.
Definition session_user (inbound : option Inbound) : option MemoryUser := inbound ≫= sb_User.

(** * getLink and wrapLink *)

Record Link := MkLink { lk_Reader : nat; lk_Writer : writer }.

Section links.
(** [policy.ForLevel]: whether uplink and downlink are counted; whether the statistics give
    a counter. *)
Context (ForLevel : Z → bool * bool) (has_counter : string → bool).

(** What both functions ask of the limiter: no limiter is asked for a connection without
    a user, and a rejected or unknown one is an error. *)
Inductive admission :=
| Unlimited
| Refused (e : string)
| Accepted (user : MemoryUser) (limit : nat) (w : option Bucket).
Definition ask_limiter (inbound : option Inbound) (tcp : bool) (now : Z) (lims : Limiters)
    : option (admission * Limiters) :=
  match inbound with
  | None => Some (Unlimited, lims)
  | Some s =>
      match sb_User s with
      | None => Some (Unlimited, lims)
      | Some user =>
          if decide (mu_Email user = "") then Some (Unlimited, lims)
          else
            match GetLimiter (sb_Tag s) lims with
            | Err e => Some (Refused ("get limiter " ++ sb_Tag s ++ " error: " ++ e), lims)
            | Ok p =>
                match objs lims !! p with
                | None => panic
                | Some l =>
                    '(w, reject, l) ← CheckLimit (mu_Email user) (sourceIPString inbound) tcp (sb_SourceTCP s) now l;
                    let lims := MkLimiters (reg lims) (<[p := l]> (objs lims)) in
                    Some (if reject : bool then Refused ("Limited " ++ mu_Email user ++ " by conn or ip")
                          else Accepted user p w, lims)
                end
            end
      end
  end.

Definition with_stat (on : bool) (name : string) (w : writer) : writer :=
  if on && has_counter name then SizeStatWriter w name else w.
Definition with_rate (b : option Bucket) (w : writer) : writer :=
  match b with Some b => NewRateLimitWriter w b | None => w end.

(** The links of an accepted connection and its limiter, or an error with the effects of
    giving the pipes up. *)
Inductive linked :=
| LinkErr (e : string) (es : list effect)
| Linked (inbound outbound : Link) (limit : option nat).
Definition getLink (inbound : option Inbound) (tcp : bool) (now : Z) (lims : Limiters)
    : option (linked * Limiters) :=
  let inboundLink := MkLink 1 (PipeWriter 0) in
  let outboundLink := MkLink 0 (PipeWriter 1) in
  '(a, lims) ← ask_limiter inbound tcp now lims;
  Some (match a with
        | Unlimited => Linked inboundLink outboundLink None
        | Refused e => LinkErr e [Closed 1; Closed 0; Interrupted 0; Interrupted 1]
        | Accepted user p w =>
            let '(up, down) := ForLevel (mu_Level user) in
            Linked (MkLink 1 (with_stat up (up_name (mu_Email user)) (with_rate w (PipeWriter 0))))
                   (MkLink 0 (with_stat down (down_name (mu_Email user)) (with_rate w (PipeWriter 1))))
                   (Some p)
        end, lims).

(** The reader of a wrapped link: the given one, behind a rate limit, under the timeout
    wrapper of xray with the counter it is given. *)
Record wrapped_reader := MkWrappedReader {
  wr_reader : nat; wr_limit : option Bucket; wr_Counter : option string
}.
Inductive wrapped :=
| WrapErr (e : string) (es : list effect)
| Wrapped (r : wrapped_reader) (w : writer) (limit : option nat).
Definition wrapLink (inbound : option Inbound) (link : option Link) (tcp : bool) (now : Z)
    (lims : Limiters) : option (wrapped * Limiters) :=
  match link with
  | None => Some (WrapErr "nil transport link" [], lims)
  | Some link =>
      '(a, lims) ← ask_limiter inbound tcp now lims;
      Some (match a with
            | Unlimited => Wrapped (MkWrappedReader (lk_Reader link) None None) (lk_Writer link) None
            | Refused e => WrapErr e (writer_Close (lk_Writer link) ++ [Interrupted (lk_Reader link)])%list
            | Accepted user p w =>
                let '(up, down) := ForLevel (mu_Level user) in
                Wrapped (MkWrappedReader (lk_Reader link) w
                           (if up && has_counter (up_name (mu_Email user))
                            then Some (up_name (mu_Email user)) else None))
                        (with_stat down (down_name (mu_Email user)) (with_rate w (lk_Writer link)))
                        (Some p)
            end, lims)
  end.
End links.

(** * Sniffing *)

(** A result: a protocol, a domain, and what the two optional interfaces say. *)
Record SniffResult := MkSniffResult {
  sr_Protocol : string;
  sr_Domain : string;
  sr_ProtocolForDomainResult : option string;
  sr_IsProtoSubsetOf : option (string → bool)
}.
Inductive sniff_err := ErrNoClue | ErrSniff (e : string).
#[export] Instance sniff_err_eq_dec : EqDecision sniff_err.
Proof. solve_decision. Defined.
(** A result that may be nil, and an error that may be nil. *)
Definition sniffed : Type := option SniffResult * option sniff_err.
Definition errUnknownContent : sniff_err := ErrSniff "unknown content".
Definition errSniffingTimeout : sniff_err := ErrSniff "timeout on sniffing".

(** ** sniffer.go *)

(** net.Network; the zero value is unknown. *)
Inductive Network := Network_Unknown | Network_TCP | Network_UDP | Network_UNIX.
#[export] Instance Network_eq_dec : EqDecision Network.
Proof. solve_decision. Defined.
Record protocolSnifferWithMetadata := MkProtocolSniffer {
  ps_sniff : option string → sniffed;   (* the payload, nil for metadata *)
  ps_metadataSniffer : bool;
  ps_network : Network
}.
(** [Sniff] and [SniffMetadata] go through the sniffers: [skip] says which are not asked;
    those are kept for the next round ([keep]) or not. *)
Fixpoint sniff_round (ask : protocolSnifferWithMetadata → bool) (keep : bool) (payload : option string)
    (sniffers pending : list protocolSnifferWithMetadata)
    : option SniffResult * list protocolSnifferWithMetadata :=
  match sniffers with
  | [] => (None, pending)
  | si :: sniffers =>
      if negb (ask si) then
        sniff_round ask keep payload sniffers (if keep then pending ++ [si] else pending)%list
      else
        match ps_sniff si payload with
        | (_, Some ErrNoClue) => sniff_round ask keep payload sniffers (pending ++ [si])%list
        | (Some r, None) => (Some r, pending)
        | _ => sniff_round ask keep payload sniffers pending
        end
  end.
(** The sniffers are replaced by the pending ones when nothing was found and some are
    pending. *)
Definition sniff_with (ask : protocolSnifferWithMetadata → bool) (keep : bool) (payload : option string)
    (s : list protocolSnifferWithMetadata) : sniffed * list protocolSnifferWithMetadata :=
  match sniff_round ask keep payload s [] with
  | (Some r, _) => ((Some r, None), s)
  | (None, []) => ((None, Some errUnknownContent), s)
  | (None, pending) => ((None, Some ErrNoClue), pending)
  end.
Definition Sniff (payload : string) (network : Network) (s : list protocolSnifferWithMetadata)
    : sniffed * list protocolSnifferWithMetadata :=
  sniff_with (λ si, negb (ps_metadataSniffer si) && bool_decide (ps_network si = network)) false (Some payload) s.
Definition SniffMetadata (s : list protocolSnifferWithMetadata)
    : sniffed * list protocolSnifferWithMetadata :=
  sniff_with ps_metadataSniffer true None s.

Definition CompositeResult (domainResult protocolResult : SniffResult) : SniffResult :=
  MkSniffResult (sr_Protocol protocolResult) (sr_Domain domainResult)
    (Some (sr_Protocol domainResult)) None.

(** ** fakednssniffer.go *)

(** The engine: the domain it gave an address for, and, for some engines, whether the target
    is in its pool. *)
Record FakeDNSEngine := MkFakeDNSEngine {
  fd_GetDomain : string; fd_IsIPInIPPool : option bool
}.
Definition fakeDNSSniffResult (domain : string) : SniffResult :=
  MkSniffResult "fakedns" domain None None.
Definition DNSThenOthersSniffResult (domain protocolOriginalName : string) : SniffResult :=
  MkSniffResult "fakedns+others" domain None (Some (λ p, HasPrefix p protocolOriginalName)).
(** [tcpudp]: the target is one of tcp or udp.  The second component is what is put into the
    range option of the context, when the context has one. *)
Definition fakedns_sniff (e : FakeDNSEngine) (tcpudp : bool) : sniffed * option bool :=
  if tcpudp && negb (bool_decide (fd_GetDomain e = ""))
  then ((Some (fakeDNSSniffResult (fd_GetDomain e)), None), None)
  else ((None, Some ErrNoClue), fd_IsIPInIPPool e).
Definition newFakeDNSSniffer (e : option FakeDNSEngine) (tcpudp : bool)
    : option protocolSnifferWithMetadata :=
  e ← e; Some (MkProtocolSniffer (λ _, (fakedns_sniff e tcpudp).1) true Network_Unknown).
Fixpoint others_sniff (payload : option string) (others : list protocolSnifferWithMetadata)
    : sniffed :=
  match others with
  | [] => (None, Some ErrNoClue)
  | v :: others =>
      if ps_metadataSniffer v || bool_decide (payload ≠ None) then
        match ps_sniff v payload with
        | (Some r, None) => (Some (DNSThenOthersSniffResult (sr_Domain r) (sr_Protocol r)), None)
        | _ => others_sniff payload others
        end
      else others_sniff payload others
  end.
Definition newFakeDNSThenOthers (e : FakeDNSEngine) (tcpudp : bool)
    (others : list protocolSnifferWithMetadata) : protocolSnifferWithMetadata :=
  MkProtocolSniffer (λ payload,
    match fakedns_sniff e tcpudp with
    | ((r, None), _) => (r, None)
    | (_, Some true) => others_sniff payload others
    | _ => (None, Some ErrNoClue)
    end) false Network_Unknown.
(** [http], [tls], [bittorrent], [quic], [utp]: the sniffers of xray. *)
Definition NewSniffer (http tls bittorrent quic utp : option string → sniffed)
    (e : option FakeDNSEngine) (tcpudp : bool) : list protocolSnifferWithMetadata :=
  let base := [MkProtocolSniffer http false Network_TCP; MkProtocolSniffer tls false Network_TCP;
    MkProtocolSniffer bittorrent false Network_TCP; MkProtocolSniffer quic false Network_UDP;
    MkProtocolSniffer utp false Network_UDP] in
  match e, newFakeDNSSniffer e tcpudp with
  | Some e, Some sniffer => newFakeDNSThenOthers e tcpudp base :: (base ++ [sniffer])%list
  | _, _ => base
  end.

(** * The cached reader *)

(** [b.Cap()] of [buf.New()], and of [buf.NewWithSize(n)]. *)
Definition buf_Size : Z := 8192.

(** The bytes that were read and not handed on; nil and empty are told apart. *)
Record cachedReader := MkCachedReader { cr_cache : option string }.
(** One read of the wrapped reader: a buffer, or an error. *)
Definition read_result : Type := result string.

(** The payload a sniffer sees and its capacity. *)
Record payload := MkPayload { pl_bytes : string; pl_cap : Z }.
Section cached.
Context (NewWithSize_Cap : Z → Z).
Definition cached (r : cachedReader) : string := default "" (cr_cache r).
Definition Cache (r : cachedReader) (b : payload) (read : read_result)
    : option string * cachedReader * payload :=
  match read with
  | Err e => (Some e, r, b)
  | Ok mb =>
      let r := if decide (mb = "") then r else MkCachedReader (Some (cached r ++ mb)) in
      let cacheLen := len (cached r) in
      let cap := if bool_decide (cacheLen ≤ pl_cap b) then pl_cap b else NewWithSize_Cap cacheLen in
      (None, r, MkPayload (cached r) cap)
  end.
Definition readInternal (r : cachedReader) : option string * cachedReader :=
  match cr_cache r with
  | Some c => if decide (c = "") then (None, r) else (Some c, MkCachedReader None)
  | None => (None, r)
  end.
(** [ReadMultiBuffer] and [ReadMultiBufferTimeout]: what is handed on, and whether the
    wrapped reader was read. *)
Definition cached_Read (r : cachedReader) (read : read_result) : read_result * bool * cachedReader :=
  match readInternal r with
  | (Some mb, r) => (Ok mb, false, r)
  | (None, r) => (read, true, r)
  end.

(** ** The attempts of sniffer

    [attempts] is what happens at each turn of the loop: the context is done, or a read
    returns.  The third turn gives up before it reads. *)
Inductive attempt := CtxDone (e : string) | Reading (r : read_result).
Fixpoint sniff_loop (totalAttempt : nat) (attempts : list attempt) (network : Network)
    (s : list protocolSnifferWithMetadata) (r : cachedReader) (b : payload) : sniffed * cachedReader :=
  match attempts with
  | [] => ((None, Some errSniffingTimeout), r)
  | CtxDone e :: _ => ((None, Some (ErrSniff e)), r)
  | Reading read :: attempts =>
      if bool_decide (2 < S totalAttempt)%nat then ((None, Some errSniffingTimeout), r)
      else
        match Cache r b read with
        | (Some e, r, _) => ((None, Some (ErrSniff e)), r)
        | (None, r, b) =>
            let '(found, s) :=
              if decide (pl_bytes b = "") then ((None, Some ErrNoClue), s)
              else Sniff (pl_bytes b) network s in
            match found with
            | (_, Some ErrNoClue) =>
                if bool_decide (len (pl_bytes b) = pl_cap b) then ((None, Some errUnknownContent), r)
                else sniff_loop (S totalAttempt) attempts network s r b
            | _ => (found, r)
            end
        end
  end.
Definition sniffer (s : list protocolSnifferWithMetadata) (metadataOnly : bool) (network : Network)
    (attempts : list attempt) (r : cachedReader) : sniffed * cachedReader :=
  let '(metaresult, s) := SniffMetadata s in
  if metadataOnly then (metaresult, r)
  else
    let '(content, r) := sniff_loop 0 attempts network s r (MkPayload "" buf_Size) in
    (match content, metaresult with
     | (_, Some _), (Some m, None) => (Some m, None)
     | (Some c, None), (Some m, None) => (Some (CompositeResult m c), None)
     | _, _ => content
     end, r).
End cached.

(** [Interrupt] gives the cached bytes up. *)
Definition cached_Interrupt (r : cachedReader) : cachedReader := MkCachedReader None.

(** * Overriding the destination *)

(** An address is an IP or a domain. *)
Inductive address := IPAddress (ip : string) | DomainAddress (domain : string).
Definition is_ip (a : address) : bool := match a with IPAddress _ => true | DomainAddress _ => false end.
Record Destination := MkDestination { de_Address : address; de_Network : Network; de_Port : Z }.
Definition de_TCP (d : Destination) : bool := bool_decide (de_Network d = Network_TCP).
Record SniffingRequest := MkSniffingRequest {
  sq_Enabled : bool;
  sq_MetadataOnly : bool;
  sq_RouteOnly : bool;
  sq_ExcludeForDomain : option (string → bool);
  sq_ExcludeForIP : option (string → bool);
  sq_OverrideDestinationForProtocol : list string
}.

Section dispatch.
(** [fdns.IsIPInIPPool] when the engine is one that has it; [net.ParseAddress]. *)
Context (in_pool : option (address → bool)) (ParseAddress : string → address).

Definition fake_ip (a : address) : bool :=
  match in_pool with Some f => is_ip a && f a | None => false end.
Definition protocol_of (result : SniffResult) : string :=
  default (sr_Protocol result) (sr_ProtocolForDomainResult result).
Definition overrides (protocolString : string) (result : SniffResult) (destination : Destination)
    (p : string) : bool :=
  HasPrefix protocolString p || HasPrefix p protocolString
  || (bool_decide (protocolString ≠ "bittorrent") && bool_decide (p = "fakedns")
      && fake_ip (de_Address destination))
  || match sr_IsProtoSubsetOf result with Some f => f p | None => false end.
Definition shouldOverride (result : SniffResult) (request : SniffingRequest) (destination : Destination)
    : bool :=
  let domain := sr_Domain result in
  if decide (domain = "") then false
  else if match sq_ExcludeForDomain request with Some f => f (ToLower domain) | None => false end then false
  else if match sq_ExcludeForIP request, de_Address destination with
          | Some f, IPAddress ip => f ip | _, _ => false end then false
  else existsb (overrides (protocol_of result) result destination)
         (sq_OverrideDestinationForProtocol request).

(** What becomes of the destination, of [ob.Target] (the destination before) and of
    [ob.RouteTarget]. *)
Definition overridden (result : SniffResult) (request : SniffingRequest) (destination : Destination)
    : Destination * Destination * option Destination :=
  if shouldOverride result request destination then
    let target := destination in
    let destination := MkDestination (ParseAddress (sr_Domain result)) (de_Network destination) (de_Port destination) in
    let protocol := protocol_of result in
    if sq_RouteOnly request && negb (bool_decide (protocol = "fakedns"))
       && negb (bool_decide (protocol = "fakedns+others")) && negb (fake_ip (de_Address target))
    then (destination, target, Some destination)
    else (destination, destination, None)
  else (destination, destination, None).

(** * Routing *)

(** [GetHandler], [PickRoute] (the outbound tag of the route) and [GetDefaultHandler]; a
    handler is known by its tag. *)
Context (has_handler : string → bool) (default_handler : option string).
Inductive route := Forced (tag : string) | Routed (picked : option string) | NoRouter.

(** The handler and how it was picked (1 forced, 2 by a route, 0 otherwise), or giving up. *)
Definition pick_handler (r : route) (inTag : string) : option (string * Z) :=
  let fallback := if has_handler inTag then Some (inTag, 0) else (λ h, (h, 0)) <$> default_handler in
  match r with
  | Forced tag => if has_handler tag then Some (tag, 1) else None
  | Routed (Some outTag) => if has_handler outTag then Some (outTag, 2) else fallback
  | Routed None => fallback
  | NoRouter => fallback
  end.
(** The field Detour of the access log. *)
Definition detour (inTag tag : string) (isPickRoute : Z) : string :=
  if decide (inTag = "") then tag
  else if bool_decide (isPickRoute = 1) then inTag ++ " ==> " ++ tag
  else if bool_decide (isPickRoute = 2) then inTag ++ " -> " ++ tag
  else inTag ++ " >> " ++ tag.

(** ** routedDispatch *)

Context (matches : string → string → bool).
Definition destination_text (a : address) : string :=
  match a with IPAddress ip => ip | DomainAddress d => d end.
(** The rules, in the order of the code; true closes the connection. *)
Definition dispatch_rules (a : address) (protocol : string) (l : Limiter) : bool :=
  if CheckDomainRule matches (destination_text a) l then true
  else if decide (protocol = "") then false
  else CheckProtocolRule protocol l.

(** The limiter of the connection: the one of the link, or the one registered now. *)
Definition dispatch_limiter (inbound : Inbound) (limit : option nat) (lims : Limiters) : option nat :=
  match limit with
  | Some p => Some p
  | None => match GetLimiter (sb_Tag inbound) lims with Ok p => Some p | Err _ => None end
  end.
Definition update_limiter_at (p : nat) (f : Limiter → Limiter) (lims : Limiters) : Limiters :=
  MkLimiters (reg lims) (alter f p (objs lims)).
Definition userIP (inbound : Inbound) : string := NormalizeIP (sourceIPString (Some inbound)).

(** What happens before the handler is asked: closed by a rule, or not; the pointer is the
    limiter the deferred release will use. *)
Definition routed_begin (inbound : option Inbound) (destination : Destination) (limit : option nat)
    (protocol : string) (now : Z) (lims : Limiters)
    : option (bool * option (nat * MemoryUser) * Limiters) :=
  match inbound with
  | None => panic
  | Some s =>
      match sb_User s with
      | None => Some (false, None, lims)
      | Some user =>
          match dispatch_limiter s limit lims with
          | None => Some (false, None, lims)
          | Some p =>
              match objs lims !! p with
              | None => panic
              | Some l =>
                  let l := set_Online (or_Add (lm_Online l) (mu_Email user) (userIP s)
                                         (UserID l (mu_Email user)) now) l in
                  Some (dispatch_rules (de_Address destination) protocol l, Some (p, user),
                        MkLimiters (reg lims) (<[p := l]> (objs lims)))
              end
          end
      end
  end.
(** The deferred function; it runs when the handler has returned, on every path. *)
Definition release (taguuid ip : string) (tcp : bool) (now : Z) (l : Limiter) : option Limiter :=
  let l := set_Online (or_Del (lm_Online l) taguuid ip now) l in
  if tcp then c ← DelConnCount (lm_ConnLimiter l) taguuid ip; Some (set_ConnLimiter c l) else Some l.
Definition routed_end (s : Inbound) (destination : Destination) (held : option (nat * MemoryUser))
    (now : Z) (lims : Limiters) : option Limiters :=
  match held with
  | None => Some lims
  | Some (p, user) =>
      match objs lims !! p with
      | None => panic
      | Some l =>
          l ← release (mu_Email user) (userIP s) (de_TCP destination) now l;
          Some (MkLimiters (reg lims) (<[p := l]> (objs lims)))
      end
  end.
(** The outcome of the whole function but for the time the handler takes: closed by a rule,
    closed for want of a handler, or handed to one. *)
Inductive outcome := ClosedByRule | ClosedNoHandler | HandedTo (tag : string) (isPickRoute : Z).
Definition routed_outcome (closed : bool) (r : route) (inTag : string) : outcome :=
  if closed then ClosedByRule
  else match pick_handler r inTag with
       | None => ClosedNoHandler
       | Some (tag, n) => HandedTo tag n
       end.
End dispatch.

(** * The bytes of a sniffed connection *)

(** The uses of a cached reader: a round of sniffing, or a read of the outbound. *)
Inductive cached_op := DoCache (b : payload) (r : read_result) | DoRead (r : read_result).
Definition got (r : read_result) : string := match r with Ok s => s | Err _ => "" end.
(** What was handed on and what was taken from the wrapped reader, in order. *)
Fixpoint cached_run (cap : Z → Z) (r : cachedReader) (ops : list cached_op)
    : string * string * cachedReader :=
  match ops with
  | [] => ("", "", r)
  | DoCache b read :: ops =>
      let '(_, r, _) := Cache cap r b read in
      let '(handed, taken, r) := cached_run cap r ops in
      (handed, got read +:+ taken, r)
  | DoRead read :: ops =>
      let '(out, used, r) := cached_Read r read in
      let '(handed, taken, r) := cached_run cap r ops in
      (got out +:+ handed, (if used : bool then got read else "") +:+ taken, r)
  end.

Lemma Cache_cached cap r b read : let '(_, r', _) := Cache cap r b read in
  cached r' = cached r +:+ got read.
Proof.
  unfold Cache. destruct read as [mb|e]; simpl; [|by rewrite string_app_nil_r].
  case_decide; subst; simpl; [by rewrite string_app_nil_r|done].
Qed.
Lemma cached_Read_cached r read : let '(out, used, r') := cached_Read r read in
  got out +:+ cached r' = cached r +:+ (if used : bool then got read else "").
Proof.
  unfold cached_Read, readInternal, cached. destruct (cr_cache r) as [c|] eqn:E; simpl.
  - case_decide; subst; simpl; [rewrite E; simpl; by rewrite string_app_nil_r|done].
  - rewrite E. simpl. by rewrite string_app_nil_r.
Qed.

(** (C32) Sniffing a connection loses no byte and reorders none: whatever the order of sniffing
    rounds and reads, and whatever the wrapped reader answers, the bytes handed on followed by
    those still cached are the bytes taken from the wrapped reader. *)
Theorem sniffed_bytes_conserved (cap : Z → Z) (ops : list cached_op) (r : cachedReader) :
  let '(handed, taken, r') := cached_run cap r ops in
  handed +:+ cached r' = cached r +:+ taken.
Proof.
  revert r. induction ops as [|[b read|read] ops IH]; intros r; cbn [cached_run].
  - by rewrite string_app_nil_r.
  - pose proof (Cache_cached cap r b read) as Hc. destruct (Cache cap r b read) as [[e r1] b1].
    specialize (IH r1). destruct (cached_run cap r1 ops) as [[handed taken] r'].
    by rewrite IH, Hc, <-append_assoc.
  - pose proof (cached_Read_cached r read) as Hc. destruct (cached_Read r read) as [[out used] r1].
    specialize (IH r1). destruct (cached_run cap r1 ops) as [[handed taken] r'].
    by rewrite append_assoc, IH, <-append_assoc, Hc, append_assoc.
Qed.

(** * One slot per connection *)

(** The session of a user of a node. *)
Definition user_session (tag uuid ip : string) (source_tcp : bool) : Inbound :=
  MkInbound tag ip source_tcp (Some (MkMemoryUser (UserTag tag uuid) 0)).

Section slots.
Context (ForLevel : Z → bool * bool) (has_counter : string → bool).
Context (matches : string → string → bool).

Lemma ask_limiter_user tag uuid ip st tcp now lims p l w reject l' :
  GetLimiter tag lims = Ok p → objs lims !! p = Some l →
  CheckLimit (UserTag tag uuid) ip tcp st now l = Some (w, reject, l') →
  ask_limiter (Some (user_session tag uuid ip st)) tcp now lims =
    Some (if reject then Refused ("Limited " ++ UserTag tag uuid ++ " by conn or ip")
          else Accepted (MkMemoryUser (UserTag tag uuid) 0) p w,
          MkLimiters (reg lims) (<[p := l']> (objs lims))).
Proof.
  intros Hp Hl E. unfold ask_limiter. cbn [sb_User user_session mu_Email sb_Tag sb_SourceTCP].
  rewrite decide_False by apply UserTag_nonempty. rewrite Hp, Hl.
  cbn [sourceIPString sb_Source user_session]. by rewrite E.
Qed.

Lemma release_slot taguuid ip now l :
  cl_inv (lm_ConnLimiter l) → 0 < cl_connLimit (lm_ConnLimiter l) → 1 ≤ open_slots l taguuid →
  ∃ l', release taguuid ip true now l = Some l' ∧ open_slots l' taguuid = open_slots l taguuid - 1.
Proof.
  intros Hl Hlim Hs. unfold release. simpl.
  destruct (DelConnCount_slot taguuid ip l Hl Hlim Hs) as (c & -> & Hc). by eexists.
Qed.

(** (C5) A TCP connection that the xray dispatcher accepts holds one connection slot of its user
    from then on.  The limiter it was accepted by is the one it is routed with, even when
    another is registered meanwhile; routing it changes no slot, whether a rule closes it or
    not; and the deferred release gives back exactly one slot of that limiter, whatever
    became of the limiter in between. *)
Theorem xray_connection_slots (tag uuid ip : string) (st : bool) (now : Z) (lims : Limiters) (p : nat)
    (l : Limiter) (w : option Bucket) (l0 : Limiter) :
  GetLimiter tag lims = Ok p → objs lims !! p = Some l → lm_inv l →
  0 < cl_connLimit (lm_ConnLimiter l) → 0 ≤ open_slots l (UserTag tag uuid) →
  CheckLimit (UserTag tag uuid) ip true st now l = Some (w, false, l0) →
  let session := Some (user_session tag uuid ip st) in
  ∃ inL outL lims1, getLink ForLevel has_counter session true now lims = Some (Linked inL outL (Some p), lims1) ∧
    objs lims1 !! p = Some l0 ∧
    open_slots l0 (UserTag tag uuid) = open_slots l (UserTag tag uuid) + 1 ∧
    (∀ destination protocol t lims2 l2, objs lims2 !! p = Some l2 →
      ∃ closed lims3 l3, routed_begin matches session destination (Some p) protocol t lims2 =
          Some (closed, Some (p, MkMemoryUser (UserTag tag uuid) 0), lims3) ∧
        objs lims3 !! p = Some l3 ∧
        closed = dispatch_rules matches (de_Address destination) protocol l3 ∧
        open_slots l3 (UserTag tag uuid) = open_slots l2 (UserTag tag uuid)) ∧
    (∀ destination t lims2 l2, objs lims2 !! p = Some l2 → lm_inv l2 → de_TCP destination = true →
      0 < cl_connLimit (lm_ConnLimiter l2) → 1 ≤ open_slots l2 (UserTag tag uuid) →
      ∃ lims3 l3, routed_end (user_session tag uuid ip st) destination
          (Some (p, MkMemoryUser (UserTag tag uuid) 0)) t lims2 = Some lims3 ∧
        objs lims3 !! p = Some l3 ∧
        open_slots l3 (UserTag tag uuid) = open_slots l2 (UserTag tag uuid) - 1).
Proof.
  intros Hp Hl Hinv Hlim H0 E session.
  destruct (CheckLimit_accepted_slot _ _ _ _ _ _ _ Hinv Hlim E) as (Hl0 & _ & Es & _).
  unfold getLink. unfold session at 1. rewrite (ask_limiter_user _ _ _ _ _ _ _ _ _ _ _ _ Hp Hl E). cbn [mbind option_bind].
  destruct (ForLevel _) as [up down]. eexists _, _, _. split; [done|].
  split; [apply lookup_insert_eq|]. split; [done|]. split.
  - intros destination protocol t lims2 l2 Hl2. unfold routed_begin, session.
    cbn [sb_User user_session dispatch_limiter mu_Email]. rewrite Hl2.
    eexists _, _, _. split; [done|]. split; [apply lookup_insert_eq|]. done.
  - intros destination t lims2 l2 Hl2 Hinv2 Htcp Hlim2 Hs2. unfold routed_end. rewrite Hl2, Htcp.
    cbn [mu_Email].
    destruct (release_slot (UserTag tag uuid) (userIP (user_session tag uuid ip st)) t l2 (lmi_conn l2 Hinv2) Hlim2 Hs2)
      as (l3 & -> & Hs3).
    eexists _, l3. split; [done|]. split; [apply lookup_insert_eq|done].
Qed.

Lemma with_rate_layers b w wr : layers_b b (with_rate w wr) =
  (if decide (w = Some b) then 1 else 0) + layers_b b wr.
Proof.
  destruct w as [b'|]; simpl; [|done].
  destruct (decide (b' = b)), (decide (Some b' = Some b)); simplify_eq; lia.
Qed.

(** (C6) The bytes of a connection of a user.  When the policy counts both directions and the
    statistics have counters, every byte the client sends is added to the uplink counter of
    the user and every byte it receives to the downlink counter, once each, and reaches its
    pipe; these are the counters the traffic report of the user reads.  With a speed limit all
    of them, both directions, are drawn from the one bucket the limiter gave; without one
    nothing waits. *)
Theorem link_accounts (tag uuid ip : string) (st tcp : bool) (now : Z) (lims lims' : Limiters) (p : nat)
    (l : Limiter) (w : option Bucket) (l' : Limiter) (inL outL : Link) (limit : option nat)
    (ups downs : list Z) (b : Bucket) :
  GetLimiter tag lims = Ok p → objs lims !! p = Some l →
  CheckLimit (UserTag tag uuid) ip tcp st now l = Some (w, false, l') →
  ForLevel 0 = (true, true) →
  has_counter (up_name (UserTag tag uuid)) = true → has_counter (down_name (UserTag tag uuid)) = true →
  getLink ForLevel has_counter (Some (user_session tag uuid ip st)) tcp now lims =
    Some (Linked inL outL limit, lims') →
  let es := (writes (lk_Writer inL) ups ++ writes (lk_Writer outL) downs)%list in
  counted (up_name (UserTag tag uuid)) es = sumZ ups ∧
  counted (down_name (UserTag tag uuid)) es = sumZ downs ∧
  written 0 es = sumZ ups ∧ written 1 es = sumZ downs ∧
  waited b es = (if decide (w = Some b) then sumZ ups + sumZ downs else 0).
Proof.
  intros Hp Hl E Hpol Hu Hd Hlink es. unfold getLink in Hlink.
  rewrite (ask_limiter_user _ _ _ _ _ _ _ _ _ _ _ _ Hp Hl E) in Hlink.
  cbn [mbind option_bind mu_Level mu_Email] in Hlink. rewrite Hpol in Hlink.
  injection Hlink as <- <- <- <-. unfold es. cbn [lk_Writer]. unfold with_stat.
  rewrite Hu, Hd. cbn [andb].
  assert (up_name (UserTag tag uuid) ≠ down_name (UserTag tag uuid)) as Hne by apply up_down_name.
  rewrite !counted_app, !written_app, waited_app.
  pose proof (λ wr ns c, proj1 (proj2 (writes_sum wr ns b c 0))) as Hc.
  pose proof (λ wr ns q, proj2 (proj2 (writes_sum wr ns b "" q))) as Hw.
  pose proof (λ wr ns, proj1 (writes_sum wr ns b "" 0)) as Hb.
  rewrite !Hc, !Hw, !Hb. cbn [layers_c layers_b writer_pipe].
  rewrite !with_rate_layers. cbn [layers_b].
  assert (∀ c pw, layers_c c (with_rate w (PipeWriter pw)) = 0) as Hlc by by (intros; destruct w).
  assert (∀ pw, writer_pipe (with_rate w (PipeWriter pw)) = pw) as Hwp by by (intros; destruct w).
  rewrite !Hlc, !Hwp, !(decide_True (P := up_name _ = up_name _)), !(decide_True (P := down_name _ = down_name _)) by done.
  rewrite (decide_False (P := up_name _ = down_name _)), (decide_False (P := down_name _ = up_name _)) by congruence.
  simpl. split_and!; [lia..|]. destruct (decide (w = Some b)); lia.
Qed.
End slots.

(** * Which outbound *)

(** A connection that no rule closed is closed only for want of any handler: because an
    outbound it was forced to is missing, or because neither its inbound's tag nor the default
    has a handler.  In particular a route to an outbound that is missing does not drop it: it
    leaves through the outbound of its own node. *)
Theorem missing_outbound_not_dropped (has_handler : string → bool) (default_handler : option string)
    (r : route) (inTag : string) :
  (routed_outcome has_handler default_handler false r inTag = ClosedNoHandler ↔
    match r with
    | Forced tag => has_handler tag = false
    | Routed (Some outTag) => has_handler outTag = false ∧ has_handler inTag = false ∧ default_handler = None
    | _ => has_handler inTag = false ∧ default_handler = None
    end) ∧
  (∀ outTag, has_handler outTag = false → has_handler inTag = true →
    routed_outcome has_handler default_handler false (Routed (Some outTag)) inTag = HandedTo inTag 0).
Proof.
  unfold routed_outcome, pick_handler. split.
  - destruct r as [tag|[outTag|]|]; [destruct (has_handler tag); naive_solver| | |];
      try destruct (has_handler outTag); destruct (has_handler inTag), default_handler; naive_solver.
  - by intros outTag -> ->.
Qed.

(** * Sniffing *)

Lemma sniff_round_skip ask keep pl si s pend :
  ask si = false → keep = false → sniff_round ask keep pl (si :: s) pend = sniff_round ask keep pl s pend.
Proof. intros H ->. simpl. by rewrite H. Qed.

Lemma sniff_round_sub ask keep pl s pend :
  ∃ k, (sniff_round ask keep pl s pend).2 = (pend ++ k)%list ∧ sublist k s.
Proof.
  revert pend. induction s as [|si s IH]; intros pend; simpl; [exists []; by rewrite app_nil_r|].
  assert (∀ q : bool, ∃ k, (sniff_round ask keep pl s (if q then pend ++ [si] else pend)%list).2 =
    (pend ++ k)%list ∧ sublist k (si :: s)) as H.
  { intros [].
    - destruct (IH (pend ++ [si])%list) as (k & -> & Hk). exists (si :: k).
      split; [by rewrite <-app_assoc|by constructor].
    - destruct (IH pend) as (k & -> & Hk). exists k. split; [done|by constructor]. }
  destruct (ask si); simpl; [|apply H].
  destruct (ps_sniff si pl) as [[r|] [[|e]|]].
  - apply (H true).
  - apply (H false).
  - exists []. rewrite app_nil_r. split; [done|apply sublist_nil_l].
  - apply (H true).
  - apply (H false).
  - apply (H false).
Qed.
Lemma sniff_with_sub ask keep pl s : sublist (sniff_with ask keep pl s).2 s.
Proof.
  unfold sniff_with. destruct (sniff_round_sub ask keep pl s []) as (k & E & Hk).
  destruct (sniff_round ask keep pl s []) as [[r|] pend]; simpl in *; subst; [done|].
  by destruct k.
Qed.

Section sniff_loop.
Context (cap : Z → Z).

Lemma sniff_loop_take n attempts network s r b : (n ≤ 2)%nat →
  sniff_loop cap n attempts network s r b = sniff_loop cap n (take (3 - n) attempts) network s r b.
Proof.
  revert n s r b. induction attempts as [|[e|read] attempts IH]; intros n s r b Hn.
  - by rewrite take_nil.
  - replace (3 - n)%nat with (S (2 - n)) by lia. done.
  - replace (3 - n)%nat with (S (2 - n)) by lia. cbn [take sniff_loop].
    case_bool_decide as Hlt; [done|]. destruct (Cache cap r b read) as [[[e|] r1] b1]; [done|].
    destruct (if decide (pl_bytes b1 = "") then _ else _) as [[found [[|e]|]] s1]; try done.
    case_bool_decide; [done|]. rewrite (IH (S n)) by lia. done.
Qed.
(** Each turn caches at most what one read gave. *)
Lemma sniff_loop_reads n attempts network s r b : (n ≤ 2)%nat →
  ∃ reads, (length reads ≤ 2 - n)%nat ∧ sublist (map Reading reads) attempts ∧
    cached (sniff_loop cap n attempts network s r b).2 = cached r +:+ String.concat "" (map got reads).
Proof.
  revert n s r b. induction attempts as [|[e|read] attempts IH]; intros n s r b Hn; cbn [sniff_loop].
  - exists []. split; [simpl; lia|]. split; [constructor|]. by rewrite string_app_nil_r.
  - exists []. split; [simpl; lia|]. split; [apply sublist_nil_l|]. by rewrite string_app_nil_r.
  - case_bool_decide as Hlt.
    { exists []. split; [simpl; lia|]. split; [apply sublist_nil_l|]. by rewrite string_app_nil_r. }
    pose proof (Cache_cached cap r b read) as Hc.
    assert (∀ r1, cached r1 = cached r +:+ got read → ∃ reads, (length reads ≤ 2 - n)%nat ∧
      sublist (map Reading reads) (Reading read :: attempts) ∧
      cached r1 = cached r +:+ String.concat "" (map got reads)) as Hone.
    { intros r1 Hr1. exists [read]. split; [simpl; lia|].
      split; [cbn; constructor; apply sublist_nil_l|]. done. }
    destruct (Cache cap r b read) as [[[e|] r1] b1]; [by apply Hone|].
    destruct (if decide (pl_bytes b1 = "") then _ else _) as [[found err] s1].
    destruct err as [[|e]|]; [|by apply Hone|by apply Hone].
    case_bool_decide; [by apply Hone|].
    destruct (IH (S n) s1 r1 b1 ltac:(lia)) as (reads & Hlen & Hsub & ->).
    exists (read :: reads). split; [simpl; lia|]. split; [cbn; by constructor|].
    rewrite Hc, append_assoc. f_equal. cbn [map String.concat].
    destruct (map got reads); [simpl; by rewrite string_app_nil_r|done].
Qed.
End sniff_loop.

(** Sniffing a connection ends: only the first three turns of its loop matter, at most two of
    them read, and what they read is in the cache, from where the outbound will get it. *)
Theorem sniffing_ends (cap : Z → Z) (s : list protocolSnifferWithMetadata) (metadataOnly : bool)
    (network : Network) (attempts : list attempt) (r : cachedReader) :
  sniffer cap s metadataOnly network attempts r = sniffer cap s metadataOnly network (take 3 attempts) r ∧
  ∃ reads, (length reads ≤ 2)%nat ∧ sublist (map Reading reads) attempts ∧
    cached (sniffer cap s metadataOnly network attempts r).2 =
      cached r +:+ String.concat "" (map got reads).
Proof.
  unfold sniffer. destruct (SniffMetadata s) as [meta s1]. destruct metadataOnly.
  - split; [done|]. exists []. split; [simpl; lia|]. split; [apply sublist_nil_l|].
    by rewrite string_app_nil_r.
  - split; [by rewrite (sniff_loop_take cap 0) by lia|].
    destruct (sniff_loop_reads cap 0 attempts network s1 r (MkPayload "" buf_Size))
      as (reads & Hlen & Hsub & H); [lia|].
    exists reads. split; [lia|]. split; [done|].
    destruct (sniff_loop cap 0 attempts network s1 r (MkPayload "" buf_Size)) as [content r1].
    exact H.
Qed.

(** The sniffer "fakedns+others" is made without a network, and [Sniff] asks only the
    sniffers of the network of the connection: it is never asked. *)
Lemma fakedns_others_unused e tcpudp others payload network s : network ≠ Network_Unknown →
  (Sniff payload network (newFakeDNSThenOthers e tcpudp others :: s)).1 = (Sniff payload network s).1.
Proof.
  intros Hn. unfold Sniff, sniff_with. rewrite sniff_round_skip; [| |done].
  - destruct (sniff_round _ _ _ s []) as [[r|] [|x pend]]; done.
  - simpl. by rewrite bool_decide_eq_false_2.
Qed.

(** * Concrete connections *)

Definition slot_limiter : Limiter :=
  newLimiter "n" (MkLimitConfig true 8 0 2 0 false None false None) [MkUserInfo 1 "a" 0 0] ∅.
(** The bucket of a limit of 8 Mbit per second. *)
Definition slot_bucket : Bucket := MkBucket 0 Second 1000000 1000000.

Definition slot_lims : Limiters := MkLimiters {["n" := 0%nat]} {[0%nat := slot_limiter]}.
Lemma slot_registered : GetLimiter "n" slot_lims = Ok 0%nat.
Proof. vm_compute. reflexivity. Qed.
Lemma slot_object : objs slot_lims !! 0%nat = Some slot_limiter.
Proof. apply lookup_singleton_eq. Qed.
Lemma slot_limiter_accepts : ∃ l, CheckLimit (UserTag "n" "a") "1.1.1.1" true true 0 slot_limiter =
  Some (Some slot_bucket, false, l).
Proof. eexists. vm_compute. reflexivity. Qed.

Lemma xray_connection_slots_witness :
  ∃ inL outL lims1, getLink (λ _, (true, true)) (λ _, true) (Some (user_session "n" "a" "1.1.1.1" true)) true 0
    slot_lims = Some (Linked inL outL (Some 0%nat), lims1).
Proof.
  destruct slot_limiter_accepts as [l0 E].
  destruct (xray_connection_slots (λ _, (true, true)) (λ _, true) (λ _ _, false) "n" "a" "1.1.1.1" true 0
    slot_lims 0 slot_limiter (Some slot_bucket) l0)
    as (inL & outL & lims1 & H & _).
  - apply slot_registered.
  - apply slot_object.
  - apply newLimiter_inv.
  - reflexivity.
  - vm_compute. discriminate.
  - exact E.
  - exists inL, outL, lims1. exact H.
Defined.

Lemma link_accounts_witness :
  let w := SizeStatWriter (RateWriter (PipeWriter 0) slot_bucket) (up_name "n|a") in
  waited slot_bucket (writes w [100; 200]) = 300.
Proof.
  cbv zeta. destruct slot_limiter_accepts as [l0 E].
  set (inL := MkLink 1 (SizeStatWriter (RateWriter (PipeWriter 0) slot_bucket) (up_name "n|a"))).
  set (outL := MkLink 0 (SizeStatWriter (RateWriter (PipeWriter 1) slot_bucket) (down_name "n|a"))).
  assert (getLink (λ _, (true, true)) (λ _, true) (Some (user_session "n" "a" "1.1.1.1" true)) true 0
    slot_lims = Some (Linked inL outL (Some 0%nat),
      MkLimiters (reg slot_lims) (<[0%nat := l0]> (objs slot_lims)))) as Hlink.
  { unfold getLink.
    rewrite (ask_limiter_user "n" "a" "1.1.1.1" true true 0 slot_lims 0 slot_limiter _ _ _
      slot_registered slot_object E). reflexivity. }
  pose proof (link_accounts (λ _, (true, true)) (λ _, true) "n" "a" "1.1.1.1" true true 0
    slot_lims _ 0 slot_limiter (Some slot_bucket) l0 inL outL (Some 0%nat) [100; 200] [] slot_bucket
    slot_registered slot_object E eq_refl eq_refl eq_refl Hlink) as (_ & _ & _ & _ & H).
  rewrite waited_app in H. rewrite decide_True in H by reflexivity.
  unfold waited in H at 2. cbn in H. rewrite Z.add_0_r in H. exact H.
Defined.

Lemma missing_outbound_not_dropped_witness :
  routed_outcome (λ t, bool_decide (t = "node")) None false (Routed (Some "block")) "node" = HandedTo "node" 0.
Proof.
  exact (proj2 (missing_outbound_not_dropped (λ t, bool_decide (t = "node")) None (Forced "") "node")
    "block" eq_refl eq_refl).
Defined.
