(* ===== verification/Dispatch.v ===== *)
(** core/xray/app/dispatcher/default.go: a connection from [Dispatch] or [DispatchLink] to the
    end of its handler, put together from the parts in Dispatcher.v.

    What the context of a request carries is a record; the code shares the last outbound and
    the content by pointer, so an entry point hands the changed record on.  [None] is a panic. *)
From S2P Require Import Prelude GoStrings Netutil PanelTypes Conf ConnLimiter OnlineRegistry Limiter Rate.
From S2P Require Import Slots Xray Dispatcher.
#[local] Open Scope string_scope.
#[local] Open Scope Z_scope.

(** * The context *)

Record Outbound := MkOutbound {
  ob_OriginalTarget : option Destination;
  ob_Target : option Destination;
  ob_RouteTarget : option Destination
}.
Definition Outbound_zero : Outbound := MkOutbound None None None.
Record Content := MkContent { ct_SniffingRequest : SniffingRequest; ct_Protocol : string }.
Definition Content_zero : Content := MkContent (MkSniffingRequest false false false None None []) "".
Record Context := MkContext {
  cx_Inbound : option Inbound;
  cx_Outbounds : list Outbound;
  cx_Content : option Content
}.
(** The last outbound is changed; one is made when there is none. *)
Definition on_outbound (f : Outbound → Outbound) (ctx : Context) : Context :=
  let obs := if decide (cx_Outbounds ctx = []) then [Outbound_zero] else cx_Outbounds ctx in
  MkContext (cx_Inbound ctx) (alter f (Nat.pred (length obs)) obs) (cx_Content ctx).
Definition last_outbound (ctx : Context) : Outbound := default Outbound_zero (last (cx_Outbounds ctx)).
Definition content_of (ctx : Context) : Content := default Content_zero (cx_Content ctx).
(** What both entry points do first. *)
Definition targeted (destination : Destination) (ctx : Context) : Context :=
  let ctx := on_outbound (λ ob, MkOutbound (Some destination) (Some destination) (ob_RouteTarget ob)) ctx in
  MkContext (cx_Inbound ctx) (cx_Outbounds ctx) (Some (content_of ctx)).

(** * The cached reader of a link *)

(** [newCachedReader]: a reader without a timeout is wrapped. *)
Inductive timeout_reader := IsTimeoutReader (r : nat) | TimeoutWrapper (r : nat).
Definition newCachedReader (has_timeout : nat → bool) (r : nat) : timeout_reader * cachedReader :=
  (if has_timeout r then IsTimeoutReader r else TimeoutWrapper r, MkCachedReader None).

Section dispatch.
Context (ForLevel : Z → bool * bool) (has_counter : string → bool).
Context (in_pool : option (address → bool)) (ParseAddress : string → address).
Context (matches : string → string → bool).
(** [destination.IsValid] of xray; its sniffers for a context; the capacity of a buffer. *)
Context (IsValid : Destination → bool) (NewSniffers : Context → list protocolSnifferWithMetadata).
Context (cap : Z → Z).
(** The router and the handlers. *)
Context (PickRoute : Context → route) (InboundTag : Context → string).
Context (has_handler : string → bool) (default_handler : option string).

(** * The entry points *)

(** An error with its effects, or a connection to be routed with the context it is routed in. *)
Inductive entered (L : Type) :=
| EnterErr (e : string) (es : list effect)
| Entered (link : L) (limit : option nat) (ctx : Context).
#[local] Arguments EnterErr {L}. #[local] Arguments Entered {L}.

(** [Dispatch] up to the goroutine: the link for the caller and the one for the outbound. *)
Definition Dispatch (ctx : Context) (destination : Destination) (now : Z) (lims : Limiters)
    : option (entered (Link * Link) * Limiters) :=
  if negb (IsValid destination) then panic
  else
    let ctx := targeted destination ctx in
    '(l, lims) ← getLink ForLevel has_counter (cx_Inbound ctx) (de_TCP destination) now lims;
    Some (match l with
          | LinkErr e es => EnterErr e es
          | Linked inbound outbound limit => Entered (inbound, outbound) limit ctx
          end, lims).
(** [DispatchLink] up to the sniffing. *)
Definition DispatchLink (ctx : Context) (destination : Destination) (outbound : option Link) (now : Z)
    (lims : Limiters) : option (entered (wrapped_reader * writer) * Limiters) :=
  if negb (IsValid destination) then Some (EnterErr "Dispatcher: Invalid destination." [], lims)
  else
    let ctx := targeted destination ctx in
    '(l, lims) ← wrapLink ForLevel has_counter (cx_Inbound ctx) outbound (de_TCP destination) now lims;
    Some (match l with
          | WrapErr e es => EnterErr e es
          | Wrapped r w limit => Entered (r, w) limit ctx
          end, lims).

(** * The rest of both *)

(** Sniffing: the destination and the protocol [routedDispatch] is called with, the context
    then, and what is left in the cached reader, if there is one. *)
Record sniffing := MkSniffing {
  sg_destination : Destination;
  sg_protocol : string;
  sg_ctx : Context;
  sg_reader : option cachedReader
}.
Definition with_content (c : Content) (ctx : Context) : Context :=
  MkContext (cx_Inbound ctx) (cx_Outbounds ctx) (Some c).
Definition sniff_link (ctx : Context) (destination : Destination) (attempts : list attempt) : option sniffing :=
  let content := content_of ctx in
  let request := ct_SniffingRequest content in
  if negb (sq_Enabled request) then Some (MkSniffing destination "" ctx None)
  else
    let '(result, cReader) := sniffer cap (NewSniffers ctx) (sq_MetadataOnly request)
      (de_Network destination) attempts (MkCachedReader None) in
    match result with
    | (_, Some _) => Some (MkSniffing destination (ct_Protocol content) ctx (Some cReader))
    | (None, None) => panic
    | (Some result, None) =>
        let ctx := with_content (MkContent request (sr_Protocol result)) ctx in
        let '(destination', target, route_target) := overridden in_pool ParseAddress result request destination in
        let ctx := on_outbound (λ ob, MkOutbound (ob_OriginalTarget ob) (Some target)
                                  (match route_target with Some d => Some d | None => ob_RouteTarget ob end)) ctx in
        Some (MkSniffing destination' (sr_Protocol result) ctx (Some cReader))
    end.

(** [routedDispatch] up to the call of the handler.  What is held is released at the end. *)
Record routed := MkRouted {
  rt_outcome : outcome;
  rt_held : option (nat * MemoryUser);
  rt_detour : option string;
  rt_effects : list effect
}.
Definition routedDispatch (ctx : Context) (destination : Destination) (reader : nat) (w : writer)
    (limit : option nat) (protocol : string) (now : Z) (lims : Limiters) : option (routed * Limiters) :=
  '(closed, held, lims) ← routed_begin matches (cx_Inbound ctx) destination limit protocol now lims;
  let o := routed_outcome has_handler default_handler closed (PickRoute ctx) (InboundTag ctx) in
  Some (match o with
        | HandedTo tag n =>
            MkRouted o held (if decide (tag = "") then None else Some (detour (InboundTag ctx) tag n)) []
        | _ => MkRouted o held None (writer_Close w ++ [Interrupted reader])%list
        end, lims).
(** Its deferred function. *)
Definition routed_done (ctx : Context) (destination : Destination) (r : routed) (now : Z) (lims : Limiters)
    : option Limiters :=
  match cx_Inbound ctx with
  | None => panic
  | Some s => routed_end s destination (rt_held r) now lims
  end.

(** What the goroutine of [Dispatch], and [DispatchLink] itself, do until the handler has the
    connection. *)
Definition route_connection (ctx : Context) (destination : Destination) (reader : nat) (w : writer)
    (limit : option nat) (attempts : list attempt) (now : Z) (lims : Limiters)
    : option (sniffing * routed * Limiters) :=
  sg ← sniff_link ctx destination attempts;
  '(r, lims) ← routedDispatch (sg_ctx sg) (sg_destination sg) reader w limit (sg_protocol sg) now lims;
  Some (sg, r, lims).
End dispatch.
Arguments EnterErr {L}. Arguments Entered {L}.

(** * Sniffing answers *)

(** A result or an error, never neither. *)
Definition answered (f : sniffed) : Prop := f.2 = None → is_Some f.1.

Lemma sniff_with_answered ask keep pl s : answered (sniff_with ask keep pl s).1.
Proof.
  unfold sniff_with. destruct (sniff_round ask keep pl s []) as [[r|] [|x pend]]; intros H; cbn in *; by eauto.
Qed.
Lemma sniff_loop_answered cap n attempts network s r b : answered (sniff_loop cap n attempts network s r b).1.
Proof.
  revert n s r b. induction attempts as [|[e|read] attempts IH]; intros n s r b; [done..|]. cbn [sniff_loop].
  case_bool_decide; [done|]. destruct (Cache cap r b read) as [[[e|] r1] b1]; [done|].
  assert (answered (if decide (pl_bytes b1 = "") then ((None, Some ErrNoClue), s)
                    else Sniff (pl_bytes b1) network s).1) as Ha.
  { case_decide; [done|]. apply sniff_with_answered. }
  destruct (if decide (pl_bytes b1 = "") then _ else _) as [[found [[|e]|]] s1]; [|exact Ha..].
  case_bool_decide; [done|]. apply IH.
Qed.
Lemma sniffer_answered cap s m network attempts r : answered (sniffer cap s m network attempts r).1.
Proof.
  unfold sniffer, SniffMetadata. pose proof (sniff_with_answered ps_metadataSniffer true None s) as Hm.
  destruct (sniff_with ps_metadataSniffer true None s) as [meta s1]. destruct m; [exact Hm|].
  pose proof (sniff_loop_answered cap 0 attempts network s1 r (MkPayload "" buf_Size)) as Hc.
  destruct (sniff_loop cap 0 attempts network s1 r (MkPayload "" buf_Size)) as [content r1].
  destruct content as [[c|] [e|]], meta as [[m|] [e'|]]; intros ?; cbn in *; try done; by eauto.
Qed.

(** * The last outbound *)

Lemma last_on_outbound f ctx : last_outbound (on_outbound f ctx) = f (last_outbound ctx).
Proof.
  unfold last_outbound, on_outbound. cbn [cx_Outbounds].
  rewrite !last_lookup, length_alter, list_lookup_alter_eq.
  destruct (decide _) as [->|Hne]; [done|].
  destruct (lookup_lt_is_Some_2 (cx_Outbounds ctx) (Nat.pred (length (cx_Outbounds ctx)))) as [ob ->]; [|done].
  destruct (cx_Outbounds ctx); [done|]. cbn. lia.
Qed.
Lemma targeted_outbound destination ctx :
  last_outbound (targeted destination ctx) =
    MkOutbound (Some destination) (Some destination) (ob_RouteTarget (last_outbound ctx)).
Proof. exact (last_on_outbound _ ctx). Qed.

(** * Properties *)

Section properties.
Context (in_pool : option (address → bool)) (ParseAddress : string → address).
Context (matches : string → string → bool).
Context (NewSniffers : Context → list protocolSnifferWithMetadata) (cap : Z → Z).
Context (PickRoute : Context → route) (InboundTag : Context → string).
Context (has_handler : string → bool) (default_handler : option string).
#[local] Abbreviation sniff_link := (sniff_link in_pool ParseAddress NewSniffers cap).
#[local] Abbreviation routedDispatch := (routedDispatch matches PickRoute InboundTag has_handler default_handler).
#[local] Abbreviation route_connection :=
  (route_connection in_pool ParseAddress matches NewSniffers cap PickRoute InboundTag has_handler default_handler).

(** The address of a destination is all that sniffing changes. *)
Lemma overridden_keeps result request destination d target rt :
  overridden in_pool ParseAddress result request destination = (d, target, rt) →
  de_Network d = de_Network destination ∧ de_Port d = de_Port destination ∧
  (target = d ∧ rt = None ∨ sq_RouteOnly request = true ∧ target = destination ∧ rt = Some d).
Proof.
  unfold overridden. destruct (shouldOverride _ _ _ _); [|naive_solver].
  destruct (sq_RouteOnly request); cbn [andb]; [|naive_solver].
  destruct (_ && _); naive_solver.
Qed.
Lemma sniff_link_spec ctx destination attempts :
  let request := ct_SniffingRequest (content_of ctx) in
  ob_Target (last_outbound ctx) = Some destination →
  ∃ sg, sniff_link ctx destination attempts = Some sg ∧
    cx_Inbound (sg_ctx sg) = cx_Inbound ctx ∧
    de_Network (sg_destination sg) = de_Network destination ∧
    de_Port (sg_destination sg) = de_Port destination ∧
    let ob := last_outbound (sg_ctx sg) in
    ob_OriginalTarget ob = ob_OriginalTarget (last_outbound ctx) ∧
    (ob_Target ob = Some (sg_destination sg) ∨
     sq_RouteOnly request = true ∧ ob_Target ob = Some destination ∧ ob_RouteTarget ob = Some (sg_destination sg)).
Proof.
  cbv zeta. intros Ht. unfold Dispatch.sniff_link.
  destruct (sq_Enabled _); cbn [negb]; [|eexists; split; [done|]; cbn; auto 10].
  pose proof (sniffer_answered cap (NewSniffers ctx) (sq_MetadataOnly (ct_SniffingRequest (content_of ctx)))
    (de_Network destination) attempts (MkCachedReader None)) as Ha.
  destruct (sniffer _ _ _ _ _ _) as [[[r|] [e|]] cr]; 
    [eexists; split; [done|]; cbn; auto 10| |eexists; split; [done|]; cbn; auto 10|by destruct (Ha eq_refl)].
  destruct (overridden _ _ _ _ _) as [[d target] rt] eqn:E.
  apply overridden_keeps in E as (En & Ep & Hcase). eexists. split; [done|]. cbn [sg_ctx sg_destination].
  rewrite last_on_outbound. cbn [ob_OriginalTarget ob_Target ob_RouteTarget].
  split_and!; [done..|]. destruct Hcase as [[-> ->]|(? & -> & ->)]; auto.
Qed.
Lemma routedDispatch_spec ctx destination reader w p protocol now lims l s user :
  cx_Inbound ctx = Some s → sb_User s = Some user → objs lims !! p = Some l →
  ∃ r l', routedDispatch ctx destination reader w (Some p) protocol now lims =
      Some (r, MkLimiters (reg lims) (<[p := l']> (objs lims))) ∧
    lm_ConnLimiter l' = lm_ConnLimiter l ∧ rt_held r = Some (p, user) ∧
    rt_outcome r = routed_outcome has_handler default_handler
      (dispatch_rules matches (de_Address destination) protocol l) (PickRoute ctx) (InboundTag ctx).
Proof.
  intros Hs Hu Hl. unfold Dispatch.routedDispatch, routed_begin. rewrite Hs, Hu. cbn [dispatch_limiter]. rewrite Hl.
  set (l' := set_Online _ l). cbn [mbind option_bind].
  change (dispatch_rules matches (de_Address destination) protocol l')
    with (dispatch_rules matches (de_Address destination) protocol l).
  eexists _, l'. split; [done|]. split; [done|]. by destruct (routed_outcome _ _ _ _ _).
Qed.

(** (C11) A connection reaches a handler only if no rule matches what it goes to.  Sniffing
    always answers and changes at most the address of the destination; unless the inbound asks
    to use the name for routing only, the target the outbound connects to is the one the rules
    have judged, together with the protocol that was sniffed.  A connection that passes the
    rules is closed only if no handler can be found. *)
Theorem handed_target_allowed (ctx : Context) (destination : Destination) (attempts : list attempt)
    (s : Inbound) (user : MemoryUser) (p : nat) (l : Limiter) (lims : Limiters) (reader : nat) (w : writer)
    (now : Z) :
  cx_Inbound ctx = Some s → sb_User s = Some user → objs lims !! p = Some l →
  sq_RouteOnly (ct_SniffingRequest (content_of ctx)) = false →
  ∃ sg r lims', route_connection (targeted destination ctx) destination reader w (Some p) attempts now lims =
      Some (sg, r, lims') ∧
    ob_OriginalTarget (last_outbound (sg_ctx sg)) = Some destination ∧
    ∃ target, ob_Target (last_outbound (sg_ctx sg)) = Some target ∧
      de_Network target = de_Network destination ∧ de_Port target = de_Port destination ∧
      let forbidden := CheckDomainRule matches (destination_text (de_Address target)) l = true ∨
        sg_protocol sg ≠ "" ∧ CheckProtocolRule (sg_protocol sg) l = true in
      (rt_outcome r = ClosedByRule ↔ forbidden) ∧
      (∀ tag n, rt_outcome r = HandedTo tag n → ¬ forbidden) ∧
      (¬ forbidden → rt_outcome r = ClosedNoHandler → has_handler (InboundTag (sg_ctx sg)) = false ∨
         ∃ tag, PickRoute (sg_ctx sg) = Forced tag ∧ has_handler tag = false).
Proof.
  intros Hs Hu Hl Hro. unfold Dispatch.route_connection.
  destruct (sniff_link_spec (targeted destination ctx) destination attempts)
    as (sg & -> & Hi & Hn & Hp & Ho & Ht); [by rewrite targeted_outbound|].
  cbn [mbind option_bind].
  destruct (routedDispatch_spec (sg_ctx sg) (sg_destination sg) reader w p (sg_protocol sg) now lims l s user)
    as (r & l' & -> & _ & _ & Er); [by rewrite Hi|done..|].
  cbn [mbind option_bind]. eexists sg, r, _. split; [done|]. rewrite Ho, targeted_outbound. split; [done|].
  destruct Ht as [Ht|[Ht _]]; [|change (content_of (targeted _ _)) with (content_of ctx) in Ht; congruence].
  exists (sg_destination sg). split; [done|]. split; [done|]. split; [done|]. cbv zeta.
  assert (dispatch_rules matches (de_Address (sg_destination sg)) (sg_protocol sg) l = true ↔
    CheckDomainRule matches (destination_text (de_Address (sg_destination sg))) l = true ∨
    sg_protocol sg ≠ "" ∧ CheckProtocolRule (sg_protocol sg) l = true) as Hr.
  { unfold dispatch_rules. destruct (CheckDomainRule _ _ _); [by split; auto|]. case_decide; naive_solver. }
  rewrite Er, <-Hr. unfold routed_outcome, pick_handler.
  destruct (dispatch_rules _ _ _ _); [naive_solver|].
  split_and!.
  - split; [|done]. by repeat case_match.
  - naive_solver.
  - intros _. destruct (PickRoute (sg_ctx sg)) as [tag|[outTag|]|].
    + destruct (has_handler tag) eqn:E; [done|]. eauto.
    + destruct (has_handler outTag); [done|]. destruct (has_handler _); [done|auto].
    + destruct (has_handler _); [done|auto].
    + destruct (has_handler _); [done|auto].
Qed.

Context (ForLevel : Z → bool * bool) (has_counter : string → bool) (IsValid : Destination → bool).

(** The limiter's answer, and what both entry points make of it. *)
Lemma enter_accepted tag uuid ip st ctx destination now lims p l w l0 link :
  GetLimiter tag lims = Ok p → objs lims !! p = Some l →
  CheckLimit (UserTag tag uuid) ip (de_TCP destination) st now l = Some (w, false, l0) →
  IsValid destination = true → cx_Inbound ctx = Some (user_session tag uuid ip st) →
  let lims1 := MkLimiters (reg lims) (<[p := l0]> (objs lims)) in
  (∃ io, Dispatch ForLevel has_counter IsValid ctx destination now lims =
     Some (Entered io (Some p) (targeted destination ctx), lims1)) ∧
  (∃ rw, DispatchLink ForLevel has_counter IsValid ctx destination (Some link) now lims =
     Some (Entered rw (Some p) (targeted destination ctx), lims1)).
Proof.
  intros Hp Hl E Hv Hi. unfold Dispatch, DispatchLink. rewrite Hv. cbn [negb].
  unfold getLink, wrapLink. change (cx_Inbound (targeted destination ctx)) with (cx_Inbound ctx). rewrite Hi.
  rewrite (ask_limiter_user _ _ _ _ _ _ _ _ _ _ _ _ Hp Hl E). cbn [mbind option_bind].
  destruct (ForLevel _) as [up down]. split; by eexists.
Qed.

End properties.

(** * A concrete connection *)

(** Sniffing finds the name of a web server. *)
Definition http_sniffer (payload : option string) : sniffed :=
  match payload with
  | Some _ => (Some (MkSniffResult "http" "ads.example" None None), None)
  | None => (None, Some ErrNoClue)
  end.
Definition web_request : Context :=
  MkContext (Some (user_session "n" "a" "1.1.1.1" true)) []
    (Some (MkContent (MkSniffingRequest true false false None None ["http"; "tls"]) "")).
Definition web_target : Destination := MkDestination (IPAddress "9.9.9.9") Network_TCP 80.
Definition http_sniffers (_ : Context) : list protocolSnifferWithMetadata :=
  [MkProtocolSniffer http_sniffer false Network_TCP].

(** The name that was sniffed is forbidden, and the connection is closed. *)
Lemma handed_target_allowed_witness :
  let limited := set_rules ["ads.example"] [] slot_limiter in
  ∃ sg r lims', route_connection None DomainAddress (λ rule d, bool_decide (rule = d)) http_sniffers (λ n, n)
      (λ _, Routed (Some "out")) (λ _, "n") (λ _, true) None
      (targeted web_target web_request) web_target 0 (PipeWriter 1) (Some 0%nat)
      [Reading (Ok "GET / HTTP/1.1")] 0 (MkLimiters {["n" := 0%nat]} {[0%nat := limited]}) = Some (sg, r, lims') ∧
    sg_destination sg = MkDestination (DomainAddress "ads.example") Network_TCP 80 ∧
    rt_outcome r = ClosedByRule.
Proof.
  cbv zeta. set (limited := set_rules ["ads.example"] [] slot_limiter).
  destruct (handed_target_allowed None DomainAddress (λ rule d, bool_decide (rule = d)) http_sniffers (λ n, n)
    (λ _, Routed (Some "out")) (λ _, "n") (λ _, true) None web_request web_target
    [Reading (Ok "GET / HTTP/1.1")] (user_session "n" "a" "1.1.1.1" true) (MkMemoryUser "n|a" 0) 0 limited
    (MkLimiters {["n" := 0%nat]} {[0%nat := limited]}) 0 (PipeWriter 1) 0 eq_refl eq_refl
    (lookup_singleton_eq 0%nat limited) eq_refl)
    as (sg & r & lims' & E & _ & target & Ht & _ & _ & Hc & _).
  exists sg, r, lims'. split; [exact E|].
  assert (sg_destination sg = MkDestination (DomainAddress "ads.example") Network_TCP 80 ∧
    ob_Target (last_outbound (sg_ctx sg)) = Some (MkDestination (DomainAddress "ads.example") Network_TCP 80))
    as [Ed Eo] by (vm_compute in E; injection E as <- _ _; by split).
  split; [exact Ed|]. apply Hc. left. rewrite Eo in Ht. injection Ht as <-. by vm_compute.
Defined.

