(* ===== verification/Report.v ===== *)
(** node/user.go: the lists and maps a controller computes, of users and of online
    devices.

    A Go map is ranged over in no particular order; here it is the order of
    [map_to_list], and the theorems say nothing that depends on it. *)
From S2P Require Import Prelude GoStrings Netutil PanelTypes OnlineRegistry Limiter.
#[local] Open Scope string_scope.
#[local] Open Scope Z_scope.

(** * Comparing user lists *)

Definition userCompareKey (user : UserInfo) : string :=
  Itoa (ui_Id user) +:+ "|" +:+ ui_Uuid user +:+ "|" +:+ Itoa (ui_SpeedLimit user) +:+ "|"
  +:+ Itoa (ui_DeviceLimit user).

(** The two loops and the deletion list.  [oldMap] maps a key to an index of [old];
    the last user of a key wins. *)
Definition old_map (old : list UserInfo) : gmap string nat :=
  foldl (λ m iu, <[userCompareKey iu.2 := iu.1]> m) ∅ (imap pair old).
Definition compare_new (s : gmap string nat * list UserInfo) (user : UserInfo)
    : gmap string nat * list UserInfo :=
  let key := userCompareKey user in
  match s.1 !! key with
  | None => (s.1, s.2 ++ [user])%list
  | Some _ => (delete key s.1, s.2)
  end.
Definition compareUserList (old new : list UserInfo) : list UserInfo * list UserInfo :=
  let '(oldMap, added) := foldl compare_new (old_map old, []) new in
  (omap (λ ki, old !! ki.2) (map_to_list oldMap), added).

(** * Online devices *)

(** One step of the loop; [seen] are the keys. *)
Definition dedupe_online (s : gset (Z * string) * list OnlineUser) (u : OnlineUser)
    : gset (Z * string) * list OnlineUser :=
  let ip := NormalizeIP (ou_IP u) in
  if decide (ip = "") then s
  else if decide ((ou_UID u, ip) ∈ s.1) then s
  else ({[(ou_UID u, ip)]} ∪ s.1, s.2 ++ [MkOnlineUser (ou_UID u) ip])%list.
Definition dedupeOnlineUsersByIP (users : list OnlineUser) : list OnlineUser :=
  merge_sort online_le (foldl dedupe_online (∅, []) users).2.

(** The two loops: over the uids, in order, and over their addresses. *)
Definition dedupe_ip (uid : Z) (s : gset (Z * string) * gmap Z (list string)) (ip : string)
    : gset (Z * string) * gmap Z (list string) :=
  let ip := NormalizeIP ip in
  if decide (ip = "") then s
  else if decide ((uid, ip) ∈ s.1) then s
  else ({[(uid, ip)]} ∪ s.1, <[uid := (default [] (s.2 !! uid) ++ [ip])%list]> s.2).
Definition dedupe_uid (data : gmap Z (list string))
    (s : gset (Z * string) * gmap Z (list string)) (uid : Z)
    : gset (Z * string) * gmap Z (list string) :=
  let '(seen, result) := foldl (dedupe_ip uid) s (default [] (data !! uid)) in
  (seen, alter sort_Strings uid result).
Definition dedupeOnlineIPMapByIP (data : gmap Z (list string)) : gmap Z (list string) :=
  (foldl (dedupe_uid data) (∅, ∅) (sort_Ints (map fst (map_to_list data)))).2.

(** [copy] keeps the users that have an address. *)
Definition buildOnlineIPMapPayload (data : gmap Z (list string)) : gmap Z (list string) :=
  filter (λ kv, kv.2 ≠ []) (dedupeOnlineIPMapByIP data).
Definition add_online (data : gmap Z (list string)) (u : OnlineUser) : gmap Z (list string) :=
  if decide (ou_IP u = "") then data
  else <[ou_UID u := (default [] (data !! ou_UID u) ++ [ou_IP u])%list]> data.
Definition buildOnlineIPPayload (onlineUsers : list OnlineUser) : gmap Z (list string) :=
  buildOnlineIPMapPayload (foldl add_online ∅ onlineUsers).

Example compare_ex :
  compareUserList [MkUserInfo 1 "a" 0 0; MkUserInfo 2 "b" 0 0] [MkUserInfo 2 "b" 0 0; MkUserInfo 1 "a" 9 0]
  = ([MkUserInfo 1 "a" 0 0], [MkUserInfo 1 "a" 9 0]).
Proof. vm_compute. reflexivity. Qed.
Example payload_ex :
  map_to_list (buildOnlineIPPayload (dedupeOnlineUsersByIP
    [MkOnlineUser 7 "9.9.9.9"; MkOnlineUser 7 "::ffff:1.2.3.4"; MkOnlineUser 8 "9.9.9.9";
     MkOnlineUser 7 "1.2.3.4:80"])) = [(7, ["1.2.3.4"; "9.9.9.9"]); (8, ["9.9.9.9"])].
Proof. vm_compute. reflexivity. Qed.

(** * The key of a user *)

Lemma Itoa_no_bar z : "|"%char ∉ to_bytes (Itoa z).
Proof. apply Itoa_free; [|done]. intros H%is_digit_no. by apply H, (bool_decide_unpack _). Qed.

#[export] Instance userCompareKey_inj : Inj (=) (=) userCompareKey.
Proof.
  intros [i u s d] [i' u' s' d']. unfold userCompareKey. cbn [ui_Id ui_Uuid ui_SpeedLimit ui_DeviceLimit].
  intros E%(f_equal to_bytes). rewrite !to_bytes_app in E.
  apply cut_first in E as [E1 E]; [|apply Itoa_no_bar..].
  change (to_bytes "|") with ["|"%char] in E. rewrite !(assoc_L app) in E.
  rewrite <-!(assoc_L app _ ["|"%char]) in E. simpl in E.
  apply cut_last in E as [E E4]; [|apply Itoa_no_bar..].
  apply cut_last in E as [E2 E3]; [|apply Itoa_no_bar..].
  apply (inj to_bytes), (inj Itoa) in E1, E3, E4. apply (inj to_bytes) in E2. by subst.
Qed.

(** * compareUserList *)

Lemma old_map_fold k l (m : gmap string nat) :
  let m' := foldl (λ m iu, <[userCompareKey iu.2 := iu.1]> m) m l in
  (∀ i, m' !! k = Some i → m !! k = Some i ∨ ∃ u, (i, u) ∈ l ∧ userCompareKey u = k) ∧
  (is_Some (m !! k) ∨ (∃ i u, (i, u) ∈ l ∧ userCompareKey u = k) → is_Some (m' !! k)).
Proof.
  cbv zeta. revert m. induction l as [|[j v] l IH]; intros m; cbn [foldl fst snd]; [set_solver|].
  destruct (IH (<[userCompareKey v := j]> m)) as [H1 H2]. split.
  - intros i [[[<- <-]|[_ ?]]%lookup_insert_Some|(u & ? & ?)]%H1; [right; set_solver|by left|].
    right. exists u. set_solver.
  - intros H. apply H2. destruct (decide (userCompareKey v = k)) as [->|Hk];
      [left; rewrite lookup_insert_eq; by eexists|].
    rewrite lookup_insert_ne by done. destruct H as [H|(i & u & Hin & Hu)]; [by left|].
    right. exists i, u. apply elem_of_cons in Hin as [[= -> ->]|Hin]; done.
Qed.
Lemma old_map_lookup old k i :
  old_map old !! k = Some i → ∃ u, old !! i = Some u ∧ userCompareKey u = k.
Proof.
  intros [?|(u & Hin & Hu)]%(proj1 (old_map_fold _ _ _)); [done|]. exists u. split; [|done].
  by apply elem_of_lookup_imap in Hin as (? & ? & [= -> ->] & ?).
Qed.
Lemma old_map_dom old u : is_Some (old_map old !! userCompareKey u) ↔ u ∈ old.
Proof.
  split.
  - intros [i (v & Hv%list_elem_of_lookup_2 & Hk%(inj userCompareKey))%old_map_lookup]. by subst.
  - intros [i Hi]%list_elem_of_lookup_1. apply (proj2 (old_map_fold _ _ _)). right.
    exists i, u. split; [|done]. apply elem_of_lookup_imap. naive_solver.
Qed.

Lemma filter_ext_in {A} (P Q : A → Prop) `{∀ x, Decision (P x)} `{∀ x, Decision (Q x)}
    (l : list A) :
  (∀ x, x ∈ l → P x ↔ Q x) → filter P l = filter Q l.
Proof.
  induction l as [|x l IH]; intros HPQ; [done|]. rewrite !filter_cons, IH by set_solver.
  pose proof (HPQ x ltac:(set_solver)). by repeat case_decide; try tauto.
Qed.

Lemma compare_new_fold new m acc :
  NoDup new →
  let s := foldl compare_new (m, acc) new in
  (∀ k, s.1 !! k = if decide (k ∈ map userCompareKey new) then None else m !! k) ∧
  s.2 = (acc ++ filter (λ u, m !! userCompareKey u = None) new)%list.
Proof.
  cbv zeta. revert m acc. induction new as [|u new IH]; intros m acc Hnd; cbn [foldl map].
  { split; [|by rewrite filter_nil, (right_id_L [] app)]. intros k. rewrite decide_False by apply not_elem_of_nil.
    done. }
  apply NoDup_cons in Hnd as [Hu Hnd]. unfold compare_new at 2 4. cbn [fst snd].
  assert (∀ k, k = userCompareKey u → k ∉ map userCompareKey new) as Hk.
  { intros k -> (v & E%(inj userCompareKey) & Hv)%list_elem_of_fmap. by subst. }
  destruct (m !! userCompareKey u) as [i|] eqn:E.
  - destruct (IH (delete (userCompareKey u) m) acc Hnd) as [H1 H2]. split.
    + intros k. rewrite H1. destruct (decide (k = userCompareKey u)) as [->|Hne].
      * rewrite decide_False by auto. rewrite decide_True by set_solver. apply lookup_delete_eq.
      * rewrite lookup_delete_ne by done. by repeat case_decide; set_solver.
    + rewrite H2. rewrite filter_cons_False by congruence. f_equal.
      apply filter_ext_in. intros v Hv.
      rewrite lookup_delete_ne; [done|]. intros Hvu%(inj userCompareKey). by subst.
  - destruct (IH m (acc ++ [u])%list Hnd) as [H1 H2]. split.
    + intros k. rewrite H1. destruct (decide (k = userCompareKey u)) as [->|Hne].
      * rewrite decide_False by auto. by rewrite decide_True by set_solver.
      * by repeat case_decide; set_solver.
    + rewrite H2, <-(assoc_L app). by rewrite filter_cons_True.
Qed.

Lemma compareUserList_spec old new :
  NoDup new →
  (compareUserList old new).2 = filter (λ u, u ∉ old) new ∧
  ∀ u, u ∈ (compareUserList old new).1 ↔ u ∈ old ∧ u ∉ new.
Proof.
  intros Hnd. unfold compareUserList.
  destruct (compare_new_fold new (old_map old) [] Hnd) as [H1 H2].
  destruct (foldl compare_new (old_map old, []) new) as [m added]. cbn [fst snd app] in *. split.
  - rewrite H2. apply filter_ext_in. intros u _. by rewrite eq_None_not_Some, old_map_dom.
  - intros u. rewrite list_elem_of_omap. split.
    + intros ([k i] & Hki%elem_of_map_to_list & Hi). cbn [snd] in Hi. rewrite H1 in Hki.
      case_decide as Hk; [done|]. apply old_map_lookup in Hki as (v & Hv & <-).
      assert (v = u) as -> by congruence. split; [by eapply list_elem_of_lookup_2|].
      intros Hu. apply Hk, list_elem_of_fmap. by exists u.
    + intros [Hu Hn]. apply old_map_dom in Hu as [i Hi]. exists (userCompareKey u, i). split.
      * apply elem_of_map_to_list. rewrite H1, decide_False; [done|].
        intros (v & E%(inj userCompareKey) & Hv)%list_elem_of_fmap. by subst.
      * apply old_map_lookup in Hi as (v & Hv & ->%(inj userCompareKey)). done.
Qed.

(** * A limiter that knows exactly the users of a list *)

Definition entry_of (u : UserInfo) (e : UserLimitInfo) : Prop :=
  ul_UID e = ui_Id u ∧ ul_SpeedLimit e = ui_SpeedLimit u ∧ ul_DeviceLimit e = ui_DeviceLimit u.
Definition registered (tag : string) (users : list UserInfo) (l : Limiter) : Prop :=
  (∀ u, u ∈ users → ∃ e, lm_UserLimitInfo l !! UserTag tag (ui_Uuid u) = Some e ∧ entry_of u e) ∧
  (∀ uuid, uuid ∉ map ui_Uuid users → lm_UserLimitInfo l !! UserTag tag uuid = None).

Lemma same_uuid users u v :
  NoDup (map ui_Uuid users) → u ∈ users → v ∈ users → ui_Uuid u = ui_Uuid v → u = v.
Proof.
  intros Hnd [i Hi]%list_elem_of_lookup_1 [j Hj]%list_elem_of_lookup_1 E.
  assert (i = j) as ->; [|congruence]. apply (NoDup_lookup (map ui_Uuid users) i j (ui_Uuid u)); [done|..];
    [by rewrite list_lookup_fmap, Hi|by rewrite list_lookup_fmap, Hj, E].
Qed.
Lemma find_uuid tag users uuid :
  NoDup (map ui_Uuid users) →
  match list_find (λ u, UserTag tag (ui_Uuid u) = UserTag tag uuid) users with
  | Some (_, u) => u ∈ users ∧ ui_Uuid u = uuid
  | None => uuid ∉ map ui_Uuid users
  end.
Proof.
  intros Hnd. destruct (list_find _ users) as [[i u]|] eqn:E.
  - apply list_find_Some in E as (Hi & Hu & _). split; [by eapply list_elem_of_lookup_2|].
    by apply (inj (UserTag tag)) in Hu.
  - apply list_find_None in E. intros (u & -> & Hu)%list_elem_of_fmap.
    rewrite Forall_forall in E. by apply (E u).
Qed.

Lemma newLimiter_registered tag lc users alive :
  NoDup (map ui_Uuid users) → registered tag users (newLimiter tag lc users alive).
Proof.
  intros Hnd. split.
  - intros u Hu. exists (newUserLimit u). split; [|done]. simpl. rewrite storeUsers_lookup by done.
    pose proof (find_uuid tag users (ui_Uuid u) Hnd) as Hf.
    destruct (list_find _ users) as [[i v]|].
    + destruct Hf as [Hv E]. by rewrite (same_uuid users v u).
    + destruct Hf. apply list_elem_of_fmap. by exists u.
  - intros uuid Hn. simpl. rewrite storeUsers_lookup by done.
    pose proof (find_uuid tag users uuid Hnd) as Hf. destruct (list_find _ users) as [[i v]|]; [|done].
    destruct Hf as [Hv <-]. destruct Hn. apply list_elem_of_fmap. by exists v.
Qed.

(** Applying the difference of two lists to a limiter that knows the first one. *)
Lemma sync_registered tag old new l :
  NoDup (map ui_Uuid old) → NoDup (map ui_Uuid new) → registered tag old l →
  let '(deleted, added) := compareUserList old new in
  registered tag new (UpdateUser tag added deleted l).
Proof.
  intros Ho Hn [R1 R2].
  destruct (compareUserList_spec old new) as [Ha Hd]; [by apply NoDup_fmap_1 in Hn|].
  destruct (compareUserList old new) as [deleted added]. cbn [fst snd] in *. subst added.
  assert (NoDup (map ui_Uuid (filter (λ u, u ∉ old) new))) as Hna.
  { eapply sublist_NoDup; [exact Hn|]. apply (fmap_sublist ui_Uuid), sublist_filter. }
  assert (∀ uuid, UserTag tag uuid ∈ map (UserTag tag ∘ ui_Uuid) deleted →
    ∃ v, ui_Uuid v = uuid ∧ v ∈ old ∧ v ∉ new) as Hgone.
  { intros uuid (v & E%(inj (UserTag tag)) & [Hv ?]%Hd)%list_elem_of_fmap. exists v. by simpl in E. }
  assert (∀ uuid, lm_UserLimitInfo (UpdateUser tag (filter (λ u, u ∉ old) new) deleted l)
      !! UserTag tag uuid =
    match list_find (λ u, UserTag tag (ui_Uuid u) = UserTag tag uuid) (filter (λ u, u ∉ old) new) with
    | Some (_, u) => Some (newUserLimit u)
    | None => if decide (UserTag tag uuid ∈ map (UserTag tag ∘ ui_Uuid) deleted) then None
              else lm_UserLimitInfo l !! UserTag tag uuid
    end) as E.
  { intros uuid. unfold UpdateUser. simpl. rewrite storeUsers_lookup by done.
    by rewrite (proj1 (deleteUsers_spec tag deleted l (UserTag tag uuid))). }
  split.
  - intros u Hu. rewrite E. pose proof (find_uuid tag _ (ui_Uuid u) Hna) as Hf.
    destruct (list_find _ _) as [[i v]|].
    + destruct Hf as [[_ Hv]%list_elem_of_filter Ev]. exists (newUserLimit v). split; [done|].
      by rewrite (same_uuid new v u).
    + assert (u ∈ old) as Huo.
      { destruct (decide (u ∈ old)); [done|]. destruct Hf. apply list_elem_of_fmap. exists u.
        by rewrite list_elem_of_filter. }
      rewrite decide_False; [by apply R1|]. intros (v & Ev & Hvo & Hvn)%Hgone.
      apply Hvn. by rewrite (same_uuid old v u).
  - intros uuid Hu. rewrite E. pose proof (find_uuid tag _ uuid Hna) as Hf.
    destruct (list_find _ _) as [[i v]|].
    + destruct Hf as [[_ Hv]%list_elem_of_filter <-]. destruct Hu. apply list_elem_of_fmap. by exists v.
    + destruct (decide (uuid ∈ map ui_Uuid old)) as [(v & -> & Hv)%list_elem_of_fmap|Hno].
      * rewrite decide_True; [done|]. apply list_elem_of_fmap. exists v. split; [done|].
        apply Hd. split; [done|]. intros Hvn. apply Hu, list_elem_of_fmap. by exists v.
      * case_decide; [done|]. by apply R2.
Qed.

(** * The online payload *)

(** The addresses of one uid, added one by one. *)
Definition ips_of (s : gset (Z * string) * gmap Z (list string)) (uid : Z) : list string :=
  default [] (s.2 !! uid).
Definition ip_inv (s : gset (Z * string) * gmap Z (list string)) (uid : Z) : Prop :=
  NoDup (ips_of s uid) ∧ s.2 !! uid ≠ Some [] ∧ ∀ ip, (uid, ip) ∈ s.1 ↔ ip ∈ ips_of s uid.

Lemma dedupe_ip_spec uid s raw :
  ip_inv s uid →
  ip_inv (dedupe_ip uid s raw) uid ∧
  (∀ ip, ip ∈ ips_of (dedupe_ip uid s raw) uid ↔
     ip ∈ ips_of s uid ∨ ip ≠ "" ∧ NormalizeIP raw = ip) ∧
  (∀ v ip, v ≠ uid → (v, ip) ∈ (dedupe_ip uid s raw).1 ↔ (v, ip) ∈ s.1) ∧
  (∀ v, v ≠ uid → (dedupe_ip uid s raw).2 !! v = s.2 !! v).
Proof.
  intros (H1 & H2 & H3). unfold dedupe_ip. case_decide as He; [split; [done|set_solver]|].
  case_decide as Hs.
  - split; [done|]. split; [|done]. intros ip. split; [by left|].
    intros [?|[_ <-]]; [done|]. by apply H3.
  - unfold ip_inv, ips_of. cbn [fst snd].
    rewrite !lookup_insert_eq. cbn [default from_option id].
    fold (ips_of s uid). split_and!.
    + apply NoDup_app. split_and!; [done| |apply NoDup_singleton].
      intros x Hx ->%list_elem_of_singleton. by apply Hs, H3.
    + intros [= E]. by apply app_eq_nil in E as [_ ?].
    + intros ip. rewrite elem_of_union, H3, elem_of_singleton, elem_of_app, list_elem_of_singleton.
      naive_solver.
    + intros ip. rewrite elem_of_app, list_elem_of_singleton. naive_solver.
    + set_solver.
    + intros v Hv. by rewrite lookup_insert_ne.
Qed.
Lemma dedupe_ips_spec uid s raws :
  ip_inv s uid →
  let s' := foldl (dedupe_ip uid) s raws in
  ip_inv s' uid ∧
  (∀ ip, ip ∈ ips_of s' uid ↔ ip ∈ ips_of s uid ∨ ip ≠ "" ∧ ip ∈ map NormalizeIP raws) ∧
  (∀ v ip, v ≠ uid → (v, ip) ∈ s'.1 ↔ (v, ip) ∈ s.1) ∧
  (∀ v, v ≠ uid → s'.2 !! v = s.2 !! v).
Proof.
  cbv zeta. revert s. induction raws as [|raw raws IH]; intros s Hs; cbn [foldl map]; [set_solver|].
  destruct (dedupe_ip_spec uid s raw Hs) as (H1 & H2 & H3 & H4).
  destruct (IH _ H1) as (G1 & G2 & G3 & G4). split_and!; [done|..].
  - intros ip. rewrite G2, H2, elem_of_cons. naive_solver.
  - intros v ip Hv. by rewrite G3, H3.
  - intros v Hv. by rewrite G4, H4.
Qed.

(** What the payload holds for a uid that has the addresses [raws]. *)
Definition clean_ips (raws : list string) (o : option (list string)) : Prop :=
  o ≠ Some [] ∧ StronglySorted String.le (default [] o) ∧ NoDup (default [] o) ∧
  ∀ ip, ip ∈ default [] o ↔ ip ≠ "" ∧ ip ∈ map NormalizeIP raws.

Lemma dedupe_uids_spec data uids s :
  NoDup uids → (∀ uid, uid ∈ uids → s.2 !! uid = None ∧ ∀ ip, (uid, ip) ∉ s.1) →
  let s' := foldl (dedupe_uid data) s uids in
  ∀ v, if decide (v ∈ uids) then clean_ips (default [] (data !! v)) (s'.2 !! v)
       else s'.2 !! v = s.2 !! v.
Proof.
  cbv zeta. revert s. induction uids as [|uid uids IH]; intros s Hnd Hs v; cbn [foldl].
  { by rewrite decide_False by apply not_elem_of_nil. }
  apply NoDup_cons in Hnd as [Hn Hnd]. destruct (Hs uid) as [Hs1 Hs2]; [set_solver|].
  destruct (dedupe_ips_spec uid s (default [] (data !! uid))) as ((G1 & G1' & _) & G2 & G3 & G4).
  { unfold ip_inv, ips_of. rewrite Hs1. split_and!; [apply NoDup_nil_2|done|set_solver]. }
  set (s1 := dedupe_uid data s uid).
  assert (s1 = (let '(a, b) := foldl (dedupe_ip uid) s (default [] (data !! uid)) in
                (a, alter sort_Strings uid b))) as E1 by done.
  destruct (foldl (dedupe_ip uid) s _) as [seen result] eqn:E. cbn [fst snd] in *.
  assert (∀ u, u ∈ uids → s1.2 !! u = None ∧ ∀ ip, (u, ip) ∉ s1.1) as Hs'.
  { intros u Hu. assert (u ≠ uid) by congruence. rewrite E1. cbn [fst snd].
    rewrite lookup_alter_ne by done. rewrite G4 by done.
    destruct (Hs u) as [? Hip]; [set_solver|]. split; [done|]. intros ip. by rewrite G3. }
  specialize (IH s1 Hnd Hs' v). destruct (decide (v ∈ uids)) as [Hv|Hv].
  { by rewrite decide_True by set_solver. }
  rewrite IH, E1. cbn [fst snd]. destruct (decide (v = uid)) as [->|Hne].
  - rewrite decide_True by set_solver. rewrite lookup_alter_eq.
    unfold ips_of in *. rewrite Hs1 in G2. cbn [fst snd] in *.
    assert (default [] (sort_Strings <$> result !! uid) = sort_Strings (default [] (result !! uid))) as Hd.
    { by destruct (result !! uid). }
    unfold clean_ips. rewrite Hd. split_and!.
    + destruct (result !! uid) as [l|]; [|done]. simpl in *. intros [= El].
      apply G1'. f_equal. apply Permutation_nil. rewrite <-El. apply sort_Strings_Permutation.
    + apply sort_Strings_sorted.
    + by rewrite sort_Strings_Permutation.
    + intros ip. rewrite sort_Strings_Permutation, G2. set_solver.
  - rewrite decide_False by set_solver. rewrite lookup_alter_ne by done. by apply G4.
Qed.

Lemma payload_spec data uid : clean_ips (default [] (data !! uid)) (buildOnlineIPMapPayload data !! uid).
Proof.
  unfold buildOnlineIPMapPayload, dedupeOnlineIPMapByIP.
  pose proof (dedupe_uids_spec data (sort_Ints (map fst (map_to_list data))) (∅, ∅)) as H.
  cbv zeta in H. specialize (H ltac:(rewrite sort_Ints_Permutation; apply NoDup_fst_map_to_list)
    ltac:(set_solver) uid).
  set (s := foldl _ _ _) in *.
  assert (clean_ips (default [] (data !! uid)) (s.2 !! uid)) as Hc.
  { case_decide as Hd; [done|]. rewrite H. cbn [snd]. rewrite lookup_empty.
    assert (data !! uid = None) as ->.
    { destruct (data !! uid) as [l|] eqn:E; [|done]. destruct Hd.
      rewrite sort_Ints_Permutation. apply list_elem_of_fmap. exists (uid, l).
      by rewrite elem_of_map_to_list. }
    split_and!; [done|constructor|constructor|set_solver]. }
  rewrite map_lookup_filter. destruct (s.2 !! uid) as [l|]; [|done]. simpl.
  rewrite option_guard_True; [done|]. intros ->. by destruct Hc.
Qed.

Lemma add_online_lookup us m uid :
  default [] (foldl add_online m us !! uid) =
    (default [] (m !! uid) ++
     map ou_IP (filter (λ u, ou_UID u = uid ∧ ou_IP u ≠ "") us))%list.
Proof.
  revert m. induction us as [|u us IH]; intros m; [symmetry; apply (right_id_L [] app)|].
  cbn [foldl]. rewrite IH, filter_cons. unfold add_online. case_decide as Hip.
  - by rewrite decide_False by naive_solver.
  - destruct (decide (ou_UID u = uid)) as [<-|Hne].
    + rewrite decide_True by done. rewrite lookup_insert_eq. cbn [default from_option id map].
      by rewrite <-(assoc_L app).
    + rewrite decide_False by naive_solver. by rewrite lookup_insert_ne.
Qed.

Lemma dedupe_online_spec us acc :
  (∀ x, x ∈ acc.2 ↔ (ou_UID x, ou_IP x) ∈ acc.1) → NoDup acc.2 →
  let s := foldl dedupe_online acc us in
  NoDup s.2 ∧
  ∀ x, x ∈ s.2 ↔ x ∈ acc.2 ∨ ou_IP x ≠ "" ∧
    ∃ u, u ∈ us ∧ ou_UID u = ou_UID x ∧ NormalizeIP (ou_IP u) = ou_IP x.
Proof.
  cbv zeta. revert acc. induction us as [|u us IH]; intros [seen res] Hacc Hnd; cbn [foldl fst snd] in *.
  { split; [done|]. set_solver. }
  assert (dedupe_online (seen, res) u = (seen, res) ∧
      (NormalizeIP (ou_IP u) = "" ∨ MkOnlineUser (ou_UID u) (NormalizeIP (ou_IP u)) ∈ res) ∨
    NormalizeIP (ou_IP u) ≠ "" ∧ MkOnlineUser (ou_UID u) (NormalizeIP (ou_IP u)) ∉ res ∧
    dedupe_online (seen, res) u =
      ({[(ou_UID u, NormalizeIP (ou_IP u))]} ∪ seen,
       res ++ [MkOnlineUser (ou_UID u) (NormalizeIP (ou_IP u))])%list) as [[-> H]|(He & Hn & ->)].
  { unfold dedupe_online. cbn [fst snd]. case_decide; [by auto|]. case_decide; [left; rewrite Hacc; by auto|].
    right. rewrite Hacc. by auto. }
  - destruct (IH (seen, res) Hacc Hnd) as [H1 H2]. split; [done|]. intros x. rewrite H2. cbn [fst snd].
    split; [set_solver|]. intros [?|(Hx & v & [->|Hv]%elem_of_cons & E1 & E2)]; [by left| |right; eauto 10].
    left. destruct H as [H|H]; [congruence|]. rewrite E1, E2 in H. by destruct x.
  - set (y := MkOnlineUser _ _) in *. destruct (IH ({[(ou_UID y, ou_IP y)]} ∪ seen, (res ++ [y])%list)) as [H1 H2].
    + intros x. cbn [fst snd]. rewrite elem_of_app, list_elem_of_singleton, elem_of_union, Hacc,
        elem_of_singleton. destruct x, y. naive_solver.
    + cbn [snd]. apply NoDup_app. split_and!; [done|by intros x Hx ->%list_elem_of_singleton|apply NoDup_singleton].
    + split; [done|]. intros x. etrans; [apply H2|]. cbn [fst snd].
      rewrite elem_of_app, list_elem_of_singleton. split.
      * intros [[?| ->]|(? & v & ? & ?)]; [by left|right; split; [done|]; exists u; set_solver|].
        right. split; [done|]. exists v. set_solver.
      * intros [?|(Hx & v & [->|Hv]%elem_of_cons & E1 & E2)]; [by auto| |right; eauto 10].
        left. right. destruct x. by subst y; simpl in *; subst.
Qed.
Lemma elem_of_dedupeOnline us x :
  x ∈ dedupeOnlineUsersByIP us ↔
    ou_IP x ≠ "" ∧ ∃ u, u ∈ us ∧ ou_UID u = ou_UID x ∧ NormalizeIP (ou_IP u) = ou_IP x.
Proof.
  unfold dedupeOnlineUsersByIP. rewrite merge_sort_Permutation.
  destruct (dedupe_online_spec us (∅, [])) as [_ H]; [set_solver|apply NoDup_nil_2|].
  rewrite H. set_solver.
Qed.

(** * Properties *)

(** (C24) The online devices that are reported.  Whatever addresses the limiter recorded,
    the payload holds, for each user whose devices are counted, the distinct normalized
    addresses of that user and no other's, in order; a user without one has no entry.  Two
    users behind one address are both reported. *)
Theorem online_payload_exact (us : list OnlineUser) (nocount : gset Z) (uid : Z) :
  let result := filter (λ u, ou_UID u ∉ nocount) (dedupeOnlineUsersByIP us) in
  let entry := buildOnlineIPPayload result !! uid in
  entry ≠ Some [] ∧ StronglySorted String.le (default [] entry) ∧ NoDup (default [] entry) ∧
  ∀ ip, ip ∈ default [] entry ↔
    uid ∉ nocount ∧ ip ≠ "" ∧
    ∃ u, u ∈ us ∧ ou_UID u = uid ∧ NormalizeIP (NormalizeIP (ou_IP u)) = ip.
Proof.
  cbv zeta. unfold buildOnlineIPPayload. set (result := filter _ _).
  destruct (payload_spec (foldl add_online ∅ result) uid) as (H1 & H2 & H3 & H4).
  split_and!; [done..|]. intros ip. rewrite H4, add_online_lookup, lookup_empty. cbn [default from_option app].
  rewrite list_elem_of_fmap. split.
  - intros (Hip & a & -> & (x & -> & Hx)%list_elem_of_fmap).
    apply list_elem_of_filter in Hx as [[<- _] [Hn Hd]%list_elem_of_filter].
    apply elem_of_dedupeOnline in Hd as (_ & u & Hu & E1 & E2).
    rewrite <-E2 in *. split; [done|]. split; [done|]. by exists u.
  - intros (Hn & Hip & u & Hu & <- & <-). split; [done|]. exists (NormalizeIP (ou_IP u)). split; [done|].
    assert (NormalizeIP (ou_IP u) ≠ "") as Hne by (intros E; by rewrite E in Hip).
    apply list_elem_of_fmap. exists (MkOnlineUser (ou_UID u) (NormalizeIP (ou_IP u))).
    split; [done|]. apply list_elem_of_filter. split; [done|]. apply list_elem_of_filter.
    split; [done|]. apply elem_of_dedupeOnline. split; [done|]. by exists u.
Qed.
