(* ===== verification/Controller.v ===== *)
(** node: the controller of one node (controller.go, task.go, online.go, the tasks of
    user.go, requestCert of cert.go) and the list of controllers (node.go).

    A controller lives in a [World] with the proxy core, the panel and the limiters; each
    method is a function on the world that may panic.  The core is an instance of [Core]
    and the panel one of [PanelApi]: what is proved here holds for every core and for every
    panel.  A method runs to its end here; what is left of concurrency is the order of the
    calls.  A periodic task is its interval and whether it was started; Task.v models how
    it then runs.  Logging is left out. *)
From S2P Require Import Prelude GoStrings Netutil PanelTypes Conf OnlineRegistry ConnLimiter.
From S2P Require Import Limiter TrafficCounter CoreApi PanelUser PanelNode Report Hy2.
#[local] Open Scope string_scope.
#[local] Open Scope Z_scope.

(** * What the panel offers *)

Record SystemStatus := MkSystemStatus {
  ss_CPU : spec_float;
  ss_MemTotal : Z; ss_MemUsed : Z; ss_SwapTotal : Z; ss_SwapUsed : Z;
  ss_DiskTotal : Z; ss_DiskUsed : Z; ss_Uptime : Z
}.
Record NodeStatus := MkNodeStatus {
  ns_CPU : spec_float; ns_Mem : spec_float; ns_Disk : spec_float;
  ns_Uptime : Z;
  ns_MemTotal : Z; ns_MemUsed : Z; ns_SwapTotal : Z; ns_SwapUsed : Z;
  ns_DiskTotal : Z; ns_DiskUsed : Z
}.

(** The methods of [*panel.Client] a controller calls; [None] is a panic. *)
Class PanelApi (P : Type) := {
  PanelType : P → string;
  APIHost : P → string;
  api_GetNodeInfo : P → option (result (option NodeInfo) * P);
  api_GetUserList : P → option (result (option (list UserInfo)) * P);
  api_GetUserAlive : P → option (result (gmap Z Z) * P);
  api_ReportUserTraffic : list UserTraffic → P → option string * P;
  api_ReportNodeOnlineUsers : gmap Z (list string) → P → option string * P;
  api_ReportNodeStatus : NodeStatus → P → option string * P;
  api_InvalidateNodeConfigCache : P → P
}.

(** The client of PanelUser.v and PanelNode.v, with the state of its panel. *)
Section client.
Context {S : Type} (http_get : string → string → S → http_result * S)
  (http_push : string → push_body → S → http_result * S)
  (http_alive : string → alive_body → S → http_result * S)
  (http_status : string → NodeStatus → S → http_result * S)
  (hash : string → string) (dec_alive : string → result (option (gmap Z Z)))
  (dec_int : string → result (gmap Z Z)) (dec_str : string → result (gmap string Z))
  (dec_any : string → result (gmap string any)) (dec_raw : string → result (gmap string string))
  (dec_users : string → result (option (list UserInfo))) (int_of_float : spec_float → Z)
  (dec_node : string → NodeInfo → result NodeInfo) (dec_vallss : string → result VAllssNode)
  (dec_ss : string → result ShadowsocksNode) (dec_trojan : string → result TrojanNode)
  (dec_tuic : string → result TuicNode) (dec_anytls : string → result AnyTLSNode)
  (dec_naive : string → result NaiveNode) (dec_hy : string → result HysteriaNode)
  (dec_hy2 : string → result Hysteria2Node).
Definition client_panel : PanelApi (Client * S) := {|
  PanelType p := pc_PanelType p.1;
  APIHost p := pc_APIHost p.1;
  api_GetNodeInfo p :=
    '(r, c, s) ← GetNodeInfo http_get hash dec_node dec_vallss dec_ss dec_trojan dec_tuic
                   dec_anytls dec_naive dec_hy dec_hy2 p.1 p.2;
    Some (r, (c, s));
  api_GetUserList p := let '(r, c, s) := GetUserList http_get dec_users p.1 p.2 in Some (r, (c, s));
  api_GetUserAlive p :=
    let '(m, c, s) := GetUserAlive http_get dec_alive dec_int dec_str dec_any dec_raw int_of_float p.1 p.2 in
    m ← m; Some (Ok m, (c, s));
  api_ReportUserTraffic l p := let '(e, s) := ReportUserTraffic http_push p.1 l p.2 in (e, (p.1, s));
  api_ReportNodeOnlineUsers d p :=
    let '(e, s) := ReportNodeOnlineUsers http_alive p.1 d p.2 in (e, (p.1, s));
  api_ReportNodeStatus st p := let '(e, s) := ReportNodeStatus http_status p.1 st p.2 in (e, (p.1, s));
  api_InvalidateNodeConfigCache p := (InvalidateNodeConfigCache p.1, p.2)
|}.
End client.

(** * The state *)

(** A [*task.Task]: its interval, and whether [Start] was called last, or [Close]. *)
Record Periodic := MkPeriodic { pd_Interval : Z; pd_started : bool }.

Record Tasks := MkTasks {
  nodeInfoMonitorPeriodic : option Periodic;
  userReportPeriodic : option Periodic;
  renewCertPeriodic : option Periodic;
  dynamicSpeedLimitPeriodic : option Periodic;
  onlineIpReportPeriodic : option Periodic
}.
Record Controller := MkController {
  traffic : gmap string Z;
  lastOnlineUIDs : gset Z;
  tasks : Tasks;
  co_Options : Options;
  (** The fields behind [stateMu]; the limiter is a pointer. *)
  tag : string;
  limiter : option nat;
  userList : list UserInfo;
  info : option NodeInfo
}.

Definition NewController (config : Options) : Controller :=
  MkController ∅ ∅ (MkTasks None None None None None) config "" None [] None.

Definition set_traffic m (c : Controller) :=
  MkController m (lastOnlineUIDs c) (tasks c) (co_Options c) (tag c) (limiter c) (userList c) (info c).
Definition set_last s (c : Controller) :=
  MkController (traffic c) s (tasks c) (co_Options c) (tag c) (limiter c) (userList c) (info c).
Definition set_tasks t (c : Controller) :=
  MkController (traffic c) (lastOnlineUIDs c) t (co_Options c) (tag c) (limiter c) (userList c) (info c).
Definition setTag t (c : Controller) :=
  MkController (traffic c) (lastOnlineUIDs c) (tasks c) (co_Options c) t (limiter c) (userList c) (info c).
Definition setLimiter l (c : Controller) :=
  MkController (traffic c) (lastOnlineUIDs c) (tasks c) (co_Options c) (tag c) (Some l) (userList c) (info c).
Definition setUsers u (c : Controller) :=
  MkController (traffic c) (lastOnlineUIDs c) (tasks c) (co_Options c) (tag c) (limiter c) u (info c).
Definition set_options o (c : Controller) :=
  MkController (traffic c) (lastOnlineUIDs c) (tasks c) o (tag c) (limiter c) (userList c) (info c).
Definition setInfo i (c : Controller) :=
  MkController (traffic c) (lastOnlineUIDs c) (tasks c) (co_Options c) (tag c) (limiter c) (userList c) (Some i).

Definition set_monitor p (t : Tasks) :=
  MkTasks p (userReportPeriodic t) (renewCertPeriodic t) (dynamicSpeedLimitPeriodic t) (onlineIpReportPeriodic t).
Definition set_report p (t : Tasks) :=
  MkTasks (nodeInfoMonitorPeriodic t) p (renewCertPeriodic t) (dynamicSpeedLimitPeriodic t) (onlineIpReportPeriodic t).
Definition set_renew p (t : Tasks) :=
  MkTasks (nodeInfoMonitorPeriodic t) (userReportPeriodic t) p (dynamicSpeedLimitPeriodic t) (onlineIpReportPeriodic t).
Definition set_dynamic p (t : Tasks) :=
  MkTasks (nodeInfoMonitorPeriodic t) (userReportPeriodic t) (renewCertPeriodic t) p (onlineIpReportPeriodic t).
Definition set_sync p (t : Tasks) :=
  MkTasks (nodeInfoMonitorPeriodic t) (userReportPeriodic t) (renewCertPeriodic t) (dynamicSpeedLimitPeriodic t) p.

Record World (S P : Type) := MkWorld { w_ctl : Controller; w_server : S; w_api : P; w_lims : Limiters }.
Arguments MkWorld {S P}.
Arguments w_ctl {S P}.
Arguments w_server {S P}.
Arguments w_api {S P}.
Arguments w_lims {S P}.

(** * Methods *)

Definition M (S P A : Type) : Type := World S P → option (A * World S P).
#[export] Instance M_ret S P : MRet (M S P) := λ A a w, Some (a, w).
#[export] Instance M_bind S P : MBind (M S P) := λ A B f m w,
  match m w with Some (a, w) => f a w | None => None end.

(** The options of a controller. *)
Definition c_LimitConfig (c : Controller) : LimitConfig := op_LimitConfig (co_Options c).
Definition dynamicSpeedLimitEnabled (c : Controller) : bool :=
  lc_EnableDynamicSpeedLimit (c_LimitConfig c) && bool_decide (is_Some (lc_DynamicSpeedLimitConfig (c_LimitConfig c))).
Definition dynamicSpeedLimitInterval (c : Controller) : Z :=
  match lc_DynamicSpeedLimitConfig (c_LimitConfig c) with
  | Some d => if dynamicSpeedLimitEnabled c && bool_decide (0 < dsl_Periodic d)
              then wrap64 (dsl_Periodic d * Second) else 60 * Second
  | None => 60 * Second
  end.
Definition onlineIPSyncInterval (c : Controller) : Z :=
  match lc_IpRecorderConfig (c_LimitConfig c) with
  | Some r => if bool_decide (0 < irc_Periodic r) then wrap64 (irc_Periodic r * Second) else 30 * Second
  | None => 30 * Second
  end.
Definition onlineIPSyncEnabled (paneltype : string) (c : Controller) : bool :=
  if decide (paneltype = "ppanel") then false
  else if lc_EnableIpRecorder (c_LimitConfig c) &&
          match lc_IpRecorderConfig (c_LimitConfig c) with Some r => irc_EnableIpSync r | None => false end
  then true
  else existsb (λ u, bool_decide (0 < ui_DeviceLimit u)) (userList c).

(** ** The traffic of the dynamic speed limit *)

(** A nil map is an empty one: it is only read, or replaced before it is written. *)
Definition resetTraffic (c : Controller) : Controller := set_traffic ∅ c.
Definition addTraffic (uuid : string) (n : Z) (c : Controller) : Controller :=
  if bool_decide (n ≤ 0) then c
  else set_traffic (<[uuid := wrap64 (default 0 (traffic c !! uuid) + n)]> (traffic c)) c.
Definition deleteTraffic (uuid : string) (c : Controller) : Controller :=
  set_traffic (delete uuid (traffic c)) c.
Definition consumeDynamicSpeedLimitUsers (c : Controller) : list string * Controller :=
  match lc_DynamicSpeedLimitConfig (c_LimitConfig c) with
  | Some d =>
      if negb (dynamicSpeedLimitEnabled c) || bool_decide (dsl_Traffic d ≤ 0) then ([], c)
      else (map fst (map_to_list (filter (λ kv, dsl_Traffic d ≤ kv.2) (traffic c))),
            set_traffic (filter (λ kv, ¬ dsl_Traffic d ≤ kv.2) (traffic c)) c)
  | None => ([], c)
  end.

(** ** Intervals *)

Definition maxPanelPushInterval : Z := 100 * Second.
Definition normalizedPushInterval (paneltype : string) (interval : Z) : Z :=
  let interval := if bool_decide (interval ≤ 0) then 60 * Second else interval in
  if decide (paneltype = "ppanel") then interval
  else
    let interval := if bool_decide (interval < 20 * Second) then 20 * Second else interval in
    if bool_decide (interval > maxPanelPushInterval) then maxPanelPushInterval else interval.

Definition defaultPanelPullInterval : Z := 60 * Second.
Definition minPanelPullInterval : Z := 10 * Second.
Definition normalizedPullInterval (interval : Z) : Z :=
  if bool_decide (interval ≤ 0) then defaultPanelPullInterval
  else if bool_decide (interval < minPanelPullInterval) then minPanelPullInterval
  else interval.

Definition closed (p : Periodic) : Periodic := MkPeriodic (pd_Interval p) false.
Definition started (p : Periodic) : Periodic := MkPeriodic (pd_Interval p) true.

Section controller.
Context {S P : Type} `{Core S} `{PanelApi P}.
(** Regular expressions, files, and the two ways to make a certificate. *)
Context (compiles : string → bool) (IsExist : string → bool)
  (lego_create self_create : CertConfig → option string).
#[local] Abbreviation M := (M S P).
#[local] Open Scope list_scope.

Definition get {A} (f : World S P → A) : M A := λ w, Some (f w, w).
Definition ctl {A} (f : Controller → A) : M A := get (λ w, f (w_ctl w)).
Definition on_ctl (f : Controller → Controller) : M unit := λ w,
  Some (tt, MkWorld (f (w_ctl w)) (w_server w) (w_api w) (w_lims w)).
Definition on_tasks (f : Tasks → Tasks) : M unit := on_ctl (λ c, set_tasks (f (tasks c)) c).
Definition on_server {A} (f : S → A * S) : M A := λ w,
  let '(a, s) := f (w_server w) in Some (a, MkWorld (w_ctl w) s (w_api w) (w_lims w)).
Definition on_api {A} (f : P → A * P) : M A := λ w,
  let '(a, p) := f (w_api w) in Some (a, MkWorld (w_ctl w) (w_server w) p (w_lims w)).
Definition on_api_panic {A} (f : P → option (A * P)) : M A := λ w,
  '(a, p) ← f (w_api w); Some (a, MkWorld (w_ctl w) (w_server w) p (w_lims w)).
Definition on_lims {A} (f : Limiters → A * Limiters) : M A := λ w,
  let '(a, l) := f (w_lims w) in Some (a, MkWorld (w_ctl w) (w_server w) (w_api w) l).
Definition panics {A} : M A := λ _, panic.

(** A method of the limiter behind a pointer. *)
Definition on_pointer {A} (p : nat) (f : Limiter → option (A * Limiter)) : M A := λ w,
  l ← objs (w_lims w) !! p;
  '(a, l) ← f l;
  Some (a, MkWorld (w_ctl w) (w_server w) (w_api w)
             (MkLimiters (reg (w_lims w)) (<[p := l]> (objs (w_lims w))))).
(** [c.getLimiter().f()] *)
Definition limiter_call {A} (f : Limiter → option (A * Limiter)) : M A :=
  p ← ctl limiter; match p with None => panics | Some p => on_pointer p f end.
Definition limiter_do (f : Limiter → Limiter) : M unit := limiter_call (λ l, Some (tt, f l)).
Definition update_rule (r : Rules) : M (option string) :=
  limiter_call (λ l, '(x : result Limiter) ← UpdateRule compiles r l;
    Some (match x with Ok l' => (None, l') | Err e => (Some e, l) end)).

Definition when (b : bool) (m : M unit) : M unit := if b then m else mret tt.
Fixpoint for_each {A} (l : list A) (f : A → M unit) : M unit :=
  match l with [] => mret tt | x :: l => f x;; for_each l f end.

(** ** The certificate (cert.go) *)

(** [None] is a nil [CertConfig]. *)
Definition requestCert (cert : option CertConfig) : option (option string) :=
  match cert with
  | None => panic
  | Some c =>
      let missing := bool_decide (cc_CertFile c = "") || bool_decide (cc_KeyFile c = "") in
      let present := IsExist (cc_CertFile c) && IsExist (cc_KeyFile c) in
      let m := cc_CertMode c in
      if decide (m = "none") then Some None
      else if decide (m = "") then Some None
      else if decide (m = "file") then
        Some (if missing then Some "cert file path or key file path not exist" else None)
      else if decide (m = "dns" ∨ m = "http") then
        Some (if missing then Some "cert file path or key file path not exist"
              else if present then None else lego_create c)
      else if decide (m = "self") then
        Some (if missing then Some "cert file path or key file path not exist"
              else if present then None
              else match self_create c with
                   | Some e => Some ("generate self cert error: " ++ e)%string
                   | None => None
                   end)
      else Some (Some ("unsupported certmode: " ++ m)%string)
  end.
Definition request_cert : M (option string) :=
  c ← ctl co_Options;
  match requestCert (op_CertConfig c) with Some e => mret e | None => panics end.

(** ** Online devices (online.go, user.go) *)

Definition getOnlineUsers (now : Z) : M (list OnlineUser) :=
  p ← ctl limiter;
  match p with
  | None => mret []
  | Some p => on_pointer p (λ l, Some (GetOnlineDevice now l))
  end.

Definition trackOnlineTransition (current : list OnlineUser) (last : gset Z) : list Z * gset Z :=
  let next : gset Z := list_to_set (filter (λ uid, 0 < uid) (map ou_UID current)) in
  (sort_Ints (elements (last ∖ next)), next).

(** ** The report *)

Record readUserUsage := MkReadUserUsage { ru_uuid : string; ru_up : Z; ru_down : Z }.

Fixpoint read_users (tag : string) (users : list UserInfo)
    : M (list UserTraffic * list readUserUsage) :=
  match users with
  | [] => mret ([], [])
  | u :: users =>
      '(up, down) ← on_server (GetUserTraffic tag (ui_Uuid u) true);
      if bool_decide (0 < up) || bool_decide (0 < down) then
        enabled ← ctl dynamicSpeedLimitEnabled;
        when enabled (on_ctl (addTraffic (ui_Uuid u) (wrap64 (up + down))));;
        '(userTraffic, readUsage) ← read_users tag users;
        mret (MkUserTraffic (ui_Id u) up down "" :: userTraffic,
              MkReadUserUsage (ui_Uuid u) up down :: readUsage)
      else read_users tag users
  end.

(** The users whose traffic is below the threshold; ppanel only. *)
Definition nocount_uids (paneltype : string) (minTraffic : Z) (userTraffic : list UserTraffic)
    : gset Z :=
  if decide (paneltype = "ppanel" ∧ 0 < minTraffic) then
    list_to_set (map ut_UID (filter (λ t,
      wrap64 (ut_Upload t + ut_Download t) < wrap64 (minTraffic * 1000)) userTraffic))
  else ∅.

(** Entries for the online users without traffic. *)
Definition add_zero (s : list UserTraffic * gset Z) (u : OnlineUser) : list UserTraffic * gset Z :=
  if decide (ou_UID u ∈ s.2) then s
  else (s.1 ++ [MkUserTraffic (ou_UID u) 0 0 ""], {[ou_UID u]} ∪ s.2).

(** The online devices: reports them, and returns the traffic list. *)
Definition report_online (now : Z) (userTraffic : list UserTraffic) : M (list UserTraffic) :=
  onlineDevice ← getOnlineUsers now;
  let onlineDevice := dedupeOnlineUsersByIP onlineDevice in
  paneltype ← get (λ w, PanelType (w_api w));
  minTraffic ← ctl (λ c, op_DeviceOnlineMinTraffic (co_Options c));
  let nocountUID := nocount_uids paneltype minTraffic userTraffic in
  let result := filter (λ u, ou_UID u ∉ nocountUID) onlineDevice in
  let data := buildOnlineIPPayload result in
  if decide (paneltype = "ppanel") then
    on_api (api_ReportNodeOnlineUsers data);; mret userTraffic
  else
    last ← ctl lastOnlineUIDs;
    let '(stale, next) := trackOnlineTransition result last in
    on_ctl (set_last next);;
    let data := foldl (λ d uid, <[uid := []]> d) data stale in
    let reportedUID : gset Z := list_to_set (map ut_UID userTraffic) in
    let userTraffic := (foldl add_zero (userTraffic, reportedUID) result).1 in
    on_api (api_ReportNodeOnlineUsers data);; mret userTraffic.

(** Sends the traffic; puts it back if the panel does not take it. *)
Definition report_traffic (tag : string) (userTraffic : list UserTraffic)
    (readUsage : list readUserUsage) : M unit :=
  match userTraffic with
  | [] => mret tt
  | _ =>
      err ← on_api (api_ReportUserTraffic userTraffic);
      match err with
      | None => mret tt
      | Some _ => for_each readUsage (λ r,
          on_server (λ s, (tt, RestoreUserTraffic tag (ru_uuid r) (ru_up r) (ru_down r) s)))
      end
  end.

Definition of_uint (z : Z) : spec_float := binary_normalize 53 1024 z 0 false.
Definition percent (used total : Z) : spec_float :=
  if bool_decide (0 < total)
  then SFmul 53 1024 (SFdiv 53 1024 (of_uint used) (of_uint total)) (of_uint 100)
  else S754_zero false.
Definition node_status (status : option SystemStatus) : NodeStatus :=
  match status with
  | None => MkNodeStatus (S754_zero false) (S754_zero false) (S754_zero false) 0 0 0 0 0 0 0
  | Some s =>
      MkNodeStatus (ss_CPU s) (percent (ss_MemUsed s) (ss_MemTotal s))
        (percent (ss_DiskUsed s) (ss_DiskTotal s)) (ss_Uptime s) (ss_MemTotal s) (ss_MemUsed s)
        (ss_SwapTotal s) (ss_SwapUsed s) (ss_DiskTotal s) (ss_DiskUsed s)
  end.

Definition reportUserTrafficTask (now : Z) (status : option SystemStatus) : M unit :=
  tag ← ctl tag;
  users ← ctl userList;
  '(userTraffic, readUsage) ← read_users tag users;
  userTraffic ← report_online now userTraffic;
  report_traffic tag userTraffic readUsage;;
  on_api (api_ReportNodeStatus (node_status status));;
  mret tt.

Definition syncOnlineUsersTask : M unit :=
  p ← ctl limiter;
  match p with
  | None => mret tt
  | Some p =>
      alive ← on_api_panic api_GetUserAlive;
      match alive with
      | Err _ => mret tt
      | Ok aliveMap => on_pointer p (λ l, Some (tt, SetAliveList aliveMap l))
      end
  end.

(** ** task.go *)

Definition retryNodeReload : M unit := on_api (λ p, (tt, api_InvalidateNodeConfigCache p)).

Definition online_ttl (onlineTimeout pushInterval : Z) : Z :=
  let ttl := wrap64 (onlineTimeout * Second) in
  let ttl := if bool_decide (ttl ≤ 0) then 5 * Minute else ttl in
  let minimum := wrap64 (pushInterval + Minute) in
  if bool_decide (ttl < minimum) then minimum else ttl.
Definition applyOnlineTTL (pushInterval : Z) : M unit :=
  p ← ctl limiter;
  match p with
  | None => mret tt
  | Some p =>
      timeout ← ctl (λ c, lc_OnlineTimeout (c_LimitConfig c));
      on_pointer p (λ l, Some (tt, SetOnlineTTL (online_ttl timeout pushInterval) l))
  end.

Definition ensureOnlineIPSyncTask : M unit :=
  paneltype ← get (λ w, PanelType (w_api w));
  enabled ← ctl (onlineIPSyncEnabled paneltype);
  interval ← ctl onlineIPSyncInterval;
  if (enabled : bool) then
    on_tasks (λ t,
      match onlineIpReportPeriodic t with
      | Some p => if decide (pd_Interval p = interval) then t
                  else set_sync (Some (MkPeriodic interval true)) t
      | None => set_sync (Some (MkPeriodic interval true)) t
      end)
  else on_tasks (set_sync None).

(** The certificate is renewed daily when it was not given or self signed. *)
Definition start_renew (node : NodeInfo) : M unit :=
  if decide (ni_Security node = SecTls) then
    cert ← ctl (λ c, op_CertConfig (co_Options c));
    match cert with
    | None => panics
    | Some cert =>
        if decide (cc_CertMode cert ∈ ["none"; ""; "file"; "self"]) then mret tt
        else on_tasks (set_renew (Some (MkPeriodic (Hour * 24) true)))
    end
  else mret tt.
Definition start_dynamic : M unit :=
  dynamic ← ctl dynamicSpeedLimitEnabled;
  interval ← ctl dynamicSpeedLimitInterval;
  when dynamic (
    on_ctl resetTraffic;; on_tasks (set_dynamic (Some (MkPeriodic interval true)))).
Definition startTasks (node : NodeInfo) : M unit :=
  paneltype ← get (λ w, PanelType (w_api w));
  let pushInterval := normalizedPushInterval paneltype (ni_PushInterval node) in
  applyOnlineTTL pushInterval;;
  on_tasks (set_monitor (Some (MkPeriodic (normalizedPullInterval (ni_PullInterval node)) true)));;
  on_tasks (set_report (Some (MkPeriodic pushInterval true)));;
  start_renew node;;
  start_dynamic;;
  ensureOnlineIPSyncTask.

(** ** The node info monitor *)

(** [c.server.AddNode(tag, node, c.Options)] *)
Definition add_node (tag : string) (node : NodeInfo) : M (option string) :=
  options ← ctl co_Options;
  '(err, options) ← on_server (AddNode tag node options);
  on_ctl (set_options options);; mret err.
Definition add_users (users : list UserInfo) (node : NodeInfo) : M (option string) :=
  tag ← ctl tag;
  r ← on_server (AddUsers tag users node);
  mret (match r with Ok _ => None | Err e => Some e end).

(** [c.monitor.Interval = i; Close(); Start(_)] when the interval changed. *)
Definition rearm (i : Z) (p : option Periodic) (set : option Periodic → Tasks → Tasks) : M unit :=
  match p with
  | None => panics
  | Some p => if decide (pd_Interval p = i) then mret tt else on_tasks (set (Some (MkPeriodic i true)))
  end.

Definition buildNodeTag (host : string) (node : NodeInfo) : string :=
  ("[" ++ host ++ "]-" ++ ni_Type node ++ ":" ++ Itoa (ni_Id node))%string.

(** The limiter of a node without a name is replaced; the list the limiter is made of
    is the one the controller holds. *)
Definition replace_limiter (newN : NodeInfo) (newA : gmap Z Z) : M unit :=
  options ← ctl co_Options;
  if decide (op_Name options = "") then
    oldTag ← ctl tag;
    host ← get (λ w, APIHost (w_api w));
    let newTag := buildNodeTag host newN in
    on_ctl (setTag newTag);;
    on_lims (λ l, (tt, DeleteLimiter oldTag l));;
    users ← ctl userList;
    l ← on_lims (AddLimiter newTag (op_LimitConfig options) users newA);
    on_ctl (setLimiter l)
  else mret tt.

(** The node changed: the second part of the reload, after the rules. *)
Definition reload_core (newN : NodeInfo) : M unit :=
  err ← (if decide (ni_Security newN = SecTls) then request_cert else mret None);
  match err with Some _ => retryNodeReload | None =>
  tag ← ctl tag;
  err ← add_node tag newN;
  match err with Some _ => retryNodeReload | None =>
  users ← ctl userList;
  err ← add_users users newN;
  match err with Some _ => retryNodeReload | None =>
  paneltype ← get (λ w, PanelType (w_api w));
  monitor ← ctl (λ c, nodeInfoMonitorPeriodic (tasks c));
  rearm (normalizedPullInterval (ni_PullInterval newN)) monitor set_monitor;;
  let newPushInterval := normalizedPushInterval paneltype (ni_PushInterval newN) in
  report ← ctl (λ c, userReportPeriodic (tasks c));
  rearm newPushInterval report set_report;;
  applyOnlineTTL newPushInterval;;
  ensureOnlineIPSyncTask
  end end end.
(** The first part, and the whole. *)
Definition reload_node (newN : NodeInfo) (newU : option (list UserInfo)) (newA : gmap Z Z) : M unit :=
  on_ctl (setInfo newN);;
  match newU with Some u => on_ctl (setUsers u) | None => mret tt end;;
  on_ctl resetTraffic;;
  oldTag ← ctl tag;
  on_server (DelNode oldTag);;
  replace_limiter newN newA;;
  limiter_do (SetAliveList newA);;
  err ← update_rule (ni_Rules newN);
  match err with Some _ => retryNodeReload | None => reload_core newN end.

(** The node did not change; the users may have.  [info] is nil only before [Start]
    has succeeded, when the monitor does not run. *)
Definition del_users (deleted : list UserInfo) (tag : string) (node : NodeInfo) : M (option string) :=
  if decide (deleted = []) then mret None else on_server (DelUsers deleted tag node).
Definition add_new (added : list UserInfo) (node : NodeInfo) : M (option string) :=
  if decide (added = []) then mret None else add_users added node.
Definition update_limiter (tag : string) (added deleted : list UserInfo) : M unit :=
  if decide (added = [] ∧ deleted = []) then mret tt
  else
    limiter_do (UpdateUser tag added deleted);;
    dynamic ← ctl dynamicSpeedLimitEnabled;
    when dynamic (for_each deleted (λ u, on_ctl (deleteTraffic (ui_Uuid u)))).
Definition sync_users (newU : list UserInfo) : M unit :=
  old ← ctl userList;
  let '(deleted, added) := compareUserList old newU in
  node ← ctl info;
  match node with
  | None => panics
  | Some node =>
      tag ← ctl tag;
      err ← del_users deleted tag node;
      match (err : option string) with Some _ => mret tt | None =>
      err ← add_new added node;
      match (err : option string) with Some _ => mret tt | None =>
      update_limiter tag added deleted;;
      on_ctl (setUsers newU);;
      ensureOnlineIPSyncTask
      end end
  end.

Definition nodeInfoMonitor : M unit :=
  newN ← on_api_panic api_GetNodeInfo;
  match newN with Err _ => mret tt | Ok newN =>
  newU ← on_api_panic api_GetUserList;
  match newU with Err _ => mret tt | Ok newU =>
  newA ← on_api_panic api_GetUserAlive;
  match newA with Err _ => mret tt | Ok newA =>
  match newN with
  | Some newN => reload_node newN newU newA
  | None =>
      limiter_do (SetAliveList newA);;
      match newU with None => mret tt | Some newU => sync_users newU end
  end end end end.

Definition SpeedChecker (now : Z) : M unit :=
  enabled ← ctl dynamicSpeedLimitEnabled;
  config ← ctl (λ c, lc_DynamicSpeedLimitConfig (c_LimitConfig c));
  match config with
  | Some d =>
      when enabled (
        '(users, c) ← ctl consumeDynamicSpeedLimitUsers;
        on_ctl (λ _, c);;
        for_each users (λ uuid,
          tag ← ctl tag;
          limiter_do (λ l, ignoring l (UpdateDynamicSpeedLimit tag uuid (dsl_SpeedLimit d)
            (now + wrap64 (dsl_ExpireTime d * Minute)) l))))
  | None => mret tt
  end.

(** ** controller.go *)

(** [None] is success. *)
Definition Start : M (option string) :=
  node ← on_api_panic api_GetNodeInfo;
  match node with Err e => mret (Some ("get node info error: " ++ e)%string) | Ok node =>
  users ← on_api_panic api_GetUserList;
  match users with Err e => mret (Some ("get user list error: " ++ e)%string) | Ok users =>
  let users := default [] users in
  if decide (users = []) then mret (Some "add users error: not have any user") else
  alive ← on_api_panic api_GetUserAlive;
  match alive with Err e => mret (Some ("failed to get user alive list: " ++ e)%string) | Ok alive =>
  match node with None => panics | Some node =>
  options ← ctl co_Options;
  host ← get (λ w, APIHost (w_api w));
  let newTag := if decide (op_Name options = "") then buildNodeTag host node else op_Name options in
  l ← on_lims (AddLimiter newTag (op_LimitConfig options) users alive);
  err ← on_pointer l (λ l, '(x : result Limiter) ← UpdateRule compiles (ni_Rules node) l;
    Some (match x with Ok l' => (None, l') | Err e => (Some e, l) end));
  match err with Some e => mret (Some ("update rule error: " ++ e)%string) | None =>
  on_ctl (setTag newTag);;
  on_ctl (setUsers users);;
  on_ctl (setLimiter l);;
  err ← (if decide (ni_Security node = SecTls) then request_cert else mret None);
  match err with Some e => mret (Some ("request cert error: " ++ e)%string) | None =>
  err ← add_node newTag node;
  match err with Some e => mret (Some ("add new node error: " ++ e)%string) | None =>
  err ← add_users users node;
  match err with Some e => mret (Some ("add users error: " ++ e)%string) | None =>
  on_ctl (setInfo node);;
  startTasks node;;
  mret None
  end end end end end end end end.

Definition close_tasks (t : Tasks) : Tasks :=
  MkTasks (closed <$> nodeInfoMonitorPeriodic t) (closed <$> userReportPeriodic t)
    (closed <$> renewCertPeriodic t) (closed <$> dynamicSpeedLimitPeriodic t)
    (closed <$> onlineIpReportPeriodic t).
Definition Close : M (option string) :=
  tag ← ctl tag;
  on_lims (λ l, (tt, DeleteLimiter tag l));;
  on_tasks close_tasks;;
  err ← on_server (DelNode tag);
  mret (match err with Some e => Some ("del node error: " ++ e)%string | None => None end).

(** * node.go

    The controllers share the core and the limiters; each has its client. *)
Context (new_client : ApiConfig → result P).

(** Runs a method of one of the controllers. *)
Definition run_on {A} (m : M A) (c : Controller * P) (s : S * Limiters)
    : option (A * (Controller * P) * (S * Limiters)) :=
  '(a, w) ← m (MkWorld c.1 s.1 c.2 s.2);
  Some (a, (w_ctl w, w_api w), (w_server w, w_lims w)).

(** The errors of [Close] are logged. *)
Fixpoint closeControllers (cs : list (Controller * P)) (s : S * Limiters)
    : option (list (Controller * P) * (S * Limiters)) :=
  match cs with
  | [] => Some ([], s)
  | c :: cs =>
      '(_, c, s) ← run_on Close c s;
      '(cs, s) ← closeControllers cs s;
      Some (c :: cs, s)
  end.

(** The error, the controllers of the node, and those that were started and closed again. *)
Fixpoint start_nodes (nodes : list NodeConfig) (controllers : list (Controller * P)) (s : S * Limiters)
    : option (option string * list (Controller * P) * (S * Limiters)) :=
  match nodes with
  | [] => Some (None, controllers, s)
  | n :: nodes =>
      match new_client (nc_ApiConfig n) with
      | Err e => '(_, s) ← closeControllers controllers s; Some (Some e, [], s)
      | Ok p =>
          '(err, c, s) ← run_on Start (NewController (nc_Options n), p) s;
          match err with
          | Some e =>
              '(_, s) ← closeControllers (controllers ++ [c]) s;
              Some (Some ("start node controller error: " ++ e)%string, [], s)
          | None => start_nodes nodes (controllers ++ [c]) s
          end
      end
  end.
Definition node_Start (nodes : list NodeConfig) (s : S * Limiters)
    : option (option string * list (Controller * P) * (S * Limiters)) := start_nodes nodes [] s.
Definition node_Close (controllers : list (Controller * P)) (s : S * Limiters)
    : option (list (Controller * P) * (S * Limiters)) :=
  '(_, s) ← closeControllers controllers s; Some ([], s).
End controller.

(** * Billing *)

(** A panel that also keeps the traffic reports it was sent, each with its answer. *)
#[local] Abbreviation push_log := (list (list UserTraffic * option string)).
#[export] Instance recording {P} `{PanelApi P} : PanelApi (P * push_log) := {|
  PanelType p := PanelType p.1;
  APIHost p := APIHost p.1;
  api_GetNodeInfo p := '(r, q) ← api_GetNodeInfo p.1; Some (r, (q, p.2));
  api_GetUserList p := '(r, q) ← api_GetUserList p.1; Some (r, (q, p.2));
  api_GetUserAlive p := '(r, q) ← api_GetUserAlive p.1; Some (r, (q, p.2));
  api_ReportUserTraffic l p :=
    let '(e, q) := api_ReportUserTraffic l p.1 in (e, (q, (p.2 ++ [(l, e)])%list));
  api_ReportNodeOnlineUsers d p := let '(e, q) := api_ReportNodeOnlineUsers d p.1 in (e, (q, p.2));
  api_ReportNodeStatus st p := let '(e, q) := api_ReportNodeStatus st p.1 in (e, (q, p.2));
  api_InvalidateNodeConfigCache p := (api_InvalidateNodeConfigCache p.1, p.2)
|}.

(** What the reports the panel took charge a user. *)
Definition entries_of (uid : Z) (l : push_log) : list UserTraffic :=
  filter (λ t, ut_UID t = uid) (concat (map fst (filter (λ r, r.2 = None) l))).
Definition billed (uid : Z) (l : push_log) : Z * Z :=
  (sumZ (map ut_Upload (entries_of uid l)), sumZ (map ut_Download (entries_of uid l))).

(** The pointer of the limiter leads to a limiter. *)
Definition limiter_there {S P} (w : World S P) : Prop :=
  match limiter (w_ctl w) with Some p => is_Some (objs (w_lims w) !! p) | None => True end.

Section billing.
Context {S P : Type} `{!Core S} `{!TrafficLaws S} `{!PanelApi P}.
Context (tag : string).
#[local] Abbreviation W := (World S P).

(** Users whose traffic a report mentions. *)
Definition moved (s : S) (u : UserInfo) : Prop :=
  0 < (pending s tag (ui_Uuid u)).1 ∨ 0 < (pending s tag (ui_Uuid u)).2.
#[export] Instance moved_dec s u : Decision (moved s u).
Proof. unfold moved. apply _. Defined.
Definition traffic_of (s : S) (u : UserInfo) : UserTraffic :=
  MkUserTraffic (ui_Id u) (pending s tag (ui_Uuid u)).1 (pending s tag (ui_Uuid u)).2 "".
Definition usage_of (s : S) (u : UserInfo) : readUserUsage :=
  MkReadUserUsage (ui_Uuid u) (pending s tag (ui_Uuid u)).1 (pending s tag (ui_Uuid u)).2.
(** What a report adds to the record of the dynamic speed limit. *)
Definition noted (s : S) (c : Controller) (u : UserInfo) : Controller :=
  if dynamicSpeedLimitEnabled c
  then addTraffic (ui_Uuid u)
         (wrap64 ((pending s tag (ui_Uuid u)).1 + (pending s tag (ui_Uuid u)).2)) c
  else c.

(** The core after the users were read. *)
Definition drained (s : S) (uuids : list string) (s' : S) : Prop :=
  core_ok s' ∧
  (∀ v, pending s' tag v = if decide (v ∈ uuids) then (0, 0) else pending s tag v) ∧
  ∀ v, (counting_up s tag v → counting_up s' tag v) ∧ (counting_down s tag v → counting_down s' tag v).

Lemma drained_cons s u us s2 :
  core_ok s → drained (GetUserTraffic tag u true s).2 us s2 → drained s (u :: us) s2.
Proof.
  intros Hok (D1 & D2 & D3). split; [done|]. split.
  - intros v. rewrite D2, get_reset by done. by repeat case_decide; set_solver.
  - intros v. destruct (get_counting tag u true v s Hok), (D3 v). by auto.
Qed.

(** What a report makes of the users depends on their pending traffic. *)
Lemma read_agree s s1 users c :
  (∀ u, u ∈ users → pending s1 tag (ui_Uuid u) = pending s tag (ui_Uuid u)) →
  let moving := filter (moved s) users in
  filter (moved s1) users = moving ∧
  map (traffic_of s1) moving = map (traffic_of s) moving ∧
  map (usage_of s1) moving = map (usage_of s) moving ∧
  foldl (noted s1) c moving = foldl (noted s) c moving.
Proof.
  intros Hs moving.
  assert (∀ v, v ∈ moving → pending s1 tag (ui_Uuid v) = pending s tag (ui_Uuid v)) as Hm.
  { intros v [_ ?]%list_elem_of_filter. by apply Hs. }
  split_and!.
  - apply filter_ext_in. intros v Hv. unfold moved. by rewrite Hs.
  - apply map_ext_in. intros v Hv%list_elem_of_In. unfold traffic_of. by rewrite Hm.
  - apply map_ext_in. intros v Hv%list_elem_of_In. unfold usage_of. by rewrite Hm.
  - revert c Hm. clear. induction moving as [|v l IH]; intros c Hm; [done|]. cbn [foldl].
    assert (noted s1 c v = noted s c v) as -> by (unfold noted; rewrite Hm; [done|set_solver]).
    apply IH. set_solver.
Qed.

Lemma read_users_cons u users (w : W) :
  core_ok (w_server w) →
  read_users tag (u :: users) w =
    let s := w_server w in
    let w1 := MkWorld (if decide (moved s u) then noted s (w_ctl w) u else w_ctl w)
                (GetUserTraffic tag (ui_Uuid u) true s).2 (w_api w) (w_lims w) in
    match read_users tag users w1 with
    | Some ((t, r), w2) =>
        Some (if decide (moved s u) then (traffic_of s u :: t, usage_of s u :: r) else (t, r), w2)
    | None => None
    end.
Proof.
  intros Hok. cbv zeta. cbn [read_users]. unfold mbind, M_bind, on_server.
  pose proof (get_value tag (ui_Uuid u) true (w_server w) Hok) as E.
  destruct (GetUserTraffic tag (ui_Uuid u) true (w_server w)) as [[up down] s1]. cbn [fst snd] in *.
  assert (moved (w_server w) u ↔ 0 < up ∨ 0 < down) as Hiff by (unfold moved; by rewrite <-E).
  unfold noted, traffic_of, usage_of. rewrite <-E. cbn [fst snd].
  destruct (decide (moved (w_server w) u)) as [Hm%Hiff|Hm].
  - assert (bool_decide (0 < up) || bool_decide (0 < down) = true) as ->.
    { apply orb_true_iff. by rewrite !bool_decide_eq_true. }
    unfold ctl, get, when. cbn [w_ctl].
    destruct (dynamicSpeedLimitEnabled (w_ctl w)); cbn;
      by destruct (read_users _ _ _) as [[[t r] w2]|].
  - assert (bool_decide (0 < up) || bool_decide (0 < down) = false) as ->.
    { apply orb_false_iff. rewrite !bool_decide_eq_false. tauto. }
    by destruct (read_users _ _ _) as [[[t r] w2]|].
Qed.

Lemma read_users_spec users (w : W) :
  core_ok (w_server w) → NoDup (map ui_Uuid users) →
  ∃ s', drained (w_server w) (map ui_Uuid users) s' ∧
    read_users tag users w =
      Some ((map (traffic_of (w_server w)) (filter (moved (w_server w)) users),
             map (usage_of (w_server w)) (filter (moved (w_server w)) users)),
            MkWorld (foldl (noted (w_server w)) (w_ctl w) (filter (moved (w_server w)) users))
              s' (w_api w) (w_lims w)).
Proof.
  revert w. induction users as [|u users IH]; intros w Hok Hnd.
  { exists (w_server w). split; [|by destruct w]. split; [done|]. split; [|done].
    intros v. by rewrite decide_False by apply not_elem_of_nil. }
  cbn [map] in *. apply NoDup_cons in Hnd as [Hu Hnd]. rewrite read_users_cons by done. cbv zeta.
  set (w1 := MkWorld _ _ _ _).
  destruct (IH w1) as (s2 & D & ->); [by apply get_ok|done|].
  exists s2. split; [by apply drained_cons|].
  destruct (read_agree (w_server w) (w_server w1) users (w_ctl w1)) as (-> & -> & -> & ->).
  { intros v Hv. subst w1. cbn [w_server]. rewrite get_reset by done.
    rewrite decide_False; [done|]. intros E. apply Hu. rewrite E. by apply list_elem_of_fmap_2. }
  rewrite filter_cons. subst w1. cbn [w_ctl w_api w_lims]. by case_decide.
Qed.

Lemma noted_recorded s l c u :
  NoDup (map ui_Uuid l) → u ∈ l → dynamicSpeedLimitEnabled c = true →
  let used := wrap64 ((pending s tag (ui_Uuid u)).1 + (pending s tag (ui_Uuid u)).2) in
  0 < used →
  traffic (foldl (noted s) c l) !! ui_Uuid u =
    Some (wrap64 (default 0 (traffic c !! ui_Uuid u) + used)).
Proof.
  intros Hnd Hu He used Hused.
  assert (∀ l c, ui_Uuid u ∉ map ui_Uuid l →
    traffic (foldl (noted s) c l) !! ui_Uuid u = traffic c !! ui_Uuid u) as Hother.
  { clear -s u. induction l as [|v l IH]; intros c Hv; [done|]. cbn [foldl map] in *.
    apply not_elem_of_cons in Hv as [Hne Hv]. rewrite IH by done. unfold noted, addTraffic.
    repeat case_match; [done|..|done]. cbn. by rewrite lookup_insert_ne. }
  revert c He Hu. induction l as [|v l IH]; intros c He Hu; [set_solver|]. cbn [map foldl] in *.
  apply NoDup_cons in Hnd as [Hv Hnd]. apply elem_of_cons in Hu as [<-|Hu].
  - rewrite Hother by done. unfold noted, addTraffic. rewrite He. fold used.
    rewrite bool_decide_eq_false_2 by lia. cbn. by rewrite lookup_insert_eq.
  - rewrite IH; [|done| |done].
    + f_equal. f_equal. f_equal. f_equal. unfold noted, addTraffic. repeat case_match; [done|..|done].
      cbn. rewrite lookup_insert_ne; [done|]. intros E. apply Hv. rewrite E. by apply list_elem_of_fmap_2.
    + unfold noted, addTraffic. by repeat case_match.
Qed.
Lemma noted_limiter s l c : limiter (foldl (noted s) c l) = limiter c.
Proof.
  revert c. induction l as [|u l IH]; intros c; [done|]. cbn [foldl]. rewrite IH.
  unfold noted, addTraffic. by repeat case_match.
Qed.

(** What the online part leaves alone, and what it adds to the traffic. *)
Definition zero_entry (t : UserTraffic) : Prop := ut_Upload t = 0 ∧ ut_Download t = 0.
Lemma add_zero_spec us s :
  ∃ zeros, (foldl add_zero s us).1 = (s.1 ++ zeros)%list ∧ Forall zero_entry zeros.
Proof.
  revert s. induction us as [|u us IH]; intros s; [exists []; by rewrite (right_id_L [] app)|].
  cbn [foldl]. destruct (IH (add_zero s u)) as (z & -> & Hz). unfold add_zero.
  case_decide; [by exists z|]. cbn [fst]. rewrite <-(assoc_L app).
  eexists. split; [done|]. by constructor.
Qed.
Lemma getOnlineUsers_spec now (w : W) :
  limiter_there w →
  ∃ us lims, getOnlineUsers now w = Some (us, MkWorld (w_ctl w) (w_server w) (w_api w) lims).
Proof.
  unfold limiter_there, getOnlineUsers, mbind, M_bind, ctl, get. destruct (limiter (w_ctl w)) as [p|].
  - intros [l Hl]. unfold on_pointer. rewrite Hl. simpl. by do 2 eexists.
  - intros _. destruct w. by do 2 eexists.
Qed.

Lemma restores_spec l s :
  core_ok s → NoDup (map ru_uuid l) →
  Forall (λ r, pending s tag (ru_uuid r) = (0, 0) ∧
    0 ≤ ru_up r ≤ int64_max ∧ 0 ≤ ru_down r ≤ int64_max ∧
    (0 < ru_up r → counting_up s tag (ru_uuid r)) ∧
    (0 < ru_down r → counting_down s tag (ru_uuid r))) l →
  let s' := foldl (λ s r, RestoreUserTraffic tag (ru_uuid r) (ru_up r) (ru_down r) s) s l in
  core_ok s' ∧ (∀ r, r ∈ l → pending s' tag (ru_uuid r) = (ru_up r, ru_down r)) ∧
  ∀ v, v ∉ map ru_uuid l → pending s' tag v = pending s tag v.
Proof.
  cbv zeta. revert s. induction l as [|r l IH]; intros s Hok Hnd Hl; [set_solver|].
  cbn [map foldl] in *. apply NoDup_cons in Hnd as [Hr Hnd].
  apply Forall_cons in Hl as [(Hz & Hu & Hd & Cu & Cd) Hl].
  destruct (IH (RestoreUserTraffic tag (ru_uuid r) (ru_up r) (ru_down r) s)) as (I1 & I2 & I3);
    [by apply restore_ok|done|..].
  - eapply Forall_impl; [apply Forall_and; split; [exact Hl|]|].
    + apply Forall_forall. intros x Hx. instantiate (1 := λ x, ru_uuid r ≠ ru_uuid x). simpl.
      intros E. apply Hr. rewrite E. by apply list_elem_of_fmap_2.
    + simpl. intros x ((X1 & X2 & X3 & X4 & X5) & Hne). rewrite restore_other by done.
      destruct (restore_counting tag (ru_uuid r) (ru_up r) (ru_down r) (ru_uuid x) s Hok). by auto 10.
  - split; [done|]. split.
    + intros x [->|Hx]%elem_of_cons; [|by apply I2]. rewrite I3, restore_pending, Hz by done.
      cbn [fst snd]. unfold add_pos, int64_max in *.
      rewrite !Z.add_0_l, !wrap64_id by (unfold in_int64, int64_min, int64_max; lia).
      f_equal; case_bool_decide; lia.
    + intros v Hv. rewrite I3 by set_solver. rewrite restore_other; [done..|]. set_solver.
Qed.
Lemma for_each_server {A} (f : A → S → S) l (w : W) :
  for_each l (λ a, on_server (λ s, (tt, f a s))) w =
    Some (tt, MkWorld (w_ctl w) (foldl (λ s a, f a s) (w_server w) l) (w_api w) (w_lims w)).
Proof. revert w. induction l as [|a l IH]; intros w; [by destruct w|]. cbn. apply IH. Qed.

(** One entry for each user that moved traffic. *)
Lemma only_entry (s : S) users u :
  NoDup (map ui_Id users) → u ∈ users →
  filter (λ t, ut_UID t = ui_Id u) (map (traffic_of s) (filter (moved s) users)) =
    if decide (moved s u) then [traffic_of s u] else [].
Proof.
  intros Hnd Hu. induction users as [|v users IH]; [set_solver|].
  cbn [map] in Hnd. apply NoDup_cons in Hnd as [Hv Hnd].
  assert (∀ x, x ∈ users → ui_Id x ≠ ui_Id v) as Hne.
  { intros x Hx E. apply Hv. rewrite <-E. by apply list_elem_of_fmap_2. }
  rewrite filter_cons. apply elem_of_cons in Hu as [->|Hu].
  - assert (filter (λ t, ut_UID t = ui_Id v) (map (traffic_of s) (filter (moved s) users)) = []) as Hz.
    { apply elem_of_nil_inv.
      intros t [Ht (x & -> & [_ Hx]%list_elem_of_filter)%list_elem_of_fmap]%list_elem_of_filter.
      by apply (Hne x). }
    case_decide; [|done]. cbn [map]. rewrite filter_cons_True by done. by rewrite Hz.
  - destruct (decide (moved s v)); [|by apply IH]. cbn [map]. rewrite filter_cons_False; [by apply IH|].
    simpl. intros E. by apply (Hne u).
Qed.
End billing.

(** ** A whole report *)
Section reports.
Context {S P : Type} `{!Core S} `{!TrafficLaws S} `{!PanelApi P}.
#[local] Abbreviation W := (World S (P * push_log)).

Lemma report_online_spec now t (w : W) :
  limiter_there w →
  ∃ zeros c' p' lims', Forall zero_entry zeros ∧ traffic c' = traffic (w_ctl w) ∧
    report_online now t w =
      Some ((t ++ zeros)%list, MkWorld c' (w_server w) (p', (w_api w).2) lims').
Proof.
  intros Hl. unfold report_online, mbind, M_bind.
  destruct (getOnlineUsers_spec now w Hl) as (us & lims & ->). unfold get, ctl, get, on_ctl, on_api.
  cbn [w_ctl w_server w_api w_lims]. cbv zeta. destruct (decide _).
  - cbn. destruct (api_ReportNodeOnlineUsers _ _) as [err q]. exists [].
    rewrite (right_id_L [] app). by do 3 eexists.
  - cbn -[add_zero foldl]. destruct (api_ReportNodeOnlineUsers _ _) as [err q].
    match goal with |- context [(foldl add_zero ?s ?r).1] =>
      destruct (add_zero_spec r s) as (z & Hz & Hz') end.
    rewrite Hz. exists z. do 3 eexists. split; [done|]. split; [|reflexivity]. done.
Qed.

Lemma report_traffic_spec tag t r (w : W) :
  ∃ e p', report_traffic tag t r w = Some (tt, MkWorld (w_ctl w)
      (match e with
       | Some _ => foldl (λ s r, RestoreUserTraffic tag (ru_uuid r) (ru_up r) (ru_down r) s) (w_server w) r
       | None => w_server w
       end) (p', ((w_api w).2 ++ match t with [] => [] | _ => [(t, e)] end)%list) (w_lims w)).
Proof.
  unfold report_traffic. destruct t as [|x t].
  - exists None, (w_api w).1. rewrite (right_id_L [] app). by destruct w as [? ? [] ?].
  - destruct (api_ReportUserTraffic (x :: t) (w_api w).1) as [err q] eqn:E.
    unfold mbind, M_bind, on_api. cbn [api_ReportUserTraffic recording]. rewrite E.
    exists err, q. destruct err; [|done].
    exact (for_each_server (λ r s, RestoreUserTraffic tag (ru_uuid r) (ru_up r) (ru_down r) s) r
        (MkWorld (w_ctl w) (w_server w) (q, _) (w_lims w))).
Qed.

Definition in_range (s : S) (tag : string) (u : UserInfo) : Prop :=
  0 ≤ (pending s tag (ui_Uuid u)).1 ≤ int64_max ∧ 0 ≤ (pending s tag (ui_Uuid u)).2 ≤ int64_max.
(** What a controller is between two tasks, as far as a report is concerned. *)
Definition report_ready (w : W) : Prop :=
  core_ok (w_server w) ∧ limiter_there w ∧ NoDup (map ui_Uuid (userList (w_ctl w))) ∧
  NoDup (map ui_Id (userList (w_ctl w))) ∧
  Forall (in_range (w_server w) (Controller.tag (w_ctl w))) (userList (w_ctl w)).

Lemma restore_drained s s' tag users :
  NoDup (map ui_Uuid users) → Forall (in_range s tag) users → drained tag s (map ui_Uuid users) s' →
  let s'' := foldl (λ s r, RestoreUserTraffic tag (ru_uuid r) (ru_up r) (ru_down r) s) s'
               (map (usage_of tag s) (filter (moved tag s) users)) in
  core_ok s'' ∧ ∀ v, pending s'' tag v = pending s tag v.
Proof.
  intros Hnd Hr (D1 & D2 & D3). rewrite Forall_forall in Hr.
  assert (map ru_uuid (map (usage_of tag s) (filter (moved tag s) users)) =
    map ui_Uuid (filter (moved tag s) users)) as Hids.
  { rewrite map_map. by apply map_ext. }
  assert (∀ u, u ∈ filter (moved tag s) users → ui_Uuid u ∈ map ui_Uuid users) as Hin.
  { intros u [_ Hu]%list_elem_of_filter. by apply list_elem_of_fmap_2. }
  destruct (restores_spec tag (map (usage_of tag s) (filter (moved tag s) users)) s') as (R1 & R2 & R3).
  - done.
  - rewrite Hids. eapply sublist_NoDup; [exact Hnd|]. apply (fmap_sublist ui_Uuid), sublist_filter.
  - apply Forall_forall. intros r (u & -> & Hu)%list_elem_of_fmap. cbn [ru_uuid ru_up ru_down usage_of].
    rewrite D2, decide_True by by apply Hin.
    pose proof Hu as [_ Hu']%list_elem_of_filter. destruct (Hr u Hu') as [? ?].
    split_and!; [done|lia..| |]; intros Hpos; apply D3; [apply pending_up|apply pending_down]; lia.
  - split; [done|]. intros v. cbv zeta.
    destruct (decide (v ∈ map ui_Uuid (filter (moved tag s) users))) as [(u & -> & Hu)%list_elem_of_fmap|Hv].
    + change (ui_Uuid u) with (ru_uuid (usage_of tag s u)). rewrite R2 by by apply list_elem_of_fmap_2.
      cbn [ru_uuid ru_up ru_down usage_of]. by destruct (pending s tag (ui_Uuid u)).
    + rewrite R3 by by rewrite Hids. rewrite D2. case_decide as Hd; [|done].
      apply list_elem_of_fmap in Hd as (u & -> & Hu). destruct (Hr u Hu) as [? ?].
      assert (¬ moved tag s u) as Hm.
      { intros Hm. apply Hv, list_elem_of_fmap_2. by apply list_elem_of_filter. }
      unfold moved in Hm. destruct (pending s tag (ui_Uuid u)) as [a b]. cbn [fst snd] in *. f_equal; lia.
Qed.

Lemma report_spec now status (w : W) :
  report_ready w →
  let s := w_server w in let tag := Controller.tag (w_ctl w) in
  let users := userList (w_ctl w) in let moving := filter (moved tag s) users in
  ∃ c' s' p' lims' new zeros e,
    reportUserTrafficTask now status w =
      Some (tt, MkWorld c' s' (p', ((w_api w).2 ++ new)%list) lims') ∧
    core_ok s' ∧ traffic c' = traffic (foldl (noted tag s) (w_ctl w) moving) ∧
    Forall zero_entry zeros ∧
    (new = [((map (traffic_of tag s) moving ++ zeros)%list, e)] ∨ new = [] ∧ moving = []) ∧
    ∀ v, pending s' tag v =
      if decide (e = None ∧ v ∈ map ui_Uuid users) then (0, 0) else pending s tag v.
Proof.
  intros (Hok & Hl & Hnd & _ & Hr). cbv zeta. unfold reportUserTrafficTask, mbind, M_bind, ctl, get.
  destruct (read_users_spec (Controller.tag (w_ctl w)) (userList (w_ctl w)) w Hok Hnd) as (s1 & D & ->).
  set (t := map (traffic_of _ _) _). set (r := map (usage_of _ _) _).
  match goal with |- context [report_online now t ?w1] =>
    destruct (report_online_spec now t w1) as (zeros & c' & p1 & lims1 & Hz & Hc & E1) end.
  { revert Hl. unfold limiter_there. cbn [w_ctl w_lims]. by rewrite noted_limiter. }
  rewrite E1. cbn [w_ctl w_server w_api w_lims snd] in *. clear E1.
  match goal with |- context [report_traffic ?tag ?t1 r ?w1] =>
    destruct (report_traffic_spec tag t1 r w1) as (e & p2 & E2) end.
  cbn [fst snd w_ctl w_server w_api w_lims] in *. rewrite E2. unfold on_api. cbn.
  destruct (api_ReportNodeStatus _ p2) as [est p3].
  eexists c', _, p3, lims1, _, zeros, e. split; [reflexivity|].
  destruct (restore_drained (w_server w) s1 (Controller.tag (w_ctl w)) (userList (w_ctl w)) Hnd Hr D)
    as [R1 R2].
  split; [destruct e; [done|apply D]|]. split; [done|]. split; [done|]. split.
  - destruct (t ++ zeros)%list eqn:Et; [|by left]. right. split; [done|].
    apply app_eq_nil in Et as [Et%map_eq_nil _]. done.
  - intros v. destruct e as [e|].
    + rewrite decide_False by naive_solver. apply R2.
    + destruct D as (_ & -> & _). by repeat case_decide; naive_solver.
Qed.

Lemma billed_entry s tag users zeros e u :
  NoDup (map ui_Id users) → Forall (in_range s tag) users → u ∈ users → Forall zero_entry zeros →
  billed (ui_Id u) [((map (traffic_of tag s) (filter (moved tag s) users) ++ zeros)%list, e)] =
    if decide (e = None) then pending s tag (ui_Uuid u) else (0, 0).
Proof.
  intros Hnd Hr Hu Hz. unfold billed, entries_of. rewrite filter_cons, filter_nil. cbn [snd].
  destruct (decide (e = None)) as [->|]; [|done]. cbn [map concat fst].
  rewrite (right_id_L [] app), filter_app, only_entry by done.
  assert (∀ f, (∀ t, zero_entry t → f t = 0) →
    sumZ (map f (filter (λ t, ut_UID t = ui_Id u) zeros)) = 0) as Hs.
  { intros f Hf. assert (Forall zero_entry (filter (λ t, ut_UID t = ui_Id u) zeros)) as Hz'.
    { apply Forall_forall. intros t [_ Ht]%list_elem_of_filter. rewrite Forall_forall in Hz. by apply Hz. }
    induction Hz' as [|t l Ht _ IH]; [done|]. cbn [map]. by rewrite sumZ_cons, IH, Hf. }
  rewrite !map_app, !sumZ_app, !Hs by (by intros ? []). rewrite Forall_forall in Hr.
  destruct (Hr u Hu) as [? ?]. unfold traffic_of.
  destruct (decide (moved tag s u)) as [Hm|Hm]; unfold moved in Hm;
    destruct (pending s tag (ui_Uuid u)) as [a b]; cbn in *; f_equal; lia.
Qed.

Lemma wrap64_moved a b : 0 ≤ a ≤ int64_max → 0 ≤ b ≤ int64_max → 0 < wrap64 (a + b) → 0 < a ∨ 0 < b.
Proof.
  intros [Ha _] [Hb _] Hw. destruct (Z.le_gt_cases a 0); [|by left]. right.
  assert (a = 0) as -> by lia. destruct (Z.le_gt_cases b 0); [|done].
  assert (b = 0) as -> by lia. done.
Qed.

(** (C2) A report neither loses traffic nor bills it twice.  Whatever the panel answers to
    any of the requests, the task ends, it sends the traffic at most once, and for every
    user what the accepted report charges and what the core still counts afterwards make
    up what it counted before: all of it is charged when the panel takes the report, and
    all of it is back in the counters when it does not.  Other users are left alone. *)
Theorem report_conserves (now : Z) (status : option SystemStatus) (w : W) :
  report_ready w →
  let s := w_server w in let tag := Controller.tag (w_ctl w) in
  let users := userList (w_ctl w) in
  ∃ w' new,
    reportUserTrafficTask now status w = Some (tt, w') ∧
    (w_api w').2 = ((w_api w).2 ++ new)%list ∧ (length new ≤ 1)%nat ∧ core_ok (w_server w') ∧
    (∀ u, u ∈ users →
       (billed (ui_Id u) new).1 + (pending (w_server w') tag (ui_Uuid u)).1 = (pending s tag (ui_Uuid u)).1 ∧
       (billed (ui_Id u) new).2 + (pending (w_server w') tag (ui_Uuid u)).2 = (pending s tag (ui_Uuid u)).2) ∧
    ∀ v, v ∉ map ui_Uuid users → pending (w_server w') tag v = pending s tag v.
Proof.
  intros Hw. destruct (report_spec now status w Hw) as
    (c' & s' & p' & lims' & new & zeros & e & E & Hok & _ & Hz & Hnew & Hp).
  destruct Hw as (_ & _ & Hnd & Hid & Hr). cbv zeta in *.
  eexists _, new. split; [exact E|]. cbn [w_api w_server snd]. split; [done|].
  split; [destruct Hnew as [->|[-> _]]; simpl; lia|]. split; [done|]. split.
  - intros u Hu. rewrite Hp. pose proof (list_elem_of_fmap_2 ui_Uuid _ _ Hu) as Hin.
    destruct Hnew as [->|[-> Hm]].
    + rewrite (billed_entry _ _ (userList (w_ctl w))) by done.
      destruct (pending (w_server w) _ (ui_Uuid u)) as [a b]. repeat case_decide; cbn; try lia; naive_solver.
    + assert (¬ moved (Controller.tag (w_ctl w)) (w_server w) u) as Hnm.
      { intros Hmv. apply (not_elem_of_nil u). rewrite <-Hm. by apply list_elem_of_filter. }
      rewrite Forall_forall in Hr. destruct (Hr u Hu) as [? ?]. unfold moved in Hnm.
      destruct (pending (w_server w) _ (ui_Uuid u)) as [a b]. cbn [fst snd] in *.
      case_decide; cbn; lia.
  - intros v Hv. rewrite Hp, decide_False; naive_solver.
Qed.

(** The traffic a controller records for the dynamic speed limit is not what the panel
    was charged: a report that fails records the traffic of its users and puts it back
    into the counters, so the next report records the same bytes again.  A user who
    moved 6 bytes is recorded with 12 after one failed and one successful report. *)
Theorem failed_report_counts_again (now : Z) (status : option SystemStatus) (w : W) (u : UserInfo) :
  report_ready w → u ∈ userList (w_ctl w) → dynamicSpeedLimitEnabled (w_ctl w) = true →
  let tag := Controller.tag (w_ctl w) in
  let used s := wrap64 ((pending s tag (ui_Uuid u)).1 + (pending s tag (ui_Uuid u)).2) in
  0 < used (w_server w) →
  ∃ w' new,
    reportUserTrafficTask now status w = Some (tt, w') ∧
    (w_api w').2 = ((w_api w).2 ++ new)%list ∧
    traffic (w_ctl w') !! ui_Uuid u =
      Some (wrap64 (default 0 (traffic (w_ctl w) !! ui_Uuid u) + used (w_server w))) ∧
    (∀ l e, new = [(l, Some e)] → used (w_server w') = used (w_server w)).
Proof.
  intros Hw Hu He. cbv zeta. intros Hused. destruct (report_spec now status w Hw) as
    (c' & s' & p' & lims' & new & zeros & e & E & Hok & Hc & Hz & Hnew & Hp).
  destruct Hw as (_ & _ & Hnd & _ & Hr). cbv zeta in *. rewrite Forall_forall in Hr.
  eexists _, new. split; [exact E|]. cbn [w_api w_server w_ctl snd]. split; [done|]. split.
  - rewrite Hc. apply noted_recorded; [| |done|done].
    + eapply sublist_NoDup; [exact Hnd|]. apply (fmap_sublist ui_Uuid), sublist_filter.
    + apply list_elem_of_filter. split; [|done]. destruct (Hr u Hu) as [? ?]. unfold moved.
      by apply wrap64_moved.
  - intros l err ->. destruct Hnew as [[= -> <-]|[? _]]; [|done].
    by rewrite !Hp, decide_False by naive_solver.
Qed.
End reports.

(** * Intervals *)

Lemma pull_bounds i : minPanelPullInterval ≤ normalizedPullInterval i.
Proof.
  unfold normalizedPullInterval, minPanelPullInterval, defaultPanelPullInterval, Second.
  repeat case_bool_decide; lia.
Qed.
Lemma push_bounds t i :
  0 < normalizedPushInterval t i ∧ normalizedPushInterval t i ≤ Z.max i (100 * Second) ∧
  (t ≠ "ppanel" → 20 * Second ≤ normalizedPushInterval t i ≤ 100 * Second).
Proof.
  unfold normalizedPushInterval, maxPanelPushInterval.
  assert (0 < Second) as Hs by done. revert Hs. generalize Second. intros s Hs.
  set (j := if bool_decide (i ≤ 0) then 60 * s else i).
  assert (0 < j ≤ Z.max i (60 * s)) as Hj by (subst j; case_bool_decide; lia). clearbody j.
  destruct (decide (t = "ppanel")); [split_and!; [lia..|done]|].
  destruct (bool_decide_reflect (j < 20 * s)); case_bool_decide; split_and!; intros; lia.
Qed.
Lemma ttl_covers timeout push :
  0 < push → push + Minute ≤ int64_max → push + Minute ≤ online_ttl timeout push.
Proof.
  intros Hp Hm. unfold online_ttl.
  rewrite (wrap64_id (push + Minute)) by (unfold in_int64, int64_min, Minute, Second in *; lia).
  repeat case_bool_decide; lia.
Qed.

Lemma M_bind_eq {S P A B} (m : M S P A) (f : A → M S P B) w :
  (m ≫= f) w = match m w with Some (a, w) => f a w | None => None end.
Proof. reflexivity. Qed.

(** Evaluates a method one call at a time. *)
Ltac method := unfold mret, M_ret, mbind, M_bind, ctl, get, on_tasks, on_ctl, when, limiter_do, limiter_call,
  on_pointer, on_server, on_api, on_lims, on_api_panic; cbn [w_ctl w_server w_api w_lims].

Section tasks.
Context {S P : Type} `{!Core S} `{!PanelApi P}.
#[local] Abbreviation W := (World S P).

(** What the methods that only touch the other tasks keep. *)
Record keeps (w w' : W) : Prop := {
  keeps_lims : w_lims w' = w_lims w;
  keeps_limiter : limiter (w_ctl w') = limiter (w_ctl w);
  keeps_options : co_Options (w_ctl w') = co_Options (w_ctl w);
  keeps_monitor : nodeInfoMonitorPeriodic (tasks (w_ctl w')) = nodeInfoMonitorPeriodic (tasks (w_ctl w));
  keeps_report : userReportPeriodic (tasks (w_ctl w')) = userReportPeriodic (tasks (w_ctl w));
  keeps_users : userList (w_ctl w') = userList (w_ctl w);
  keeps_tag : tag (w_ctl w') = tag (w_ctl w);
  keeps_api : w_api w' = w_api w
}.
Lemma ensure_spec (w : W) : ∃ w', ensureOnlineIPSyncTask w = Some (tt, w') ∧ keeps w w'.
Proof.
  unfold ensureOnlineIPSyncTask. method. destruct (onlineIPSyncEnabled _ _); eexists; (split; [reflexivity|]).
  - split; try done; cbn; destruct (onlineIpReportPeriodic _) as [q|]; try done; by destruct (decide _).
  - by split.
Qed.
Lemma start_dynamic_spec (w : W) : ∃ w', start_dynamic w = Some (tt, w') ∧ keeps w w'.
Proof.
  unfold start_dynamic. method. destruct (dynamicSpeedLimitEnabled _); eexists; (split; [reflexivity|]); by split.
Qed.
Lemma start_renew_spec node (w : W) :
  (ni_Security node = SecTls → is_Some (op_CertConfig (co_Options (w_ctl w)))) →
  ∃ w', start_renew node w = Some (tt, w') ∧ keeps w w'.
Proof.
  intros Hc. unfold start_renew. destruct (decide _) as [Hs|]; [|by exists w].
  method. destruct (Hc Hs) as [cert ->]. destruct (decide _); [by exists w|].
  eexists; (split; [reflexivity|]). by split.
Qed.

(** The limiter a world keeps behind a pointer. *)
Definition at_pointer (w : W) (p : nat) (l : Limiter) : Prop :=
  limiter (w_ctl w) = Some p ∧ objs (w_lims w) !! p = Some l.
Lemma applyOnlineTTL_spec push p l (w : W) :
  at_pointer w p l →
  applyOnlineTTL push w = Some (tt, MkWorld (w_ctl w) (w_server w) (w_api w)
    (MkLimiters (reg (w_lims w)) (<[p := SetOnlineTTL (online_ttl (lc_OnlineTimeout (c_LimitConfig (w_ctl w))) push) l]>
       (objs (w_lims w))))).
Proof. intros [Hp Hl]. unfold applyOnlineTTL. method. rewrite Hp. method. by rewrite Hl. Qed.

(** (C28) The intervals of the tasks.  Whatever the panel asks for, the node is pulled no
    more often than every ten seconds and reported at a positive interval, for panels
    other than ppanel one of 20 to 100 seconds; and the limiter keeps a device online for
    at least a minute more than it takes to report it, so that no device that stays
    connected is missing from two reports in a row. *)
Theorem task_intervals (node : NodeInfo) (p : nat) (l : Limiter) (w : W) :
  at_pointer w p l → ni_PushInterval node ≤ int64_max - Minute →
  (ni_Security node = SecTls → is_Some (op_CertConfig (co_Options (w_ctl w)))) →
  ∃ w' l' push pull,
    startTasks node w = Some (tt, w') ∧ at_pointer w' p l' ∧
    userReportPeriodic (tasks (w_ctl w')) = Some (MkPeriodic push true) ∧
    nodeInfoMonitorPeriodic (tasks (w_ctl w')) = Some (MkPeriodic pull true) ∧
    10 * Second ≤ pull ∧ 0 < push ∧ (PanelType (w_api w) ≠ "ppanel" → 20 * Second ≤ push ≤ 100 * Second) ∧
    push + Minute ≤ or_TTL (lm_Online l').
Proof.
  intros Hl Hpush Hcert. unfold startTasks. method.
  destruct (push_bounds (PanelType (w_api w)) (ni_PushInterval node)) as (B1 & B2 & B3).
  set (push := normalizedPushInterval (PanelType (w_api w)) (ni_PushInterval node)) in *.
  rewrite (applyOnlineTTL_spec push p l w Hl). cbn [w_ctl w_server w_api w_lims].
  match goal with |- context [start_renew node ?w1] =>
    destruct (start_renew_spec node w1 Hcert) as (w2 & -> & K1) end.
  destruct (start_dynamic_spec w2) as (w3 & -> & K2).
  destruct (ensure_spec w3) as (w4 & -> & K3).
  eexists w4, _, push, _. split; [done|].
  split; [split|].
  - rewrite (keeps_limiter _ _ K3), (keeps_limiter _ _ K2), (keeps_limiter _ _ K1). apply Hl.
  - rewrite (keeps_lims _ _ K3), (keeps_lims _ _ K2), (keeps_lims _ _ K1). apply lookup_insert_eq.
  - rewrite (keeps_report _ _ K3), (keeps_report _ _ K2), (keeps_report _ _ K1).
    rewrite (keeps_monitor _ _ K3), (keeps_monitor _ _ K2), (keeps_monitor _ _ K1).
    split; [done|]. split; [done|]. split; [apply pull_bounds|]. split; [done|]. split; [done|].
    pose proof (ttl_covers (lc_OnlineTimeout (c_LimitConfig (w_ctl w))) push B1) as Ht.
    unfold or_TTL, SetOnlineTTL, or_SetTTL. cbn. 
    assert (push + Minute ≤ int64_max) by (unfold int64_max, Minute, Second in *; lia).
    case_bool_decide; [|by apply Ht]. specialize (Ht H). lia.
Qed.
End tasks.

(** * Keeping up with the panel *)

Section monitor.
Context {S P : Type} `{!Core S} `{!PanelApi P}.
Context (compiles IsExist : string → bool) (lego_create self_create : CertConfig → option string).
#[local] Abbreviation W := (World S P).
#[local] Abbreviation monitor := (nodeInfoMonitor compiles IsExist lego_create self_create).

(** What the panel answers to the three questions of the monitor. *)
Definition answers (p : P) (n : option NodeInfo) (u : option (list UserInfo)) (a : gmap Z Z) (p' : P) : Prop :=
  ∃ p1 p2, api_GetNodeInfo p = Some (Ok n, p1) ∧ api_GetUserList p1 = Some (Ok u, p2) ∧
    api_GetUserAlive p2 = Some (Ok a, p').

(** The errors of the core, as the monitor calls it. *)
Definition del_error (s : S) (deleted : list UserInfo) (tag : string) (node : NodeInfo) : option string * S :=
  if decide (deleted = []) then (None, s) else DelUsers deleted tag node s.
Definition add_error (s : S) (added : list UserInfo) (tag : string) (node : NodeInfo) : option string :=
  if decide (added = []) then None
  else match (AddUsers tag added node s).1 with Ok _ => None | Err e => Some e end.
Definition core_error (s : S) (deleted added : list UserInfo) (tag : string) (node : NodeInfo) : option string :=
  match del_error s deleted tag node with
  | (Some e, _) => Some e
  | (None, s) => add_error s added tag node
  end.

Lemma delete_traffics us (w : W) :
  ∃ m, for_each us (λ u, on_ctl (deleteTraffic (ui_Uuid u))) w =
    Some (tt, MkWorld (set_traffic m (w_ctl w)) (w_server w) (w_api w) (w_lims w)).
Proof.
  revert w. induction us as [|u us IH]; intros w.
  - exists (traffic (w_ctl w)). by destruct w as [[] ? ? ?].
  - destruct (IH (MkWorld (deleteTraffic (ui_Uuid u) (w_ctl w)) (w_server w) (w_api w) (w_lims w)))
      as [m Hm]. exists m. by etrans; [|exact Hm].
Qed.

Lemma update_limiter_spec tg added deleted p l (w : W) :
  at_pointer w p l →
  ∃ w', update_limiter tg added deleted w = Some (tt, w') ∧
    at_pointer w' p (UpdateUser tg added deleted l) ∧
    w_api w' = w_api w ∧ tag (w_ctl w') = tag (w_ctl w).
Proof.
  intros [Hp Hl]. unfold update_limiter. destruct (decide _) as [[-> ->]|].
  - exists w. split; [done|]. split; [|done]. split; [done|]. rewrite Hl. f_equal. by destruct l.
  - unfold limiter_do, limiter_call, on_pointer, mbind, M_bind, ctl, get. rewrite Hp. rewrite Hl. cbn.
    destruct (dynamicSpeedLimitEnabled _).
    + match goal with |- context [when true ?f ?w1] => destruct (delete_traffics deleted w1) as [m Hm] end.
      eexists. split; [exact Hm|]. split; [|done]. split; [done|apply lookup_insert_eq].
    + eexists. split; [reflexivity|]. split; [|done]. split; [done|apply lookup_insert_eq].
Qed.

Lemma del_users_spec deleted tg node (w : W) :
  del_users deleted tg node w =
    Some (let '(e, s) := del_error (w_server w) deleted tg node in
          (e, MkWorld (w_ctl w) s (w_api w) (w_lims w))).
Proof.
  unfold del_users, del_error. destruct (decide _); [by destruct w|]. unfold on_server.
  by destruct (DelUsers _ _ _ _).
Qed.
Lemma add_new_spec added node (w : W) :
  ∃ s, add_new added node w =
    Some (add_error (w_server w) added (tag (w_ctl w)) node, MkWorld (w_ctl w) s (w_api w) (w_lims w)).
Proof.
  unfold add_new, add_error. destruct (decide _); [exists (w_server w); by destruct w|].
  unfold add_users, on_server, mbind, M_bind, ctl, get. destruct (AddUsers _ _ _ _) as [r s].
  exists s. by destruct r.
Qed.

Lemma sync_users_spec newU node p l (w : W) :
  at_pointer w p l → info (w_ctl w) = Some node →
  let users := userList (w_ctl w) in let tg := tag (w_ctl w) in
  let '(deleted, added) := compareUserList users newU in
  ∃ w', sync_users newU w = Some (tt, w') ∧ w_api w' = w_api w ∧ tag (w_ctl w') = tg ∧
    match core_error (w_server w) deleted added tg node with
    | Some _ => userList (w_ctl w') = users ∧ at_pointer w' p l
    | None => userList (w_ctl w') = newU ∧ at_pointer w' p (UpdateUser tg added deleted l)
    end.
Proof.
  intros Hl Hi. cbv zeta. unfold sync_users, core_error, mbind, M_bind, ctl, get.
  destruct (compareUserList (userList (w_ctl w)) newU) as [deleted added]. rewrite Hi, del_users_spec.
  destruct (del_error _ _ _ _) as [[e|] s]; [by eexists|].
  destruct (add_new_spec added node (MkWorld (w_ctl w) s (w_api w) (w_lims w))) as [s2 ->].
  cbn [w_ctl w_server w_api w_lims]. destruct (add_error _ _ _ _) as [e|]; [by eexists|].
  destruct (update_limiter_spec (tag (w_ctl w)) added deleted p l
    (MkWorld (w_ctl w) s2 (w_api w) (w_lims w)) Hl) as (w3 & -> & [Hl3 Ho3] & Ha3 & Ht3).
  unfold on_ctl.
  match goal with |- context [ensureOnlineIPSyncTask ?w4] => destruct (ensure_spec w4) as (w5 & -> & K) end.
  exists w5. split; [done|]. rewrite (keeps_api _ _ K), (keeps_tag _ _ K), (keeps_users _ _ K).
  split; [done|]. split; [done|]. split; [done|].
  split; [by rewrite (keeps_limiter _ _ K)|by rewrite (keeps_lims _ _ K)].
Qed.

Lemma registered_same tg users l l' :
  lm_UserLimitInfo l' = lm_UserLimitInfo l → registered tg users l → registered tg users l'.
Proof. unfold registered. by intros ->. Qed.

Lemma monitor_alive p l n u a p' (w : W) :
  answers (w_api w) n u a p' → at_pointer w p l →
  let w1 := MkWorld (w_ctl w) (w_server w) p' (MkLimiters (reg (w_lims w))
              (<[p := SetAliveList a l]> (objs (w_lims w)))) in
  monitor w = match n, u with
    | Some n, _ => reload_node compiles IsExist lego_create self_create n u a
                     (MkWorld (w_ctl w) (w_server w) p' (w_lims w))
    | None, Some u => sync_users u w1
    | None, None => Some (tt, w1)
    end.
Proof.
  intros (p1 & p2 & H1 & H2 & H3) [Hp Hl]. cbv zeta.
  unfold nodeInfoMonitor, mbind, M_bind, on_api_panic. rewrite H1. cbn. rewrite H2. cbn. rewrite H3. cbn.
  destruct n as [n|]; [done|]. unfold limiter_do, limiter_call, on_pointer, mbind, M_bind, ctl, get.
  cbn. rewrite Hp. cbn. rewrite Hl. cbn. by destruct u.
Qed.


(** Methods after which the same limiter is in place and knows the same users. *)
Definition knows_same (w w' : W) : Prop :=
  limiter (w_ctl w') = limiter (w_ctl w) ∧ tag (w_ctl w') = tag (w_ctl w) ∧
  userList (w_ctl w') = userList (w_ctl w) ∧ reg (w_lims w') = reg (w_lims w) ∧
  ∀ p l, objs (w_lims w) !! p = Some l →
    ∃ l', objs (w_lims w') !! p = Some l' ∧ lm_UserLimitInfo l' = lm_UserLimitInfo l.
Lemma knows_same_trans (w1 w2 w3 : W) : knows_same w1 w2 → knows_same w2 w3 → knows_same w1 w3.
Proof.
  intros (A1 & A2 & A3 & A4 & A5) (B1 & B2 & B3 & B4 & B5). split_and!; [congruence..|].
  intros p l Hl. destruct (A5 p l Hl) as (l2 & Hl2 & E2). destruct (B5 p l2 Hl2) as (l3 & Hl3 & E3).
  exists l3. by rewrite E3, E2.
Qed.
Lemma knows_same_lims (w w' : W) :
  limiter (w_ctl w') = limiter (w_ctl w) → tag (w_ctl w') = tag (w_ctl w) →
  userList (w_ctl w') = userList (w_ctl w) → w_lims w' = w_lims w → knows_same w w'.
Proof. intros ??? E. split_and!; [done..|by rewrite E|]. intros p l Hl. exists l. by rewrite E. Qed.
Lemma knows_same_put (w : W) c s q p l l' :
  limiter c = limiter (w_ctl w) → tag c = tag (w_ctl w) → userList c = userList (w_ctl w) →
  objs (w_lims w) !! p = Some l → lm_UserLimitInfo l' = lm_UserLimitInfo l →
  knows_same w (MkWorld c s q (MkLimiters (reg (w_lims w)) (<[p := l']> (objs (w_lims w))))).
Proof.
  intros E1 E2 E3 Hl E. split_and!; [done..|]. intros p2 l2 Hl2. cbn.
  destruct (decide (p = p2)) as [<-|Hne]; [|exists l2; by rewrite lookup_insert_ne].
  rewrite lookup_insert_eq. exists l'. split; [done|]. congruence.
Qed.

(** What a reload needs besides. *)
Definition reload_ready (newN : NodeInfo) (w : W) : Prop :=
  (ni_Security newN = SecTls → is_Some (op_CertConfig (co_Options (w_ctl w)))) ∧
  is_Some (nodeInfoMonitorPeriodic (tasks (w_ctl w))) ∧ is_Some (userReportPeriodic (tasks (w_ctl w))).

Lemma retry_spec (w : W) : ∃ w', retryNodeReload w = Some (tt, w') ∧ knows_same w w'.
Proof. eexists. split; [reflexivity|]. by apply knows_same_lims. Qed.
Lemma request_cert_spec newN (w : W) :
  (ni_Security newN = SecTls → is_Some (op_CertConfig (co_Options (w_ctl w)))) →
  ∃ e, (if decide (ni_Security newN = SecTls) then request_cert IsExist lego_create self_create
        else mret None) w = Some (e, w).
Proof.
  intros Hc. destruct (decide _) as [Hs|]; [|by eexists]. destruct (Hc Hs) as [c Ec].
  unfold request_cert, mbind, M_bind, ctl, get, requestCert. rewrite Ec.
  repeat (destruct (decide _); [by eexists|]). by eexists.
Qed.
Lemma rearm_monitor_spec i q (w : W) :
  ∃ w', rearm i (Some q) set_monitor w = Some (tt, w') ∧ knows_same w w' ∧
    userReportPeriodic (tasks (w_ctl w')) = userReportPeriodic (tasks (w_ctl w)).
Proof.
  unfold rearm. destruct (decide _); [exists w|eexists]; (split; [reflexivity|]);
    (split; [by apply knows_same_lims|done]).
Qed.
Lemma rearm_report_spec i q (w : W) :
  ∃ w', rearm i (Some q) set_report w = Some (tt, w') ∧ knows_same w w'.
Proof.
  unfold rearm. destruct (decide _); [exists w|eexists]; (split; [reflexivity|]); by apply knows_same_lims.
Qed.
Lemma at_pointer_same (w w' : W) p l :
  knows_same w w' → at_pointer w p l →
  ∃ l', at_pointer w' p l' ∧ lm_UserLimitInfo l' = lm_UserLimitInfo l.
Proof.
  intros (K1 & _ & _ & _ & K5) [Hp Hl]. destruct (K5 p l Hl) as (l' & Hl' & E).
  exists l'. split; [|done]. split; [by rewrite K1|done].
Qed.

(** The end of a reload. *)
Lemma rearm_both_spec newN (w : W) p l :
  at_pointer w p l → is_Some (nodeInfoMonitorPeriodic (tasks (w_ctl w))) →
  is_Some (userReportPeriodic (tasks (w_ctl w))) →
  ∃ w', (paneltype ← get (λ w, PanelType (w_api w));
    monitor ← ctl (λ c, nodeInfoMonitorPeriodic (tasks c));
    rearm (normalizedPullInterval (ni_PullInterval newN)) monitor set_monitor;;
    report ← ctl (λ c, userReportPeriodic (tasks c));
    rearm (normalizedPushInterval paneltype (ni_PushInterval newN)) report set_report;;
    applyOnlineTTL (normalizedPushInterval paneltype (ni_PushInterval newN));;
    ensureOnlineIPSyncTask) w = Some (tt, w') ∧ knows_same w w'.
Proof.
  intros Hl [m Hm] [r Hr]. unfold mbind, M_bind, ctl, get. rewrite Hm.
  destruct (rearm_monitor_spec (normalizedPullInterval (ni_PullInterval newN)) m w) as (w1 & -> & K1 & E1).
  rewrite E1, Hr.
  destruct (rearm_report_spec (normalizedPushInterval (PanelType (w_api w)) (ni_PushInterval newN)) r w1)
    as (w2 & -> & K2).
  destruct (at_pointer_same w w2 p l) as (l2 & Hl2 & _); [exact (knows_same_trans _ _ _ K1 K2)|done|].
  rewrite (applyOnlineTTL_spec _ p l2 w2 Hl2).
  match goal with |- context [ensureOnlineIPSyncTask ?w3] => destruct (ensure_spec w3) as (w4 & -> & K4) end.
  exists w4. split; [done|]. eapply knows_same_trans; [exact K1|]. eapply knows_same_trans; [exact K2|].
  eapply knows_same_trans; [|apply knows_same_lims; apply K4].
  by apply (knows_same_put w2 _ _ _ p l2); try apply Hl2.
Qed.

Lemma reload_core_spec newN (w : W) p l :
  at_pointer w p l → reload_ready newN w →
  ∃ w', reload_core IsExist lego_create self_create newN w = Some (tt, w') ∧ knows_same w w'.
Proof.
  intros Hl (Hc & Hm & Hr). unfold reload_core. rewrite M_bind_eq.
  destruct (request_cert_spec newN w Hc) as [[e|] ->]; [apply retry_spec|].
  rewrite M_bind_eq. unfold ctl at 1, get at 1. rewrite M_bind_eq.
  assert (∃ e s1 o, add_node (tag (w_ctl w)) newN w =
    Some (e, MkWorld (set_options o (w_ctl w)) s1 (w_api w) (w_lims w))) as (e & s1 & o & ->).
  { unfold add_node, on_server, on_ctl, mbind, M_bind, ctl, get.
    destruct (AddNode _ _ _ _) as [[e o] s1]. by eexists _, _, _. }
  set (w1 := MkWorld (set_options o (w_ctl w)) s1 (w_api w) (w_lims w)).
  assert (knows_same w w1) as K1 by by apply knows_same_lims.
  destruct e as [e|].
  { destruct (retry_spec w1) as (w' & -> & K). exists w'. split; [done|]. exact (knows_same_trans _ _ _ K1 K). }
  rewrite M_bind_eq. unfold ctl at 1, get at 1. rewrite M_bind_eq.
  assert (∃ e s2, add_users (userList (w_ctl w1)) newN w1 =
    Some (e, MkWorld (w_ctl w1) s2 (w_api w) (w_lims w))) as (e & s2 & ->).
  { unfold add_users, on_server, mbind, M_bind, ctl, get. cbn. destruct (AddUsers _ _ _ _) as [r s2].
    by eexists _, s2. }
  set (w2 := MkWorld (w_ctl w1) s2 (w_api w) (w_lims w)).
  assert (knows_same w w2) as K2 by by apply knows_same_lims. destruct e as [e|].
  - destruct (retry_spec w2) as (w' & -> & K). exists w'. split; [done|]. exact (knows_same_trans _ _ _ K2 K).
  - destruct (rearm_both_spec newN w2 p l Hl Hm Hr) as (w' & E & K). exists w'.
    split; [exact E|]. exact (knows_same_trans _ _ _ K2 K).
Qed.

Lemma limiter_call_spec {A} (f : Limiter → option (A * Limiter)) b l' p l (w : W) :
  at_pointer w p l → f l = Some (b, l') →
  limiter_call f w = Some (b, MkWorld (w_ctl w) (w_server w) (w_api w)
    (MkLimiters (reg (w_lims w)) (<[p := l']> (objs (w_lims w))))).
Proof.
  intros [Hp Hl] Hf. unfold limiter_call, on_pointer. rewrite M_bind_eq. unfold ctl, get. rewrite Hp, Hl.
  simpl. by rewrite Hf.
Qed.
Lemma update_rule_spec rules p l (w : W) :
  at_pointer w p l → Forall (λ r, compiles r = true) (ru_Regexp rules) →
  ∃ l', update_rule compiles rules w = Some (None, MkWorld (w_ctl w) (w_server w) (w_api w)
    (MkLimiters (reg (w_lims w)) (<[p := l']> (objs (w_lims w))))) ∧
    lm_UserLimitInfo l' = lm_UserLimitInfo l.
Proof.
  intros Hl Hr. unfold update_rule.
  assert (MustCompile compiles (ru_Regexp rules) = Some (ru_Regexp rules)) as Hm.
  { destruct (MustCompile_spec compiles (ru_Regexp rules)) as [[_ ?]|[(r & Hin & Hf)%Exists_exists _]]; [done|].
    rewrite Forall_forall in Hr. apply Hr in Hin. congruence. }
  eexists. split.
  - eapply limiter_call_spec; [done|]. cbv beta. unfold UpdateRule. by rewrite Hm.
  - by destruct l.
Qed.

Lemma replace_limiter_spec newN a p l (w : W) :
  at_pointer w p l → NoDup (map ui_Uuid (userList (w_ctl w))) →
  let new := buildNodeTag (APIHost (w_api w)) newN in
  ∃ w', replace_limiter newN a w = Some (tt, w') ∧
    userList (w_ctl w') = userList (w_ctl w) ∧ co_Options (w_ctl w') = co_Options (w_ctl w) ∧
    tasks (w_ctl w') = tasks (w_ctl w) ∧ w_server w' = w_server w ∧
    if decide (op_Name (co_Options (w_ctl w)) = "") then
      tag (w_ctl w') = new ∧
      ∃ p' l', at_pointer w' p' l' ∧ reg (w_lims w') = <[new := p']> (delete (tag (w_ctl w)) (reg (w_lims w))) ∧
        registered new (userList (w_ctl w)) l'
    else w' = w.
Proof.
  intros Hl Hnd. cbv zeta. unfold replace_limiter. rewrite M_bind_eq. unfold ctl at 1, get at 1.
  destruct (decide _); [|by exists w].
  eexists. split; [reflexivity|]. cbn [w_ctl w_server w_api w_lims]. do 5 (split; [done|]).
  eexists _, _. split; [split; [done|apply lookup_insert_eq]|]. split; [done|].
  by apply newLimiter_registered.
Qed.

(** (C33) A reload and the limiter.  When the panel sends a new configuration, whatever the core
    answers, the controller holds the users of the panel.  A node without a name gets a
    limiter that knows exactly these users, registered under the tag of the new
    configuration, and the limiter of the old tag is dropped.  A node with a configured
    name keeps its limiter with the users it knew before: users that came with the new
    configuration are unknown to it, and its checks turn them away. *)
Theorem reload_limiter (w : W) (newN : NodeInfo) (u : option (list UserInfo)) (a : gmap Z Z) (p' : P)
    (p : nat) (l : Limiter) :
  let users := default (userList (w_ctl w)) u in
  let new := buildNodeTag (APIHost p') newN in
  answers (w_api w) (Some newN) u a p' → at_pointer w p l → reload_ready newN w →
  NoDup (map ui_Uuid users) → Forall (λ r, compiles r = true) (ru_Regexp (ni_Rules newN)) →
  ∃ w' q l',
    monitor w = Some (tt, w') ∧ userList (w_ctl w') = users ∧ at_pointer w' q l' ∧
    if decide (op_Name (co_Options (w_ctl w)) = "") then
      tag (w_ctl w') = new ∧ registered new users l' ∧
      reg (w_lims w') = <[new := q]> (delete (tag (w_ctl w)) (reg (w_lims w)))
    else
      tag (w_ctl w') = tag (w_ctl w) ∧ q = p ∧ reg (w_lims w') = reg (w_lims w) ∧
      lm_UserLimitInfo l' = lm_UserLimitInfo l.
Proof.
  intros users new Ha Hl (Hc & Hm & Hr) Hnd Hrules. rewrite (monitor_alive p l _ _ _ _ w Ha Hl).
  set (w1 := MkWorld (resetTraffic (setUsers users (setInfo newN (w_ctl w))))
    (DelNode (tag (w_ctl w)) (w_server w)).2 p' (w_lims w)).
  assert (∀ k, (on_ctl (setInfo newN);;
     match u with Some u => on_ctl (setUsers u) | None => mret tt end;;
     on_ctl resetTraffic;; oldTag ← ctl tag; on_server (DelNode oldTag);; k)
      (MkWorld (w_ctl w) (w_server w) p' (w_lims w)) = (k : M S P unit) w1) as Hpre.
  { intros k. subst w1 users. method. destruct u; cbn; by destruct (DelNode _ _). }
  unfold reload_node. rewrite Hpre. clear Hpre. rewrite M_bind_eq.
  destruct (replace_limiter_spec newN a p l w1 Hl Hnd) as (w2 & -> & Hu2 & Ho2 & Ht2 & _ & Hcase).
  assert (∃ q l2, at_pointer w2 q l2 ∧
    if decide (op_Name (co_Options (w_ctl w)) = "") then
      tag (w_ctl w2) = new ∧ registered new users l2 ∧
      reg (w_lims w2) = <[new := q]> (delete (tag (w_ctl w)) (reg (w_lims w)))
    else tag (w_ctl w2) = tag (w_ctl w) ∧ q = p ∧ reg (w_lims w2) = reg (w_lims w) ∧
      lm_UserLimitInfo l2 = lm_UserLimitInfo l) as (q & l2 & Hl2 & Hcase2).
  { destruct (decide _).
    - destruct Hcase as (? & q & l2 & ? & ? & ?). by exists q, l2.
    - subst w2. by exists p, l. }
  clear Hcase. rewrite M_bind_eq. unfold limiter_do. erewrite limiter_call_spec by done. rewrite M_bind_eq.
  match goal with |- context [update_rule _ _ ?w3] =>
    destruct (update_rule_spec (ni_Rules newN) q (SetAliveList a l2) w3) as (l3 & -> & E3);
      [split; [apply Hl2|apply lookup_insert_eq]|done|] end.
  cbn [w_ctl w_server w_api w_lims reg objs].
  match goal with |- context [reload_core _ _ _ _ ?w4] =>
    destruct (reload_core_spec newN w4 q l3) as (w5 & -> & K) end.
  { split; [apply Hl2|apply lookup_insert_eq]. }
  { split_and!; cbn; [by rewrite Ho2|by rewrite Ht2|by rewrite Ht2]. }
  pose proof K as (_ & K2 & K3 & K4 & _).
  destruct (at_pointer_same _ _ q l3 K) as (l5 & Hl5 & E5); [split; [apply Hl2|apply lookup_insert_eq]|].
  exists w5, q, l5. split; [done|]. split; [by rewrite K3|]. split; [done|].
  rewrite K2, K4. cbn [w_ctl w_lims reg]. destruct (decide _).
  - destruct Hcase2 as (? & ? & ?). split; [done|]. split; [|done].
    eapply registered_same; [|done]. by rewrite E5, E3.
  - destruct Hcase2 as (? & ? & ? & ?). split_and!; try done. by rewrite E5, E3.
Qed.
End monitor.


(** ** A small world: the hysteria2 core with one node, and a panel that always gives
    the same answers. *)
Record Script := MkScript {
  sc_type : string;
  sc_node : result (option NodeInfo);
  sc_users : result (option (list UserInfo));
  sc_push : option string
}.
#[local] Instance script_panel : PanelApi Script := {|
  PanelType := sc_type;
  APIHost _ := "h";
  api_GetNodeInfo p := Some (sc_node p, p);
  api_GetUserList p := Some (sc_users p, p);
  api_GetUserAlive p := Some (Ok ∅, p);
  api_ReportUserTraffic _ p := (sc_push p, p);
  api_ReportNodeOnlineUsers _ p := (None, p);
  api_ReportNodeStatus _ p := (None, p);
  api_InvalidateNodeConfigCache p := p
|}.
#[local] Instance small_core : Core Hysteria2 := hy_core (λ _, None) (λ _, None).
#[local] Instance small_laws : TrafficLaws Hysteria2 := hy_laws.
Definition small_options (dynamic : option DynamicSpeedLimitConfig) : Options :=
  MkOptions "" "" "" "" "" 0
    (MkLimitConfig false 0 0 0 0 false None (bool_decide (is_Some dynamic)) dynamic) "" None None "" None.
Definition small_user : UserInfo := MkUserInfo 7 "a" 0 0.
Definition small_server : Hysteria2 :=
  set_node "t" (MkHookServer "t" {["t" := Tx "a" 2 (Rx "a" 4 NewTrafficCounter)]})
    (MkHysteria2 ∅ {["a" := 7]}).
Definition small_world (push : option string) : World Hysteria2 (Script * list (list UserTraffic * option string)) :=
  let '(l, lims) := AddLimiter "t" LimitConfig_zero [small_user] ∅ (MkLimiters ∅ ∅) in
  MkWorld (setUsers [small_user] (setLimiter l (setTag "t"
    (NewController (small_options (Some (MkDynamicSpeedLimitConfig 1 1 1 1)))))))
    small_server (MkScript "" (Ok None) (Ok None) push, []) lims.

Lemma small_ok : core_ok small_server.
Proof.
  intros tag c. unfold hy_look, small_server. cbn [Hy2nodes set_node].
  destruct (decide (tag = "t")) as [->|Hne].
  - rewrite lookup_insert_eq. cbn. intros [= <-]. by apply tc_wf_Tx, tc_wf_Rx, tc_wf_new.
  - rewrite lookup_insert_ne by done. by rewrite lookup_empty.
Qed.

Lemma small_ready push : report_ready (small_world push).
Proof.
  split; [apply small_ok|]. split; [by eexists|]. split; [apply NoDup_singleton|].
  split; [apply NoDup_singleton|]. apply Forall_singleton. by vm_compute.
Qed.

Lemma report_conserves_witness :
  ∃ w' new, reportUserTrafficTask 0 None (small_world (Some "502")) = Some (tt, w') ∧
    (w_api w').2 = new ∧
    (billed 7 new).1 + (pending (w_server w') "t" "a").1 = 2 ∧
    (billed 7 new).2 + (pending (w_server w') "t" "a").2 = 4.
Proof.
  destruct (report_conserves 0 None (small_world (Some "502")) (small_ready _))
    as (w' & new & E & En & _ & _ & Hu & _).
  exists w', new. split; [exact E|]. split; [exact En|].
  exact (Hu small_user (proj2 (list_elem_of_singleton _ _) eq_refl)).
Defined.

Lemma failed_report_counts_again_witness :
  ∃ w' new, reportUserTrafficTask 0 None (small_world (Some "502")) = Some (tt, w') ∧
    (w_api w').2 = new ∧ traffic (w_ctl w') !! "a" = Some 6 ∧
    (∀ l e, new = [(l, Some e)] →
       wrap64 ((pending (w_server w') "t" "a").1 + (pending (w_server w') "t" "a").2) = 6).
Proof.
  exact (failed_report_counts_again 0 None (small_world (Some "502")) small_user (small_ready _)
    (proj2 (list_elem_of_singleton _ _) eq_refl) eq_refl eq_refl).
Defined.

Definition small_node : NodeInfo :=
  MkNodeInfo 1 "vless" "" SecNone 0 0 (MkRawDNS ∅ "") (MkRules ["ads"] []) "" None None None None
    None None None None None None.
(** The same world, in which the node runs and the panel has an answer. *)
Definition running_world (name : string) (n : option NodeInfo) (u : option (list UserInfo))
    : World Hysteria2 Script :=
  let '(l, lims) := AddLimiter "t" LimitConfig_zero [small_user] ∅ (MkLimiters ∅ ∅) in
  let options := MkOptions name "" "" "" "" 0 LimitConfig_zero "" None None "" None in
  let p := Some (MkPeriodic Second true) in
  MkWorld (set_tasks (MkTasks p p None None None) (setInfo small_node (setUsers [small_user]
    (setLimiter l (setTag "t" (NewController options))))))
    small_server (MkScript "" (Ok n) (Ok u) None) lims.
Definition new_user : UserInfo := MkUserInfo 8 "b" 0 1.

Lemma task_intervals_witness :
  ∃ w' l' push pull,
    startTasks small_node (running_world "" None None) = Some (tt, w') ∧ at_pointer w' 0 l' ∧
    userReportPeriodic (tasks (w_ctl w')) = Some (MkPeriodic push true) ∧
    nodeInfoMonitorPeriodic (tasks (w_ctl w')) = Some (MkPeriodic pull true) ∧
    push + Minute ≤ or_TTL (lm_Online l').
Proof.
  destruct (task_intervals small_node 0 (newLimiter "t" LimitConfig_zero [small_user] ∅)
    (running_world "" None None)) as (w' & l' & push & pull & H1 & H2 & H3 & H4 & _ & _ & _ & H5);
    [split; reflexivity|by vm_compute|by intros ?|].
  exists w', l', push, pull. split; [exact H1|]. split; [exact H2|]. split; [exact H3|].
  split; [exact H4|exact H5].
Defined.


(** A named node: the limiter does not know the new user. *)
Lemma reload_limiter_witness :
  ∃ w' l', nodeInfoMonitor (λ _, true) (λ _, true) (λ _, None) (λ _, None)
      (running_world "t" (Some small_node) (Some [new_user])) = Some (tt, w') ∧
    userList (w_ctl w') = [new_user] ∧ at_pointer w' 0 l' ∧
    lm_UserLimitInfo l' !! UserTag "t" "b" = None.
Proof.
  destruct (reload_limiter (λ _, true) (λ _, true) (λ _, None) (λ _, None)
    (running_world "t" (Some small_node) (Some [new_user])) small_node (Some [new_user]) ∅
    (MkScript "" (Ok (Some small_node)) (Ok (Some [new_user])) None) 0
    (newLimiter "t" LimitConfig_zero [small_user] ∅)) as (w' & q & l' & H1 & H2 & H3 & H4).
  - by eexists _, _.
  - split; reflexivity.
  - split; [by intros ?|]. split; by eexists.
  - apply NoDup_singleton.
  - by repeat constructor.
  - destruct H4 as (_ & -> & _ & H4). exists w', l'. split; [exact H1|]. split; [exact H2|].
    split; [exact H3|]. rewrite H4. vm_compute. reflexivity.
Defined.
