(* ===== verification/Fleet.v ===== *)
(** Several node controllers on one core: the books balance.

    A fleet is what a process runs once its nodes are started: the core, the limiters, and a
    controller per node with its own client of the panel.  Its steps are the traffic of users,
    the tasks of the controllers between two changes of their node, and whatever connections do
    to the limiters.  The specification is a ledger that only knows what every user moved and
    what the panel was told to charge. *)
From S2P Require Import Prelude GoStrings Netutil PanelTypes Conf OnlineRegistry ConnLimiter.
From S2P Require Import Limiter TrafficCounter CoreApi PanelUser PanelNode Report Hy2 Controller.
#[local] Open Scope string_scope.
#[local] Open Scope Z_scope.

(** * The specification *)

Inductive event :=
| Transfer (node : nat) (uuid : string) (up down : Z)
| Settled (node : nat)
| Quiet.
Record entry := MkEntry { en_moved : Z * Z; en_charged : Z * Z }.
Definition ledger : Type := nat → string → entry.
(** A settlement charges every user of a node what it moved. *)
Definition ledger_step (l : ledger) (e : event) : ledger := λ i u,
  match e with
  | Transfer j v up down =>
      if decide (j = i ∧ v = u)
      then MkEntry ((en_moved (l i u)).1 + up, (en_moved (l i u)).2 + down) (en_charged (l i u))
      else l i u
  | Settled j => if decide (j = i) then MkEntry (en_moved (l i u)) (en_moved (l i u)) else l i u
  | Quiet => l i u
  end.

(** * What a task leaves alone *)

Section along.
Context {S P : Type}.
#[local] Abbreviation W := (World S P).

(** Every run of [m] relates the worlds before and after by [R], and its value satisfies [Q]. *)
Definition along {A} (R : relation W) (Q : A → Prop) (m : M S P A) : Prop :=
  ∀ w a w', m w = Some (a, w') → R w w' ∧ Q a.

Context (R : relation W) `{!PreOrder R}.

Lemma along_ret {A} (Q : A → Prop) a : Q a → along R Q (mret a).
Proof. by intros HQ w b w' [= <- <-]. Qed.
Lemma along_bind {A B} (Q : A → Prop) (Q' : B → Prop) (m : M S P A) (f : A → M S P B) :
  along R Q m → (∀ a, Q a → along R Q' (f a)) → along R Q' (m ≫= f).
Proof.
  intros Hm Hf w b w'. unfold mbind, M_bind. destruct (m w) as [[a w1]|] eqn:E; [|done].
  intros H. destruct (Hm _ _ _ E) as [H1 HQ]. destruct (Hf a HQ _ _ _ H) as [H2 HQ'].
  split; [by etrans|done].
Qed.
Lemma along_weaken {A} (Q Q' : A → Prop) (m : M S P A) : (∀ a, Q a → Q' a) → along R Q m → along R Q' m.
Proof. intros HQ Hm w a w' H%Hm. naive_solver. Qed.
Lemma along_get {A} (f : W → A) : along R (λ _, True) (get f).
Proof. by intros w a w' [= <- <-]. Qed.
Lemma along_panics {A} (Q : A → Prop) : along R Q panics.
Proof. by intros w a w'. Qed.
Lemma along_for_each {A} (l : list A) f : (∀ a, a ∈ l → along R (λ _, True) (f a)) →
  along R (λ _, True) (for_each l f).
Proof.
  induction l as [|a l IH]; intros Hf; cbn [for_each]; [by apply along_ret|].
  apply along_bind with (λ _, True); [apply Hf; set_solver|]. intros _ _. apply IH. set_solver.
Qed.
End along.

(** The part of a controller no task but the monitor changes. *)
Definition same_node (c c' : Controller) : Prop :=
  tag c' = tag c ∧ limiter c' = limiter c ∧ userList c' = userList c.
#[export] Instance same_node_preorder : PreOrder same_node.
Proof. split; [by intros c|]. intros c1 c2 c3 (H1 & H2 & H3) (H4 & H5 & H6). split_and!; congruence. Qed.
(** No limiter is lost. *)
Definition lims_kept (l l' : Limiters) : Prop := ∀ p, is_Some (objs l !! p) → is_Some (objs l' !! p).
#[export] Instance lims_kept_preorder : PreOrder lims_kept.
Proof. split; [by intros l p|]. intros l1 l2 l3 H1 H2 p Hp. auto. Qed.

Section touched.
Context {S : Type} `{!CoreTraffic S}.
(** The core after any sequence of reads and restores of some users of a node. *)
Definition touch (tag : string) (us : list string) (s s' : S) : Prop :=
  ∃ u, u ∈ us ∧ ((∃ r, s' = (GetUserTraffic tag u r s).2) ∨ ∃ a b, s' = RestoreUserTraffic tag u a b s).
Definition touched (tag : string) (us : list string) : relation S := rtc (touch tag us).

Lemma touched_elsewhere `{!TrafficLaws S, !TrafficLocal S} t us s s' t' v :
  touched t us s s' → core_ok s → (∀ u, u ∈ us → UserTag t u ≠ UserTag t' v) →
  core_ok s' ∧ pending s' t' v = pending s t' v.
Proof.
  intros Hr Hok Hne. induction Hr as [s|s s1 s2 (u & Hu & Hs) _ IH]; [done|].
  destruct Hs as [[r ->]|(a & b & ->)].
  - destruct IH as [? ->]; [by apply get_ok|]. split; [done|]. apply get_elsewhere; auto.
  - destruct IH as [? ->]; [by apply restore_ok|]. split; [done|]. apply restore_elsewhere; auto.
Qed.
End touched.

Section frame.
Context {S P : Type} `{!Core S} `{!PanelApi P}.
Context (t : string) (us : list string).

Record frame (w w' : World S P) : Prop := {
  fr_node : same_node (w_ctl w) (w_ctl w');
  fr_lims : lims_kept (w_lims w) (w_lims w');
  fr_core : touched t us (w_server w) (w_server w')
}.
#[export] Instance frame_preorder : PreOrder frame.
Proof.
  split.
  - intros w. by split; [| |apply rtc_refl].
  - intros w1 w2 w3 [A1 A2 A3] [B1 B2 B3]. by split; [etrans|etrans|eapply rtc_trans].
Qed.
#[local] Abbreviation framed := (along frame).

Lemma framed_ctl f : (∀ c, same_node c (f c)) → framed (λ _, True) (on_ctl f).
Proof. intros Hf w a w' [= <- <-]. split; [|done]. split; [apply Hf|done|apply rtc_refl]. Qed.
Lemma framed_api {A} (f : P → A * P) : framed (λ _, True) (on_api f).
Proof.
  intros w a w'. unfold on_api. destruct (f (w_api w)) as [b p]. intros [= <- <-].
  split; [|done]. by split; [| |apply rtc_refl].
Qed.
Lemma framed_api_panic {A} (f : P → option (A * P)) : framed (λ _, True) (on_api_panic f).
Proof.
  intros w a w'. unfold on_api_panic. destruct (f (w_api w)) as [[b p]|]; [|done]. intros [= <- <-].
  split; [|done]. by split; [| |apply rtc_refl].
Qed.
Lemma framed_pointer {A} p (f : Limiter → option (A * Limiter)) : framed (λ _, True) (on_pointer p f).
Proof.
  intros w a w'. unfold on_pointer. destruct (objs (w_lims w) !! p) as [l|] eqn:El; [|done].
  cbn [mbind option_bind]. destruct (f l) as [[b l']|]; [|done]. intros [= <- <-].
  split; [|done]. split; [done| |apply rtc_refl]. intros q [l1 Hq]. cbn [w_lims objs].
  destruct (decide (p = q)) as [->|Hne]; [rewrite lookup_insert_eq|rewrite lookup_insert_ne by done]; by eexists.
Qed.
Lemma framed_get u r : u ∈ us → framed (λ _, True) (on_server (GetUserTraffic t u r)).
Proof.
  intros Hu w a w'. unfold on_server. destruct (GetUserTraffic t u r (w_server w)) as [b s] eqn:E.
  intros [= <- <-]. split; [|done]. split; [done|done|]. apply rtc_once. exists u. split; [done|].
  left. exists r. by rewrite E.
Qed.
Lemma framed_restore u a b : u ∈ us →
  framed (λ _, True) (on_server (λ s, (tt, RestoreUserTraffic t u a b s))).
Proof.
  intros Hu w x w' [= <- <-]. split; [|done]. split; [done|done|]. apply rtc_once.
  exists u. split; [done|]. right. by eexists _, _.
Qed.
End frame.

Create HintDb fleet.
#[export] Hint Resolve along_ret along_get along_panics framed_api framed_api_panic framed_pointer : fleet.
#[export] Hint Extern 1 (PreOrder _) => apply frame_preorder : fleet.
#[export] Hint Extern 1 True => exact I : fleet.
(** Walk through a method. *)
Ltac framed :=
  repeat first
    [ progress intros
    | solve [eauto 3 with fleet nocore typeclass_instances]
    | progress unfold ctl, limiter_do, limiter_call, when
    | simple eapply along_bind; [apply frame_preorder| |]
    | match goal with |- along _ _ (match ?x with _ => _ end) => destruct x end
    | match goal with |- along _ _ (let '_ := ?x in _) => destruct x end ].

Section tasks.
Context {S P : Type} `{!Core S} `{!PanelApi P}.
#[local] Abbreviation W := (World S P).

Lemma addTraffic_same u n c : same_node c (addTraffic u n c).
Proof. unfold addTraffic. by case_match. Qed.

(** Reading the users mentions no others. *)
Lemma framed_read_users t us users : map ui_Uuid users ⊆ us →
  along (frame (P := P) t us) (λ r, map ru_uuid r.2 ⊆ us) (read_users t users).
Proof.
  induction users as [|u users IH]; intros Hus; cbn [read_users].
  - apply along_ret; [apply frame_preorder|]. set_solver.
  - apply along_bind with (λ _, True); [apply frame_preorder|apply framed_get; set_solver|].
    intros [up down] _. assert (map ui_Uuid users ⊆ us) as Hus' by set_solver.
    destruct (_ || _); [|by apply IH].
    apply along_bind with (λ _, True); [apply frame_preorder|apply along_get, frame_preorder|].
    intros enabled _.
    apply along_bind with (λ _, True); [apply frame_preorder| |].
    { destruct enabled; [apply framed_ctl; intros; apply addTraffic_same|apply along_ret; [apply frame_preorder|done]]. }
    intros _ _. eapply along_bind; [apply frame_preorder|by apply IH|].
    intros [tr rd] Hrd. apply along_ret; [apply frame_preorder|]. set_solver.
Qed.
Lemma framed_getOnlineUsers t us now : along (frame (S := S) (P := P) t us) (λ _, True) (getOnlineUsers now).
Proof. unfold getOnlineUsers. framed. Qed.
Lemma framed_report_online t us now tr :
  along (frame (S := S) (P := P) t us) (λ _, True) (report_online now tr).
Proof.
  unfold report_online. eapply along_bind; [apply frame_preorder|apply framed_getOnlineUsers|]. framed.
  by apply framed_ctl.
Qed.
Lemma framed_report_traffic t us tr rd : map ru_uuid rd ⊆ us →
  along (frame (S := S) (P := P) t us) (λ _, True) (report_traffic t tr rd).
Proof.
  intros Hrd. unfold report_traffic. destruct tr; [framed|].
  eapply along_bind; [apply frame_preorder|apply framed_api|]. intros [e|] _; [|framed].
  apply along_for_each; [apply frame_preorder|]. intros r Hr. apply framed_restore.
  apply Hrd, list_elem_of_fmap. by exists r.
Qed.
(** A report only touches the users of its controller. *)
Lemma framed_report now status (w w' : W) :
  reportUserTrafficTask now status w = Some (tt, w') →
  frame (tag (w_ctl w)) (map ui_Uuid (userList (w_ctl w))) w w'.
Proof.
  unfold reportUserTrafficTask. unfold mbind at 1 2, M_bind at 1 2, ctl, get. cbn [fst snd].
  set (t := tag (w_ctl w)). set (users := userList (w_ctl w)). intros H.
  assert (along (frame (P := P) t (map ui_Uuid users)) (λ _, True)
    ('(userTraffic, readUsage) ← read_users t users;
     userTraffic ← report_online now userTraffic;
     report_traffic t userTraffic readUsage;;
     on_api (api_ReportNodeStatus (node_status status));;
     mret tt)) as Hf; [|by apply Hf in H as []]. clear H.
  eapply along_bind; [apply frame_preorder|by apply framed_read_users|]. intros [tr rd] Hrd.
  eapply along_bind; [apply frame_preorder|apply framed_report_online|]. intros tr' _.
  eapply along_bind; [apply frame_preorder|by apply framed_report_traffic|]. framed.
Qed.
Lemma framed_sync (w w' : W) : syncOnlineUsersTask w = Some (tt, w') → frame (tag (w_ctl w)) [] w w'.
Proof.
  intros H.
  assert (along (frame (S := S) (P := P) (tag (w_ctl w)) []) (λ _, True) syncOnlineUsersTask) as Hf;
    [|by apply Hf in H as []]. clear H. unfold syncOnlineUsersTask. framed.
Qed.
Lemma framed_speed now (w w' : W) : SpeedChecker now w = Some (tt, w') → frame (tag (w_ctl w)) [] w w'.
Proof.
  set (t := tag (w_ctl w)). intros H.
  assert (along (frame (S := S) (P := P) t []) (λ _, True) (SpeedChecker now)) as Hf;
    [|by apply Hf in H as []]. clearbody t. clear. unfold SpeedChecker.
  eapply along_bind; [apply frame_preorder|apply along_get, frame_preorder|]. intros enabled _.
  eapply along_bind; [apply frame_preorder|apply along_get, frame_preorder|]. intros [d|] _; [|framed].
  destruct enabled; [|framed].
  intros w a w'. cbn [when]. unfold mbind at 1 2, M_bind at 1 2, ctl, get.
  destruct (consumeDynamicSpeedLimitUsers (w_ctl w)) as [users c'] eqn:Ec.
  assert (same_node (w_ctl w) c') as Hc.
  { unfold consumeDynamicSpeedLimitUsers in Ec. destruct (lc_DynamicSpeedLimitConfig _); [|by simplify_eq].
    destruct (_ || _); by simplify_eq. }
  unfold on_ctl. intros H. eapply (along_for_each (frame t [])) in H; cycle 1.
  - intros u _. framed.
  - destruct H as [[H1 H2 H3] _]. split; [|done]. split; [by etrans|done|done].
Qed.
End tasks.

(** * The fleet *)

Section fleet.
Context {S P : Type} `{!Core S} `{!TrafficLaws S} `{!TrafficLocal S} `{!PanelApi P}.
(** A panel with the traffic reports it was sent, and its answers. *)
#[local] Abbreviation panel := (P * list (list UserTraffic * option string))%type.
#[local] Open Scope list_scope.

Record fleet := MkFleet {
  fl_core : S;
  fl_lims : Limiters;
  fl_ctls : list (Controller * panel)
}.
Definition world_of (f : fleet) (c : Controller) (p : panel) : World S panel :=
  MkWorld c (fl_core f) p (fl_lims f).
(** A task of one controller is over. *)
Definition back (f : fleet) (i : nat) (w : World S panel) : fleet :=
  MkFleet (w_server w) (w_lims w) (<[i := (w_ctl w, w_api w)]> (fl_ctls f)).
(** Whether the panel took the traffic a report sent, if it sent any. *)
Definition taken (log log' : list (list UserTraffic * option string)) : bool :=
  bool_decide (Forall (λ r, r.2 = None) (drop (length log) log')).

Inductive fleet_step (f : fleet) : event → fleet → Prop :=
| step_transfer i c p u up down s :
    fl_ctls f !! i = Some (c, p) → u ∈ userList c → 0 ≤ up → 0 ≤ down →
    (pending (fl_core f) (tag c) (ui_Uuid u)).1 + up ≤ int64_max →
    (pending (fl_core f) (tag c) (ui_Uuid u)).2 + down ≤ int64_max →
    counted_in (tag c) (ui_Uuid u) up down (fl_core f) s →
    fleet_step f (Transfer i (ui_Uuid u) up down) (MkFleet s (fl_lims f) (fl_ctls f))
| step_report i c p now status w :
    fl_ctls f !! i = Some (c, p) → reportUserTrafficTask now status (world_of f c p) = Some (tt, w) →
    fleet_step f (if taken p.2 (w_api w).2 then Settled i else Quiet) (back f i w)
| step_sync i c p w :
    fl_ctls f !! i = Some (c, p) → syncOnlineUsersTask (world_of f c p) = Some (tt, w) →
    fleet_step f Quiet (back f i w)
| step_speed i c p now w :
    fl_ctls f !! i = Some (c, p) → SpeedChecker now (world_of f c p) = Some (tt, w) →
    fleet_step f Quiet (back f i w)
| step_connections lims :
    lims_kept (fl_lims f) lims → fleet_step f Quiet (MkFleet (fl_core f) lims (fl_ctls f)).

Inductive fleet_run (f : fleet) : list event → fleet → Prop :=
| run_nil : fleet_run f [] f
| run_snoc es f1 e f2 : fleet_run f es f1 → fleet_step f1 e f2 → fleet_run f (es ++ [e]) f2.

(** Between two steps: users have keys of their own, across all nodes. *)
Record fleet_ok (f : fleet) : Prop := {
  ok_core : core_ok (fl_core f);
  ok_keys i j c p c' p' u v : fl_ctls f !! i = Some (c, p) → fl_ctls f !! j = Some (c', p') →
    u ∈ userList c → v ∈ userList c' → UserTag (tag c) (ui_Uuid u) = UserTag (tag c') (ui_Uuid v) → i = j;
  ok_ready i c p : fl_ctls f !! i = Some (c, p) → report_ready (world_of f c p)
}.

(** What the books say about every user of every node. *)
Definition books (f : fleet) (l : ledger) : Prop :=
  ∀ i c p u, fl_ctls f !! i = Some (c, p) → u ∈ userList c →
    let e := l i (ui_Uuid u) in let left := pending (fl_core f) (tag c) (ui_Uuid u) in
    billed (ui_Id u) p.2 = en_charged e ∧
    (en_moved e).1 = (en_charged e).1 + left.1 ∧ (en_moved e).2 = (en_charged e).2 + left.2.

(** ** One controller at a time *)

(** A task that stays within its frame, and what it makes of the other controllers. *)
Lemma back_others f i c p w us j c' p' v :
  fleet_ok f → fl_ctls f !! i = Some (c, p) → frame (tag c) us (world_of f c p) w →
  us ⊆ map ui_Uuid (userList c) → fl_ctls f !! j = Some (c', p') → i ≠ j → v ∈ userList c' →
  pending (w_server w) (tag c') (ui_Uuid v) = pending (fl_core f) (tag c') (ui_Uuid v).
Proof.
  intros Hf Hi [_ _ Hc] Hus Hj Hne Hv. cbn [w_server world_of] in Hc.
  destruct (touched_elsewhere _ _ _ _ (tag c') (ui_Uuid v) Hc (ok_core f Hf)) as [_ ?]; [|done].
  intros u Hu E. apply Hus, list_elem_of_fmap in Hu as (u' & -> & Hu').
  apply Hne. by eapply (ok_keys f Hf i j).
Qed.
Lemma framed_core_ok f i c p us w :
  fleet_ok f → fl_ctls f !! i = Some (c, p) → frame (tag c) us (world_of f c p) w → core_ok (w_server w).
Proof.
  intros Hf Hi [_ _ Hc]. cbn [w_server world_of] in Hc. pose proof (ok_core f Hf) as Hok.
  revert Hok. induction Hc as [s|s s1 s2 (u & _ & [[r ->]|(a & b & ->)]) _ IH]; [done| |]; intros Hok;
    apply IH; [by apply get_ok|by apply restore_ok].
Qed.
Lemma lookup_back f i c p w j c' p' :
  fl_ctls f !! i = Some (c, p) → same_node c (w_ctl w) → fl_ctls (back f i w) !! j = Some (c', p') →
  ∃ c0 p0, fl_ctls f !! j = Some (c0, p0) ∧ tag c' = tag c0 ∧ limiter c' = limiter c0 ∧
    userList c' = userList c0 ∧ ((i = j ∧ c0 = c ∧ p' = w_api w) ∨ (i ≠ j ∧ c0 = c' ∧ p0 = p')).
Proof.
  intros Hi (H1 & H2 & H3). cbn [fl_ctls back]. destruct (decide (i = j)) as [<-|Hne].
  - rewrite list_lookup_insert_eq by by eapply lookup_lt_Some. intros [= <- <-].
    exists c, p. split; [done|]. split_and!; [done..|by left].
  - rewrite list_lookup_insert_ne by done. intros Hj. exists c', p'. split_and!; [done..|by right].
Qed.
(** The fleet is in order after a task if what its own users still have pending is in range. *)
Lemma back_ok f i c p us w :
  fleet_ok f → fl_ctls f !! i = Some (c, p) → frame (tag c) us (world_of f c p) w →
  us ⊆ map ui_Uuid (userList c) → Forall (in_range (w_server w) (tag c)) (userList c) →
  fleet_ok (back f i w).
Proof.
  intros Hf Hi Hw Hus Hr. pose proof Hw as [Hn Hl _]. split.
  - by apply (framed_core_ok f i c p us).
  - intros j k c1 p1 c2 p2 u v Hj Hk Hu Hv E.
    destruct (lookup_back f i c p w j c1 p1 Hi Hn Hj) as (d1 & q1 & Hj' & T1 & _ & U1 & _).
    destruct (lookup_back f i c p w k c2 p2 Hi Hn Hk) as (d2 & q2 & Hk' & T2 & _ & U2 & _).
    rewrite U1 in Hu. rewrite U2 in Hv. rewrite T1, T2 in E. by eapply (ok_keys f Hf).
  - intros j c1 p1 Hj.
    destruct (lookup_back f i c p w j c1 p1 Hi Hn Hj) as (d1 & q1 & Hj' & T1 & L1 & U1 & Hcase).
    destruct (ok_ready f Hf j d1 q1 Hj') as (_ & R2 & R3 & R4 & R5).
    unfold report_ready, limiter_there in *. cbn [w_server w_ctl w_lims world_of back fl_core fl_lims] in *.
    rewrite U1, T1, L1. split_and!; [by apply (framed_core_ok f i c p us)| |done|done|].
    + destruct (limiter d1) as [q|]; [by apply Hl|done].
    + destruct Hcase as [(<- & -> & _)|(Hne & -> & _)]; [done|].
      apply Forall_forall. intros v Hv. rewrite Forall_forall in R5. specialize (R5 v Hv).
      unfold in_range in *. by rewrite (back_others f i c p w us j c1 q1 v).
Qed.

(** ** The simulation *)

Lemma billed_app uid (l k : list (list UserTraffic * option string)) :
  billed uid (l ++ k) = ((billed uid l).1 + (billed uid k).1, (billed uid l).2 + (billed uid k).2).
Proof.
  unfold billed, entries_of. rewrite filter_app, map_app, concat_app, filter_app, !map_app, !sumZ_app. done.
Qed.
Lemma report_step f i c p now status w l :
  fleet_ok f → books f l → fl_ctls f !! i = Some (c, p) →
  reportUserTrafficTask now status (world_of f c p) = Some (tt, w) →
  fleet_ok (back f i w) ∧
  books (back f i w) (ledger_step l (if taken p.2 (w_api w).2 then Settled i else Quiet)).
Proof.
  intros Hf Hb Hi E. pose proof (framed_report now status _ _ E) as Hw. cbn [w_ctl world_of] in Hw.
  pose proof (ok_ready f Hf i c p Hi) as Hready.
  destruct (report_spec now status _ Hready) as (c1 & s1 & p1 & lims1 & new & zeros & e & E' & _ & _ & Hz & Hnew & Hp).
  destruct Hready as (_ & _ & Hnd & Hid & Hr). cbn [w_ctl w_server w_api world_of] in *.
  rewrite E' in E. injection E as <-. cbn [w_api w_server snd] in *.
  assert (Forall (in_range s1 (tag c)) (userList c)) as Hr1.
  { apply Forall_forall. intros u Hu. rewrite Forall_forall in Hr. specialize (Hr u Hu). unfold in_range in *.
    rewrite Hp. case_decide; [|done]. unfold int64_max. cbn [fst snd]. lia. }
  split; [by eapply back_ok|].
  assert (taken p.2 (p.2 ++ new) = bool_decide (Forall (λ r, r.2 = None) new)) as ->
    by (unfold taken; by rewrite drop_app_length).
  intros j c' p' u Hj Hu. pose proof Hw as [Hn _ _]. cbn [w_ctl] in Hn.
  destruct (lookup_back f i c p (MkWorld c1 s1 (p1, p.2 ++ new) lims1) j c' p' Hi Hn Hj)
    as (d & q & Hj' & T & _ & U & Hcase).
  rewrite U in Hu. destruct (Hb j d q u Hj' Hu) as (B1 & B2 & B3). cbn [fl_core back]. rewrite T.
  destruct Hcase as [(<- & -> & ->)|(Hne & -> & ->)]; cycle 1.
  { cbn [w_server]. pose proof (back_others f i c p _ _ j c' p' u Hf Hi Hw ltac:(done) Hj' Hne Hu) as Hk.
    cbn [w_server] in Hk. rewrite Hk. cbv zeta. unfold ledger_step.
    destruct (bool_decide _); [rewrite decide_False by done|]; done. }
  rewrite Hi in Hj'. injection Hj' as <-. cbn [w_api w_server snd].
  assert (ui_Uuid u ∈ map ui_Uuid (userList c)) as Hin by by apply list_elem_of_fmap_2.
  cbv zeta in B1, B2, B3 |- *. unfold ledger_step. rewrite Hp, billed_app, B1.
  rewrite Forall_forall in Hr. destruct (Hr u Hu) as [Hr1' Hr2']. cbn [fl_core] in *.
  destruct Hnew as [->|[-> Hm]].
  - rewrite (billed_entry (fl_core f) (tag c) (userList c)) by (done || by apply Forall_forall).
    destruct e as [e|]; [rewrite bool_decide_eq_false_2 by (rewrite Forall_singleton; done)
      |rewrite bool_decide_eq_true_2 by by apply Forall_singleton];
      destruct (l i (ui_Uuid u)) as [[m1 m2] [c1' c2']]; cbn [en_moved en_charged fst snd] in *.
    + rewrite !decide_False by naive_solver. cbn [fst snd].
      split_and!; [f_equal; lia|lia|lia].
    + rewrite !decide_True by done. cbn [en_moved en_charged fst snd].
      split_and!; [f_equal; lia|lia|lia].
  - rewrite bool_decide_eq_true_2 by by apply Forall_nil.
    assert (¬ moved (tag c) (fl_core f) u) as Hnm.
    { intros Hmv. apply (not_elem_of_nil u). rewrite <-Hm. by apply list_elem_of_filter. }
    unfold moved in Hnm. destruct (l i (ui_Uuid u)) as [[m1 m2] [c1' c2']]. cbn [en_moved en_charged fst snd] in *.
    rewrite decide_True by done. cbn [billed entries_of filter map concat].
    destruct (pending (fl_core f) (tag c) (ui_Uuid u)) as [a b]. cbn [fst snd en_moved en_charged] in *.
    case_decide; cbn; split_and!; (f_equal; lia) || lia.
Qed.

(** A task that sends no traffic and touches no user. *)
Lemma quiet_step f i c p w l :
  fleet_ok f → books f l → fl_ctls f !! i = Some (c, p) → frame (tag c) [] (world_of f c p) w →
  (w_api w).2 = p.2 → fleet_ok (back f i w) ∧ books (back f i w) (ledger_step l Quiet).
Proof.
  intros Hf Hb Hi Hw Hlog. pose proof Hw as [Hn _ Hc]. cbn [w_server world_of] in Hc.
  assert (w_server w = fl_core f) as Hs.
  { inversion Hc as [|s s1 s2 (u & []%elem_of_nil & _) _]; congruence. }
  split.
  - eapply back_ok; [done|done|done|set_solver|]. rewrite Hs. apply (ok_ready f Hf i c p Hi).
  - intros j c' p' u Hj Hu. destruct (lookup_back f i c p w j c' p' Hi Hn Hj) as (d & q & Hj' & T & _ & U & Hcase).
    rewrite U in Hu. destruct (Hb j d q u Hj' Hu) as (B1 & B2 & B3). cbn [fl_core back]. rewrite T, Hs.
    split; [|done]. destruct Hcase as [(<- & -> & ->)|(_ & _ & ->)]; [|done].
    rewrite Hi in Hj'. injection Hj' as <-. by rewrite Hlog.
Qed.
Lemma transfer_step f i c p u up down s l :
  fleet_ok f → books f l → fl_ctls f !! i = Some (c, p) → u ∈ userList c → 0 ≤ up → 0 ≤ down →
  (pending (fl_core f) (tag c) (ui_Uuid u)).1 + up ≤ int64_max →
  (pending (fl_core f) (tag c) (ui_Uuid u)).2 + down ≤ int64_max →
  counted_in (tag c) (ui_Uuid u) up down (fl_core f) s →
  let f' := MkFleet s (fl_lims f) (fl_ctls f) in
  fleet_ok f' ∧ books f' (ledger_step l (Transfer i (ui_Uuid u) up down)).
Proof.
  intros Hf Hb Hi Hu Hup Hdown Hmu Hmd (Hok & Hp & Ho).
  assert (∀ j c' p' v, fl_ctls f !! j = Some (c', p') → v ∈ userList c' →
    pending s (tag c') (ui_Uuid v) =
      if decide (i = j ∧ ui_Uuid u = ui_Uuid v)
      then ((pending (fl_core f) (tag c') (ui_Uuid v)).1 + up, (pending (fl_core f) (tag c') (ui_Uuid v)).2 + down)
      else pending (fl_core f) (tag c') (ui_Uuid v)) as Hs.
  { intros j c' p' v Hj Hv. destruct (decide (i = j ∧ ui_Uuid u = ui_Uuid v)) as [[<- <-]|Hne].
    - rewrite Hi in Hj. by injection Hj as <- <-.
    - apply Ho. intros E. apply Hne. pose proof (ok_keys f Hf i j c p c' p' u v Hi Hj Hu Hv E) as Hij. subst j.
      rewrite Hi in Hj. injection Hj as <- <-. split; [done|]. by apply (inj (UserTag (tag c))) in E. }
  split.
  - split; [done|apply (ok_keys f Hf)|]. intros j c' p' Hj. cbn [fl_ctls] in Hj.
    destruct (ok_ready f Hf j c' p' Hj) as (_ & R2 & R3 & R4 & R5). split_and!; [done..|].
    apply Forall_forall. intros v Hv. rewrite Forall_forall in R5. specialize (R5 v Hv).
    unfold in_range in *. cbn [w_server world_of w_ctl fl_core] in *. rewrite (Hs j c' p' v) by done.
    destruct (decide _) as [[Hij E]|]; [|done]. subst j. rewrite Hi in Hj. injection Hj as <- <-.
    rewrite <- E in *. cbn [fst snd]. lia.
  - intros j c' p' v Hj Hv. cbn [fl_ctls] in Hj. destruct (Hb j c' p' v Hj Hv) as (B1 & B2 & B3). cbn [fl_core].
    rewrite (Hs j c' p' v) by done. cbv zeta. unfold ledger_step.
    destruct (decide _) as [[Hij E]|]; cbn [en_moved en_charged fst snd]; [|done].
    split; [done|]. lia.
Qed.
Lemma connections_step f lims l :
  fleet_ok f → books f l → lims_kept (fl_lims f) lims →
  let f' := MkFleet (fl_core f) lims (fl_ctls f) in fleet_ok f' ∧ books f' (ledger_step l Quiet).
Proof.
  intros Hf Hb Hl. split; [|done]. split; [apply (ok_core f Hf)|apply (ok_keys f Hf)|]. intros i c p Hi.
  destruct (ok_ready f Hf i c p Hi) as (R1 & R2 & R3). split; [done|]. split; [|done].
  unfold limiter_there in *. cbn [w_ctl w_lims world_of fl_lims] in *. destruct (limiter c); [by apply Hl|done].
Qed.
(** Only a report writes to the log of the panel. *)
Lemma sync_log (w w' : World S panel) : syncOnlineUsersTask w = Some (tt, w') → (w_api w').2 = (w_api w).2.
Proof.
  unfold syncOnlineUsersTask. method. destruct (limiter (w_ctl w)) as [q|]; [|by intros [= <-]].
  cbn [api_GetUserAlive recording]. destruct (api_GetUserAlive (w_api w).1) as [[r p]|]; [|done].
  cbn [mbind option_bind]. destruct r; [|by intros [= <-]]. cbn [w_lims].
  destruct (objs (w_lims w) !! q); [|done]. by intros [= <-].
Qed.
Lemma limiter_do_api g (w w' : World S panel) : limiter_do g w = Some (tt, w') → w_api w' = w_api w.
Proof.
  unfold limiter_do, limiter_call. method. destruct (limiter (w_ctl w)) as [q|]; [|done].
  destruct (objs (w_lims w) !! q); [|done]. by intros [= <-].
Qed.
Lemma speed_log now (w w' : World S panel) : SpeedChecker now w = Some (tt, w') → w_api w' = w_api w.
Proof.
  unfold SpeedChecker. unfold mbind at 1 2, M_bind at 1 2, ctl, get.
  destruct (lc_DynamicSpeedLimitConfig _) as [d|]; [|by intros [= <-]].
  destruct (dynamicSpeedLimitEnabled _); [|by intros [= <-]]. unfold when.
  unfold mbind at 1 2, M_bind at 1 2, on_ctl. destruct (consumeDynamicSpeedLimitUsers _) as [us c'].
  generalize (MkWorld c' (w_server w) (w_api w) (w_lims w)) as w1 , (eq_refl : w_api (MkWorld c' (w_server w) (w_api w) (w_lims w)) = w_api w).
  induction us as [|u us IH]; intros w1 H1; cbn [for_each]; [by intros [= <-]|].
  unfold mbind, M_bind. destruct (limiter_do _ w1) as [[[] w2]|] eqn:E2; [|done].
  apply IH. by rewrite (limiter_do_api _ _ _ E2).
Qed.

Lemma fleet_step_books f e f' l :
  fleet_step f e f' → fleet_ok f → books f l → fleet_ok f' ∧ books f' (ledger_step l e).
Proof.
  intros Hs Hf Hb. destruct Hs as [i c p u up down s|i c p now status w|i c p w Hi E|i c p now w Hi E|lims].
  - by eapply transfer_step.
  - by eapply report_step.
  - eapply quiet_step; [done..|by apply framed_sync in E|by apply sync_log in E].
  - eapply quiet_step; [done..|by apply framed_speed in E|]. apply speed_log in E. by rewrite E.
  - by apply connections_step.
Qed.
Lemma fleet_run_books f es f' l :
  fleet_run f es f' → fleet_ok f → books f l → fleet_ok f' ∧ books f' (foldl ledger_step l es).
Proof.
  intros Hr Hf Hb. induction Hr as [|es f1 e f2 _ IH Hs]; [done|].
  destruct IH as [Hf1 Hb1]. rewrite foldl_app. cbn [foldl]. by eapply fleet_step_books.
Qed.
End fleet.

(** ** What connections do *)

Lemma lims_kept_insert lims p l : lims_kept lims (MkLimiters (reg lims) (<[p := l]> (objs lims))).
Proof.
  intros q Hq. cbn [objs]. destruct (decide (p = q)) as [->|]; [rewrite lookup_insert_eq; by eexists|].
  by rewrite lookup_insert_ne.
Qed.
(** The moves of a connection: the client sends [true] or receives [false] a number of bytes. *)
Definition sent (up : bool) (moves : list (bool * Z)) : Z :=
  sumZ (map (λ m : bool * Z, if Bool.eqb m.1 up then m.2 else 0) moves).
Lemma sent_nonneg up moves : Forall (λ m : bool * Z, 0 ≤ m.2) moves → 0 ≤ sent up moves.
Proof.
  unfold sent. induction 1 as [|[b n] moves Hn _ IH]; [done|]. cbn [map]. rewrite sumZ_cons. cbn in *.
  destruct (Bool.eqb _ _); lia.
Qed.

Section moves.
Context {S : Type} `{!CoreTraffic S} `{!TrafficLaws S}.
(** The traffic of a user stays in range. *)
Definition fits (s : S) (tag uuid : string) (up down : Z) : Prop :=
  0 ≤ (pending s tag uuid).1 ∧ (pending s tag uuid).1 + up ≤ int64_max ∧
  0 ≤ (pending s tag uuid).2 ∧ (pending s tag uuid).2 + down ≤ int64_max.

End moves.

Section steps.
Context {S P : Type} `{!Core S} `{!TrafficLaws S} `{!PanelApi P}.
#[local] Abbreviation fleet := (fleet (S := S) (P := P)).
Definition set_lims (lims : Limiters) (f : fleet) : fleet := MkFleet (fl_core f) lims (fl_ctls f).
Definition set_core (s : S) (f : fleet) : fleet := MkFleet s (fl_lims f) (fl_ctls f).

(** The moves of a connection that the core has counted are a step. *)
Lemma step_moves (f : fleet) i c p u moves s :
  fl_ctls f !! i = Some (c, p) → u ∈ userList c → Forall (λ m : bool * Z, 0 ≤ m.2) moves →
  fits (fl_core f) (tag c) (ui_Uuid u) (sent true moves) (sent false moves) →
  counted_in (tag c) (ui_Uuid u) (sent true moves) (sent false moves) (fl_core f) s →
  fleet_step f (Transfer i (ui_Uuid u) (sent true moves) (sent false moves)) (set_core s f).
Proof. intros Hi Hu Hm (_ & F2 & _ & F4) Hc. by eapply step_transfer; [..|apply sent_nonneg|apply sent_nonneg| | |]. Qed.
End steps.

(** * The books balance *)

Section property.
Context {S P : Type} `{!Core S} `{!TrafficLaws S} `{!TrafficLocal S} `{!PanelApi P}.

End property.

(** Two nodes of the hysteria2 core with a user of the same identity. *)
#[local] Existing Instances script_panel small_core small_laws hy_local.
Definition two_limiters : Limiters :=
  (AddLimiter "v" LimitConfig_zero [small_user] ∅
    (AddLimiter "t" LimitConfig_zero [small_user] ∅ (MkLimiters ∅ ∅)).2).2.
Definition two_nodes (push : option string) : fleet (S := Hysteria2) (P := Script) :=
  let node tag p := (setUsers [small_user] (setLimiter p (setTag tag (NewController (small_options None)))),
                     (MkScript "" (Ok None) (Ok None) push, [])) in
  MkFleet (set_node "v" (MkHookServer "v" {["v" := Tx "a" 0 NewTrafficCounter]}) small_server)
    two_limiters [node "t" 0%nat; node "v" 1%nat].
Definition two_books : ledger := λ i _,
  match i with O => MkEntry (2, 4) (0, 0) | _ => MkEntry (0, 0) (0, 0) end.

Lemma two_nodes_ctl push i c p : fl_ctls (two_nodes push) !! i = Some (c, p) →
  userList c = [small_user] ∧ p.2 = [] ∧ limiter_there (world_of (two_nodes push) c p) ∧
  (i = 0%nat ∧ tag c = "t" ∨ i = 1%nat ∧ tag c = "v").
Proof.
  destruct i as [|[|i]]; [intros [= <- <-]..|done]; (split_and!; [done|done|by eexists|auto]).
Qed.
Lemma two_nodes_core push : core_ok (fl_core (two_nodes push)).
Proof.
  intros tag c. unfold hy_look, two_nodes. cbn [fl_core Hy2nodes set_node].
  destruct (decide (tag = "v")) as [->|Hne].
  - rewrite lookup_insert_eq. cbn. intros [= <-]. by apply tc_wf_Tx, tc_wf_new.
  - rewrite lookup_insert_ne by done. apply (small_ok tag c).
Qed.
Lemma two_nodes_ok push : fleet_ok (two_nodes push).
Proof.
  split; [apply two_nodes_core| |].
  - intros i j c p c' p' u v Hi Hj Hu Hv E.
    destruct (two_nodes_ctl _ _ _ _ Hi) as (Ui & _ & _ & Ti), (two_nodes_ctl _ _ _ _ Hj) as (Uj & _ & _ & Tj).
    rewrite Ui in Hu. rewrite Uj in Hv. apply list_elem_of_singleton in Hu as ->, Hv as ->.
    destruct Ti as [[-> Ti]|[-> Ti]], Tj as [[-> Tj]|[-> Tj]]; rewrite Ti, Tj in E; done.
  - intros i c p Hi. destruct (two_nodes_ctl _ _ _ _ Hi) as (U & _ & L & T).
    assert (tag c = "t" ∨ tag c = "v") as T' by naive_solver. clear T.
    unfold report_ready. cbn [w_ctl w_server world_of]. rewrite U.
    split_and!; [apply two_nodes_core|done|apply NoDup_singleton|apply NoDup_singleton|].
    apply Forall_singleton. by destruct T' as [-> | ->]; vm_compute.
Qed.
Lemma two_nodes_books push : books (two_nodes push) two_books.
Proof.
  intros i c p u Hi Hu. destruct (two_nodes_ctl _ _ _ _ Hi) as (U & L & _ & T).
  rewrite U in Hu. apply list_elem_of_singleton in Hu as ->. rewrite L.
  by destruct T as [[-> ->]|[-> ->]]; vm_compute.
Qed.

