(* ===== verification/Reload.v ===== *)
(** What a change of its node costs a controller of the hysteria2 core (node/task.go with
    core/hy2): the monitor makes the core drop the node and the counters with it, and nothing
    has reported them before. *)
From S2P Require Import Prelude GoStrings Netutil PanelTypes Conf OnlineRegistry ConnLimiter.
From S2P Require Import Limiter TrafficCounter CoreApi PanelUser PanelNode Report Hy2 Controller Fleet.
#[local] Open Scope string_scope.
#[local] Open Scope Z_scope.

Section reload.
Context {P : Type} `{!PanelApi P}.
Context (server_err close_err : string → option string).
#[local] Instance reload_core_hy : Core Hysteria2 := hy_core server_err close_err.
#[local] Existing Instance hy_laws.
Context (compiles IsExist : string → bool) (lego_create self_create : CertConfig → option string).
#[local] Abbreviation panel := (P * list (list UserTraffic * option string))%type.
#[local] Abbreviation W := (World Hysteria2 panel).

(** ** Nothing is sent *)

Definition unsent (w w' : W) : Prop := (w_api w').2 = (w_api w).2.
#[local] Instance unsent_preorder : PreOrder unsent.
Proof. split; [by intros w|]. intros w1 w2 w3 H1 H2. unfold unsent in *. congruence. Qed.

(** [t] has no counters, and keeps none. *)
Variable t : string.
Definition dropped (w : W) : Prop := hy_look (w_server w) t = None.
Record quiet (w w' : W) : Prop := { qu_log : unsent w w'; qu_dropped : dropped w → dropped w' }.
#[local] Instance quiet_preorder : PreOrder quiet.
Proof.
  split; [by intros w; split|]. intros w1 w2 w3 [A1 A2] [B1 B2]. split; [by etrans|auto].
Qed.
Lemma dropped_pending w v : dropped w → pending (w_server w) t v = (0, 0).
Proof. unfold dropped. intros E. cbn [pending hy_laws counter_laws]. unfold cc_usage. by rewrite E. Qed.

#[local] Abbreviation silent := (along quiet (λ _, True)).
Lemma silent_ctl f : silent (on_ctl f).
Proof. by intros w a w' [= <- <-]. Qed.
Lemma silent_lims {A} (f : Limiters → A * Limiters) : silent (on_lims f).
Proof. intros w a w'. unfold on_lims. destruct (f (w_lims w)). by intros [= <- <-]. Qed.
Lemma silent_pointer {A} p (f : Limiter → option (A * Limiter)) : silent (on_pointer p f).
Proof.
  intros w a w'. unfold on_pointer. destruct (objs (w_lims w) !! p) as [l|]; [|done].
  cbn [mbind option_bind]. destruct (f l) as [[b l']|]; [|done]. by intros [= <- <-].
Qed.
Lemma silent_retry : silent retryNodeReload.
Proof. by intros w a w' [= <- <-]. Qed.
Lemma silent_ask {A} (f : P → option (A * P)) :
  silent (on_api_panic (λ p : panel, '(r, q) ← f p.1; Some (r, (q, p.2)))).
Proof.
  intros w a w'. unfold on_api_panic. destruct (f (w_api w).1) as [[r q]|]; [|done]. by intros [= <- <-].
Qed.
Lemma silent_AddUsers tag users node : silent (on_server (AddUsers tag users node)).
Proof. by intros w a w' [= <- <-]. Qed.
Lemma silent_DelUsers users tag node : silent (on_server (DelUsers users tag node)).
Proof. by intros w a w' [= <- <-]. Qed.
Lemma silent_AddNode tag node o : silent (on_server (AddNode tag node o)).
Proof.
  intros w a w'. unfold on_server. cbn [AddNode reload_core_hy hy_core]. unfold hy_AddNode.
  destruct (server_err tag); intros [= <- <-]; [done|]. split; [|done]. split; [done|].
  unfold dropped, hy_look. cbn [w_server Hy2nodes set_node]. destruct (decide (tag = t)) as [->|Hne].
  - by rewrite lookup_insert_eq.
  - by rewrite lookup_insert_ne.
Qed.
Lemma silent_DelNode tag : silent (on_server (DelNode tag)).
Proof.
  intros w a w'. unfold on_server. cbn [DelNode reload_core_hy hy_core]. unfold hy_DelNode.
  destruct (Hy2nodes (w_server w) !! tag); [|by intros [= <- <-]].
  destruct (close_err tag); intros [= <- <-]; [done|]. split; [|done]. split; [done|].
  unfold dropped, hy_look. cbn [w_server Hy2nodes]. destruct (decide (tag = t)) as [->|Hne].
  - by rewrite lookup_delete_eq.
  - by rewrite lookup_delete_ne.
Qed.

#[local] Hint Resolve silent_ctl silent_lims silent_pointer silent_retry silent_ask silent_AddUsers
  silent_DelUsers silent_AddNode silent_DelNode : fleet.
#[local] Hint Extern 1 (PreOrder _) => apply quiet_preorder : fleet.
(** Walk through a method of the monitor. *)
Ltac silently :=
  repeat first
    [ progress intros
    | solve [eauto 3 with fleet nocore typeclass_instances]
    | progress unfold ctl, limiter_do, limiter_call, when, on_tasks, update_rule
    | simple eapply along_bind; [apply quiet_preorder| |]
    | match goal with |- along _ _ (match ?x with _ => _ end) => destruct x end
    | match goal with |- along _ _ (let '_ := ?x in _) => destruct x end ].

Lemma silent_reload_core newN : silent (reload_core IsExist lego_create self_create newN).
Proof.
  unfold reload_core, request_cert, add_node, add_users, rearm, applyOnlineTTL, ensureOnlineIPSyncTask. silently.
Qed.
Lemma silent_replace newN a : silent (replace_limiter newN a).
Proof. unfold replace_limiter. silently. Qed.
(** Everything after the core was told to drop the node. *)
Definition reloaded (newN : NodeInfo) (a : gmap Z Z) : M Hysteria2 panel unit :=
  replace_limiter newN a;;
  limiter_do (SetAliveList a);;
  err ← update_rule compiles (ni_Rules newN);
  match err with Some _ => retryNodeReload | None => reload_core IsExist lego_create self_create newN end.
Lemma silent_reloaded newN a : silent (reloaded newN a).
Proof.
  unfold reloaded. eapply along_bind; [apply quiet_preorder|apply silent_replace|]. silently.
  apply silent_reload_core.
Qed.
Lemma silent_sync newU : silent (sync_users newU).
Proof.
  unfold sync_users, del_users, add_new, add_users, update_limiter, ensureOnlineIPSyncTask. silently.
  all: apply along_for_each; [apply quiet_preorder|]; silently.
Qed.
End reload.

Section property.
Context {P : Type} `{!PanelApi P}.
Context (server_err close_err : string → option string).
#[local] Instance core_hy : Core Hysteria2 := hy_core server_err close_err.
#[local] Existing Instance hy_laws.
Context (compiles IsExist : string → bool) (lego_create self_create : CertConfig → option string).
#[local] Abbreviation panel := (P * list (list UserTraffic * option string))%type.
#[local] Abbreviation W := (World Hysteria2 panel).

Lemma DelNode_dropped t (s : Hysteria2) : close_err t = None → hy_look (DelNode t s).2 t = None.
Proof.
  intros Hc. cbn [DelNode core_hy hy_core]. unfold hy_DelNode, hy_look. rewrite Hc.
  destruct (Hy2nodes s !! t) eqn:E; cbn [snd Hy2nodes]; [by rewrite lookup_delete_eq|by rewrite E].
Qed.

(** (C34) A change of the node loses the traffic that was not reported.  When the panel sends a
    new configuration, the monitor reports nothing to the panel, and whatever becomes of the
    reload, the core has nothing pending under the old tag afterwards: what the users of the
    node moved since the last report is neither charged nor left to be charged. *)
Theorem reload_drops_unread (w w' : W) (newN : NodeInfo) (u : option (list UserInfo)) (a : gmap Z Z) (p' : panel) :
  answers (w_api w) (Some newN) u a p' → close_err (tag (w_ctl w)) = None →
  nodeInfoMonitor compiles IsExist lego_create self_create w = Some (tt, w') →
  (∀ uid, billed uid (w_api w').2 = billed uid (w_api w).2) ∧
  ∀ v, pending (w_server w') (tag (w_ctl w)) v = (0, 0).
Proof.
  intros (p1 & p2 & H1 & H2 & H3) Hc H. set (t := tag (w_ctl w)).
  unfold nodeInfoMonitor, mbind, M_bind, on_api_panic in H. rewrite H1 in H.
  cbn [mbind option_bind w_api] in H. rewrite H2 in H. cbn [mbind option_bind w_api] in H.
  rewrite H3 in H. cbn [mbind option_bind w_ctl w_server w_lims] in H.
  assert ((w_api w).2 = p'.2) as El.
  { cbn in H1, H2, H3. apply bind_Some in H1 as ([? ?] & _ & [= _ <-]). apply bind_Some in H2 as ([? ?] & _ & [= _ <-]).
    by apply bind_Some in H3 as ([? ?] & _ & [= _ <-]). }
  set (users := default (userList (w_ctl w)) u).
  set (w1 := MkWorld (resetTraffic (setUsers users (setInfo newN (w_ctl w)))) (DelNode t (w_server w)).2 p' (w_lims w)).
  assert (reloaded server_err close_err compiles IsExist lego_create self_create newN a w1 = Some (tt, w')) as Hr.
  { rewrite <-H. subst w1 users t. unfold reload_node, reloaded. method. by destruct u; cbn; destruct (hy_DelNode _ _ _). }
  destruct (silent_reloaded server_err close_err compiles IsExist lego_create self_create t newN a w1 tt w' Hr)
    as [[Hq Hd] _].
  split; [intros uid; rewrite El; f_equal; exact Hq|]. intros v. apply dropped_pending, Hd.
  exact (DelNode_dropped t (w_server w) Hc).
Qed.
End property.

#[local] Existing Instance script_panel.
(** The small world, whose panel sends the node anew. *)
Definition reload_world : World Hysteria2 (Script * list (list UserTraffic * option string)) :=
  let w := running_world "" (Some small_node) None in
  MkWorld (w_ctl w) (w_server w) (w_api w, []) (w_lims w).

(** A user had moved 2 and 4 bytes. *)
Lemma reload_drops_unread_witness :
  pending (TrafficLaws := hy_laws) (w_server reload_world) "t" "a" = (2, 4) ∧
  ∃ w', nodeInfoMonitor (H := core_hy (λ _, None) (λ _, None)) (λ _, true) (λ _, true) (λ _, None) (λ _, None)
      reload_world = Some (tt, w') ∧
    billed 7 (w_api w').2 = (0, 0) ∧ pending (TrafficLaws := hy_laws) (w_server w') "t" "a" = (0, 0).
Proof.
  split; [by vm_compute|].
  destruct (nodeInfoMonitor (H := core_hy (λ _, None) (λ _, None)) (λ _, true) (λ _, true) (λ _, None) (λ _, None)
    reload_world) as [[[] w']|] eqn:E; [|by vm_compute in E].
  exists w'. split; [done|].
  destruct (reload_drops_unread (λ _, None) (λ _, None) (λ _, true) (λ _, true) (λ _, None) (λ _, None)
    reload_world w' small_node None ∅ (w_api reload_world)) as [Hb Hp].
  - exists (w_api reload_world), (w_api reload_world). split; [|split]; vm_compute; reflexivity.
  - reflexivity.
  - exact E.
  - split; [by rewrite Hb; vm_compute|apply (Hp "a")].
Defined.
