(* ===== verification/Connections.v ===== *)
(** The connections of the xray core in a fleet: what the dispatcher and the writers of its
    links do is what a fleet knows as the moves of its connections and the traffic of its users.

    Dispatch.v has the life of a connection and Rate.v the effects of its writes; here the
    effects are performed on the statistics of the core (stats.go), and the whole is a run of
    the system of Fleet.v, whose books therefore hold for real connections.  A counter is known
    by its name, and a fleet removes none. *)
From S2P Require Import Prelude GoStrings Netutil PanelTypes Conf OnlineRegistry ConnLimiter.
From S2P Require Import Limiter TrafficCounter CoreApi PanelUser PanelNode Report Controller Fleet.
From S2P Require Import Rate Slots Xray Dispatcher Dispatch.
#[local] Open Scope string_scope.
#[local] Open Scope Z_scope.

(** * The statistics *)

Section stats.
Context {S : Type} `{!XrayInstance S} `{!StatsLaws S}.

(** What an effect does to the core: [Counter.Add] on a counter, if it is still there. *)
Definition perform (s : S) (e : effect) : S :=
  match e with
  | Count name n => match counter_value s name with None => s | Some v => counter_set name (wrap64 (v + n)) s end
  | _ => s
  end.
Definition performs (es : list effect) (s : S) : S := foldl perform s es.

Lemma perform_value s e name : counter_value (perform s e) name =
  match e with
  | Count c n => if decide (c = name) then (λ v, wrap64 (v + n)) <$> counter_value s name else counter_value s name
  | _ => counter_value s name
  end.
Proof.
  destruct e as [|c n| | |]; try done. cbn [perform].
  destruct (counter_value s c) as [v|] eqn:E; [rewrite counter_set_value|];
    (destruct (decide (c = name)) as [<-|]; [by rewrite E|done]).
Qed.
(** A counter in range ends with what was counted added, modulo the width of the machine. *)
Lemma performs_value es s name v : counter_value s name = Some v → in_int64 v →
  counter_value (performs es s) name = Some (wrap64 (v + counted name es)).
Proof.
  revert s v. induction es as [|e es IH]; intros s v Hv Hr; cbn [performs foldl].
  - rewrite Hv. unfold counted, sumZ. cbn. by rewrite Z.add_0_r, wrap64_id.
  - fold (performs es (perform s e)).
    change (e :: es) with ([e] ++ es)%list. rewrite counted_app.
    pose proof (perform_value s e name) as He. rewrite Hv in He.
    destruct e as [b n|c n|q n|q|q]; try (rewrite (IH _ v) by done; by unfold counted, sumZ; cbn; rewrite Z.add_0_l).
    assert (counted name [Count c n] = if decide (c = name) then n else 0) as ->
      by (unfold counted, sumZ; cbn; lia).
    destruct (decide (c = name)); cbn [fmap option_fmap option_map] in He.
    + rewrite (IH _ _ He) by apply wrap64_range. by rewrite wrap64_add_l, Z.add_assoc.
    + rewrite (IH _ v) by done. by rewrite Z.add_0_l.
Qed.
Lemma performs_other es s name : (∀ n, Count name n ∉ es) → counter_value (performs es s) name = counter_value s name.
Proof.
  revert s. induction es as [|e es IH]; intros s Hne; [done|]. cbn [performs foldl].
  fold (performs es (perform s e)). rewrite IH by set_solver. rewrite perform_value.
  destruct e as [|c n| | |]; try done. rewrite decide_False; [done|]. intros ->. apply (Hne n). set_solver.
Qed.
End stats.

(** * The limiters are kept *)

(** The deferred release of a connection whose limiter is sound. *)
Lemma release_total taguuid ip tcp now l : cl_inv (lm_ConnLimiter l) → is_Some (release taguuid ip tcp now l).
Proof.
  intros Hc. unfold release. destruct tcp; [|by eexists].
  destruct (cl_inv_DelConnCount (lm_ConnLimiter l) taguuid ip Hc) as (c & E & _). cbn. rewrite E. by eexists.
Qed.

(** * What the writes of a connection count *)

Definition transfers (inL outL : Link) (moves : list (bool * Z)) : list effect :=
  concat (map (λ m : bool * Z, WriteMultiBuffer (lk_Writer (if m.1 then inL else outL)) m.2) moves).
Definition total (name : string) (inL outL : Link) (moves : list (bool * Z)) : Z :=
  layers_c name (lk_Writer inL) * sent true moves + layers_c name (lk_Writer outL) * sent false moves.

Lemma counted_transfers name inL outL moves : counted name (transfers inL outL moves) = total name inL outL moves.
Proof.
  unfold total, transfers, sent. induction moves as [|[up n] moves IH].
  - unfold counted, sumZ. cbn. lia.
  - cbn [map concat fst snd]. rewrite counted_app, IH, counted_write, !sumZ_cons. destruct up; cbn; lia.
Qed.
Lemma count_layers name n w m : Count name n ∈ WriteMultiBuffer w m → 0 < layers_c name w.
Proof.
  assert (∀ w, 0 ≤ layers_c name w) as Hpos.
  { clear. induction w; cbn; [done|done|]. case_decide; lia. }
  induction w as [p|w IH b|w IH c]; cbn [WriteMultiBuffer layers_c].
  - intros [?|[]%elem_of_nil]%elem_of_cons. done.
  - intros [?|?]%elem_of_cons; [done|auto].
  - pose proof (Hpos w). intros [E|Hin]%elem_of_cons.
    + injection E as -> ->. rewrite decide_True by done. lia.
    + specialize (IH Hin). case_decide; lia.
Qed.
Lemma transfers_uncounted name inL outL moves n :
  layers_c name (lk_Writer inL) = 0 → layers_c name (lk_Writer outL) = 0 →
  Count name n ∉ transfers inL outL moves.
Proof.
  intros Hi Ho Hin. unfold transfers in Hin. apply list_elem_of_In, in_concat in Hin as (es & Hes & Hin).
  apply in_map_iff in Hes as ([up m] & <- & _). apply list_elem_of_In, count_layers in Hin.
  cbn in Hin. destruct up; lia.
Qed.

(** * A connection in a fleet *)

Section connections.
Context {S P : Type} `{!XrayInstance S} `{!StatsLaws S} `{!PanelApi P}.
(** What the controllers do to nodes and users plays no part. *)
Context (add_node : string → NodeInfo → Options → S → option string * Options * S)
  (del_node : string → S → option string * S)
  (add_users : string → list UserInfo → NodeInfo → S → result Z * S)
  (del_users : list UserInfo → string → NodeInfo → S → option string * S).
Definition xray_core : Core S := {|
  core_traffic := xray_traffic; AddNode := add_node; DelNode := del_node;
  AddUsers := add_users; DelUsers := del_users
|}.
#[local] Existing Instance xray_core.

(** Both directions are counted, by the two counters of the user. *)
Definition user_links (tag uuid : string) (w : option Bucket) : Link * Link :=
  (MkLink 1 (SizeStatWriter (with_rate w (PipeWriter 0)) (up_name (UserTag tag uuid))),
   MkLink 0 (SizeStatWriter (with_rate w (PipeWriter 1)) (down_name (UserTag tag uuid)))).
Lemma link_layers w tag uuid name :
  layers_c name (lk_Writer (user_links tag uuid w).1) = (if decide (up_name (UserTag tag uuid) = name) then 1 else 0) ∧
  layers_c name (lk_Writer (user_links tag uuid w).2) = (if decide (down_name (UserTag tag uuid) = name) then 1 else 0).
Proof. by destruct w; cbn; repeat case_decide. Qed.
Lemma transfers_counted tag uuid w moves (s : S) :
  let user := UserTag tag uuid in
  let inL := (user_links tag uuid w).1 in let outL := (user_links tag uuid w).2 in
  is_Some (counter_value s (up_name user)) → is_Some (counter_value s (down_name user)) →
  Forall (λ m : bool * Z, 0 ≤ m.2) moves →
  fits s tag uuid (sent true moves) (sent false moves) →
  counted_in tag uuid (sent true moves) (sent false moves) s (performs (transfers inL outL moves) s).
Proof.
  cbv zeta. intros [u Eu] [d Ed] Hm. unfold fits. cbn [pending xray_laws]. unfold xray_pending. rewrite Eu, Ed.
  cbn [fst snd default from_option id]. intros (Hu & Hmu & Hd & Hmd). set (es := transfers _ _ _).
  pose proof (sent_nonneg true moves Hm) as Hs1. pose proof (sent_nonneg false moves Hm) as Hs2.
  assert (∀ z, 0 ≤ z → z ≤ int64_max → in_int64 z) as Hr by (unfold in_int64, int64_min; lia).
  assert (∀ name, counted name es = (if decide (up_name (UserTag tag uuid) = name) then sent true moves else 0) +
    (if decide (down_name (UserTag tag uuid) = name) then sent false moves else 0)) as Hc.
  { intros name. unfold es. rewrite counted_transfers. unfold total.
    pose proof (link_layers w tag uuid name) as [-> ->]. repeat case_decide; lia. }
  assert (up_name (UserTag tag uuid) ≠ down_name (UserTag tag uuid)) as Hne by apply up_down_name.
  split; [done|]. split.
  - cbn [pending xray_laws]. unfold xray_pending. rewrite Eu, Ed.
    rewrite (performs_value es s _ u Eu), (performs_value es s _ d Ed) by (apply Hr; lia). cbn [default from_option id fst snd].
    rewrite !Hc, (decide_True (P := up_name _ = up_name _)), (decide_True (P := down_name _ = down_name _)) by done.
    rewrite (decide_False (P := down_name _ = up_name _)), (decide_False (P := up_name _ = down_name _)) by congruence.
    rewrite Z.add_0_r, Z.add_0_l, !wrap64_id by (apply Hr; lia). done.
  - intros tag' v Hk. cbn [pending xray_laws]. unfold xray_pending.
    assert (∀ name, up_name (UserTag tag uuid) ≠ name → down_name (UserTag tag uuid) ≠ name →
      counter_value (performs es s) name = counter_value s name) as Ho.
    { intros name N1 N2. apply performs_other. intros n. apply transfers_uncounted;
        pose proof (link_layers w tag uuid name) as [E1 E2]; rewrite ?E1, ?E2, decide_False by done; done. }
    rewrite !Ho; [done|..]; intros E;
      first [by apply up_down_name in E|by symmetry in E; apply up_down_name in E|by simplify_eq].
Qed.

Context (ForLevel : Z → bool * bool) (has_counter : string → bool) (IsValid : Destination → bool).
Context (in_pool : option (address → bool)) (ParseAddress : string → address).
Context (matches : string → string → bool).
Context (NewSniffers : Context → list protocolSnifferWithMetadata) (cap : Z → Z).
Context (PickRoute : Context → route) (InboundTag : Context → string).
Context (has_handler : string → bool) (default_handler : option string).
#[local] Abbreviation fleet := (fleet (S := S) (P := P)).
#[local] Abbreviation route_connection :=
  (route_connection in_pool ParseAddress matches NewSniffers cap PickRoute InboundTag has_handler default_handler).
Lemma Dispatch_links tag uuid ip st ctx destination now lims q l w l0 :
  GetLimiter tag lims = Ok q → objs lims !! q = Some l →
  CheckLimit (UserTag tag uuid) ip (de_TCP destination) st now l = Some (w, false, l0) →
  IsValid destination = true → cx_Inbound ctx = Some (user_session tag uuid ip st) →
  ForLevel 0 = (true, true) →
  has_counter (up_name (UserTag tag uuid)) = true → has_counter (down_name (UserTag tag uuid)) = true →
  Dispatch ForLevel has_counter IsValid ctx destination now lims =
    Some (Entered (user_links tag uuid w) (Some q) (targeted destination ctx),
          MkLimiters (reg lims) (<[q := l0]> (objs lims))).
Proof.
  intros Hq Hl E Hv Hi Hlev Hu Hd. unfold Dispatch. rewrite Hv. cbn [negb]. unfold getLink.
  change (cx_Inbound (targeted destination ctx)) with (cx_Inbound ctx). rewrite Hi.
  rewrite (ask_limiter_user _ _ _ _ _ _ _ _ _ _ _ _ Hq Hl E). cbn [mbind option_bind mu_Level mu_Email].
  rewrite Hlev. unfold with_stat. by rewrite Hu, Hd.
Qed.
(** Routing a connection of a user and releasing it, in whatever the limiters are then. *)
Lemma route_kept tag uuid ip st ctx destination reader wr q attempts t lims l :
  cx_Inbound ctx = Some (user_session tag uuid ip st) → objs lims !! q = Some l →
  ob_Target (last_outbound ctx) = Some destination →
  ∃ sg r lims2, route_connection ctx destination reader wr (Some q) attempts t lims = Some (sg, r, lims2) ∧
    lims_kept lims lims2 ∧ rt_held r = Some (q, MkMemoryUser (UserTag tag uuid) 0) ∧
    cx_Inbound (sg_ctx sg) = Some (user_session tag uuid ip st).
Proof.
  intros Hi Hl Ht. unfold Dispatch.route_connection.
  destruct (sniff_link_spec in_pool ParseAddress NewSniffers cap ctx destination attempts Ht) as (sg & -> & Hsg & _).
  cbn [mbind option_bind]. rewrite Hi in Hsg.
  destruct (routedDispatch_spec matches PickRoute InboundTag has_handler default_handler (sg_ctx sg)
    (sg_destination sg) reader wr q (sg_protocol sg) t lims l _ _ Hsg eq_refl Hl) as (r & l' & -> & _ & Hh & _).
  eexists sg, r, _. split; [done|]. split; [apply lims_kept_insert|done].
Qed.
Lemma done_kept tag uuid ip st ctx destination r q t lims l :
  cx_Inbound ctx = Some (user_session tag uuid ip st) → rt_held r = Some (q, MkMemoryUser (UserTag tag uuid) 0) →
  objs lims !! q = Some l → cl_inv (lm_ConnLimiter l) →
  ∃ lims3, routed_done ctx destination r t lims = Some lims3 ∧ lims_kept lims lims3.
Proof.
  intros Hi Hh Hl Hc. unfold routed_done, routed_end. rewrite Hi, Hh, Hl.
  destruct (release_total (mu_Email (MkMemoryUser (UserTag tag uuid) 0)) (userIP (user_session tag uuid ip st))
    (de_TCP destination) t l Hc) as [l' ->].
  eexists. split; [done|]. apply lims_kept_insert.
Qed.

(** (C7) A connection of the xray core in a fleet.  When the limiter of a node accepts the
    connection of one of its users, what follows are steps of the fleet, and whatever else
    happens in between: taking the connection in, routing it and releasing it only move
    the limiters, and nothing of this panics; and every sequence of writes to its links is a
    transfer of that user, of exactly the bytes that were sent and received, as long as the
    counters its links were given are those of the core and do not overflow. *)
Theorem connection_is_fleet_steps (f : fleet) (i : nat) (c : Controller)
    (p : P * list (list UserTraffic * option string)) (u : UserInfo) (ip : string) (st : bool)
    (ctx : Context) (destination : Destination) (now : Z) (q : nat) (l : Limiter) (w : option Bucket) (l0 : Limiter) :
  fl_ctls f !! i = Some (c, p) → u ∈ userList c →
  GetLimiter (tag c) (fl_lims f) = Ok q → objs (fl_lims f) !! q = Some l →
  CheckLimit (UserTag (tag c) (ui_Uuid u)) ip (de_TCP destination) st now l = Some (w, false, l0) →
  IsValid destination = true → cx_Inbound ctx = Some (user_session (tag c) (ui_Uuid u) ip st) →
  ForLevel 0 = (true, true) → (∀ name, has_counter name = true) →
  ∃ inL outL ctx1 lims1,
    Dispatch ForLevel has_counter IsValid ctx destination now (fl_lims f) =
      Some (Entered (inL, outL) (Some q) ctx1, lims1) ∧
    fleet_step f Quiet (set_lims lims1 f) ∧
    (∀ (f1 : fleet) l1 attempts t, objs (fl_lims f1) !! q = Some l1 →
      ∃ sg r lims2, route_connection ctx1 destination (lk_Reader outL) (lk_Writer outL) (Some q) attempts t
          (fl_lims f1) = Some (sg, r, lims2) ∧
        fleet_step f1 Quiet (set_lims lims2 f1) ∧
        ∀ (f2 : fleet) l2 t', objs (fl_lims f2) !! q = Some l2 → cl_inv (lm_ConnLimiter l2) →
          ∃ lims3, routed_done (sg_ctx sg) (sg_destination sg) r t' (fl_lims f2) = Some lims3 ∧
            fleet_step f2 Quiet (set_lims lims3 f2)) ∧
    (∀ (f1 : fleet) c1 p1 moves, fl_ctls f1 !! i = Some (c1, p1) → tag c1 = tag c → u ∈ userList c1 →
      is_Some (counter_value (fl_core f1) (up_name (UserTag (tag c) (ui_Uuid u)))) →
      is_Some (counter_value (fl_core f1) (down_name (UserTag (tag c) (ui_Uuid u)))) →
      Forall (λ m : bool * Z, 0 ≤ m.2) moves →
      fits (fl_core f1) (tag c) (ui_Uuid u) (sent true moves) (sent false moves) →
      fleet_step f1 (Transfer i (ui_Uuid u) (sent true moves) (sent false moves))
        (set_core (performs (transfers inL outL moves) (fl_core f1)) f1)).
Proof.
  intros Hi Hu Hq Hl E Hv Hs Hlev Hc.
  pose proof (Dispatch_links _ _ _ _ _ _ _ _ _ _ _ _ Hq Hl E Hv Hs Hlev (Hc _) (Hc _)) as Hd.
  exists (user_links (tag c) (ui_Uuid u) w).1, (user_links (tag c) (ui_Uuid u) w).2,
    (targeted destination ctx), (MkLimiters (reg (fl_lims f)) (<[q := l0]> (objs (fl_lims f)))).
  split; [exact Hd|]. split; [apply step_connections, lims_kept_insert|]. split.
  - intros f1 l1 attempts t Hl1.
    destruct (route_kept (tag c) (ui_Uuid u) ip st (targeted destination ctx) destination
      (lk_Reader (user_links (tag c) (ui_Uuid u) w).2) (lk_Writer (user_links (tag c) (ui_Uuid u) w).2) q attempts t
      (fl_lims f1) l1 Hs Hl1) as (sg & r & lims2 & Hr & Hk & Hh & Hin); [by rewrite targeted_outbound|].
    exists sg, r, lims2. split; [exact Hr|]. split; [by apply step_connections|].
    intros f2 l2 t' Hl2 Hinv.
    destruct (done_kept (tag c) (ui_Uuid u) ip st (sg_ctx sg) (sg_destination sg) r q t' (fl_lims f2) l2 Hin Hh Hl2 Hinv)
      as (lims3 & Hdone & Hk3).
    exists lims3. split; [exact Hdone|by apply step_connections].
  - intros f1 c1 p1 moves Hi1 Ht Hu1 Hup Hdown Hm Hfit.
    pose proof (transfers_counted (tag c) (ui_Uuid u) w moves (fl_core f1) Hup Hdown Hm Hfit) as Hcount.
    rewrite <-Ht in *. by eapply step_moves.
Qed.
End connections.

#[local] Existing Instances toy_instance toy_stats script_panel.
Definition one_node : fleet (S := toy) (P := Script) :=
  MkFleet (MkToy ∅ ∅ {[up_name "n|a" := 5; down_name "n|a" := 0]}) slot_lims
    [(setUsers [MkUserInfo 1 "a" 0 0] (setLimiter 0%nat (setTag "n" (NewController (small_options None)))),
      (MkScript "" (Ok None) (Ok None) None, []))].
Definition toy_core : Core toy :=
  xray_core (λ _ _ o s, (None, o, s)) (λ _ s, (None, s)) (λ _ _ _ s, (Ok 0, s)) (λ _ _ _ s, (None, s)).
#[local] Existing Instance toy_core.

(** A client of that node sends 100 bytes and receives 300. *)
Lemma connection_is_fleet_steps_witness :
  ∃ lims1 s, fleet_step one_node Quiet (set_lims lims1 one_node) ∧
    fleet_step one_node (Transfer 0 "a" 100 300) (set_core s one_node) ∧
    pending s "n" "a" = (105, 300).
Proof.
  destruct slot_limiter_accepts as [l0 E].
  destruct (connection_is_fleet_steps (λ _ _ o s, (None, o, s)) (λ _ s, (None, s)) (λ _ _ _ s, (Ok 0, s))
    (λ _ _ _ s, (None, s)) (λ _, (true, true)) (λ _, true) (λ _, true) None DomainAddress
    (λ rule d, bool_decide (rule = d)) http_sniffers (λ n, n) (λ _, NoRouter) (λ _, "n") (λ _, true) None
    one_node 0 _ _ (MkUserInfo 1 "a" 0 0) "1.1.1.1" true web_request web_target 0 0 slot_limiter (Some slot_bucket) l0
    eq_refl (proj2 (list_elem_of_singleton _ _) eq_refl) slot_registered slot_object E eq_refl eq_refl eq_refl
    (λ _, eq_refl)) as (inL & outL & ctx1 & lims1 & Hd & Hq & _ & Hw).
  assert (inL = (user_links "n" "a" (Some slot_bucket)).1 ∧ outL = (user_links "n" "a" (Some slot_bucket)).2)
    as [-> ->].
  { pose proof (Dispatch_links (λ _, (true, true)) (λ _, true) (λ _, true) "n" "a" "1.1.1.1" true web_request
      web_target 0 slot_lims 0 slot_limiter (Some slot_bucket) l0 slot_registered slot_object E eq_refl eq_refl
      eq_refl eq_refl eq_refl) as Hd'.
    change (fl_lims one_node) with slot_lims in Hd. rewrite Hd' in Hd. by injection Hd as <- <- _ _. }
  eexists lims1, _. split; [exact Hq|]. split.
  - apply (Hw one_node _ _ [(true, 40); (false, 300); (true, 60)] eq_refl eq_refl
      (proj2 (list_elem_of_singleton _ _) eq_refl)).
    + eexists. vm_compute. reflexivity.
    + eexists. vm_compute. reflexivity.
    + repeat (apply Forall_cons_2; [by vm_compute|]). apply Forall_nil_2.
    + by vm_compute.
  - by vm_compute.
Defined.
