(* ===== verification/Transfers.v ===== *)
(** The connections of the sing and hysteria2 cores in a fleet, as Connections.v has those of
    xray: what the hook of sing-box and its counted connections do (core/sing/hook.go,
    common/counter/conn.go), and the traffic log of hysteria2 (core/hy2/hook.go), are steps of
    the system of Fleet.v. *)
From S2P Require Import Prelude GoStrings Netutil PanelTypes Conf OnlineRegistry ConnLimiter.
From S2P Require Import Limiter TrafficCounter CoreApi PanelUser PanelNode Report Controller Fleet.
From S2P Require Import Slots Sing Hy2.
#[local] Open Scope string_scope.
#[local] Open Scope Z_scope.

(** * Counted connections *)

(** The moves of a counted connection with the storage [k], of TCP or of packets. *)
Definition move (tcp : bool) (k : nat) (m : bool * Z) : TrafficCounter → TrafficCounter :=
  match tcp, m.1 with
  | true, true => ConnCounter_Read k m.2
  | true, false => ConnCounter_Write k m.2
  | false, true => PacketConnCounter_ReadPacket k m.2 false
  | false, false => PacketConnCounter_WritePacket k m.2 false
  end.
Definition moved (tcp : bool) (k : nat) (moves : list (bool * Z)) (c : TrafficCounter) : TrafficCounter :=
  foldl (λ c m, move tcp k m c) c moves.

Lemma moved_cons tcp k m moves c : moved tcp k (m :: moves) c = moved tcp k moves (move tcp k m c).
Proof. done. Qed.
Lemma sent_cons up b n moves : sent up ((b, n) :: moves) = (if Bool.eqb b up then n else 0) + sent up moves.
Proof. unfold sent. cbn [map]. by rewrite sumZ_cons. Qed.

Lemma move_spec tcp k id c up n :
  tc_wf c → tc_counters c !! id = Some k → 0 ≤ n →
  in_int64 (usage c id).1 → in_int64 (usage c id).2 →
  in_int64 ((if up : bool then (usage c id).1 else (usage c id).2) + n) →
  let c' := move tcp k (up, n) c in
  tc_wf c' ∧ tc_counters c' = tc_counters c ∧ (∀ v, v ≠ id → usage c' v = usage c v) ∧
  usage c' id = if up then ((usage c id).1 + n, (usage c id).2) else ((usage c id).1, (usage c id).2 + n).
Proof.
  intros Hc Hk Hn H1 H2 H3. cbv zeta.
  assert (∀ f, tc_wf (tc_update f k c) ∧ tc_counters (tc_update f k c) = tc_counters c ∧
    (∀ v, v ≠ id → usage (tc_update f k c) v = usage c v)) as Hf.
  { intros f. split; [by apply tc_wf_update|]. split; [done|]. intros v Hv.
    rewrite (usage_update f id k) by done. by rewrite decide_False. }
  assert (usage (tc_update (if up then add_up n else add_down n) k c) id =
    if up then ((usage c id).1 + n, (usage c id).2) else ((usage c id).1, (usage c id).2 + n)) as Hup.
  { rewrite (usage_update _ id k), decide_True by done. by destruct up; cbn; rewrite wrap64_id. }
  assert (∀ p : Z * Z, (p.1 + 0, p.2) = p ∧ (p.1, p.2 + 0) = p) as H0.
  { intros [a b]. cbn. by rewrite !Z.add_0_r. }
  pose proof (H0 (usage c id)) as [E1 E2]. clear H0.
  assert (move tcp k (up, n) c = tc_update (if up then add_up n else add_down n) k c ∨
    n = 0 ∧ move tcp k (up, n) c = c) as [-> |[-> ->]].
  { destruct tcp, up; cbn [move fst snd]; unfold ConnCounter_Read, ConnCounter_Write, PacketConnCounter_ReadPacket,
      PacketConnCounter_WritePacket; try case_bool_decide; auto; right; (split; [lia|done]). }
  - split_and!; [apply Hf|apply Hf|apply Hf|exact Hup].
  - split_and!; [done..|]. by destruct up; rewrite ?E1, ?E2.
Qed.

Lemma moved_spec tcp k id moves c :
  tc_wf c → tc_counters c !! id = Some k → Forall (λ m : bool * Z, 0 ≤ m.2) moves →
  0 ≤ (usage c id).1 → (usage c id).1 + sent true moves ≤ int64_max →
  0 ≤ (usage c id).2 → (usage c id).2 + sent false moves ≤ int64_max →
  let c' := moved tcp k moves c in
  tc_wf c' ∧ usage c' id = ((usage c id).1 + sent true moves, (usage c id).2 + sent false moves) ∧
  ∀ v, v ≠ id → usage c' v = usage c v.
Proof.
  revert c. induction moves as [|[up n] moves IH]; intros c Hc Hk Hm H1 H1' H2 H2'; cbv zeta.
  { split; [done|]. split; [|done]. unfold sent, sumZ. cbn. destruct (usage c id). by rewrite !Z.add_0_r. }
  apply Forall_cons in Hm as [Hn Hm]. cbn [snd] in Hn. rewrite moved_cons, !sent_cons in *.
  pose proof (sent_nonneg true moves Hm). pose proof (sent_nonneg false moves Hm).
  unfold int64_max in *.
  destruct (move_spec tcp k id c up n) as (Hc' & Ek & Ho & E); [done..| | | |];
    try (destruct up; cbn [Bool.eqb] in *; unfold in_int64, int64_min, int64_max; lia).
  pose proof (IH (move tcp k (up, n) c) Hc' ltac:(by rewrite Ek) Hm) as IH'. rewrite E in IH'.
  destruct up; cbn [Bool.eqb fst snd] in *.
  all: destruct IH' as (W & U & O); [lia..|]; split; [exact W|]; split; [rewrite U; f_equal; lia|].
  all: intros v Hv; by rewrite O, Ho.
Qed.

(** * The sing core *)

Section sing.
Context {P : Type} `{!PanelApi P} (matches : string → string → bool).
(** What the controllers do to nodes and users plays no part. *)
#[local] Abbreviation S := Sing.HookServer.
Context (add_node : string → NodeInfo → Options → S → option string * Options * S)
  (del_node : string → S → option string * S)
  (add_users : string → list UserInfo → NodeInfo → S → result Z * S)
  (del_users : list UserInfo → string → NodeInfo → S → option string * S).
Definition sing_core : Core S := {|
  core_traffic := sing_traffic; AddNode := add_node; DelNode := del_node;
  AddUsers := add_users; DelUsers := del_users
|}.
#[local] Existing Instance sing_core.
#[local] Abbreviation fleet := (fleet (S := S) (P := P)).

(** Making the counter of a user changes the usage of nobody. *)
Lemma hook_counter_spec tag user (h : S) : core_ok h →
  counted_in tag user 0 0 h (hook_counter tag user h).2 ∧
  ∃ c, sh_counter (hook_counter tag user h).2 !! tag = Some c ∧
    tc_counters c !! user = Some (hook_counter tag user h).1.
Proof.
  intros Hok. unfold hook_counter. set (t := default NewTrafficCounter (sh_counter h !! tag)).
  assert (tc_wf t) as Ht.
  { unfold t. destruct (sh_counter h !! tag) as [c|] eqn:E; [by apply (Hok tag)|apply tc_wf_new]. }
  assert (∀ v, usage (GetCounter user t).2 v = cc_usage sing_look h tag v) as Hu.
  { intros v. rewrite usage_GetCounter by done. unfold t, cc_usage, sing_look. by destruct (sh_counter h !! tag). }
  pose proof (tc_wf_GetCounter user t Ht) as Hw. pose proof (GetCounter_counters user t) as Hc.
  destruct (GetCounter user t) as [k t1]. cbn [fst snd] in *. split.
  - apply (counter_grown sing_look sing_upd sing_look_upd sing_get_eq sing_restore_eq tag user 0 0 t1); [done| | |done| |].
    + unfold sing_look. apply lookup_insert_eq.
    + intros t' Hne. unfold sing_look. by apply lookup_insert_ne.
    + rewrite Hu. destruct (cc_usage _ _ _ _). cbn. by rewrite !Z.add_0_r.
    + intros v _. apply Hu.
  - exists t1. split; [apply lookup_insert_eq|done].
Qed.
Lemma routed_tracked tcp count tag user ip dest protocol now (h h1 : S) lims lims1 q l b k :
  GetLimiter tag lims = Ok q → objs lims !! q = Some l →
  routed_with matches tcp count tag user ip dest protocol now h lims = Some (Tracked b k, h1, lims1) →
  hook_counter tag user h = (k, h1) ∧ ∃ l1, lims1 = MkLimiters (reg lims) (<[q := l1]> (objs lims)).
Proof.
  intros Hq Hl. unfold routed_with. rewrite Hq, Hl. unfold hook_limited.
  destruct (CheckLimit _ _ _ _ _ l) as [[[b0 r] l0]|]; [|done]. cbn [mbind option_bind].
  destruct r; [done|]. destruct (hook_rules _ _ _ _); [done|].
  destruct (hook_counter tag user h) as [k0 h0]. intros [= _ <- <- <-]. split; [done|]. by eexists.
Qed.

(** (C8) A connection of the sing core in a fleet.  When the hook tracks a TCP connection or a
    session of packets of a user, what follows are steps of the fleet, whatever else happens in
    between: making its counter moves no traffic; whatever is read and written through
    it is a transfer of that user of exactly these bytes, as long as the storage it was given
    is that of the user and does not overflow; and closing it, once or more often, moves only
    the limiters and does not panic. *)
Theorem sing_connection_is_fleet_steps (f : fleet) (i : nat) (c : Controller)
    (p : P * list (list UserTraffic * option string)) (u : UserInfo) (tcp : bool) (ip dest protocol : string)
    (now : Z) (q : nat) (l : Limiter) (b : option Bucket) (k : nat) (h1 : S) (lims1 : Limiters) :
  fl_ctls f !! i = Some (c, p) → u ∈ userList c → core_ok (fl_core f) →
  GetLimiter (tag c) (fl_lims f) = Ok q → objs (fl_lims f) !! q = Some l →
  fits (fl_core f) (tag c) (ui_Uuid u) 0 0 →
  routed_with matches tcp tcp (tag c) (ui_Uuid u) ip dest protocol now (fl_core f) (fl_lims f) =
    Some (Tracked b k, h1, lims1) →
  (∃ t, sh_counter h1 !! tag c = Some t ∧ tc_counters t !! ui_Uuid u = Some k) ∧
  fleet_run f [Quiet; Transfer i (ui_Uuid u) 0 0] (set_core h1 (set_lims lims1 f)) ∧
  (∀ (f1 : fleet) c1 p1 t moves, fl_ctls f1 !! i = Some (c1, p1) → tag c1 = tag c → u ∈ userList c1 →
    core_ok (fl_core f1) → sh_counter (fl_core f1) !! tag c = Some t → tc_counters t !! ui_Uuid u = Some k →
    Forall (λ m : bool * Z, 0 ≤ m.2) moves →
    fits (fl_core f1) (tag c) (ui_Uuid u) (sent true moves) (sent false moves) →
    fleet_step f1 (Transfer i (ui_Uuid u) (sent true moves) (sent false moves))
      (set_core (sing_upd (tag c) (moved tcp k moves t) (fl_core f1)) f1)) ∧
  (∀ (f1 : fleet) l1 now' once, objs (fl_lims f1) !! q = Some l1 → cl_inv (lm_ConnLimiter l1) →
    ∃ l2, (if tcp then trackedConn_Close once (UserTag (tag c) (ui_Uuid u)) ip now' l1
           else Some (trackedPacketConn_Close once (UserTag (tag c) (ui_Uuid u)) ip now' l1)) = Some (true, l2) ∧
      fleet_step f1 Quiet (set_lims (MkLimiters (reg (fl_lims f1)) (<[q := l2]> (objs (fl_lims f1)))) f1)).
Proof.
  intros Hi Hu Hok Hq Hl Hfit Hr. destruct (routed_tracked _ _ _ _ _ _ _ _ _ _ _ _ _ _ _ _ Hq Hl Hr) as [Hk [l0 El]].
  assert (lims_kept (fl_lims f) lims1) as Hkept by (rewrite El; apply lims_kept_insert). clear El Hr.
  destruct (hook_counter_spec (tag c) (ui_Uuid u) (fl_core f) Hok) as [Hc Ht]. rewrite Hk in Hc, Ht.
  cbn [fst snd] in Hc, Ht. split; [exact Ht|]. split; [|split].
  - apply (run_snoc f [Quiet] (set_lims lims1 f)).
    + apply (run_snoc f [] f); [constructor|]. by apply step_connections.
    + exact (step_moves (set_lims lims1 f) i c p u [] h1 Hi Hu (Forall_nil_2 _) Hfit Hc).
  - intros f1 c1 p1 t moves Hi1 Htag Hu1 Hok1 Hsh Hst Hm Hf1. rewrite <-Htag in *.
    eapply step_moves; [done..|].
    assert (∀ v, usage t v = cc_usage sing_look (fl_core f1) (tag c1) v) as Hus.
    { intros v. unfold cc_usage, sing_look. by rewrite Hsh. }
    pose proof Hf1 as (F1 & F2 & F3 & F4). cbn [pending sing_laws counter_laws] in F1, F2, F3, F4.
    rewrite <-Hus in F1, F2, F3, F4.
    destruct (moved_spec tcp k (ui_Uuid u) moves t (Hok1 _ _ Hsh) Hst Hm F1 F2 F3 F4) as (W & U & O).
    by apply (counter_counted sing_look sing_upd sing_look_upd sing_get_eq sing_restore_eq _ _ _ _ t).
  - intros f1 l1 now' once Hl1 Hinv.
    assert (∃ l2, (if tcp then trackedConn_Close once (UserTag (tag c) (ui_Uuid u)) ip now' l1
           else Some (trackedPacketConn_Close once (UserTag (tag c) (ui_Uuid u)) ip now' l1)) = Some (true, l2)) as [l2 E].
    { unfold trackedConn_Close, trackedPacketConn_Close, onClose. destruct tcp, once; try by eexists.
      destruct (cl_inv_DelConnCount (lm_ConnLimiter l1) (UserTag (tag c) (ui_Uuid u)) ip Hinv) as (cl & Ed & _).
      cbn. rewrite Ed. by eexists. }
    exists l2. split; [exact E|]. apply step_connections, lims_kept_insert.
Qed.
End sing.

(** * The hysteria2 core *)

Section hysteria2.
Context {P : Type} `{!PanelApi P} (server_err close_err : string → option string).
#[local] Instance transfers_hy : Core Hysteria2 := hy_core server_err close_err.
#[local] Existing Instance hy_laws.
#[local] Abbreviation fleet := (fleet (S := Hysteria2) (P := P)).

(** (C9) The traffic log of the hysteria2 core in a fleet.  What the log of a node is told about
    a user of that node is a transfer of that user when the log lets it through, even when it
    is the first of the node; when it refuses, which ends the connection, nothing is
    counted and only the limiter has changed. *)
Theorem hy2_traffic_is_fleet_steps (f : fleet) (i : nat) (c : Controller)
    (p : P * list (list UserTraffic * option string)) (u : UserInfo) (n n' : Hy2.HookServer) (tx rx : Z)
    (ok : bool) (lims' : Limiters) :
  fl_ctls f !! i = Some (c, p) → u ∈ userList c → core_ok (fl_core f) →
  Hy2nodes (fl_core f) !! tag c = Some n → hs_Tag n = tag c → 0 ≤ tx → 0 ≤ rx →
  fits (fl_core f) (tag c) (ui_Uuid u) tx rx →
  LogTraffic n (ui_Uuid u) tx rx (fl_lims f) = (ok, n', lims') →
  if ok
  then fleet_run f [Quiet; Transfer i (ui_Uuid u) tx rx] (set_core (set_node (tag c) n' (fl_core f)) (set_lims lims' f))
  else n' = n ∧ fleet_step f Quiet (set_lims lims' f).
Proof.
  intros Hi Hu Hok Hn Ht Htx Hrx Hfit E.
  assert (lims_kept (fl_lims f) lims' ∧ (ok = false → n' = n)) as [Hk Hn'].
  { unfold LogTraffic in E. destruct (GetLimiter _ _) as [q|]; [|by injection E as <- <- <-].
    destruct (objs (fl_lims f) !! q) as [l|]; [|by injection E as <- <- <-].
    destruct (ConsumeOverLimit _ l) as [[] l1]; injection E as <- <- <-; split; try done; apply lims_kept_insert. }
  destruct ok; [|split; [auto|by apply step_connections]].
  destruct Hfit as (F1 & F2 & F3 & F4).
  apply (run_snoc f [Quiet] (set_lims lims' f)).
  - apply (run_snoc f [] f); [constructor|]. by apply step_connections.
  - eapply (step_transfer (set_lims lims' f) i c p u tx rx); [done..|].
    by apply (LogTraffic_counted (tag c) (ui_Uuid u) tx rx (fl_core f) n (fl_lims f) n' lims').
Qed.
End hysteria2.

#[local] Existing Instance script_panel.
Definition hook_lims : Limiters :=
  MkLimiters {["n" := 0%nat]}
    {[0%nat := newLimiter "n" (MkLimitConfig true 8 0 2 0 false None false None) [MkUserInfo 1 "a" 0 0] ∅]}.
Definition hook_fleet : fleet (S := Sing.HookServer) (P := Script) :=
  MkFleet NewHookServer hook_lims
    [(setUsers [MkUserInfo 1 "a" 0 0] (setLimiter 0%nat (setTag "n" (NewController (small_options None)))),
      (MkScript "" (Ok None) (Ok None) None, []))].
Definition hook_core : Core Sing.HookServer :=
  sing_core (λ _ _ o s, (None, o, s)) (λ _ s, (None, s)) (λ _ _ _ s, (Ok 0, s)) (λ _ _ _ s, (None, s)).

(** The first connection of a node: the user sends 40 bytes and receives 300. *)
Lemma sing_connection_is_fleet_steps_witness :
  ∃ h1 lims1 s,
    fleet_run (Core0 := hook_core) hook_fleet [Quiet; Transfer 0 "a" 0 0] (set_core h1 (set_lims lims1 hook_fleet)) ∧
    fleet_step (Core0 := hook_core) (set_core h1 (set_lims lims1 hook_fleet)) (Transfer 0 "a" 40 300)
      (set_core s (set_core h1 (set_lims lims1 hook_fleet))) ∧
    pending s "n" "a" = (40, 300).
Proof.
  destruct (routed_with (λ _ _, false) true true "n" "a" "1.1.1.1" "example.org" "tcp" 0 (fl_core hook_fleet)
    (fl_lims hook_fleet)) as [[[r h1] lims1]|] eqn:E; [|by vm_compute in E].
  destruct r as [| |b k]; [by vm_compute in E..|].
  assert (core_ok (TrafficLaws := sing_laws) (fl_core hook_fleet)) as Hok by by intros t c.
  destruct (sing_connection_is_fleet_steps (λ _ _, false) (λ _ _ o s, (None, o, s)) (λ _ s, (None, s))
    (λ _ _ _ s, (Ok 0, s)) (λ _ _ _ s, (None, s)) hook_fleet 0 _ _ (MkUserInfo 1 "a" 0 0) true "1.1.1.1"
    "example.org" "tcp" 0 0 _ b k h1 lims1 eq_refl (proj2 (list_elem_of_singleton _ _) eq_refl) Hok eq_refl eq_refl)
    as ((t & Ht & Hk) & Hrun & Hstep & _); [by vm_compute|exact E|].
  exists h1, lims1, (sing_upd "n" (moved true k [(true, 40); (false, 300)] t) h1). split; [exact Hrun|].
  assert (h1 = Sing.MkHookServer {["n" := (GetCounter "a" NewTrafficCounter).2]}) as Eh
    by (vm_compute in E; injection E as _ _ <- _; reflexivity).
  split.
  - apply (Hstep (set_core h1 (set_lims lims1 hook_fleet)) _ _ t [(true, 40); (false, 300)] eq_refl eq_refl).
    + by apply list_elem_of_singleton.
    + rewrite Eh. intros t' c'. cbn. unfold sing_look. cbn. intros [_ <-]%lookup_singleton_Some.
      apply tc_wf_GetCounter, tc_wf_new.
    + exact Ht.
    + exact Hk.
    + repeat (apply Forall_cons_2; [by vm_compute|]). apply Forall_nil_2.
    + rewrite Eh. by vm_compute.
  - rewrite Eh in Ht |- *. cbn in Ht. apply lookup_singleton_Some in Ht as [_ <-].
    assert (k = (GetCounter "a" NewTrafficCounter).1) as ->
      by (pose proof (GetCounter_counters "a" NewTrafficCounter) as G; cbn [ui_Uuid] in Hk;
          rewrite Hk in G; by injection G).
    by vm_compute.
Defined.

(** The second node of two counts 3 and 5 bytes. *)
Lemma hy2_traffic_is_fleet_steps_witness :
  ∃ n' lims', fleet_run (Core0 := transfers_hy (λ _, None) (λ _, None)) (TrafficLaws0 := hy_laws)
    (two_nodes None) [Quiet; Transfer 1 "a" 3 5]
    (set_core (set_node "v" n' (fl_core (two_nodes None))) (set_lims lims' (two_nodes None))).
Proof.
  destruct (LogTraffic (MkHookServer "v" {["v" := Tx "a" 0 NewTrafficCounter]}) "a" 3 5 (fl_lims (two_nodes None)))
    as [[ok n'] lims'] eqn:E.
  assert (ok = true) as -> by (vm_compute in E; by injection E as <- _ _).
  exists n', lims'.
  refine (hy2_traffic_is_fleet_steps (λ _, None) (λ _, None) (two_nodes None) 1 _ _ small_user
    (MkHookServer "v" {["v" := Tx "a" 0 NewTrafficCounter]}) n' 3 5 true lims'
    eq_refl (proj2 (list_elem_of_singleton _ _) eq_refl) (two_nodes_core None) _ eq_refl _ _ _ E).
  - reflexivity.
  - done.
  - done.
  - by vm_compute.
Defined.
