(* ===== verification/HookRace.v ===== *)
(** The first connections of a node (core/sing/hook.go, core/hy2/hook.go).

    Both hooks look up the counter of the node in a sync.Map, and make and store one when there
    is none.  These are two accesses, and connections run at the same time; Sing.v and Hy2.v have
    them as one step.  Here they are the steps of a system of goroutines.  What
    a connection counts is [Tx] on the counter it holds, as hysteria2 does it; sing-box does
    the same through the storage of its user, which that counter keeps. *)
From S2P Require Import Prelude TrafficCounter.
#[local] Open Scope string_scope.
#[local] Open Scope Z_scope.

(** Where the hook of a connection is: before [Load], after it, or with its counter. *)
Inductive hook_pc :=
| Entering
| Loaded (c : option nat)
| Counting (c : nat).
(** The counters that exist, the one the map has for the node, the connections with their users,
    and what their users have sent, which the program does not keep. *)
Record hooks := MkHooks {
  hk_objects : gmap nat TrafficCounter;
  hk_map : option nat;
  hk_conns : gmap nat (string * hook_pc);
  hk_sent : string → Z
}.
Definition goto_pc (g : nat) (user : string) (pc : hook_pc) (s : hooks) : hooks :=
  MkHooks (hk_objects s) (hk_map s) (<[g := (user, pc)]> (hk_conns s)) (hk_sent s).
(** [Tx] on the counter of a connection. *)
Definition count (user : string) (c : nat) (n : Z) (s : hooks) : hooks :=
  MkHooks (alter (Tx user n) c (hk_objects s)) (hk_map s) (hk_conns s)
    (λ v, if decide (user = v) then wrap64 (hk_sent s v + n) else hk_sent s v).
(** [Store] of a new counter. *)
Definition store (c : nat) (s : hooks) : hooks :=
  MkHooks (<[c := NewTrafficCounter]> (hk_objects s)) (Some c) (hk_conns s) (hk_sent s).

Inductive hook_step : hooks → hooks → Prop :=
| hook_enter s g user : hk_conns s !! g = None → hook_step s (goto_pc g user Entering s)
| hook_load s g user : hk_conns s !! g = Some (user, Entering) →
    hook_step s (goto_pc g user (Loaded (hk_map s)) s)
| hook_found s g user c : hk_conns s !! g = Some (user, Loaded (Some c)) →
    hook_step s (goto_pc g user (Counting c) s)
| hook_store s g user c : hk_conns s !! g = Some (user, Loaded None) → hk_objects s !! c = None →
    hook_step s (goto_pc g user (Counting c) (store c s))
| hook_count s g user c n : hk_conns s !! g = Some (user, Counting c) → hook_step s (count user c n s).
Definition hook_steps : hooks → hooks → Prop := rtc hook_step.

(** What a report would read. *)
Definition read_up (s : hooks) (user : string) : Z :=
  match hk_map s ≫= (hk_objects s !!.) with Some t => (usage t user).1 | None => 0 end.

(** The node has its counter, and every connection uses it or will. *)
Record settled (c : nat) (s : hooks) : Prop := {
  st_map : hk_map s = Some c;
  st_object : ∃ t, hk_objects s !! c = Some t ∧ tc_wf t ∧ ∀ v, (usage t v).1 = hk_sent s v;
  st_conns g user pc : hk_conns s !! g = Some (user, pc) → pc = Entering ∨ pc = Loaded (Some c) ∨ pc = Counting c
}.

Lemma settled_goto c s g user pc :
  settled c s → pc = Entering ∨ pc = Loaded (Some c) ∨ pc = Counting c → settled c (goto_pc g user pc s).
Proof.
  intros [H1 H2 H3] Hpc. split; [done|done|]. intros g' user' pc'. cbn [hk_conns goto_pc].
  rewrite lookup_insert. case_decide; [by intros [= _ <-]|by apply H3].
Qed.
Lemma settled_step c s s' : settled c s → hook_step s s' → settled c s'.
Proof.
  intros Hs Hstep. pose proof Hs as [H1 H2 H3].
  destruct Hstep as [s g user Hg|s g user Hg|s g user c' Hg|s g user c' Hg _|s g user c' n Hg].
  - by apply settled_goto; auto.
  - apply settled_goto; [done|]. rewrite H1. auto.
  - destruct (H3 _ _ _ Hg) as [|[[= ->]|]]; [done| |done]. by apply settled_goto; auto.
  - by destruct (H3 _ _ _ Hg) as [|[|]].
  - destruct (H3 _ _ _ Hg) as [|[|[= ->]]]; [done..|]. destruct H2 as (t & Ht & Hw & Hu).
    split; [done| |exact H3]. cbn [hk_objects hk_sent count]. exists (Tx user n t). split_and!.
    + by rewrite lookup_alter_eq, Ht.
    + by apply tc_wf_Tx.
    + intros v. case_decide as E.
      * subst v. rewrite usage_Tx by done. cbn. by rewrite Hu.
      * unfold Tx. rewrite usage_add by done. by rewrite decide_False.
Qed.

Lemma settled_read c s user : settled c s → read_up s user = hk_sent s user.
Proof. intros [H1 (t & Ht & _ & Hu) _]. unfold read_up. rewrite H1. cbn. by rewrite Ht. Qed.

(** A connection whose counter is not the one of the map. *)
Record lost (g : nat) (user : string) (c : nat) (s : hooks) : Prop := {
  lo_conn : hk_conns s !! g = Some (user, Counting c);
  lo_object : is_Some (hk_objects s !! c);
  lo_map : hk_map s ≠ Some c
}.
Lemma lost_step g user c s s' : lost g user c s → hook_step s s' → lost g user c s'.
Proof.
  intros [H1 H2 H3] Hstep.
  destruct Hstep as [s g' user' Hg|s g' user' Hg|s g' user' c' Hg|s g' user' c' Hg Hc|s g' user' c' n Hg].
  all: split; cbn [hk_objects hk_map goto_pc store count hk_conns]; try done.
  all: try (rewrite lookup_insert_ne; [done|intros ->; congruence]).
  - rewrite lookup_insert. by case_decide.
  - intros [= ->]. by rewrite Hc in H2; destruct H2.
  - destruct (decide (c' = c)) as [->|]; [rewrite lookup_alter_eq|rewrite lookup_alter_ne by done]; destruct H2 as [t ->];
      by eexists.
Qed.
Lemma lost_unread g user c n s v : lost g user c s → read_up (count user c n s) v = read_up s v.
Proof.
  intros [_ _ H3]. unfold read_up. cbn [hk_map hk_objects count]. destruct (hk_map s) as [c'|]; [|done].
  cbn. rewrite lookup_alter_ne; [done|congruence].
Qed.

Definition no_counter : hooks := MkHooks ∅ None ∅ (λ _, 0).
(** Two connections of a user have both seen that there is no counter, and stored one each. *)
Definition both_stored : hooks :=
  MkHooks {[0%nat := NewTrafficCounter; 1%nat := NewTrafficCounter]} (Some 1%nat)
    {[0%nat := ("a", Counting 0); 1%nat := ("a", Counting 1)]} (λ _, 0).
Lemma both_stored_reached : hook_steps no_counter both_stored.
Proof.
  eapply rtc_l; [by apply (hook_enter _ 0 "a")|].
  eapply rtc_l; [by apply (hook_enter _ 1 "a")|].
  eapply rtc_l; [by apply (hook_load _ 0 "a")|].
  eapply rtc_l; [by apply (hook_load _ 1 "a")|].
  eapply rtc_l; [by apply (hook_store _ 0 "a" 0)|].
  eapply rtc_l; [by apply (hook_store _ 1 "a" 1)|].
  apply reflexive_eq. unfold both_stored, goto_pc, store. cbn. f_equal; apply map_eq; intros [|[|k]]; reflexivity.
Qed.

(** (C10) The counter of a node is made by whoever comes first, and by others as well.  Once the
    node has its counter and no connection is between its load and its store, every byte that
    is counted from then on is read by the reports, whatever the connections do.  Before
    that it is not so: two first connections can each store a counter, and whatever the one
    that stored first counts, for as long as it lives and whatever else happens, changes
    nothing that is ever read. *)
Theorem first_connection_lost :
  (∀ c s s', settled c s → hook_steps s s' → ∀ user, read_up s' user = hk_sent s' user) ∧
  ∃ s c, hook_steps no_counter s ∧ hk_conns s !! 0%nat = Some ("a", Counting c) ∧
    ∀ s', hook_steps s s' → hk_conns s' !! 0%nat = Some ("a", Counting c) ∧
      ∀ n, hook_step s' (count "a" c n s') ∧ ∀ user, read_up (count "a" c n s') user = read_up s' user.
Proof.
  split.
  - intros c s s' Hs Hr user. apply (settled_read c). induction Hr as [|s s1 s2 H1 _ IH]; [done|].
    by apply IH, (settled_step c s).
  - exists both_stored, 0%nat. split; [apply both_stored_reached|]. split; [done|]. intros s' Hr.
    assert (lost 0 "a" 0 s') as Hl.
    { assert (lost 0 "a" 0 both_stored) as Hl by by split; [|eexists|].
      induction Hr as [|s s1 s2 H1 _ IH]; [done|]. by apply IH, (lost_step _ _ _ s). }
    split; [apply Hl|]. intros n. split; [eapply hook_count, Hl|]. intros user. by eapply lost_unread.
Qed.

(** A node with its counter, and one connection that comes and counts seven bytes. *)
Definition one_counter : hooks := MkHooks {[0%nat := NewTrafficCounter]} (Some 0%nat) ∅ (λ _, 0).
Lemma one_counter_settled : settled 0 one_counter.
Proof.
  split; [done| |done]. exists NewTrafficCounter. split; [done|]. split; [apply tc_wf_new|done].
Qed.
Lemma first_connection_lost_witness :
  (∃ s, hook_steps one_counter s ∧ read_up s "a" = 7) ∧
  ∃ s s', hook_steps no_counter s ∧ hook_step s s' ∧ read_up s' "a" = read_up s "a".
Proof.
  destruct first_connection_lost as [Hread (s0 & c & Hr & _ & Hlost)]. split.
  - set (s := count "a" 0 7 (goto_pc 0 "a" (Counting 0) (goto_pc 0 "a" (Loaded (Some 0%nat))
      (goto_pc 0 "a" Entering one_counter)))).
    assert (hook_steps one_counter s) as Hs.
    { eapply rtc_l; [by apply (hook_enter _ 0 "a")|]. eapply rtc_l; [by apply (hook_load _ 0 "a")|].
      eapply rtc_l; [by apply (hook_found _ 0 "a" 0)|]. by apply rtc_once, (hook_count _ 0 "a" 0 7). }
    exists s. split; [exact Hs|]. by rewrite (Hread 0%nat one_counter s one_counter_settled Hs).
  - destruct (Hlost s0 (rtc_refl _ _)) as [_ Hn]. destruct (Hn 7) as [Hstep Hsame].
    exists s0, (count "a" c 7 s0). split; [exact Hr|]. split; [exact Hstep|apply Hsame].
Defined.
