(* ===== verification/Certificates.v ===== *)
(** node/cert.go, node/lego.go and common/file: how the certificate of a node is obtained,
    written and renewed.

    The state is the disk (regular files and directories, paths compared as texts), the
    environment of the process and whatever the ACME library keeps; a computation ends with a
    value, an error or a panic.  lego, x509 and the JSON library are parameters; a private key
    is named by the text of it.  Controller.v only uses whether [requestCert] fails:
    [requestCert_verdict] is the refinement between the two. *)
From S2P Require Import Prelude GoStrings Paths Disk Base64 PanelTypes Conf Controller.
#[local] Open Scope string_scope.
#[local] Open Scope Z_scope.

(** * The library *)

(** The user of the ACME account; [lu_key] is the key in memory, [lu_KeyEncoded] the one in
    the file, and the registration is a raw value. *)
Record LegoUser := MkLegoUser {
  lu_Email : string;
  lu_Registration : option string;
  lu_key : option string;
  lu_KeyEncoded : string
}.
Definition LegoUser_zero : LegoUser := MkLegoUser "" None None "".

(** The client and the providers of challenges it was given. *)
Record LegoClient := MkLegoClient { cl_User : LegoUser; cl_Http01 : bool; cl_Dns01 : option string }.
Record CertResource := MkCertResource { cr_Certificate : string; cr_PrivateKey : string }.
(** [x509.Certificate] as generateSelfSslCertificate fills it; the end of validity is a time
    and the years, months and days after it. *)
Record Template := MkTemplate {
  tm_Serial : Z; tm_CommonName : string; tm_DNSNames : list string;
  tm_NotBefore : Z; tm_NotAfter : Z * (Z * Z * Z)
}.

Class CertLibs (A : Type) := {
  (** [os.Stat] fails, but not because there is nothing. *)
  stat_denied : string → bool;
  ec_GenerateKey : A → result string * A;
  MarshalECPrivateKey : string → result (list ascii);
  ParseECPrivateKey : list ascii → result string;
  pem_Decode : string → option (list ascii);
  json_user_encode : string → option string → string → result string;
  json_user_decode : string → LegoUser → result LegoUser;
  lego_NewClient : LegoUser → A → option string * A;
  acme_Register : LegoUser → A → result string * A;
  SetHTTP01Provider : LegoClient → option string;
  NewDNSChallengeProviderByName : string → gmap string string → result string;
  SetDNS01Provider : string → LegoClient → option string;
  acme_Obtain : LegoClient → string → A → result CertResource * A;
  acme_Renew : LegoClient → string → string → A → result CertResource * A;
  (** [ParsePEMCertificate]: the end of validity. *)
  cert_NotAfter : string → result Z;
  rsa_GenerateKey : A → option string * A;
  CreateCertificate : Template → string → A → result (list ascii) * A;
  MarshalPKCS1PrivateKey : string → list ascii
}.

(** ** PEM *)

(** Lines of at most 64 bytes, each ended; [fuel] bounds their number. *)
Fixpoint break_lines (fuel : nat) (l : list ascii) : list ascii :=
  match fuel, l with
  | S fuel, _ :: _ => take 64 l ++ byte 10 :: break_lines fuel (drop 64 l)
  | _, _ => []
  end.
(** [pem.EncodeToMemory] of a block without headers. *)
Definition pem_encode (typ : string) (der : list ascii) : string :=
  let body := to_bytes (StdEncoding_EncodeToString der) in
  "-----BEGIN " +:+ typ +:+ "-----" +:+ of_bytes [byte 10] +:+
  of_bytes (break_lines (length body) body) +:+
  "-----END " +:+ typ +:+ "-----" +:+ of_bytes [byte 10].

Example pem_ex : pem_encode "X" (to_bytes "hi") =
  "-----BEGIN X-----" +:+ of_bytes [byte 10] +:+ "aGk=" +:+ of_bytes [byte 10] +:+ "-----END X-----" +:+ of_bytes [byte 10].
Proof. reflexivity. Qed.

(** ** strings.NewReplacer of the two placeholders *)

Fixpoint replace_params (domain email : list ascii) (skip : nat) (l : list ascii) : list ascii :=
  match l with
  | [] => []
  | c :: l' =>
      match skip with
      | S skip => replace_params domain email skip l'
      | O =>
          if HasPrefix (of_bytes l) "{domain}" then domain ++ replace_params domain email 7 l'
          else if HasPrefix (of_bytes l) "{email}" then email ++ replace_params domain email 6 l'
          else c :: replace_params domain email 0 l'
      end
  end.
Definition parseParams (c : CertConfig) (path : string) : string :=
  of_bytes (replace_params (to_bytes (cc_CertDomain c)) (to_bytes (cc_Email c)) 0 (to_bytes path)).

Example parseParams_ex :
  parseParams (MkCertConfig "dns" false "a.b" "" "" "" "x@y" ∅) "/etc/{domain}/{email}{x}.pem" = "/etc/a.b/x@y{x}.pem".
Proof. reflexivity. Qed.

(** * State and computations *)

Record CertWorld (A : Type) := MkCertWorld {
  ct_files : disk;
  ct_dirs : gset string;
  ct_env : gmap string string;
  ct_acme : A
}.
Arguments MkCertWorld {A}. Arguments ct_files {A}. Arguments ct_dirs {A}.
Arguments ct_env {A}. Arguments ct_acme {A}.

(** [None] is a panic. *)
Definition io (A X : Type) : Type := CertWorld A → option (result X * CertWorld A).
#[export] Instance io_ret A : MRet (io A) := λ X x w, Some (Ok x, w).
#[export] Instance io_bind A : MBind (io A) := λ X Y f m w,
  match m w with
  | None => None
  | Some (Err e, w) => Some (Err e, w)
  | Some (Ok x, w) => f x w
  end.
Definition throw {A X} (e : string) : io A X := λ w, Some (Err e, w).
(** [fmt.Errorf("...: %s", err)] *)
Definition wrap {A X} (context : string) (m : io A X) : io A X := λ w,
  match m w with
  | Some (Err e, w) => Some (Err (context +:+ e), w)
  | r => r
  end.
Definition lift {A X} (r : result X) : io A X := λ w, Some (r, w).
Definition lift_err {A} (r : option string) : io A unit :=
  match r with None => mret tt | Some e => throw e end.
Definition gets {A X} (f : CertWorld A → X) : io A X := λ w, Some (Ok (f w), w).
(** A call of the library. *)
Definition acme {A X} (f : A → result X * A) : io A X := λ w,
  let '(r, a) := f (ct_acme w) in Some (r, MkCertWorld (ct_files w) (ct_dirs w) (ct_env w) a).
Definition acme_err {A} (f : A → option string * A) : io A unit :=
  acme (λ a, let '(e, a) := f a in (match e with None => Ok tt | Some e => Err e end, a)).
Definition on_files {A} (f : disk → option string * disk) : io A unit := λ w,
  let '(e, d) := f (ct_files w) in
  Some (match e with None => Ok tt | Some e => Err e end, MkCertWorld d (ct_dirs w) (ct_env w) (ct_acme w)).
Definition on_dirs {A} (f : gset string → gset string) : io A unit := λ w,
  Some (Ok tt, MkCertWorld (ct_files w) (f (ct_dirs w)) (ct_env w) (ct_acme w)).
Definition on_env {A} (f : gmap string string → gmap string string) : io A unit := λ w,
  Some (Ok tt, MkCertWorld (ct_files w) (ct_dirs w) (f (ct_env w)) (ct_acme w)).

Section certs.
Context {A : Type} {L : CertLibs A} {E : OSErrors}.
#[local] Abbreviation io := (io A).

(** ** common/file and os *)

Definition file_IsExist (path : string) (w : CertWorld A) : bool :=
  exists_file path (ct_files w) || bool_decide (path ∈ ct_dirs w) || stat_denied path.
(** The directories above a path, the path included. *)
Fixpoint ups (n : nat) (path : string) : list string :=
  path :: match n with O => [] | S n => ups n (Dir path) end.
Definition MkdirAll (path : string) : io unit :=
  match mkdir_err path with
  | Some e => throw e
  | None => on_dirs (λ ds, list_to_set (ups (String.length path) path) ∪ ds)
  end.
Definition os_Create (path : string) : io unit :=
  dirs ← gets ct_dirs;
  if decide (path ∈ dirs) then throw ("open " +:+ path +:+ ": is a directory")
  else if decide (Dir path ∈ dirs) then on_files (OpenFile path)
  else throw ("open " +:+ path +:+ ": no such file or directory").
Definition os_Write (path content : string) : io unit := on_files (Write path content).
Definition os_WriteFile (path content : string) : io unit := os_Create path;; os_Write path content.
Definition os_ReadFile (path : string) : io string :=
  d ← gets ct_files;
  match ReadFile path d with
  | None => throw ("open " +:+ path +:+ ": no such file or directory")
  | Some r => lift r
  end.
(** A name or a value the system does not take is not set. *)
Definition env_ok (kv : string * string) : Prop :=
  kv.1 ≠ "" ∧ "="%char ∉ to_bytes kv.1 ∧ byte 0 ∉ to_bytes kv.1 ∧ byte 0 ∉ to_bytes kv.2.
#[export] Instance env_ok_dec kv : Decision (env_ok kv).
Proof. unfold env_ok. apply _. Defined.

Definition checkPath (p : string) : io unit :=
  found ← gets (file_IsExist (Dir p));
  if found : bool then mret tt else wrap "create dir error: " (MkdirAll (Dir p)).

(** ** The user *)

Definition EncodePrivate (key : string) : result string :=
  der ← MarshalECPrivateKey key; Ok (pem_encode "EC PRIVATE KEY" der).
(** A file without a PEM block is a nil pointer. *)
Definition DecodePrivate (text : string) : option (result string) :=
  der ← pem_Decode text; Some (ParseECPrivateKey der).
(** The key is there: registerUser has just made it. *)
Definition user_Save (u : LegoUser) (path : string) : io LegoUser :=
  wrap "check path error: " (checkPath path);;
  let encoded := match lu_key u with
    | Some key => match EncodePrivate key with Ok t => t | Err _ => "" end
    | None => ""
    end in
  os_Create path;;
  text ← wrap "marshal json error: " (lift (json_user_encode (lu_Email u) (lu_Registration u) encoded));
  wrap "marshal json error: " (os_Write path (text +:+ of_bytes [byte 10]));;
  mret (MkLegoUser (lu_Email u) (lu_Registration u) (lu_key u) "").
Definition user_Load (path : string) : io LegoUser :=
  data ← wrap "open file error: " (os_ReadFile path);
  u ← wrap "unmarshal json error: " (lift (json_user_decode data LegoUser_zero));
  key ← wrap "decode private key error: "
    (λ w, r ← DecodePrivate (lu_KeyEncoded u); Some (r, w));
  mret (MkLegoUser (lu_Email u) (lu_Registration u) (Some key) (lu_KeyEncoded u)).
Definition registerUser (u : LegoUser) (path : string) : io LegoUser :=
  key ← wrap "generate key error: " (acme ec_GenerateKey);
  let u := MkLegoUser (lu_Email u) (lu_Registration u) (Some key) (lu_KeyEncoded u) in
  wrap "create lego client error: " (acme_err (lego_NewClient u));;
  reg ← acme (acme_Register u);
  wrap "save user error: " (user_Save (MkLegoUser (lu_Email u) (Some reg) (lu_key u) (lu_KeyEncoded u)) path).
Definition NewLegoUser (path email : string) : io LegoUser :=
  found ← gets (file_IsExist path);
  if found : bool then
    u ← user_Load path;
    if decide (lu_Email u = email) then mret u
    else registerUser (MkLegoUser email None (lu_key u) (lu_KeyEncoded u)) path
  else registerUser (MkLegoUser email None None "") path.

(** ** The client *)

Definition user_path (c : CertConfig) : string :=
  Path_Join [Dir (cc_CertFile c); "user"; "user-" +:+ cc_Email c +:+ ".json"].
Definition SetProvider (c : CertConfig) (cl : LegoClient) : io LegoClient :=
  if decide (cc_CertMode c = "http") then
    lift_err (SetHTTP01Provider cl);; mret (MkLegoClient (cl_User cl) true (cl_Dns01 cl))
  else if decide (cc_CertMode c = "dns") then
    on_env (λ env, filter env_ok (cc_DNSEnv c) ∪ env);;
    env ← gets ct_env;
    p ← wrap "create dns challenge provider error: " (lift (NewDNSChallengeProviderByName (cc_Provider c) env));
    wrap "set dns provider error: " (lift_err (SetDNS01Provider p cl));;
    mret (MkLegoClient (cl_User cl) (cl_Http01 cl) (Some p))
  else mret cl.
Definition NewLego (c : CertConfig) : io LegoClient :=
  user ← wrap "create user error: " (NewLegoUser (user_path c) (cc_Email c));
  acme_err (lego_NewClient user);;
  wrap "set provider error: " (SetProvider c (MkLegoClient user false None)).

Definition writeCert (c : CertConfig) (r : CertResource) : io unit :=
  wrap "check path error: " (checkPath (cc_CertFile c));;
  os_WriteFile (parseParams c (cc_CertFile c)) (cr_Certificate r);;
  wrap "check path error: " (checkPath (cc_KeyFile c));;
  os_WriteFile (parseParams c (cc_KeyFile c)) (cr_PrivateKey r).
Definition CreateCert (c : CertConfig) (cl : LegoClient) : io unit :=
  r ← wrap "obtain certificate error: " (acme (acme_Obtain cl (cc_CertDomain c)));
  wrap "write certificate error: " (writeCert c r).

(** [time.Until] saturates. *)
Definition clamp64 (z : Z) : Z := Z.max int64_min (Z.min int64_max z).
Definition days_left (now notAfter : Z) : Z := Z.quot (clamp64 (notAfter - now)) (24 * Hour).
Definition CheckCert (now : Z) (file : string) : bool * option string :=
  match cert_NotAfter file with
  | Err e => (false, Some e)
  | Ok notAfter => (negb (bool_decide (30 < days_left now notAfter)), None)
  end.
Definition RenewCert (now : Z) (c : CertConfig) (cl : LegoClient) : io unit :=
  file ← wrap "read cert file error: " (os_ReadFile (cc_CertFile c));
  match CheckCert now file with
  | (false, _) => mret tt
  | (true, Some e) => throw ("check cert error: " +:+ e)
  | (true, None) =>
      r ← acme (acme_Renew cl (cc_CertDomain c) file);
      wrap "write certificate error: " (writeCert c r)
  end.

(** ** cert.go *)

(** Errors are logged, none is returned. *)
Definition renewCertTask (now : Z) (c : CertConfig) (w : CertWorld A) : option (CertWorld A) :=
  snd <$> (cl ← NewLego c; RenewCert now c cl) w.

(** Closing the file is left out. *)
Definition writePemFile (path blockType : string) (der : list ascii) : io unit :=
  os_Create path;; os_Write path (pem_encode blockType der).
(** Without a key its public part is a nil pointer. *)
Definition generateSelfSslCertificate (now : Z) (domain certPath keyPath : string) : io unit := λ w,
  match rsa_GenerateKey (ct_acme w) with
  | (None, _) => None
  | (Some key, a) =>
      let tmpl := MkTemplate (now / Second) domain [domain] now (now, (30, 0, 0)) in
      (cert ← acme (CreateCertificate tmpl key);
       writePemFile certPath "CERTIFICATE" cert;;
       writePemFile keyPath "EC PRIVATE KEY" (MarshalPKCS1PrivateKey key))
      (MkCertWorld (ct_files w) (ct_dirs w) (ct_env w) a)
  end.

Definition both_exist (c : CertConfig) (w : CertWorld A) : bool :=
  file_IsExist (cc_CertFile c) w && file_IsExist (cc_KeyFile c) w.
Definition requestCert_files (now : Z) (c : CertConfig) : io unit :=
  let m := cc_CertMode c in
  let missing := bool_decide (cc_CertFile c = "") || bool_decide (cc_KeyFile c = "") in
  let no_paths := throw "cert file path or key file path not exist" in
  if decide (m = "none" ∨ m = "") then mret tt
  else if decide (m = "file") then if missing then no_paths else mret tt
  else if decide (m = "dns" ∨ m = "http") then
    if missing then no_paths
    else
      present ← gets (both_exist c);
      if present : bool then mret tt
      else
        cl ← wrap "create lego object error: " (NewLego c);
        wrap "create lego cert error: " (CreateCert c cl)
  else if decide (m = "self") then
    if missing then no_paths
    else
      present ← gets (both_exist c);
      if present : bool then mret tt
      else wrap "generate self cert error: "
             (generateSelfSslCertificate now (cc_CertDomain c) (cc_CertFile c) (cc_KeyFile c))
  else throw ("unsupported certmode: " +:+ m).
End certs.

(** * What a computation writes *)

Section frames.
Context {A : Type} {L : CertLibs A} {E : OSErrors}.

(** Whatever the outcome, only the files of [l] change, and none is lost. *)
Definition touches {X} (l : list string) (m : io A X) : Prop :=
  ∀ w r w', m w = Some (r, w') → wrote l (ct_files w) (ct_files w').

Lemma touches_weaken {X} l k (m : io A X) : l ⊆ k → touches l m → touches k m.
Proof. intros Hlk H w r w' Hm. eapply wrote_weaken; eauto. Qed.
Lemma touches_same {X} l (m : io A X) :
  (∀ w r w', m w = Some (r, w') → ct_files w' = ct_files w) → touches l m.
Proof. intros H w r w' ->%H. eapply wrote_weaken, wrote_nil. set_solver. Qed.
Lemma touches_bind {X Y} l (m : io A X) (f : X → io A Y) :
  touches l m → (∀ x, touches l (f x)) → touches l (m ≫= f).
Proof.
  intros Hm Hf w r w'. unfold mbind, io_bind. destruct (m w) as [[[x|e] w1]|] eqn:E1; [| |done].
  - intros H. eapply wrote_trans; [by eapply Hm|by eapply Hf].
  - intros [= <- <-]. by eapply Hm.
Qed.
Lemma touches_wrap {X} l c (m : io A X) : touches l m → touches l (wrap c m).
Proof.
  intros Hm w r w'. unfold wrap. destruct (m w) as [[[x|e] w1]|] eqn:E1; intros [= <- <-]; by eapply Hm.
Qed.
Lemma touches_files l f : (∀ d r d', f d = (r, d') → wrote l d d') → touches l (on_files (A := A) f).
Proof.
  intros Hf w r w'. unfold on_files. destruct (f (ct_files w)) as [e d'] eqn:Ed. intros [= <- <-].
  by eapply Hf.
Qed.
Lemma touches_acme {X} l (f : A → result X * A) : touches l (acme f).
Proof. apply touches_same. intros w r w'. unfold acme. destruct (f _). by intros [= <- <-]. Qed.
Lemma touches_pure {X} l (m : io A X) : (∀ w r w', m w = Some (r, w') → w' = w) → touches l m.
Proof. intros H. apply touches_same. by intros w r w' ->%H. Qed.

Lemma touches_ret {X} l (x : X) : touches l (mret x : io A X).
Proof. apply touches_pure. by intros w r w' [= <- <-]. Qed.
Lemma touches_throw {X} l e : touches l (throw e : io A X).
Proof. apply touches_pure. by intros w r w' [= <- <-]. Qed.
Lemma touches_lift {X} l (x : result X) : touches l (lift x : io A X).
Proof. apply touches_pure. by intros w r w' [= <- <-]. Qed.
Lemma touches_lift_err l e : touches l (lift_err e : io A unit).
Proof. destruct e; [apply touches_throw|apply touches_ret]. Qed.
Lemma touches_gets {X} l (f : CertWorld A → X) : touches l (gets f).
Proof. apply touches_pure. by intros w r w' [= <- <-]. Qed.
Lemma touches_dirs l f : touches l (on_dirs (A := A) f).
Proof. apply touches_same. by intros w r w' [= <- <-]. Qed.
Lemma touches_env l f : touches l (on_env (A := A) f).
Proof. apply touches_same. by intros w r w' [= <- <-]. Qed.
End frames.

Create HintDb frames.
#[export] Hint Resolve touches_ret touches_throw touches_lift touches_lift_err touches_gets touches_dirs
  touches_env touches_acme touches_wrap : frames.
#[export] Hint Extern 1 (touches _ (_ ≫= _)) => apply touches_bind; [|intros ?] : frames.

(** Walk through a computation. *)
Ltac framed :=
  repeat first
    [ progress intros
    | progress unfold acme_err
    | solve [eauto 1 with frames nocore]
    | simple apply touches_bind
    | simple apply touches_wrap
    | match goal with |- touches _ (match ?x with _ => _ end) => destruct x end
    | match goal with |- touches _ (let '_ := ?x in _) => destruct x end ].

Section writes.
Context {A : Type} {L : CertLibs A} {E : OSErrors}.

Lemma touches_Create l p : p ∈ l → touches l (os_Create (A := A) p).
Proof.
  intros Hp. apply touches_weaken with [p]; [set_solver|]. unfold os_Create. framed.
  apply touches_files. by intros d r d' H%OpenFile_wrote.
Qed.
Lemma touches_Write l p c : p ∈ l → touches l (os_Write (A := A) p c).
Proof.
  intros Hp. apply touches_weaken with [p]; [set_solver|].
  apply touches_files. by intros d r d' H%Write_wrote.
Qed.
Lemma touches_checkPath l p : touches l (checkPath (A := A) p).
Proof. unfold checkPath, MkdirAll. framed. Qed.
Lemma touches_ReadFile l p : touches l (os_ReadFile (A := A) p).
Proof. unfold os_ReadFile. framed. Qed.
#[local] Hint Resolve touches_checkPath touches_ReadFile : frames.
#[local] Hint Extern 1 (touches _ (os_Create _)) => apply touches_Create; set_solver : frames.
#[local] Hint Extern 1 (touches _ (os_Write _ _)) => apply touches_Write; set_solver : frames.

Lemma touches_writeCert c r :
  touches [parseParams c (cc_CertFile c); parseParams c (cc_KeyFile c)] (writeCert (A := A) c r).
Proof. unfold writeCert, os_WriteFile. framed. Qed.
Lemma touches_Save u p : touches [p] (user_Save (A := A) u p).
Proof. unfold user_Save. framed. Qed.
Lemma touches_Load l p : touches l (user_Load (A := A) p).
Proof.
  unfold user_Load. framed. apply touches_pure. intros w r w'.
  destruct (DecodePrivate _); by intros [= <- <-].
Qed.
#[local] Hint Resolve touches_Save touches_Load : frames.
Lemma touches_NewLegoUser p e : touches [p] (NewLegoUser (A := A) p e).
Proof. unfold NewLegoUser, registerUser. framed. Qed.
#[local] Hint Resolve touches_NewLegoUser : frames.
Lemma touches_NewLego c : touches [user_path c] (NewLego (A := A) c).
Proof. unfold NewLego, SetProvider. framed. Qed.
Lemma touches_self now d c k : touches [c; k] (generateSelfSslCertificate (A := A) now d c k).
Proof.
  intros w r w'. unfold generateSelfSslCertificate. destruct (rsa_GenerateKey _) as [[key|] a]; [|done].
  intros H. change (ct_files w) with (ct_files (MkCertWorld (ct_files w) (ct_dirs w) (ct_env w) a)).
  revert H. generalize (MkCertWorld (ct_files w) (ct_dirs w) (ct_env w) a). intros w0. revert w0 r w'.
  change (touches [c; k] (cert ← acme (CreateCertificate (MkTemplate (now / Second) d [d] now (now, (30, 0, 0))) key);
    writePemFile (A := A) c "CERTIFICATE" cert;; writePemFile k "EC PRIVATE KEY" (MarshalPKCS1PrivateKey key))).
  unfold writePemFile. framed.
Qed.
End writes.

(** * Computations that succeed *)

Section ok.
Context {A : Type} {L : CertLibs A} {E : OSErrors}.

Lemma bind_Ok {X Y} (m : io A X) (f : X → io A Y) w y w' :
  (m ≫= f) w = Some (Ok y, w') ↔ ∃ x w1, m w = Some (Ok x, w1) ∧ f x w1 = Some (Ok y, w').
Proof.
  unfold mbind, io_bind. split.
  - destruct (m w) as [[[x|e] w1]|]; [|done..]. by exists x, w1.
  - by intros (x & w1 & -> & ->).
Qed.
Lemma wrap_Ok {X} c (m : io A X) w x w' : wrap c m w = Some (Ok x, w') ↔ m w = Some (Ok x, w').
Proof. unfold wrap. by destruct (m w) as [[[y|e] w1]|]. Qed.
Lemma acme_Ok {X} (f : A → result X * A) w x w' : acme f w = Some (Ok x, w') ↔
  f (ct_acme w) = (Ok x, ct_acme w') ∧ w' = MkCertWorld (ct_files w) (ct_dirs w) (ct_env w) (ct_acme w').
Proof.
  unfold acme. destruct (f (ct_acme w)) as [r a]. split.
  - by intros [= <- <-].
  - by intros [[= -> ->] ->].
Qed.

(** The files and the library after a write; the directories stay. *)
Lemma WriteFile_Ok p c (w w' : CertWorld A) : os_WriteFile p c w = Some (Ok tt, w') →
  w' = MkCertWorld (<[p := c]> (ct_files w)) (ct_dirs w) (ct_env w) (ct_acme w).
Proof.
  unfold os_WriteFile, os_Create. rewrite bind_Ok. intros ([] & w1 & H1 & H2).
  rewrite bind_Ok in H1. destruct H1 as (ds & w2 & [= <- <-] & H1).
  destruct (decide _); [done|]. destruct (decide _); [|done].
  revert H1 H2. unfold os_Write, on_files, OpenFile, Write.
  destruct (create_err p); intros [= <-]. cbn [ct_files ct_dirs ct_env ct_acme].
  destruct (write_err p) as [[? ?]|]; intros [= <-]. by rewrite insert_insert_eq.
Qed.
Lemma checkPath_Ok p (w : CertWorld A) x w' : checkPath p w = Some (x, w') →
  ct_files w' = ct_files w ∧ ct_env w' = ct_env w ∧ ct_acme w' = ct_acme w.
Proof.
  unfold checkPath, mbind, io_bind, gets. destruct (file_IsExist _ _); [by intros [= <- <-]|].
  unfold wrap, MkdirAll, on_dirs, throw. destruct (mkdir_err _); by intros [= <- <-].
Qed.
Lemma writeCert_Ok c r (w w' : CertWorld A) : writeCert c r w = Some (Ok tt, w') →
  ct_acme w' = ct_acme w ∧
  ct_files w' = <[parseParams c (cc_KeyFile c) := cr_PrivateKey r]>
                (<[parseParams c (cc_CertFile c) := cr_Certificate r]> (ct_files w)).
Proof.
  unfold writeCert. rewrite bind_Ok. intros ([] & w1 & H1 & H).
  rewrite bind_Ok in H. destruct H as ([] & w2 & H2 & H).
  rewrite bind_Ok in H. destruct H as ([] & w3 & H3 & H4).
  apply wrap_Ok, checkPath_Ok in H1 as (F1 & _ & A1), H3 as (F3 & _ & A3).
  apply WriteFile_Ok in H2 as ->, H4 as ->. cbn [ct_files ct_acme] in *. by rewrite A3, F3, A1, F1.
Qed.
(** Writing a certificate does not panic. *)
Lemma total_bind {X Y} (m : io A X) (f : X → io A Y) :
  (∀ w, m w ≠ None) → (∀ x w, f x w ≠ None) → ∀ w, (m ≫= f) w ≠ None.
Proof. intros Hm Hf w. unfold mbind, io_bind. specialize (Hm w). destruct (m w) as [[[x|e] w1]|]; [apply Hf|done|done]. Qed.
Lemma total_wrap {X} c (m : io A X) : (∀ w, m w ≠ None) → ∀ w, wrap c m w ≠ None.
Proof. intros Hm w. unfold wrap. specialize (Hm w). by destruct (m w) as [[[x|e] w1]|]. Qed.
Lemma total_checkPath p (w : CertWorld A) : checkPath p w ≠ None.
Proof.
  revert w. unfold checkPath. apply total_bind; [done|]. intros [] w; [done|]. apply total_wrap.
  intros w1. unfold MkdirAll. by destruct (mkdir_err _).
Qed.
Lemma total_WriteFile p c (w : CertWorld A) : os_WriteFile p c w ≠ None.
Proof.
  revert w. unfold os_WriteFile. apply total_bind; [apply total_bind; [done|]|]; intros x w.
  - repeat (destruct (decide _); [|done] || (destruct (decide _); [done|])).
    unfold on_files. by destruct (OpenFile p (ct_files w)).
  - unfold os_Write, on_files. by destruct (Write p c (ct_files w)).
Qed.
Lemma total_writeCert c r (w : CertWorld A) : writeCert c r w ≠ None.
Proof.
  revert w. unfold writeCert.
  repeat (apply total_bind; [by auto using total_wrap, total_checkPath, total_WriteFile|intros ?]).
  apply total_WriteFile.
Qed.
Lemma IsExist_file p (w : CertWorld A) : is_Some (ct_files w !! p) → file_IsExist p w = true.
Proof. intros H. unfold file_IsExist, exists_file. by rewrite bool_decide_eq_true_2. Qed.
End ok.

(** * Renewing *)

(** A certificate is renewed exactly when its file can be read, parses and is valid for less
    than 31 more days.  A certificate that has that long, and one that does not parse, is left
    alone without an error; without the file there is an error.  A renewal that succeeds leaves
    what the ACME server answered in the two files, whose names have the placeholders replaced,
    and one that fails loses no file and touches no other. *)
Theorem renew_exact (A : Type) (L : CertLibs A) (E : OSErrors) (now : Z) (c : CertConfig) (cl : LegoClient)
    (w : CertWorld A) :
  let cert := parseParams c (cc_CertFile c) in
  let key := parseParams c (cc_KeyFile c) in
  ∃ r w', RenewCert now c cl w = Some (r, w') ∧
  match ReadFile (cc_CertFile c) (ct_files w) with
  | Some (Ok file) =>
      match cert_NotAfter file with
      | Err _ => r = Ok tt ∧ w' = w
      | Ok notAfter =>
          if decide (31 * 24 * Hour ≤ clamp64 (notAfter - now)) then r = Ok tt ∧ w' = w
          else
            wrote [cert; key] (ct_files w) (ct_files w') ∧
            match acme_Renew cl (cc_CertDomain c) file (ct_acme w) with
            | (Err e, a) => r = Err e ∧ ct_acme w' = a ∧ ct_files w' = ct_files w
            | (Ok res, a) => r = Ok tt → ct_acme w' = a ∧ ct_files w' =
                <[key := cr_PrivateKey res]> (<[cert := cr_Certificate res]> (ct_files w))
            end
      end
  | _ => is_ok r = false ∧ w' = w
  end.
Proof.
  intros cert key. unfold RenewCert, os_ReadFile.
  destruct (ReadFile (cc_CertFile c) (ct_files w)) as [[file|e]|] eqn:Er; cycle 1.
  { eexists _, w. unfold mbind, io_bind, wrap, gets, lift. by rewrite Er. }
  { eexists _, w. unfold mbind, io_bind, wrap, gets, throw. by rewrite Er. }
  unfold mbind at 1, io_bind at 1, wrap at 1, mbind at 1, io_bind at 1, gets, lift. rewrite Er.
  unfold CheckCert. destruct (cert_NotAfter file) as [t|e]; [|by eexists _, w].
  assert (days_left now t ≤ 30 ↔ ¬ 31 * 24 * Hour ≤ clamp64 (t - now)) as Hd.
  { unfold days_left. pose proof (Z.quot_rem' (clamp64 (t - now)) (24 * Hour)).
    pose proof (Z.rem_bound_abs (clamp64 (t - now)) (24 * Hour) ltac:(done)).
    pose proof (Z.rem_nonneg (clamp64 (t - now)) (24 * Hour) ltac:(done)).
    change (24 * Hour) with 86400000000000 in *. change (31 * 24 * Hour) with (31 * 86400000000000). lia. }
  destruct (decide (31 * 24 * Hour ≤ clamp64 (t - now))) as [Hl|Hl].
  { rewrite bool_decide_eq_true_2 by (clear - Hd Hl; apply Z.nle_gt; tauto). by eexists _, w. }
  rewrite bool_decide_eq_false_2 by (apply Hd in Hl; lia). cbn [negb].
  unfold mbind, io_bind, acme.
  destruct (acme_Renew cl (cc_CertDomain c) file (ct_acme w)) as [[res|e] a]; cycle 1.
  { eexists _, _. split; [done|]. split; [|done]. eapply wrote_weaken, wrote_nil. set_solver. }
  set (w1 := MkCertWorld (ct_files w) (ct_dirs w) (ct_env w) a).
  destruct (wrap "write certificate error: " (writeCert c res) w1) as [[r w']|] eqn:Ew.
  - exists r, w'. split; [done|]. split.
    + by eapply (touches_wrap _ _ _ (touches_writeCert c res) w1).
    + intros ->. by apply wrap_Ok, writeCert_Ok in Ew as [-> ->].
  - exfalso. by eapply total_wrap, Ew; [apply total_writeCert].
Qed.

(** * Requesting *)

Section request.
Context {A : Type} {L : CertLibs A} {E : OSErrors}.

(** The two ways to make a certificate, as Controller.v sees them: the error. *)
Definition make_lego (c : CertConfig) : io A unit :=
  cl ← wrap "create lego object error: " (NewLego c);
  wrap "create lego cert error: " (CreateCert c cl).
Definition make_self (now : Z) (c : CertConfig) : io A unit :=
  generateSelfSslCertificate now (cc_CertDomain c) (cc_CertFile c) (cc_KeyFile c).
Definition error_of (r : option (result unit * CertWorld A)) : option string :=
  match r with Some (Err e, _) => Some e | _ => None end.

Lemma touches_request now c :
  touches (user_path c :: cc_CertFile c :: cc_KeyFile c :: map (parseParams c) [cc_CertFile c; cc_KeyFile c])
    (requestCert_files (A := A) now c).
Proof.
  unfold requestCert_files, CreateCert. framed.
  - eapply touches_weaken; [|apply touches_NewLego]. set_solver.
  - eapply touches_weaken; [|apply touches_writeCert]. set_solver.
  - eapply touches_weaken; [|apply touches_self]. set_solver.
Qed.

Lemma make_lego_Ok c (w w' : CertWorld A) : make_lego c w = Some (Ok tt, w') →
  ∃ r d, wrote [user_path c] (ct_files w) d ∧ ct_files w' =
    <[parseParams c (cc_KeyFile c) := cr_PrivateKey r]>
    (<[parseParams c (cc_CertFile c) := cr_Certificate r]> d).
Proof.
  unfold make_lego. rewrite bind_Ok. intros (cl & w1 & H1 & H2).
  rewrite wrap_Ok in H2. unfold CreateCert in H2. rewrite bind_Ok in H2. destruct H2 as (r & w2 & H2 & H3).
  rewrite wrap_Ok in H1. rewrite wrap_Ok in H2. rewrite wrap_Ok in H3. apply acme_Ok in H2 as [_ Hw2]. apply writeCert_Ok in H3 as [_ H3].
  exists r, (ct_files w1). split; [by eapply touches_NewLego|]. by rewrite H3, Hw2.
Qed.
Lemma writePem_Ok p t der (w w' : CertWorld A) : writePemFile p t der w = Some (Ok tt, w') →
  ct_files w' = <[p := pem_encode t der]> (ct_files w).
Proof. by intros ->%(WriteFile_Ok p (pem_encode t der)). Qed.
Lemma make_self_Ok now c (w w' : CertWorld A) : make_self now c w = Some (Ok tt, w') →
  ∃ cert key, ct_files w' = <[cc_KeyFile c := key]> (<[cc_CertFile c := cert]> (ct_files w)).
Proof.
  unfold make_self, generateSelfSslCertificate. destruct (rsa_GenerateKey _) as [[key|] a]; [|done].
  rewrite bind_Ok. intros (cert & w1 & H1 & H). rewrite bind_Ok in H. destruct H as ([] & w2 & H2 & H3).
  apply acme_Ok in H1 as [_ H1%(f_equal ct_files)]. apply writePem_Ok in H2. apply writePem_Ok in H3.
  rewrite H3, H2, H1. by eexists _, _.
Qed.
End request.

(** What the controller model takes of a request, its verdict for the files that are there and
    the two ways to make a certificate, is what the request on the disk, with all that the
    library and the operating system can answer, comes to. *)
Theorem requestCert_verdict (A : Type) (L : CertLibs A) (E : OSErrors) (now : Z) (c : CertConfig)
    (w w' : CertWorld A) (r : result unit) :
  requestCert_files now c w = Some (r, w') →
  Controller.requestCert (λ p, file_IsExist p w) (λ c, error_of (make_lego c w))
    (λ c, error_of (make_self now c w)) (Some c) = Some (error_of (Some (r, w'))).
Proof.
  unfold requestCert_files, Controller.requestCert. intros H. rewrite <- H. clear H.
  fold (make_self now c). fold (make_lego c).
  destruct (decide (cc_CertMode c = "none")) as [->|]; [done|].
  destruct (decide (cc_CertMode c = "")) as [->|]; [done|].
  destruct (decide (cc_CertMode c = "none" ∨ cc_CertMode c = "")); [tauto|].
  destruct (decide (cc_CertMode c = "file")).
  { by destruct (_ || _). }
  destruct (decide (cc_CertMode c = "dns" ∨ cc_CertMode c = "http")).
  { destruct (_ || _); [done|]. unfold mbind at 1, io_bind at 1, gets, both_exist. by destruct (_ && _). }
  destruct (decide (cc_CertMode c = "self")); [|done].
  destruct (_ || _); [done|]. unfold mbind, io_bind, gets, both_exist. destruct (_ && _); [done|].
  unfold wrap. by destruct (make_self now c w) as [[[[]|?] w1]|].
Qed.

(** A request that succeeded settles the matter when the names of the files hold no
    placeholder: both files are there, and the next request, at any later time, does nothing
    at all: it asks no server, makes no key and writes no file. *)
Theorem request_settles (A : Type) (L : CertLibs A) (E : OSErrors) (now later : Z) (c : CertConfig)
    (w w' : CertWorld A) :
  parseParams c (cc_CertFile c) = cc_CertFile c → parseParams c (cc_KeyFile c) = cc_KeyFile c →
  requestCert_files now c w = Some (Ok tt, w') →
  (cc_CertMode c ∈ ["dns"; "http"; "self"] → both_exist c w' = true) ∧
  requestCert_files later c w' = Some (Ok tt, w').
Proof.
  intros Hc Hk H. assert (cc_CertMode c ∈ ["dns"; "http"; "self"] → both_exist c w' = true) as Hb.
  - revert H. unfold requestCert_files. fold (make_self (A := A) now c). fold (make_lego (A := A) c). intros H Hm.
    rewrite !elem_of_cons, elem_of_nil in Hm.
    rewrite decide_False in H by (intros [Hx|Hx]; rewrite Hx in Hm; naive_solver).
    rewrite decide_False in H by (intros Hx; rewrite Hx in Hm; naive_solver).
    assert ((∃ cert key d, ct_files w' = <[cc_KeyFile c := key]> (<[cc_CertFile c := cert]> d)) →
      both_exist c w' = true) as Hmade.
    { intros (cert & key & d & Hf). unfold both_exist.
      rewrite !IsExist_file; [done|..]; rewrite Hf.
      - rewrite lookup_insert_eq. by eexists.
      - apply (wrote_insert _ _ _). rewrite lookup_insert_eq. by eexists. }
    destruct (decide (cc_CertMode c = "dns" ∨ cc_CertMode c = "http")).
    + destruct (_ || _); [done|]. revert H. unfold mbind at 1, io_bind at 1, gets.
      destruct (both_exist c w) eqn:Eb; [by intros [= <-]|]. intros H.
      apply Hmade. apply make_lego_Ok in H as (r & d & _ & ->). rewrite Hc, Hk. by eexists _, _, _.
    + rewrite decide_True in H by tauto. destruct (_ || _); [done|]. revert H.
      unfold mbind at 1, io_bind at 1, gets. destruct (both_exist c w) eqn:Eb; [by intros [= <-]|].
      rewrite wrap_Ok. intros H. apply Hmade. apply make_self_Ok in H as (cert & key & ->). by eexists _, _, _.
  - split; [done|]. revert H. unfold requestCert_files.
    destruct (decide _); [by intros [= <-]|]. destruct (decide _); [destruct (_ || _); [done|by intros [= <-]]|].
    destruct (decide (cc_CertMode c = "dns" ∨ cc_CertMode c = "http")) as [Hm|].
    { destruct (_ || _); [done|]. intros _. unfold mbind at 1, io_bind at 1, gets.
      by rewrite Hb by (destruct Hm as [->| ->]; set_solver). }
    destruct (decide (cc_CertMode c = "self")) as [Hm|]; [|done].
    destruct (_ || _); [done|]. intros _. unfold mbind, io_bind, gets. by rewrite Hb by (rewrite Hm; set_solver).
Qed.

(** A placeholder in the name of the certificate file breaks the renewal: the certificate is
    written under the name with the placeholder replaced, while the next request looks for the
    name as it stands in the configuration, and so does the renewal, which fails. *)
Theorem placeholder_never_renewed (A : Type) (L : CertLibs A) (E : OSErrors) (now later : Z)
    (c : CertConfig) (cl : LegoClient) (w w' : CertWorld A) :
  cc_CertMode c ∈ ["dns"; "http"] → ct_files w !! cc_CertFile c = None → open_err (cc_CertFile c) = None →
  cc_CertFile c ∉ [user_path c; parseParams c (cc_CertFile c); parseParams c (cc_KeyFile c)] →
  both_exist c w = false → requestCert_files now c w = Some (Ok tt, w') →
  exists_file (cc_CertFile c) (ct_files w') = false ∧
  ∃ e, RenewCert later c cl w' = Some (Err ("read cert file error: " +:+ e), w').
Proof.
  intros Hm Hnone Hopen Hn Hb H. assert (ct_files w' !! cc_CertFile c = None) as Hno.
  - revert H. unfold requestCert_files. fold (make_lego (A := A) c). rewrite !elem_of_cons, elem_of_nil in Hm.
    rewrite decide_False by (intros [Hx|Hx]; rewrite Hx in Hm; naive_solver).
    rewrite decide_False by (intros Hx; rewrite Hx in Hm; naive_solver).
    rewrite decide_True by tauto. destruct (_ || _); [done|].
    unfold mbind at 1, io_bind at 1, gets. rewrite Hb. intros (r & d & [Hd _] & ->)%make_lego_Ok.
    rewrite !lookup_insert_ne by set_solver. rewrite Hd by set_solver. done.
  - split; [unfold exists_file; rewrite Hno; apply bool_decide_eq_false_2; by intros [? [=]]|].
    eexists. unfold RenewCert, os_ReadFile, mbind, io_bind, wrap, gets, ReadFile, throw. by rewrite Hopen, Hno.
Qed.

(** * The account *)

Section account.
Context {A : Type} {L : CertLibs A} {E : OSErrors}.

(** What is relied on: JSON and PEM read what they wrote, and a key that was made can be
    written. *)
Record account_laws : Prop := {
  user_json email reg enc text : json_user_encode email reg enc = Ok text →
    json_user_decode (text +:+ of_bytes [byte 10]) LegoUser_zero = Ok (MkLegoUser email reg None enc);
  made_key a key a' : ec_GenerateKey a = (Ok key, a') →
    ∃ der, MarshalECPrivateKey key = Ok der ∧ ParseECPrivateKey der = Ok key ∧
      pem_Decode (pem_encode "EC PRIVATE KEY" der) = Some der
}.

Lemma Save_Ok u key der path u' (w w' : CertWorld A) :
  lu_key u = Some key → MarshalECPrivateKey key = Ok der →
  user_Save u path w = Some (Ok u', w') →
  u' = MkLegoUser (lu_Email u) (lu_Registration u) (lu_key u) "" ∧
  ∃ text, json_user_encode (lu_Email u) (lu_Registration u) (pem_encode "EC PRIVATE KEY" der) = Ok text ∧
    ct_files w' !! path = Some (text +:+ of_bytes [byte 10]).
Proof.
  intros Hk Hder. unfold user_Save. rewrite Hk. unfold EncodePrivate. rewrite Hder. cbn [mbind result_bind].
  rewrite bind_Ok. intros ([] & w1 & _ & H). rewrite bind_Ok in H. destruct H as ([] & w2 & _ & H).
  rewrite bind_Ok in H. destruct H as (text & w3 & Ht & H).
  rewrite bind_Ok in H. destruct H as ([] & w4 & Hw & H). injection H as <- <-. split; [done|].
  rewrite wrap_Ok in Ht. rewrite wrap_Ok in Hw. injection Ht as Ht _. exists text. split; [done|].
  revert Hw. unfold os_Write, on_files, Write. destruct (write_err path) as [[? ?]|]; intros [= <-].
  apply lookup_insert_eq.
Qed.
Lemma Load_Ok text path email reg key der (w : CertWorld A) :
  account_laws → open_err path = None →
  json_user_encode email reg (pem_encode "EC PRIVATE KEY" der) = Ok text →
  ParseECPrivateKey der = Ok key → pem_Decode (pem_encode "EC PRIVATE KEY" der) = Some der →
  ct_files w !! path = Some (text +:+ of_bytes [byte 10]) →
  user_Load path w = Some (Ok (MkLegoUser email reg (Some key) (pem_encode "EC PRIVATE KEY" der)), w).
Proof.
  intros HL Ho Ht Hp Hd Hf. unfold user_Load, os_ReadFile, mbind, io_bind, wrap, gets, ReadFile.
  rewrite Ho, Hf. cbn [fmap option_fmap option_map lift]. unfold lift. rewrite (user_json HL _ _ _ _ Ht). cbn [lu_KeyEncoded].
  unfold DecodePrivate. rewrite Hd. cbn [mbind option_bind]. by rewrite Hp.
Qed.
Lemma registerUser_Ok u path u' (w w' : CertWorld A) :
  account_laws → registerUser u path w = Some (Ok u', w') →
  lu_Email u' = lu_Email u ∧
  (open_err path = None → ∃ enc, user_Load path w' =
    Some (Ok (MkLegoUser (lu_Email u') (lu_Registration u') (lu_key u') enc), w')) ∧
  is_Some (ct_files w' !! path).
Proof.
  intros HL. unfold registerUser. rewrite bind_Ok. intros (key & w1 & Hk & H).
  rewrite wrap_Ok in Hk. apply acme_Ok in Hk as [Hk _]. apply (made_key HL) in Hk as (der & Hm & Hp & Hd).
  rewrite bind_Ok in H. destruct H as ([] & w2 & _ & H). rewrite bind_Ok in H. destruct H as (reg & w3 & _ & H).
  rewrite wrap_Ok in H. apply (Save_Ok _ key der) in H as (-> & text & Ht & Hf); [|done..].
  cbn [lu_Email lu_Registration lu_key] in *. split; [done|]. split; [|by eexists].
  intros Ho. exists (pem_encode "EC PRIVATE KEY" der). by eapply Load_Ok.
Qed.
End account.

(** (C40) An account is registered once: after [NewLegoUser] succeeded, for a new account, one found
    on the disk, or one whose address was changed, the next [NewLegoUser] with the same
    address reads back the same address, registration and private key from the file, asks
    nothing of the server and writes nothing. *)
Theorem account_registered_once (A : Type) (L : CertLibs A) (E : OSErrors) (path email : string)
    (u : LegoUser) (w w' : CertWorld A) :
  account_laws → open_err path = None → NewLegoUser path email w = Some (Ok u, w') →
  lu_Email u = email ∧
  ∃ enc, NewLegoUser path email w' =
    Some (Ok (MkLegoUser email (lu_Registration u) (lu_key u) enc), w').
Proof.
  intros HL Ho H. assert (∀ u0, lu_Email u0 = email → registerUser u0 path w = Some (Ok u, w') →
    lu_Email u = email ∧ ∃ enc, NewLegoUser path email w' =
      Some (Ok (MkLegoUser email (lu_Registration u) (lu_key u) enc), w')) as Hreg.
  - intros u0 He H1. apply registerUser_Ok in H1 as (He' & Hl & Hs); [|done]. rewrite He in He'.
    split; [done|]. destruct (Hl Ho) as [enc Henc]. exists enc.
    unfold NewLegoUser, mbind, io_bind, gets. rewrite IsExist_file by done. rewrite Henc, He'. cbn [lu_Email].
    by rewrite decide_True.
  - revert H. unfold NewLegoUser at 1. rewrite bind_Ok. intros (found & w1 & [= <- <-] & H).
    destruct (file_IsExist path w) eqn:Ef; [|by eapply Hreg, H].
    assert (∀ r w1, user_Load path w = Some (r, w1) → w1 = w) as Hsame.
    { intros r w2. unfold user_Load, os_ReadFile, mbind, io_bind, wrap, gets, throw, lift.
      destruct (ReadFile _ _) as [[data|]|]; [|by intros [= <- <-]..].
      destruct (json_user_decode _ _) as [u1|]; [|by intros [= <- <-]].
      destruct (DecodePrivate _) as [[]|]; by intros [= <- <-]. }
    rewrite bind_Ok in H. destruct H as (u0 & w2 & Hl & H). pose proof (Hsame _ _ Hl) as ->.
    destruct (decide (lu_Email u0 = email)) as [He|He]; [|by eapply Hreg, H].
    injection H as <- <-. split; [done|]. exists (lu_KeyEncoded u0).
    unfold NewLegoUser, mbind, io_bind, gets. rewrite Ef, Hl. rewrite decide_True by done.
    unfold mret, io_ret. by destruct u0; cbn in *; subst.
Qed.

(** * Instances *)

(** A library with one key, one account and one certificate, which counts what it is asked;
    no certificate is valid for long. *)
Definition toy_pem : string := pem_encode "EC PRIVATE KEY" (to_bytes "key").
#[local] Instance toy_libs : CertLibs nat := {|
  stat_denied _ := false;
  ec_GenerateKey a := (Ok "key", S a);
  MarshalECPrivateKey k := Ok (to_bytes k);
  ParseECPrivateKey l := Ok (of_bytes l);
  pem_Decode s := if decide (s = toy_pem) then Some (to_bytes "key") else None;
  json_user_encode email reg enc :=
    if decide (email = "me@x" ∧ reg = Some "reg" ∧ enc = toy_pem) then Ok "user" else Err "json";
  json_user_decode text _ := Ok (MkLegoUser "me@x" (Some "reg") None toy_pem);
  lego_NewClient _ a := (None, a);
  acme_Register _ a := (Ok "reg", S a);
  SetHTTP01Provider _ := None;
  NewDNSChallengeProviderByName p _ := Ok p;
  SetDNS01Provider _ _ := None;
  acme_Obtain _ _ a := (Ok (MkCertResource "cert" "priv"), S a);
  acme_Renew _ _ _ a := (Ok (MkCertResource "new" "priv"), S a);
  cert_NotAfter _ := Ok 0;
  rsa_GenerateKey a := (Some "rsa", a);
  CreateCertificate _ _ a := (Ok (to_bytes "self"), a);
  MarshalPKCS1PrivateKey := to_bytes
|}.
#[local] Instance toy_os : OSErrors :=
  {| open_err _ := None; mkdir_err _ := None; create_err _ := None; write_err _ := None |}.
Definition toy_world : CertWorld nat := MkCertWorld ∅ {["/"; "/etc"]} ∅ 0%nat.
Definition toy_cert (file : string) : CertConfig := MkCertConfig "http" false "a.b" file "/etc/k.pem" "" "me@x" ∅.

Lemma toy_laws : account_laws (A := nat).
Proof.
  split.
  - intros email reg enc text. cbn. by destruct (decide _) as [(-> & -> & ->)|]; intros [= <-].
  - intros a key a' [= <- <-]. exists (to_bytes "key"). done.
Qed.

Lemma account_registered_once_witness :
  match NewLegoUser "/etc/u.json" "me@x" toy_world with
  | Some (Ok u, w) => lu_Registration u = Some "reg" ∧
      ∃ enc, NewLegoUser "/etc/u.json" "me@x" w = Some (Ok (MkLegoUser "me@x" (lu_Registration u) (lu_key u) enc), w)
  | _ => False
  end.
Proof.
  assert (match NewLegoUser "/etc/u.json" "me@x" toy_world with
    Some (Ok u, _) => lu_Registration u = Some "reg" | _ => False end) as Hr by (vm_compute; reflexivity).
  destruct (NewLegoUser "/etc/u.json" "me@x" toy_world) as [[[u|?] w]|] eqn:H; [|done..]. split; [done|].
  exact (proj2 (account_registered_once nat toy_libs toy_os "/etc/u.json" "me@x" u toy_world w
    toy_laws eq_refl H)).
Defined.

Lemma request_settles_witness :
  match requestCert_files 0 (toy_cert "/etc/c.pem") toy_world with
  | Some (Ok tt, w) => ct_acme w = 3%nat ∧ requestCert_files 5 (toy_cert "/etc/c.pem") w = Some (Ok tt, w)
  | _ => False
  end.
Proof.
  assert (match requestCert_files 0 (toy_cert "/etc/c.pem") toy_world with
    Some (Ok tt, w) => ct_acme w = 3%nat | _ => False end) as Hr by (vm_compute; reflexivity).
  destruct (requestCert_files 0 (toy_cert "/etc/c.pem") toy_world) as [[[[]|?] w]|] eqn:H; [|done..].
  split; [done|]. refine (proj2 (request_settles nat toy_libs toy_os 0 5 _ toy_world w _ _ H)); reflexivity.
Defined.

Lemma requestCert_verdict_witness :
  Controller.requestCert (λ p, file_IsExist p toy_world) (λ c, error_of (make_lego c toy_world))
    (λ c, error_of (make_self 0 c toy_world)) (Some (toy_cert "/etc/c.pem")) = Some None.
Proof.
  assert (match requestCert_files 0 (toy_cert "/etc/c.pem") toy_world with
    Some (Ok tt, _) => True | _ => False end) as Hr by (vm_compute; exact I).
  destruct (requestCert_files 0 (toy_cert "/etc/c.pem") toy_world) as [[[[]|?] w]|] eqn:H; [|done..].
  exact (requestCert_verdict nat toy_libs toy_os 0 _ toy_world w (Ok tt) H).
Defined.

Lemma placeholder_never_renewed_witness :
  match requestCert_files 0 (toy_cert "/etc/{domain}.pem") toy_world with
  | Some (Ok tt, w) => ct_files w !! "/etc/a.b.pem" = Some "cert" ∧
      exists_file "/etc/{domain}.pem" (ct_files w) = false
  | _ => False
  end.
Proof.
  assert (match requestCert_files 0 (toy_cert "/etc/{domain}.pem") toy_world with
    Some (Ok tt, w) => ct_files w !! "/etc/a.b.pem" = Some "cert" | _ => False end) as Hr by (vm_compute; reflexivity).
  destruct (requestCert_files 0 (toy_cert "/etc/{domain}.pem") toy_world) as [[[[]|?] w]|] eqn:H; [|done..].
  split; [done|].
  refine (proj1 (placeholder_never_renewed nat toy_libs toy_os 0 5 (toy_cert "/etc/{domain}.pem")
    (MkLegoClient LegoUser_zero false None) toy_world w _ _ _ _ _ H)); [|reflexivity|reflexivity| |];
    by apply (bool_decide_unpack _); vm_compute.
Defined.
