(* ===== verification/Aes.v ===== *)
(** common/crypt/aes.go: the AES helper, which nothing in the program calls.

    The cipher is a parameter: what it does to one block.  Go's [Encrypt] and [Decrypt] of a
    block cipher work on the first block of their arguments and leave the rest of the
    destination as it is; they panic ([None]) when one of them is shorter than a block. *)
From S2P Require Import Prelude GoStrings Base64.
#[local] Open Scope string_scope.

Definition BlockSize : nat := 16.
Record Block := MkBlock { bl_Encrypt : list ascii → list ascii; bl_Decrypt : list ascii → list ascii }.
(** One block of [src] into a destination of [dst] zero bytes. *)
Definition one_block (f : list ascii → list ascii) (dst : nat) (src : list ascii) : option (list ascii) :=
  if bool_decide (length src < BlockSize ∨ dst < BlockSize)%nat then panic
  else Some (f (take BlockSize src) ++ repeat (byte 0) (dst - BlockSize))%list.

Section aes.
(** [aes.NewCipher]; the text of a decoding error. *)
Context (NewCipher : list ascii → result Block) (CorruptInputError : string → string).

Definition AesEncrypt (data key : list ascii) : option (result string) :=
  match NewCipher key with
  | Err e => Some (Err e)
  | Ok a => en ← one_block (bl_Encrypt a) (length data) data; Some (Ok (StdEncoding_EncodeToString en))
  end.
Definition AesDecrypt (data : string) (key : list ascii) : option (result string) :=
  match StdEncoding_DecodeString data with
  | None => Some (Err (CorruptInputError data))
  | Some d =>
      match NewCipher key with
      | Err e => Some (Err e)
      | Ok a =>
          de ← one_block (bl_Decrypt a) (length (to_bytes data)) (map (λ z, byte (Z.to_N z)) d);
          Some (Ok (of_bytes de))
      end
  end.

Lemma bytes_of_vals (l : list ascii) : map (λ z, byte (Z.to_N z)) (map byte_val l) = l.
Proof.
  rewrite map_map. rewrite <-(map_id l) at 2. apply map_ext. intros c. unfold byte_val, byte.
  by rewrite N2Z.id, ascii_N_embedding.
Qed.

(** What the helper makes of a text.  Less than a block cannot be encrypted.  Of anything
    longer only the first block is: texts of one length that begin alike have the same
    ciphertext, and decrypting it gives the first block followed by zero bytes, so many that
    the result has the length of the encoded ciphertext.  It is the text in no case. *)
Theorem aes_round_trip (data key : list ascii) (a : Block) :
  NewCipher key = Ok a →
  (∀ b, length b = BlockSize → length (bl_Encrypt a b) = BlockSize ∧ bl_Decrypt a (bl_Encrypt a b) = b) →
  (AesEncrypt data key = None ↔ (length data < BlockSize)%nat) ∧
  ∀ t, AesEncrypt data key = Some (Ok t) →
    (∀ data', length data' = length data → take BlockSize data' = take BlockSize data →
       AesEncrypt data' key = Some (Ok t)) ∧
    ∃ p, AesDecrypt t key = Some (Ok p) ∧
      to_bytes p = (take BlockSize data ++ repeat (byte 0) (4 * ((length data + 2) / 3) - BlockSize))%list ∧
      to_bytes p ≠ data.
Proof.
  intros Hk Ha. unfold AesEncrypt, one_block. rewrite Hk.
  destruct (decide (length data < BlockSize)%nat) as [Hs|Hs].
  { rewrite bool_decide_eq_true_2 by auto. by split; [|intros t ?]. }
  rewrite bool_decide_eq_false_2 by lia. cbn [mbind option_bind]. split; [done|]. intros t [= <-].
  split.
  { intros data' Hl Ht. rewrite Hl, Ht, bool_decide_eq_false_2 by lia. done. }
  assert (length (take BlockSize data) = BlockSize) as Htk by (rewrite length_take; lia).
  destruct (Ha _ Htk) as [Hle Hd]. set (en := (bl_Encrypt a _ ++ _)%list).
  assert (length en = length data) as Hen by (unfold en; rewrite length_app, Hle, repeat_length; lia).
  unfold AesDecrypt, one_block. rewrite StdEncoding_round_trip, Hk, bytes_of_vals, encoded_length, Hen.
  assert (length data < 4 * ((length data + 2) / 3))%nat as Hlong.
  { pose proof (Nat.div_mod (length data + 2) 3 ltac:(done)). pose proof (Nat.mod_upper_bound (length data + 2) 3 ltac:(done)).
    unfold BlockSize in Hs. lia. }
  rewrite bool_decide_eq_false_2 by lia. cbn [mbind option_bind]. eexists. split; [done|].
  rewrite to_of_bytes. assert (take BlockSize en = bl_Encrypt a (take BlockSize data)) as ->.
  { unfold en. by rewrite take_app_length'. }
  rewrite Hd. split; [done|]. intros E. apply (f_equal length) in E.
  rewrite length_app, repeat_length, Htk in E. lia.
Qed.
End aes.

(** A cipher that reverses a block. *)
Definition toy_block : Block := MkBlock reverse reverse.
Lemma aes_round_trip_witness :
  ∃ p, AesDecrypt (λ _, Ok toy_block) (λ s, s) "UE9OTUxLSklIR0ZFRENCQQA=" (to_bytes "key") = Some (Ok p) ∧
    to_bytes p = (to_bytes "ABCDEFGHIJKLMNOP" ++ repeat (byte 0) 8)%list.
Proof.
  destruct (aes_round_trip (λ _, Ok toy_block) (λ s, s) (to_bytes "ABCDEFGHIJKLMNOPQ") (to_bytes "key") toy_block eq_refl)
    as [_ H].
  - intros b Hb. cbn [toy_block bl_Encrypt bl_Decrypt]. by rewrite length_reverse, reverse_involutive.
  - destruct (H "UE9OTUxLSklIR0ZFRENCQQA=") as [_ (p & E & Ep & _)]; [by vm_compute|].
    exists p. split; [exact E|exact Ep].
Defined.
