(* ===== verification/Commands.v ===== *)
(** The commands of the program that drive systemd and the clock (cmd/action_linux.go,
    install_linux.go, synctime.go, x25519.go, common.go, common/exec, common/crypt/x25519.go)
    and the status of the machine (common/serverstatus).

    A command is what it makes of the answers of the machine: a sequence of effects on it and
    of lines on the console.  The escape sequences of the colours are kept as the kind of the
    line. *)
From S2P Require Import Prelude GoStrings Base64 PanelTypes Controller.
#[local] Open Scope string_scope.
#[local] Open Scope Z_scope.

(** * What a command does *)

(** A process: it was not found, or it ran, with an output and maybe an error. *)
Inductive exec_answer :=
| NotFound (e : string)
| Ran (out : string) (err : option string).

(** [Err], [Ok], [Warn] of common.go and plain text. *)
Inductive line :=
| Red (s : string)
| Green (s : string)
| Yellow (s : string)
| Plain (s : string).

Class Machine (S : Type) := {
  exec : string → list string → S → exec_answer * S;
  RemoveAll : string → S → S;
  (** [unix.NsecToTimeval] and [unix.Settimeofday], on nanoseconds. *)
  Settimeofday : Z → S → option string * S;
  sleep : Z → S → S
}.

(** The machine, and the lines on the console, the last one first. *)
Definition shell (S A : Type) : Type := S * list line → A * (S * list line).
#[export] Instance shell_ret S : MRet (shell S) := λ A a w, (a, w).
#[export] Instance shell_bind S : MBind (shell S) := λ A B f m w, let '(a, w) := m w in f a w.
Definition Println {S} (l : line) : shell S unit := λ w, (tt, (w.1, l :: w.2)).
Definition on_machine {S A} (f : S → A * S) : shell S A := λ w, let '(a, s) := f w.1 in (a, (s, w.2)).
Definition do_machine {S} (f : S → S) : shell S unit := λ w, (tt, (f w.1, w.2)).
Fixpoint println_all {S} (l : list line) : shell S unit :=
  match l with [] => mret tt | x :: l => Println x;; println_all l end.

Section commands.
Context {S : Type} {M : Machine S}.
#[local] Abbreviation shell := (shell S).

(** ** common/exec and common.go *)

(** sh is tried when there is no bash. *)
Definition RunCommandByShell (cmd : string) : shell (string * option string) :=
  r ← on_machine (exec "bash" ["-c"; cmd]);
  r ← (match r with
       | NotFound e => on_machine (exec "sh" ["-c"; cmd])
       | _ => mret r
       end);
  mret match r with NotFound e => ("", Some e) | Ran out err => (out, err) end.
Definition checkRunning : shell (bool * option string) :=
  '(o, err) ← RunCommandByShell "systemctl status V2bX | grep Active";
  mret match err with Some e => (false, Some e) | None => (strings_Contains o "running", None) end.

(** ** action_linux.go *)

Definition startHandle : shell unit :=
  '(r, err) ← checkRunning;
  match err with
  | Some e => println_all [Red ("check status error: " +:+ e); Red "V2bX启动失败"]
  | None =>
      (if r : bool then Println (Green "V2bX已运行，无需再次启动，如需重启请选择重启") else mret tt);;
      '(_, err) ← RunCommandByShell "systemctl start V2bX.service";
      match err with
      | Some e => println_all [Red ("exec start cmd error: " +:+ e); Red "V2bX启动失败"]
      | None =>
          do_machine (sleep (3 * Second));;
          '(r, err) ← checkRunning;
          (match err with
           | Some e => println_all [Red ("check status error: " +:+ e); Red "V2bX启动失败"]
           | None => mret tt
           end);;
          if r : bool then Println (Green "V2bX 启动成功，请使用 V2bX log 查看运行日志")
          else Println (Red "V2bX可能启动失败，请稍后使用 V2bX log 查看日志信息")
      end
  end.
Definition stopHandle : shell unit :=
  '(_, err) ← RunCommandByShell "systemctl stop V2bX.service";
  match err with
  | Some e => println_all [Red ("exec stop cmd error: " +:+ e); Red "V2bX停止失败"]
  | None =>
      do_machine (sleep (2 * Second));;
      '(r, err) ← checkRunning;
      match err with
      | Some e => println_all [Red ("check status error:" +:+ e); Red "V2bX停止失败"]
      | None =>
          if r : bool then Println (Red "V2bX停止失败，可能是因为停止时间超过了两秒，请稍后查看日志信息")
          else Println (Green "V2bX 停止成功")
      end
  end.
Definition restartHandle : shell unit :=
  '(_, err) ← RunCommandByShell "systemctl restart V2bX.service";
  match err with
  | Some e => println_all [Red ("exec restart cmd error: " +:+ e); Red "V2bX重启失败"]
  | None =>
      '(r, err) ← checkRunning;
      match err with
      | Some e => println_all [Red ("check status error: " +:+ e); Red "V2bX重启失败"]
      | None =>
          if r : bool then Println (Green "V2bX重启成功")
          else Println (Red "V2bX可能启动失败，请稍后使用 V2bX log 查看日志信息")
      end
  end.

(** ** install_linux.go *)

Definition updateHandle (targetVersion : string) : shell unit :=
  let cmd := "wget -N -O /tmp/v2bx_install.sh https://raw.githubusercontent.com/yamatu/yabx/main/install.sh && bash /tmp/v2bx_install.sh" in
  let cmd := if decide (targetVersion = "") then cmd else cmd +:+ " " +:+ targetVersion in
  '(_, err) ← RunCommandByShell cmd;
  match err with Some e => Println (Red ("更新失败: " +:+ e)) | None => mret tt end.

Definition installed : list string :=
  ["/etc/systemd/system/V2bX.service"; "/etc/V2bX/"; "/usr/local/V2bX/"; "/usr/bin/V2bX";
   "/usr/bin/v2bx"; "/usr/bin/v2bx-bin"; "/bin/V2bX"].
Fixpoint remove_all (l : list string) : shell unit :=
  match l with [] => mret tt | p :: l => do_machine (RemoveAll p);; remove_all l end.
(** What uninstalling does after the question. *)
Definition uninstall : shell unit :=
  '(_, err) ← RunCommandByShell "systemctl stop V2bX&&systemctl disable V2bX";
  match err with
  | Some e => println_all [Red ("exec cmd error: " +:+ e); Red "卸载失败"]
  | None =>
      remove_all installed;;
      '(_, err) ← RunCommandByShell "systemctl daemon-reload&&systemctl reset-failed";
      match err with
      | Some e => println_all [Red ("exec cmd error: " +:+ e); Red "卸载失败"]
      | None => Println (Green "卸载成功")
      end
  end.
(** [yes] is what is typed. *)
Definition uninstallHandle (yes : string) : shell unit :=
  Println (Yellow "确定要卸载 V2bX 吗?(Y/n)");;
  (if decide (ToLower yes = "y") then mret tt else Println (Plain "已取消卸载"));;
  uninstall.

(** ** synctime.go and common/systime *)

Definition SetSystemTime (nowTime : Z) : shell (option string) := on_machine (Settimeofday nowTime).
(** [ntp] is the answer of the time server. *)
Definition synctimeHandle (ntp : result Z) : shell unit :=
  match ntp with
  | Err e => println_all [Red ("get time from server error: " +:+ e); Red "同步时间失败"]
  | Ok t =>
      err ← SetSystemTime t;
      match err with
      | Some e => println_all [Red ("set system time error: " +:+ e); Red "同步时间失败"]
      | None => Println (Green "同步时间成功")
      end
  end.
End commands.

(** * x25519.go *)

Definition and_byte (c : ascii) (m : N) : ascii := ascii_of_N (N.land (N_of_ascii c) m).
Definition or_byte (c : ascii) (m : N) : ascii := ascii_of_N (N.lor (N_of_ascii c) m).

Section x25519.
(** [sha256.Sum256] has 32 bytes; [X25519] of a private key and the base point. *)
Context (Sum256 : list ascii → list ascii) (X25519 : list ascii → result (list ascii)).

Definition GenX25519Private (data : list ascii) : list ascii :=
  let key := Sum256 data in
  let key := alter (λ c, and_byte c 248) 0%nat key in
  let key := alter (λ c, and_byte c 127) 31%nat key in
  let key := alter (λ c, or_byte c 64) 31%nat key in
  take 32 key.
(** The text a key is derived from, out of what is typed. *)
Definition key_text (id typ token : string) : string := id +:+ ToLower typ +:+ token.
(** [rand] fills 32 bytes.  The line that is printed at the end. *)
Definition executeX25519 (yes id typ token : string) (rand : result (list ascii)) : line :=
  match (if decide (ToLower yes = "y") then Ok (GenX25519Private (to_bytes (key_text id typ token))) else rand) with
  | Err e => Red ("read rand error: " +:+ e)
  | Ok privateKey =>
      match X25519 privateKey with
      | Err e => Red ("gen X25519 error: " +:+ e)
      | Ok publicKey =>
          Plain ("Private key: " +:+ RawURLEncoding_EncodeToString privateKey +:+
            of_bytes [byte 10] +:+ "Public key: " +:+ RawURLEncoding_EncodeToString publicKey)
      end
  end.
End x25519.

(** * The status of the machine (common/serverstatus) *)

(** A total and what is used of it. *)
Record usage := MkUsage { us_Total : Z; us_Used : Z }.
Section status.
(** What gopsutil answers: the load of the processors, the memory, the swap, the disk and the
    time the machine is up. *)
Context (cpu_Percent : list spec_float * option string) (VirtualMemory SwapMemory Usage : result usage)
  (Uptime : result Z).

(** One reading that failed. *)
Definition failed (what e : string) : string := "get " +:+ what +:+ " failed: " +:+ e +:+ " ".
Definition used_of (r : result usage) : usage := match r with Ok u => u | Err _ => MkUsage 0 0 end.
Definition complaint {A} (what : string) (r : result A) : string :=
  match r with Ok _ => "" | Err e => failed what e end.
(** Formatting a nil error. *)
Definition nil_error : string := "%!s(<nil>)".
Definition GetSystemStatus : SystemStatus * option string :=
  let cpu := match cpu_Percent with
    | (c :: _, None) => Ok c
    | (_, err) => Err (default nil_error err)
    end in
  let errorString := complaint "cpu usage" cpu +:+ complaint "mem usage" VirtualMemory +:+
    complaint "swap usage" SwapMemory +:+ complaint "disk usage" Usage +:+ complaint "uptime" Uptime in
  (MkSystemStatus (match cpu with Ok c => c | Err _ => S754_zero false end)
     (us_Total (used_of VirtualMemory)) (us_Used (used_of VirtualMemory))
     (us_Total (used_of SwapMemory)) (us_Used (used_of SwapMemory))
     (us_Total (used_of Usage)) (us_Used (used_of Usage))
     (match Uptime with Ok t => t | Err _ => 0 end),
   if decide (errorString = "") then None else Some errorString).
(** The load, the shares of the memory and the disk in percent, and the time up; nothing of
    it when one reading failed. *)
Definition GetSystemInfo : result (spec_float * spec_float * spec_float * Z) :=
  match GetSystemStatus with
  | (_, Some e) => Err e
  | (s, None) => Ok (ss_CPU s, percent (ss_MemUsed s) (ss_MemTotal s),
                     percent (ss_DiskUsed s) (ss_DiskTotal s), ss_Uptime s)
  end.
End status.

(** * Theorems *)

Section appends.
Context {S : Type} {M : Machine S}.

(** The console is only written to: the machine and the value do not depend on it. *)
Definition appends {A} (m : shell S A) : Prop :=
  ∀ s c, m (s, c) = let '(a, (s', l)) := m (s, []) in (a, (s', l ++ c)%list).
Lemma appends_ret {A} (a : A) : appends (mret a).
Proof. done. Qed.
Lemma appends_machine {A} (f : S → A * S) : appends (on_machine f).
Proof. intros s c. unfold on_machine. cbn. by destruct (f s). Qed.
Lemma appends_do (f : S → S) : appends (do_machine f).
Proof. done. Qed.
Lemma appends_println l : appends (Println l).
Proof. done. Qed.
Lemma appends_bind {A B} (m : shell S A) (f : A → shell S B) :
  appends m → (∀ a, appends (f a)) → appends (m ≫= f).
Proof.
  intros Hm Hf s c. unfold mbind, shell_bind. rewrite (Hm s c). destruct (m (s, [])) as [a [s' l]].
  rewrite (Hf a s' (l ++ c)%list), (Hf a s' l). destruct (f a (s', [])) as [b [s'' k]]. by rewrite app_assoc.
Qed.
Lemma appends_println_all l : appends (println_all l).
Proof. induction l; [apply appends_ret|]. apply appends_bind; [apply appends_println|done]. Qed.
Lemma appends_run cmd : appends (RunCommandByShell cmd).
Proof.
  apply appends_bind; [apply appends_machine|]. intros r.
  apply appends_bind; [destruct r; [apply appends_machine|apply appends_ret]|]. intros ?. apply appends_ret.
Qed.
Lemma appends_remove_all l : appends (remove_all l).
Proof. induction l; [apply appends_ret|]. apply appends_bind; [apply appends_do|done]. Qed.
Lemma appends_uninstall : appends uninstall.
Proof.
  apply appends_bind; [apply appends_run|]. intros [_ [e|]]; [apply appends_println_all|].
  apply appends_bind; [apply appends_remove_all|]. intros [].
  apply appends_bind; [apply appends_run|]. intros [_ [e|]]; [apply appends_println_all|apply appends_println].
Qed.
End appends.

(** Refusing to uninstall changes nothing but the console: whatever is answered, the machine
    ends up as it does after "y", with a line more that says the program was not removed. *)
Theorem uninstall_regardless (S : Type) (M : Machine S) (yes : string) (s : S) :
  ToLower yes ≠ "y" →
  let '(_, (s1, l1)) := uninstallHandle yes (s, []) in
  let '(_, (s2, l2)) := uninstallHandle "y" (s, []) in
  s1 = s2 ∧ ∃ rest, l1 = (rest ++ [Plain "已取消卸载"; Yellow "确定要卸载 V2bX 吗?(Y/n)"])%list ∧
    l2 = (rest ++ [Yellow "确定要卸载 V2bX 吗?(Y/n)"])%list.
Proof.
  intros Hy. unfold uninstallHandle, mbind, shell_bind, Println. rewrite decide_False by done.
  rewrite decide_True by reflexivity. cbn [fst snd mret shell_ret].
  rewrite (appends_uninstall s [_; _]), (appends_uninstall s [_]).
  destruct (uninstall (s, [])) as [a [s' l]]. split; [done|]. by exists l.
Qed.

Lemma clamp_low c : byte_val (and_byte c 248) mod 8 = 0.
Proof. by destruct c as [[] [] [] [] [] [] [] []]. Qed.
Lemma clamp_high c : 64 ≤ byte_val (or_byte (and_byte c 127) 64) < 128.
Proof. destruct c as [[] [] [] [] [] [] [] []]; vm_compute; split; congruence. Qed.

(** A private key that is derived from the node is a key of X25519: 32 bytes, a multiple of
    eight, with the highest bit clear and the next one set; every other bit is the one of the
    hash.  The text that is printed decodes back to it, and it depends on the case of nothing
    but the number and the token. *)
Theorem x25519_private (Sum256 : list ascii → list ascii) (id typ token : string) :
  let data := to_bytes (key_text id typ token) in
  let k := GenX25519Private Sum256 data in
  length (Sum256 data) = 32%nat →
  length k = 32%nat ∧
  (∃ a, k !! 0%nat = Some a ∧ byte_val a mod 8 = 0) ∧
  (∃ b, k !! 31%nat = Some b ∧ 64 ≤ byte_val b < 128) ∧
  (∀ i, i ≠ 0%nat → i ≠ 31%nat → k !! i = Sum256 data !! i) ∧
  RawURLEncoding_DecodeString (RawURLEncoding_EncodeToString k) = Some (map byte_val k) ∧
  ∀ typ', ToLower typ' = ToLower typ → GenX25519Private Sum256 (to_bytes (key_text id typ' token)) = k.
Proof.
  intros data k Hlen.
  assert (k = alter (λ c, or_byte c 64) 31%nat (alter (λ c, and_byte c 127) 31%nat
    (alter (λ c, and_byte c 248) 0%nat (Sum256 data)))) as Hk.
  { unfold k, GenX25519Private. by rewrite take_ge by (rewrite !length_alter; lia). }
  assert (∀ i, (i < 32)%nat → is_Some (Sum256 data !! i)) as Hs by (intros; apply lookup_lt_is_Some; lia).
  split_and!.
  - by rewrite Hk, !length_alter.
  - destruct (Hs 0%nat) as [c Hc]; [lia|]. exists (and_byte c 248). split; [|apply clamp_low].
    by rewrite Hk, (list_lookup_alter_ne _ _ 31), (list_lookup_alter_ne _ _ 31), list_lookup_alter_eq, Hc by done.
  - destruct (Hs 31%nat) as [c Hc]; [lia|]. exists (or_byte (and_byte c 127) 64). split; [|apply clamp_high].
    by rewrite Hk, !list_lookup_alter_eq, list_lookup_alter_ne, Hc.
  - intros i H0 H31. by rewrite Hk, !list_lookup_alter_ne.
  - apply RawURLEncoding_round_trip.
  - intros typ' Ht. unfold k, data, key_text. by rewrite Ht.
Qed.

Lemma complaint_empty {A} what (r : result A) : complaint what r = "" ↔ is_ok r = true.
Proof. by destruct r. Qed.
Lemma app_empty s t : s +:+ t = "" ↔ s = "" ∧ t = "".
Proof. destruct s; cbn; split; [by split|by intros [_ ?]|done|by intros [? _]]. Qed.
(** The status is complete exactly when there is no error; each reading that succeeded is
    reported whatever became of the others, while the summary has nothing of it. *)
Lemma status_exact cpu mem swap disk up :
  let '(s, err) := GetSystemStatus cpu mem swap disk up in
  (err = None ↔ cpu.1 ≠ [] ∧ cpu.2 = None ∧ is_ok mem = true ∧ is_ok swap = true ∧ is_ok disk = true ∧ is_ok up = true) ∧
  (∀ u, mem = Ok u → ss_MemTotal s = us_Total u ∧ ss_MemUsed s = us_Used u) ∧
  (∀ u, disk = Ok u → ss_DiskTotal s = us_Total u ∧ ss_DiskUsed s = us_Used u) ∧
  (err ≠ None → is_ok (GetSystemInfo cpu mem swap disk up) = false).
Proof.
  unfold GetSystemInfo. destruct (GetSystemStatus cpu mem swap disk up) as [s err] eqn:E.
  unfold GetSystemStatus in E. injection E as <- <-. split; [|split_and!].
  - set (text := complaint _ _ +:+ _).
    assert ((if decide (text = "") then None else Some text) = None ↔ text = "") as ->
      by (destruct (decide (text = "")); split; [done|done|done|done]).
    unfold text. rewrite !app_empty, !complaint_empty. destruct cpu as [[|c l] [e|]]; cbn; naive_solver.
  - by intros u ->.
  - by intros u ->.
  - by destruct (if decide _ then _ else _).
Qed.

(** * Instances *)

(** A machine that keeps what it is told, newest first. *)
#[local] Instance toy_machine : Machine (list string) := {|
  exec prog args s := (Ran "running" None, (prog +:+ " " +:+ Join args " ") :: s)%list;
  RemoveAll p s := (("rm " +:+ p) :: s)%list;
  Settimeofday t s := (None, s);
  sleep _ s := s
|}.
Lemma uninstall_regardless_witness :
  "rm /etc/V2bX/" ∈ (uninstallHandle "n" ([], [])).2.1.
Proof.
  pose proof (uninstall_regardless (list string) toy_machine "n" [] ltac:(done)) as H.
  destruct (uninstallHandle "n" ([], [])) as [a [s1 l1]].
  assert ("rm /etc/V2bX/" ∈ (uninstallHandle "y" ([], @nil line)).2.1) as Hy by (apply (bool_decide_unpack _); vm_compute; exact I).
  destruct (uninstallHandle "y" ([], [])) as [b [s2 l2]]. destruct H as [-> _]. exact Hy.
Defined.
Lemma x25519_private_witness :
  let k := GenX25519Private (λ _, repeat (byte 255) 32) (to_bytes (key_text "1" "Vless" "t")) in
  length k = 32%nat ∧ k !! 0%nat = Some (byte 248) ∧ k !! 31%nat = Some (byte 127).
Proof.
  split; [|split; reflexivity].
  exact (proj1 (x25519_private (λ _, repeat (byte 255) 32) "1" "Vless" "t" eq_refl)).
Defined.
