(* ===== verification/CommandLine.v ===== *)
(** The commands that only print (cmd/cmd.go, split.go, version.go, action_linux.go), with what
    they print and the status they exit with.

    cobra, which reads the command line, is a library.  The warnings of [copySplitFile] are left
    out. *)
From S2P Require Import Prelude GoStrings Disk Machine Split Commands.
#[local] Open Scope string_scope.
#[local] Open Scope Z_scope.

(** What is written to the standard output and to the error output, and the exit status. *)
Record ran := MkRan { rn_out : list string; rn_err : list string; rn_status : Z }.

(** cmd.go, with what [command.Execute] returned: the entry of the log and the status. *)
Definition Run (execute : option string) : ran :=
  match execute with
  | Some e => MkRan [] ["Execute command failed: " +:+ e] 1
  | None => MkRan [] [] 0
  end.

(** * split.go *)

Section split.
Context {E : OSErrors} {J : SplitJSON}.
Definition splitHandle (splitConfigPath splitOutDir : string) (splitForce : bool) (d : disk) : ran * disk :=
  match runSplit splitConfigPath splitOutDir splitForce d with
  | (Err e, d) => (MkRan [] [e] 1, d)
  | (Ok files, d) =>
      (MkRan
        (map (λ f, sf_Name f +:+ " -> " +:+ sf_Path f) files ++
         [""; "Start one process per node with the systemd template unit:";
          "  systemctl stop V2bX && systemctl disable V2bX"] ++
         map (λ f, "  systemctl enable --now v2bx@" +:+ sf_Name f) files ++
         [""; splitConfigPath +:+ " was not modified: `systemctl enable --now V2bX` switches back."])%list
        [] 0, d)
  end.
End split.

(** * version.go *)

Definition codename : string := "V2bX".
Definition intro : string := "A V2board backend based on multi core".
Definition banner : string := " 
  _/      _/    _/_/    _/        _/      _/   
 _/      _/  _/    _/  _/_/_/      _/  _/      
_/      _/      _/    _/    _/      _/         
 _/  _/      _/      _/    _/    _/  _/        
  _/      _/_/_/_/  _/_/_/    _/      _/        
                                                ".
(** [version] is set when the program is built. *)
Definition showVersion (version : string) (versions : list string) : list string :=
  (banner :: (codename +:+ " " +:+ version +:+ " (" +:+ intro +:+ ") ") :: versions)%list.

(** * The log *)

Section log.
Context {S : Type} {M : Commands.Machine S}.
(** common/exec: the process has the streams of the program, and its error is dropped. *)
Definition RunCommandStd (name : string) (args : list string) : shell S unit :=
  do_machine (λ s, (exec name args s).2).
Definition logHandle : shell S unit :=
  RunCommandStd "journalctl" ["-u"; "V2bX.service"; "-e"; "--no-pager"; "-f"].
End log.
